(* ===== verification/_CoqProject ===== *)
-Q . S2P
Prelude.v
Keys.v
KeyDB.v
LiteLLM.v
World.v
KeyGrant.v
EnvKeys.v
Mint.v
MintSafety.v
Keystore.v
KeyCache.v
Http.v
Authn.v
Precheck.v
BodyTags.v
Proxy.v
Forwarder.v
