(* ===== verification/Prelude.v ===== *)
(** * ACH: credentials and traffic of the Agentic Control Hub

    ACH stands between developers, agents and a LiteLLM proxy.  It issues two
    kinds of bearer: personal keys (pk-, a user signed in through SSO) and
    environment keys (ek-, an agent acting as its owner inside one
    Environment), mints a LiteLLM virtual key behind each of them, resolves
    presented bearers on every service, and forwards model, MCP and A2A
    traffic to LiteLLM under the caller's own virtual key, with budget tags
    and an identity token of its own.  This library models that path from the
    source and proves what it promises.

    ** The parts of the program and the files that model them

    Names below are files and functions under src/internal unless said
    otherwise; every definition carries the Go name where Rocq allows it.

    - [Prelude]: Go's (value, error) pairs, instants and durations, the string
      functions of package strings, the tactics and hint databases.
    - [Keys] (keys/keys.go): the bearer and key-id grammars, the generator
      with its redraw loop, the strict classifier, base64url, [PeekAudience].
    - [KeyDB] (db/environment_keys.go, ek_resolve.go, personal_keys.go,
      check_extend.go, oauth_pk.go, ...): one function per SQL statement over
      the two credential tables, [EkDB] and [PkDB], each with the fault
      PostgreSQL may answer with; the row invariants and the lifecycle
      relation they preserve.
    - [LiteLLM] (litellm/): its error kinds, the calls ACH makes as a class,
      the team lookups, a lawful fake as an instance and an outage instance.
    - [World]: what a platform-api handler runs in.  The monad [M] threads the
      database, LiteLLM, a clock and a trace of events; at every external
      interaction the [Env] chooses the clock, the fault and what other
      replicas did to the database, so a theorem over every [Env] covers every
      interleaving and failure.  [runs] is the inversion of programs, and
      [ek_progress] the step invariant every handler satisfies.
    - [KeyGrant] (keygrant/, db/key_grants.go): which grants cover an exchange
      key, the least budget, and the projection plan of the operator.
    - [EnvKeys] (platformapi/envkeys/handler.go, suspend.go, budget.go,
      revoke_personal.go): suspend, resume, budget and revoke handlers.
    - [Mint] and [MintSafety] (platformapi/envkeys/handler.go, exchange.go):
      key creation with its compensation paths, key exchange, and [serve], any
      sequence of requests of a replica.
    - [Keystore] (keystore/): the resolver chain (Postgres, OAuth JWT,
      exchange JWT, trusted IdP) and the liveness check.
    - [KeyCache] (keystore/keystore.go, teamsresolver.go): the Redis layers;
      [Fills] is the step relation of concurrent fills, late SETs, lost DELs.
    - [Http]: http.Header with canonical keys, requests, bodies as each decoder
      sees them, and the header pipeline of httputil.ReverseProxy.
    - [Authn] (platformapi/middleware): credential slots, the middleware in
      front of every service, the console cookie and its CSRF check.
    - [Precheck] (forwarder/envstore, bipcache, precheck, proxy/groups.go): the
      in-memory projections and the per-target authorization.
    - [BodyTags] (forwarder/proxy/bodytags.go): stripping client budget tags.
    - [Proxy] (forwarder/proxy/proxy.go, headers.go, tags.go, gemini.go,
      forwarder/jwt/signer.go): the Director and the identity token's claims.
    - [Forwarder] (forwarder/server.go, proxy/handlers.go, gate.go): Authn, the
      owner gate and the route families composed, request to upstream request.

    The files call each other as the packages do: the handlers of [EnvKeys]
    and [Mint] run the statements of [KeyDB] and the class of [LiteLLM] inside
    [World]; [Keystore] reads the same tables; [Authn] takes any resolver and
    [Forwarder] composes it with [Precheck], [BodyTags] and [Proxy].  LiteLLM
    is an interface (the class [LiteLLM]); handler theorems are proved against
    it, some of them with named laws, and discharged by the fake.

    ** What the theorems show

    - Lifecycle.  Every statement, and every sequence of requests, preserves
      the table invariant and moves rows only along active, suspended, revoked;
      revoked is final; resolution returns exactly the live row; a personal
      key's window only grows and never passes 90 days.
    - Issuing.  No branch of mint strands a LiteLLM key: each one generated is
      stored, or its deletion is requested of LiteLLM; a returned bearer
      resolves; refusals create nothing; exchange issues only under a
      covering grant, with the least budget.
    - Revoking.  LiteLLM acknowledges before the row flips; a 204 is final; a
      cached resolution is gone 60 s, plus the delay of a SET in flight, after
      the revocation, in any interleaving.
    - Authenticating.  The chain accepts a bearer only as a live credential;
      Authn passes a request for one of four reasons only; a lone ACH key never
      passes it.
    - Forwarding.  What reaches a named target was authenticated, gated and
      pre-checked for that name; the token's claims and groups are exact; tags,
      keys and Authorization that leave are ACH's choice under any spelling and
      any Connection header; no body carries client tags; one Gemini request
      addresses one model; the projections mirror their tables.
    - Divergences.  Some theorems prove behaviour that the code's own comments
      deny (an HTTP body containing 404 read as not-found, a retry that
      mislabels a key's metadata, an ACH key that does leave in Authorization).

    ** Modelling choices, bounds and fuel

    Instants and durations are nanoseconds in Z; one clock per replica is
    read at every tick (skew between replicas is the [Env]'s choice of
    readings); the cache theorem has the SET delay as a parameter.  float64
    budgets are exact integers of the smallest unit and only compared.
    Strings are byte strings; lower-casing is ASCII.  SQL ORDER BY is byte
    order.  Go's unspecified map order is any permutation.  The generator's
    redraw loop has fuel equal to the entropy draws supplied: the theorem shows
    it ends as soon as one draw is acceptable, and starvation is an explicit
    result.  No other function has fuel.  HTTP decoding of a request into its
    fields, JSON texts as trees, JWS signing and verification, AES-GCM, chi's
    routing, Kubernetes TokenReview and Python's JSON parser are inputs or
    parameters; the hypotheses put on them are named where they are used.
    Log lines and metrics are not modelled; audit records are trace events.

    ** What is not modelled yet, in the order planned

    The OAuth server of platform-api (refresh chains, device flow, console
    sessions), key listings and effective state, the service-account key-set
    cache, KeyWatch and the response rewrites of the forwarder, the sealed-blob
    format, content-service authorization and path containment, tar safety,
    the operator's Environment reconciler and finalizer drain, the orphan
    sweeper, and ach-cli's merge and state file.  The web console, Helm chart,
    migrations, generated deep-copy code and process wiring are out of scope. *)

From Stdlib Require Export ZArith Lia ZifyNat ZifyN Ascii Sorted.
From stdpp Require Export base gmap sets strings option list.

Declare Scope ach_scope.
Delimit Scope ach_scope with ach.

Create HintDb ach.
Create Rewrite HintDb ach_rw.

(** ** Errors as values *)

(** Go's [(T, error)] pair, where exactly one side is meaningful. *)
Inductive Res (E A : Type) : Type :=
| Ok (a : A)
| Err (e : E).
Arguments Ok {E A} a.
Arguments Err {E A} e.

Definition is_ok {E A} (r : Res E A) : bool :=
  match r with Ok _ => true | Err _ => false end.

#[global] Instance Res_eq_dec {E A} `{EqDecision E, EqDecision A} : EqDecision (Res E A).
Proof. solve_decision. Defined.

(** ** Time: instants and durations in nanoseconds *)

Definition Second : Z := 1000000000.
Definition Minute : Z := 60 * Second.
Definition Hour : Z := 60 * Minute.
Definition Day : Z := 24 * Hour.

(** ** Go string helpers *)

Definition chars (s : string) : list ascii := String.list_ascii_of_string s.
Definition of_chars (l : list ascii) : string := String.string_of_list_ascii l.

(** [strings.HasPrefix(s, p)]. *)
Definition HasPrefix (s p : string) : bool := String.prefix p s.

(** [strings.CutPrefix(s, p)], the remainder when [p] is a prefix. *)
Fixpoint CutPrefix (s p : string) {struct p} : option string :=
  match p, s with
  | EmptyString, _ => Some s
  | String c p', String d s' => if decide (c = d) then CutPrefix s' p' else None
  | String _ _, EmptyString => None
  end.

(** [strings.Count(s, c)] for a one-byte separator. *)
Fixpoint CountByte (c : ascii) (s : string) : nat :=
  match s with
  | EmptyString => 0
  | String d s' => (if decide (c = d) then 1 else 0) + CountByte c s'
  end.

(** [strings.Split(s, c)] for a one-byte separator: never empty. *)
Fixpoint SplitByte (c : ascii) (s : string) : list string :=
  match s with
  | EmptyString => [EmptyString]
  | String d s' =>
      if decide (c = d) then EmptyString :: SplitByte c s'
      else match SplitByte c s' with
           | [] => [String d EmptyString]
           | h :: t => String d h :: t
           end
  end.

(** [strings.Cut(s, c)] for a one-byte separator. *)
Fixpoint CutByte (c : ascii) (s : string) : option (string * string) :=
  match s with
  | EmptyString => None
  | String d s' =>
      if decide (c = d) then Some (EmptyString, s')
      else match CutByte c s' with
           | Some (a, b) => Some (String d a, b)
           | None => None
           end
  end.

(** [strings.TrimRight(s, c)] for a one-byte cutset. *)
Fixpoint TrimRightByte (c : ascii) (s : string) : string :=
  match s with
  | EmptyString => EmptyString
  | String d s' =>
      match TrimRightByte c s' with
      | EmptyString => if decide (c = d) then EmptyString else String d EmptyString
      | t => String d t
      end
  end.

(** Lower-casing of the ASCII letters, [strings.ToLower] on ASCII input. *)
Definition lower_byte (c : ascii) : ascii :=
  let n := N_of_ascii c in
  if ((65 <=? n) && (n <=? 90))%N then ascii_of_N (n + 32) else c.

Definition ToLower (s : string) : string := of_chars (lower_byte <$> chars s).

(** Go's [<] on strings: byte-wise lexicographic order. *)
Fixpoint str_ltb (a b : string) : bool :=
  match a, b with
  | EmptyString, String _ _ => true
  | String x a', String y b' =>
      if decide (x = y) then str_ltb a' b' else (N_of_ascii x <? N_of_ascii y)%N
  | _, EmptyString => false
  end.

(** [slices.Contains]. *)
Definition Contains (l : list string) (x : string) : bool := bool_decide (x ∈ l).

(** ** Generic lemmas *)

Lemma HasPrefix_CutPrefix s p : HasPrefix s p = true <-> exists r, CutPrefix s p = Some r.
Proof.
  revert s; induction p as [|c p IH]; intros s; unfold HasPrefix in *; cbn.
  - split; [eauto|]. by destruct s.
  - destruct s as [|d s]; cbn; [split; [done|by intros [? [=]]]|].
    destruct (ascii_dec c d), (decide (c = d)); try done. split; [done|by intros [? [=]]].
Qed.

Lemma CutPrefix_Some s p r : CutPrefix s p = Some r <-> s = p +:+ r.
Proof.
  revert s; induction p as [|c p IH]; intros s; cbn [CutPrefix].
  - split; [by intros [= ->]|by intros ->].
  - destruct s as [|d s]; [by split|].
    change (String c p +:+ r) with (String c (p +:+ r)).
    case_decide; [subst; rewrite IH|]; split; congruence.
Qed.

Lemma HasPrefix_spec s p : HasPrefix s p = true <-> exists r, s = p +:+ r.
Proof.
  rewrite HasPrefix_CutPrefix. setoid_rewrite CutPrefix_Some. done.
Qed.

Lemma Contains_spec l x : Contains l x = true <-> x ∈ l.
Proof. apply bool_decide_eq_true. Qed.

Lemma Contains_false l x : Contains l x = false <-> x ∉ l.
Proof. apply bool_decide_eq_false. Qed.

Lemma SplitByte_nonempty c s : SplitByte c s <> [].
Proof. destruct s; cbn; [done|]. case_decide; [done|]. by destruct (SplitByte c s). Qed.

Lemma SplitByte_length c s : length (SplitByte c s) = S (CountByte c s).
Proof.
  induction s as [|d s IH]; cbn; [done|]. case_decide; cbn; [by rewrite IH|].
  destruct (SplitByte c s) eqn:E; [by apply SplitByte_nonempty in E|]. cbn in *. lia.
Qed.

Lemma chars_of_chars l : chars (of_chars l) = l.
Proof. apply String.list_ascii_of_string_of_list_ascii. Qed.

Lemma of_chars_chars s : of_chars (chars s) = s.
Proof. apply String.string_of_list_ascii_of_string. Qed.

Lemma chars_app a b : chars (a +:+ b) = chars a ++ chars b.
Proof. induction a as [|c a IH]; [done|]. apply (f_equal (cons c) IH). Qed.

Lemma str_app_assoc a b c : (a +:+ b) +:+ c = a +:+ (b +:+ c).
Proof. induction a as [|x a IH]; [done|]. apply (f_equal (String x) IH). Qed.

Lemma length_chars s : length (chars s) = String.length s.
Proof. induction s; cbn; [done|]. by f_equal. Qed.

Lemma str_ltb_irrefl a : str_ltb a a = false.
Proof. induction a; cbn; [done|]. by case_decide. Qed.

Lemma str_ltb_trans a b c : str_ltb a b = true -> str_ltb b c = true -> str_ltb a c = true.
Proof.
  revert b c; induction a as [|x a IH]; intros [|y b] [|z c]; cbn; try done.
  repeat case_decide; subst; rewrite ?N.ltb_lt; eauto; intros; try lia; try congruence.
Qed.

Lemma str_ltb_total a b : str_ltb a b = false -> str_ltb b a = false -> a = b.
Proof.
  revert b; induction a as [|x a IH]; intros [|y b]; cbn; try done.
  repeat case_decide; subst; try congruence.
  - intros. f_equal. eauto.
  - rewrite !N.ltb_ge. intros. assert (E : N_of_ascii x = N_of_ascii y) by lia.
    apply (f_equal ascii_of_N) in E. by rewrite !ascii_N_embedding in E.
Qed.

(** ** Development tactics *)

(** Case on the scrutinee of every visible match, closing contradictions. *)
Ltac split_matches :=
  repeat (case_match; simplify_eq/=; try done).

#[export] Hint Rewrite Contains_spec Contains_false chars_of_chars of_chars_chars chars_app : ach_rw.
