(* ===== verification/Keys.v ===== *)
(** * Bearer credentials and key identifiers (internal/keys)

    [NewBearer] draws 48 random bytes until their base64url text does not
    start with a separator, [NewKeyID] lower-cases a ULID, [ClassifyBearer]
    is the strict parser the resolver dispatches on, [LooksLikeJWS] and
    [PeekAudience] route the compact-JWS bearers.  The standard library's
    base64.RawURLEncoding is modelled bit by bit; crypto/rand is the list of
    draws the call sees, the ULID library and encoding/json are arguments. *)

From S2P Require Import Prelude.

Open Scope string_scope.
Open Scope list_scope.

(** ** base64.RawURLEncoding *)
Module Base64.

(** Alphabet of RFC 4648 section 5: A-Z a-z 0-9 - _ *)
Definition enc_char (i : N) : ascii :=
  ascii_of_N
    (if i <? 26 then i + 65
     else if i <? 52 then i + 71
     else if i <? 62 then i - 4
     else if i =? 62 then 45
     else 95)%N.

Definition dec_char (c : ascii) : option N :=
  let n := N_of_ascii c in
  (if (65 <=? n) && (n <=? 90) then Some (n - 65)
   else if (97 <=? n) && (n <=? 122) then Some (n - 71)
   else if (48 <=? n) && (n <=? 57) then Some (n + 4)
   else if n =? 45 then Some 62
   else if n =? 95 then Some 63
   else None)%N.

Definition b (c : ascii) : N := N_of_ascii c.

(** [EncodeToString]: three bytes become four characters, no padding. *)
Fixpoint encode (l : list ascii) : list ascii :=
  match l with
  | [] => []
  | [x] => [enc_char (b x / 4); enc_char (b x mod 4 * 16)]
  | [x; y] =>
      [enc_char (b x / 4); enc_char (b x mod 4 * 16 + b y / 16); enc_char (b y mod 16 * 4)]
  | x :: y :: z :: r =>
      enc_char (b x / 4) :: enc_char (b x mod 4 * 16 + b y / 16)
        :: enc_char (b y mod 16 * 4 + b z / 64) :: enc_char (b z mod 64) :: encode r
  end%N.

(** [DecodeString] once carriage returns and newlines are skipped. The
    decoder is not strict: the unused low bits of the last character are
    ignored, and a lone trailing character is an error. *)
Fixpoint decode_core (l : list ascii) : option (list ascii) :=
  match l with
  | [] => Some []
  | [_] => None
  | [x; y] =>
      i ← dec_char x; j ← dec_char y;
      Some [ascii_of_N (i * 4 + j / 16)]
  | [x; y; z] =>
      i ← dec_char x; j ← dec_char y; k ← dec_char z;
      Some [ascii_of_N (i * 4 + j / 16); ascii_of_N (j mod 16 * 16 + k / 4)]
  | x :: y :: z :: t :: r =>
      i ← dec_char x; j ← dec_char y; k ← dec_char z; h ← dec_char t;
      rest ← decode_core r;
      Some (ascii_of_N (i * 4 + j / 16) :: ascii_of_N (j mod 16 * 16 + k / 4)
              :: ascii_of_N (k mod 4 * 64 + h) :: rest)
  end%N.

Definition is_newline (c : ascii) : bool :=
  ((N_of_ascii c =? 10) || (N_of_ascii c =? 13))%N.

Definition decode (l : list ascii) : option (list ascii) :=
  decode_core (List.filter (fun c => negb (is_newline c)) l).

Lemma b_lt c : (b c < 256)%N.
Proof. apply N_ascii_bounded. Qed.

Lemma dec_enc_char i : (i < 64)%N -> dec_char (enc_char i) = Some i.
Proof.
  intros Hi. unfold dec_char, enc_char.
  rewrite N_ascii_embedding by (repeat case_match; lia).
  repeat case_match; try reflexivity; rewrite ?andb_true_iff, ?andb_false_iff, ?N.eqb_eq,
    ?N.eqb_neq, ?N.leb_le, ?N.leb_gt, ?N.ltb_lt, ?N.ltb_ge in *; try (f_equal; lia); lia.
Qed.

Lemma enc_char_not_newline i : (i < 64)%N -> is_newline (enc_char i) = false.
Proof.
  intros Hi. unfold is_newline, enc_char.
  rewrite N_ascii_embedding by (repeat case_match; lia).
  repeat case_match; rewrite ?orb_false_iff, ?N.eqb_neq, ?N.eqb_eq, ?N.ltb_lt, ?N.ltb_ge in *; lia.
Qed.

(** Induction three bytes at a time, the recursion of [encode]. *)
Lemma triple_ind (P : list ascii -> Prop) :
  P [] -> (forall x, P [x]) -> (forall x y, P [x; y]) ->
  (forall x y z r, P r -> P (x :: y :: z :: r)) -> forall l, P l.
Proof.
  intros H0 H1 H2 H3. fix IH 1. intros [|x [|y [|z r]]]; [exact H0|apply H1|apply H2|].
  apply H3, IH.
Qed.

Local Ltac Zify.zify_post_hook ::= Z.to_euclidean_division_equations.

(** The six-bit groups [encode] writes are below 64. *)
Lemma sextets x y z :
  (b x / 4 < 64 /\ b x mod 4 * 16 + b y / 16 < 64
   /\ b y mod 16 * 4 + b z / 64 < 64 /\ b z mod 64 < 64
   /\ b x mod 4 * 16 < 64 /\ b y mod 16 * 4 < 64)%N.
Proof. pose proof (b_lt x). pose proof (b_lt y). pose proof (b_lt z). lia. Qed.

Lemma length_encode l : (length (encode l) = (4 * length l + 2) / 3)%nat.
Proof.
  induction l as [| | |x y z r IH] using triple_ind; [done..|].
  cbn [encode length]. rewrite IH. lia.
Qed.

Lemma encode_alphabet l : Forall (fun c => is_Some (dec_char c) /\ is_newline c = false) (encode l).
Proof.
  induction l as [|x|x y|x y z r IH] using triple_ind; cbn [encode];
    repeat (constructor; [split;
      [rewrite dec_enc_char by (first [apply (sextets x x x)|apply (sextets x y y)|apply (sextets x y z)]); eauto
      |apply enc_char_not_newline; first [apply (sextets x x x)|apply (sextets x y y)|apply (sextets x y z)]]|]); done.
Qed.

(** Reassembling the bytes from the groups [encode] wrote. *)
Lemma join1 x j : (j / 16 = b x mod 4)%N -> ascii_of_N (b x / 4 * 4 + j / 16) = x.
Proof. intros ->. rewrite <-(ascii_N_embedding x) at 3. f_equal. unfold b. lia. Qed.

Lemma join2 y j k :
  (j mod 16 = b y / 16 -> k / 4 = b y mod 16 -> ascii_of_N (j mod 16 * 16 + k / 4) = y)%N.
Proof. intros -> ->. rewrite <-(ascii_N_embedding y) at 3. f_equal. unfold b. lia. Qed.

Lemma join3 z k : (k mod 4 = b z / 64 -> ascii_of_N (k mod 4 * 64 + b z mod 64) = z)%N.
Proof. intros ->. rewrite <-(ascii_N_embedding z) at 3. f_equal. unfold b. lia. Qed.

Lemma decode_core_encode l : decode_core (encode l) = Some l.
Proof.
  induction l as [|x|x y|x y z r IH] using triple_ind; [done|..]; cbn [encode decode_core].
  - pose proof (sextets x x x). pose proof (b_lt x).
    rewrite !dec_enc_char by lia. cbn [mbind option_bind]. rewrite (join1 x) by lia. done.
  - pose proof (sextets x y y). pose proof (b_lt x). pose proof (b_lt y).
    rewrite !dec_enc_char by lia. cbn [mbind option_bind]. rewrite (join1 x), (join2 y) by lia. done.
  - pose proof (sextets x y z). pose proof (b_lt x). pose proof (b_lt y). pose proof (b_lt z).
    rewrite !dec_enc_char by lia. rewrite IH. cbn [mbind option_bind].
    rewrite (join1 x), (join2 y), (join3 z) by lia. done.
Qed.

Lemma filter_encode l : List.filter (fun c => negb (is_newline c)) (encode l) = encode l.
Proof.
  pose proof (encode_alphabet l) as H. induction H as [|c r [_ Hc] _ IH]; [done|].
  cbn [List.filter]. by rewrite Hc, IH.
Qed.

Lemma decode_encode l : decode (encode l) = Some l.
Proof. unfold decode. rewrite filter_encode. apply decode_core_encode. Qed.

End Base64.

(** ** internal/keys *)
Module Keys.

Definition PkBearerPrefix : string := "pk-".
Definition EkBearerPrefix : string := "ek-".
Definition PkidKeyIDPrefix : string := "pkid_".
Definition EkidKeyIDPrefix : string := "ekid_".

Definition bearerSuffixLen : nat := 64.

(** The Go newtype is a string; only [PrefixPk] and [PrefixEk] are well formed. *)
Definition BearerPrefix : Type := string.
Definition PrefixPk : BearerPrefix := PkBearerPrefix.
Definition PrefixEk : BearerPrefix := EkBearerPrefix.

Definition KeyIDPrefix : Type := string.
Definition PrefixPkid : KeyIDPrefix := PkidKeyIDPrefix.
Definition PrefixEkid : KeyIDPrefix := EkidKeyIDPrefix.

#[global] Instance BearerPrefix_eq_dec : EqDecision BearerPrefix := _ : EqDecision string.

Inductive KeysErr : Type := ErrInvalidPrefix | ErrInvalidBearer | ErrRand.

(** One pass of the redraw loop: a suffix starting with '-' or '_' is
    thrown away. *)
Definition redraw (suffix : list ascii) : bool :=
  match suffix with
  | c :: _ => bool_decide (c = "-"%char) || bool_decide (c = "_"%char)
  | [] => false
  end.

(** The [for] loop of [NewBearer] on the successive results of rand.Read
    ([None] is a failed read). The outer option is [None] while every draw
    seen so far was thrown away. *)
Fixpoint bearer_loop (prefix : BearerPrefix) (draws : list (option (list ascii)))
    : option (Res KeysErr string) :=
  match draws with
  | [] => None
  | None :: _ => Some (Err ErrRand)
  | Some bytes :: rest =>
      let suffix := Base64.encode bytes in
      if redraw suffix then bearer_loop prefix rest
      else Some (Ok (prefix +:+ of_chars suffix))
  end.

Definition NewBearer (draws : list (option (list ascii))) (prefix : BearerPrefix)
    : option (Res KeysErr string) :=
  if bool_decide (prefix <> PrefixPk) && bool_decide (prefix <> PrefixEk)
  then Some (Err ErrInvalidPrefix)
  else bearer_loop prefix draws.

(** [NewKeyID]; [ulid] is the text ulid.Make().String() returned. *)
Definition NewKeyID (ulid : string) (prefix : KeyIDPrefix) : Res KeysErr string :=
  if bool_decide (prefix <> PrefixPkid) && bool_decide (prefix <> PrefixEkid)
  then Err ErrInvalidPrefix
  else Ok (prefix +:+ ToLower ulid).

(** [isBase64URL] on one byte. *)
Definition isBase64URL (c : ascii) : bool :=
  let n := N_of_ascii c in
  ((65 <=? n) && (n <=? 90) || (97 <=? n) && (n <=? 122)
   || (48 <=? n) && (n <=? 57) || (n =? 45) || (n =? 95))%N.

Definition ClassifyBearer (s : string) : Res KeysErr BearerPrefix :=
  let fullLen := (3 + bearerSuffixLen)%nat in
  if negb (String.length s =? fullLen)%nat then Err ErrInvalidBearer
  else
    let k prefix :=
      if forallb isBase64URL (drop 3 (chars s)) then Ok prefix else Err ErrInvalidBearer in
    if HasPrefix s PkBearerPrefix then k PrefixPk
    else if HasPrefix s EkBearerPrefix then k PrefixEk
    else Err ErrInvalidBearer.

Definition LooksLikeJWS (s : string) : bool :=
  (CountByte "."%char s =? 2)%nat && negb (HasPrefix s "sk-").

(** What encoding/json finds under "aud" in the decoded payload: nothing,
    null, a string, a list of strings (null entries decode to the empty
    string), or something that decodes to neither. *)
Inductive AudClaim : Type :=
| AudAbsent
| AudNull
| AudOne (s : string)
| AudMany (l : list string)
| AudOther.

(** [PeekAudience]; [unmarshal] is json.Unmarshal of the payload object,
    [None] when the payload is not one. A null claim decodes into the string
    variable without error and leaves it empty. *)
Definition PeekAudience (unmarshal : list ascii -> option AudClaim) (raw : string) : list string :=
  match SplitByte "."%char raw with
  | [_; payload; _] =>
      match Base64.decode (chars payload) with
      | None => []
      | Some bytes =>
          match unmarshal bytes with
          | Some (AudOne s) => [s]
          | Some AudNull => [EmptyString]
          | Some (AudMany l) => l
          | _ => []
          end
      end
  | _ => []
  end.

(** *** The bearer grammar *)

Definition bearer_grammar (p : BearerPrefix) (s : string) : Prop :=
  exists suffix, s = p +:+ of_chars suffix
    /\ length suffix = bearerSuffixLen /\ Forall (fun c => isBase64URL c = true) suffix.

Lemma isBase64URL_dec_char c : isBase64URL c = true <-> is_Some (Base64.dec_char c).
Proof.
  unfold isBase64URL, Base64.dec_char. repeat case_match; cbn; rewrite ?orb_true_r; split; intros; eauto; try done.
  all: destruct_or?; by inversion H.
Qed.

Lemma chars_inj s t : chars s = chars t -> s = t.
Proof. intros H. by rewrite <-(of_chars_chars s), H, of_chars_chars. Qed.

Lemma length_app_string a b : String.length (a +:+ b) = (String.length a + String.length b)%nat.
Proof. by rewrite <-!length_chars, chars_app, length_app. Qed.

Lemma drop_prefix p r : drop (String.length p) (chars (p +:+ r)) = chars r.
Proof. rewrite chars_app, drop_app_length'; [done|]. by rewrite length_chars. Qed.

Lemma classify_k p (s : string) (suffix : list ascii) :
  String.length p = 3%nat -> s = p +:+ of_chars suffix ->
  (String.length s =? 67)%nat = (length suffix =? 64)%nat /\ drop 3 (chars s) = suffix.
Proof.
  intros Hp ->. split.
  - rewrite length_app_string, Hp, <-length_chars, chars_of_chars.
    destruct (length suffix =? 64)%nat eqn:E; [apply Nat.eqb_eq in E; by rewrite E|].
    apply Nat.eqb_neq in E. apply Nat.eqb_neq. lia.
  - rewrite <-Hp, drop_prefix. apply chars_of_chars.
Qed.

Lemma classify_prefix q s :
  HasPrefix s q = true -> String.length q = 3%nat -> String.length s = 67%nat ->
  forallb isBase64URL (drop 3 (chars s)) = true -> bearer_grammar q s.
Proof.
  intros Hq Hl L Hf. apply HasPrefix_spec in Hq as [r ->].
  exists (chars r). rewrite of_chars_chars. split; [done|].
  destruct (classify_k q (q +:+ r) (chars r) Hl) as [HL HD]; [by rewrite of_chars_chars|].
  apply Nat.eqb_eq in L. rewrite HL in L. apply Nat.eqb_eq in L. split; [done|].
  rewrite HD in Hf. by apply List.Forall_forall, forallb_forall.
Qed.

Lemma ClassifyBearer_Ok p s :
  ClassifyBearer s = Ok p <-> (p = PrefixPk \/ p = PrefixEk) /\ bearer_grammar p s.
Proof.
  unfold ClassifyBearer. change (3 + bearerSuffixLen)%nat with 67%nat. split.
  - intros H. destruct (String.length s =? 67)%nat eqn:L; cbn [negb] in H; [|done].
    apply Nat.eqb_eq in L.
    destruct (HasPrefix s PkBearerPrefix) eqn:E1; [|destruct (HasPrefix s EkBearerPrefix) eqn:E2; [|done]];
      destruct (forallb _ _) eqn:F; simplify_eq; auto using classify_prefix.
  - intros [Hp (suffix & Hs & Hl & Hf)].
    assert (Hp3 : String.length p = 3%nat) by (by destruct Hp as [->| ->]).
    destruct (classify_k p s suffix Hp3 Hs) as [HL HD].
    rewrite HL, HD, Hl. cbn [negb bearerSuffixLen Nat.eqb].
    assert (HF : forallb isBase64URL suffix = true).
    { by apply forallb_forall, List.Forall_forall. }
    rewrite HF. destruct Hp as [-> | ->]; subst s.
    + by rewrite (proj2 (HasPrefix_spec _ PkBearerPrefix)) by eauto.
    + change (HasPrefix (PrefixEk +:+ of_chars suffix) PkBearerPrefix) with false.
      by rewrite (proj2 (HasPrefix_spec _ EkBearerPrefix)) by eauto.
Qed.

(** *** Properties *)

Definition valid_draw (d : option (list ascii)) : Prop :=
  forall bytes, d = Some bytes -> length bytes = 48%nat.

(** The first character is a separator exactly when the first byte is at
    least 248: 1 draw in 32. *)
Lemma redraw_first_byte x l : redraw (Base64.encode (x :: l)) = (248 <=? N_of_ascii x)%N.
Proof.
  assert (E : exists t, Base64.encode (x :: l) = Base64.enc_char (Base64.b x / 4) :: t)
    by (destruct l as [|y [|z r]]; cbn; eauto).
  destruct E as [t ->]. cbn.
  by destruct x as [[] [] [] [] [] [] [] []].
Qed.

Lemma bearer_loop_Ok p draws s :
  bearer_loop p draws = Some (Ok s) ->
  exists bytes, Some bytes ∈ draws /\ redraw (Base64.encode bytes) = false
    /\ s = p +:+ of_chars (Base64.encode bytes).
Proof.
  induction draws as [|[bytes|] r IH]; cbn; [done| |done].
  destruct (redraw _) eqn:E.
  - intros (b & ? & ? & ?)%IH. exists b. split; [by right|]. done.
  - intros [= <-]. exists bytes. split; [by left|]. done.
Qed.

Lemma encode48_grammar p bytes :
  length bytes = 48%nat -> bearer_grammar p (p +:+ of_chars (Base64.encode bytes)).
Proof.
  intros L. exists (Base64.encode bytes). split; [done|]. split.
  - rewrite Base64.length_encode, L. done.
  - eapply List.Forall_impl; [|apply Base64.encode_alphabet].
    intros c [H _]. by apply isBase64URL_dec_char.
Qed.

(** C32: every bearer NewBearer mints from 48-byte draws is accepted by
    ClassifyBearer with the prefix it was minted for, and its suffix never
    starts with a separator. *)
Theorem NewBearer_classifies p draws s
    (Hlen : Forall valid_draw draws) (Hnew : NewBearer draws p = Some (Ok s)) :
  ClassifyBearer s = Ok p /\ redraw (drop 3 (chars s)) = false.
Proof.
  unfold NewBearer in Hnew. destruct (_ && _) eqn:Hp; [done|].
  apply bearer_loop_Ok in Hnew as (bytes & Hin & Hr & ->).
  assert (Hp' : p = PrefixPk \/ p = PrefixEk).
  { apply andb_false_iff in Hp as [H|H]; apply bool_decide_eq_false, dec_stable in H; auto. }
  eapply Forall_forall in Hlen; [|exact Hin]. specialize (Hlen bytes eq_refl).
  split; [by apply ClassifyBearer_Ok; auto using encode48_grammar|].
  assert (H3 : String.length p = 3%nat) by (by destruct Hp' as [->| ->]).
  by rewrite <-H3, drop_prefix, chars_of_chars.
Qed.

Lemma NewBearer_classifies_witness :
  ClassifyBearer ("ek-" +:+ of_chars (Base64.encode (replicate 48 "a"%char))) = Ok PrefixEk
  /\ redraw (drop 3 (chars ("ek-" +:+ of_chars (Base64.encode (replicate 48 "a"%char))))) = false.
Proof.
  apply (NewBearer_classifies PrefixEk
           [Some (replicate 48 "255"%char); Some (replicate 48 "a"%char)]); [|reflexivity].
  repeat constructor; intros ? [= <-]; reflexivity.
Defined.

(** C33: the redraw loop terminates with a key as soon as one draw starts
    with a byte below 248; an entropy failure before that is the only error
    a well-formed prefix can get. *)
Theorem NewBearer_terminates p skipped bytes x rest
    (Hp : p = PrefixPk \/ p = PrefixEk)
    (Hskip : Forall (fun d => exists y l, d = Some (y :: l) /\ (248 <= N_of_ascii y)%N) skipped)
    (Hgood : (N_of_ascii x < 248)%N) :
  NewBearer (skipped ++ Some (x :: bytes) :: rest) p
    = Some (Ok (p +:+ of_chars (Base64.encode (x :: bytes))))
  /\ NewBearer (skipped ++ None :: rest) p = Some (Err ErrRand).
Proof.
  assert (E : forall d, NewBearer d p = bearer_loop p d).
  { intros d. unfold NewBearer. by destruct Hp as [->| ->]. }
  rewrite !E. induction Hskip as [|d r (y & l & -> & Hy) _ IH]; cbn [app bearer_loop].
  - rewrite redraw_first_byte. rewrite (proj2 (N.leb_gt _ _)) by done. done.
  - rewrite redraw_first_byte, (proj2 (N.leb_le _ _)) by done. exact IH.
Qed.

Lemma NewBearer_terminates_witness :
  NewBearer [Some ["255"%char]; Some ["a"%char]] PrefixPk
    = Some (Ok (PrefixPk +:+ of_chars (Base64.encode ["a"%char])))
  /\ NewBearer [Some ["255"%char]; None] PrefixPk = Some (Err ErrRand).
Proof.
  apply (NewBearer_terminates PrefixPk [Some ["255"%char]] [] "a"%char []); [by left| |reflexivity].
  constructor; [|constructor]. exists "255"%char, []. split; [reflexivity|]. vm_compute. discriminate.
Defined.

Lemma CountByte_no_dot (l : list ascii) :
  Forall (fun c => isBase64URL c = true) l -> CountByte "."%char (of_chars l) = 0%nat.
Proof.
  induction 1 as [|c r Hc _ IH]; [done|].
  change (of_chars (c :: r)) with (String c (of_chars r)). cbn [CountByte].
  case_decide; [by subst c|]. by rewrite IH.
Qed.

Lemma CountByte_app c a b : CountByte c (a +:+ b) = (CountByte c a + CountByte c b)%nat.
Proof.
  induction a as [|d a IH]; [done|].
  change (String d a +:+ b) with (String d (a +:+ b)). cbn [CountByte]. rewrite IH. lia.
Qed.

(** C34: the three credential shapes the resolver chain dispatches on are
    disjoint: an accepted pk-/ek- bearer never looks like a compact JWS, and
    a key_id (pkid_/ekid_, whatever the ULID) is never accepted as a bearer. *)
Theorem credential_shapes_disjoint :
  (forall s p, ClassifyBearer s = Ok p -> LooksLikeJWS s = false)
  /\ (forall ulid p id, NewKeyID ulid p = Ok id -> ClassifyBearer id = Err ErrInvalidBearer).
Proof.
  split.
  - intros s p [Hp (suffix & -> & _ & Hf)]%ClassifyBearer_Ok.
    unfold LooksLikeJWS. rewrite CountByte_app, CountByte_no_dot by done.
    by destruct Hp as [->| ->].
  - intros ulid p id. unfold NewKeyID. destruct (_ && _) eqn:Hp; [done|]. intros [= <-].
    assert (Hp' : p = PrefixPkid \/ p = PrefixEkid).
    { apply andb_false_iff in Hp as [H|H]; apply bool_decide_eq_false, dec_stable in H; auto. }
    unfold ClassifyBearer. destruct (negb _); [done|]. by destruct Hp' as [->| ->].
Qed.

End Keys.
