(* ===== verification/KeyDB.v ===== *)
(** * The credential tables and their SQL (internal/db)

    environment_keys, personal_keys, user_limits and key_grants as finite
    maps over their primary keys, one definition per helper of internal/db
    that reads or writes them.  Each helper takes the statement's now() and a
    [Fault] saying whether the server failed before or after the statement
    took effect (an acknowledgement can be lost), and returns Go's
    [(value, error)] with the table it leaves.  UNIQUE, CHECK and partial
    unique indexes of db/migrations are enforced by the inserts. *)

From S2P Require Import Prelude Keys.

Open Scope string_scope.
Open Scope list_scope.

(** ** Errors of the driver *)

(** A server error carries a SQLSTATE and a constraint name; anything else
    (a closed connection, a cancelled context) does not. *)
Inductive PgErr : Type :=
| PgError (Code ConstraintName : string)
| OtherErr.

(** What a helper returns: transient classes raw, the rest wrapped with the
    helper's name. errors.As sees through the wrapping. *)
Inductive DbErr : Type :=
| DbRaw (e : PgErr)
| DbWrapped (op : string) (e : PgErr).

#[global] Instance PgErr_eq_dec : EqDecision PgErr.
Proof. solve_decision. Defined.
#[global] Instance DbErr_eq_dec : EqDecision DbErr.
Proof. solve_decision. Defined.

Definition pg_of (e : DbErr) : PgErr := match e with DbRaw e | DbWrapped _ e => e end.

Definition isTransientPgErr (err : PgErr) : bool :=
  match err with
  | OtherErr => false
  | PgError code _ =>
      if (String.length code <? 2)%nat then false
      else let class := of_chars (take 2 (chars code)) in
           bool_decide (class = "08") || bool_decide (class = "57")
  end.

Definition wrap (op : string) (e : PgErr) : DbErr :=
  if isTransientPgErr e then DbRaw e else DbWrapped op e.

(** How the server treats one statement. *)
Inductive Fault : Type :=
| NoFault
| FailBefore (e : PgErr)
| FailAfter (e : PgErr).

(** Run a statement under a fault: [FailAfter] commits and loses the answer. *)
Definition with_fault {A T} (op : string) (f : Fault) (run : Res PgErr A * T) (t : T)
    : Res DbErr A * T :=
  match f, run with
  | FailBefore e, _ => (Err (wrap op e), t)
  | FailAfter e, (_, t') => (Err (wrap op e), t')
  | NoFault, (Ok a, t') => (Ok a, t')
  | NoFault, (Err e, t') => (Err (wrap op e), t')
  end.

Lemma with_fault_table {A T} (P : T -> Prop) op f (run : Res PgErr A * T) (t : T) :
  P t -> P run.2 -> P (with_fault op f run t).2.
Proof. by destruct f, run as [[] ?]. Qed.

Lemma with_fault_Ok {A T} op f (run : Res PgErr A * T) (t t' : T) a :
  with_fault op f run t = (Ok a, t') -> f = NoFault /\ run = (Ok a, t').
Proof. destruct f, run as [[] ?]; cbn; intros; simplify_eq; done. Qed.

(** ** Row status *)
Inductive KeyStatus : Type :=
| statusActive | statusSuspended | statusRevoked | statusExpired | statusInvalid.

#[global] Instance KeyStatus_eq_dec : EqDecision KeyStatus.
Proof. solve_decision. Defined.

(** last_used_at = CASE WHEN NULL or older than five minutes THEN now(). *)
Definition debounce (now : Z) (last : option Z) : bool :=
  match last with None => true | Some l => (l <? now - 5 * Minute)%Z end.

(** ** environment_keys *)
Module EkDB.

Record EkRow : Type := MkEkRow {
  er_key_id : string;
  er_credential_hash : string;
  er_environment : string;
  er_owner_email : string;
  er_name : string;
  er_status : KeyStatus;
  er_litellm_user_id : option string;
  er_litellm_token : option string;
  er_litellm_key_material : option string;
  er_created_at : Z;
  er_last_used_at : option Z;
  er_revoked_at : option Z;
  er_expires_at : option Z;
  er_issued_via : string;
  er_requester : option string
}.

Abbreviation EkTable := (gmap string EkRow).

(** The Go struct the helpers return; columns a statement does not select
    keep their zero value. *)
Record EkKeyInfo : Type := MkEkKeyInfo {
  ek_KeyID : string;
  ek_CredentialHash : string;
  ek_Environment : string;
  ek_OwnerEmail : string;
  ek_Name : string;
  ek_LiteLLMUserID : option string;
  ek_LiteLLMToken : option string;
  ek_LiteLLMKeyMaterial : option string;
  ek_Status : option KeyStatus;
  ek_CreatedAt : option Z;
  ek_LastUsedAt : option Z;
  ek_RevokedAt : option Z;
  ek_ExpiresAt : option Z;
  ek_Requester : string
}.

Definition set_status (s : KeyStatus) (rev : option Z) (r : EkRow) : EkRow :=
  MkEkRow (er_key_id r) (er_credential_hash r) (er_environment r) (er_owner_email r) (er_name r)
    s (er_litellm_user_id r) (er_litellm_token r) (er_litellm_key_material r)
    (er_created_at r) (er_last_used_at r) rev (er_expires_at r) (er_issued_via r) (er_requester r).

Definition set_last_used (l : option Z) (r : EkRow) : EkRow :=
  MkEkRow (er_key_id r) (er_credential_hash r) (er_environment r) (er_owner_email r) (er_name r)
    (er_status r) (er_litellm_user_id r) (er_litellm_token r) (er_litellm_key_material r)
    (er_created_at r) l (er_revoked_at r) (er_expires_at r) (er_issued_via r) (er_requester r).

(** Columns of GetEnvironmentKey; [requester] is COALESCEd to ''. *)
Definition get_cols (r : EkRow) : EkKeyInfo :=
  MkEkKeyInfo (er_key_id r) (er_credential_hash r) (er_environment r) (er_owner_email r) (er_name r)
    (er_litellm_user_id r) (er_litellm_token r) None
    (Some (er_status r)) (Some (er_created_at r)) (er_last_used_at r) (er_revoked_at r)
    (er_expires_at r) (default "" (er_requester r)).

(** Columns of [ekReturning] (the status flips). *)
Definition flip_cols (r : EkRow) : EkKeyInfo :=
  MkEkKeyInfo (er_key_id r) (er_credential_hash r) (er_environment r) (er_owner_email r) (er_name r)
    (er_litellm_user_id r) (er_litellm_token r) None
    (Some (er_status r)) (Some (er_created_at r)) (er_last_used_at r) (er_revoked_at r)
    (er_expires_at r) "".

(** Columns of EkResolve. *)
Definition resolve_cols (r : EkRow) : EkKeyInfo :=
  MkEkKeyInfo (er_key_id r) "" (er_environment r) (er_owner_email r) (er_name r)
    (er_litellm_user_id r) (er_litellm_token r) (er_litellm_key_material r)
    None None None None (er_expires_at r) "".

(** Columns of ExchangeKeyResolve: EkResolve's plus the requester. *)
Definition xresolve_cols (r : EkRow) : EkKeyInfo :=
  MkEkKeyInfo (er_key_id r) "" (er_environment r) (er_owner_email r) (er_name r)
    (er_litellm_user_id r) (er_litellm_token r) (er_litellm_key_material r)
    None None None None (er_expires_at r) (default "" (er_requester r)).

(** Columns of ListExchangeKeys. *)
Definition xlist_cols (r : EkRow) : EkKeyInfo :=
  MkEkKeyInfo (er_key_id r) "" (er_environment r) (er_owner_email r) ""
    None (er_litellm_token r) None None None None None None (default "" (er_requester r)).

Record EkInsertRow : Type := MkEkInsertRow {
  ei_KeyID : string;
  ei_CredentialHash : string;
  ei_Environment : string;
  ei_OwnerEmail : string;
  ei_Name : string;
  ei_LiteLLMUserID : option string;
  ei_LiteLLMToken : option string;
  ei_LiteLLMKeyMaterial : option string;
  ei_ExpiresAt : option Z;
  ei_IssuedVia : string;
  ei_Requester : option string
}.

Definition ExchangeTupleConstraint : string := "environment_keys_exchange_tuple_uniq".
Definition EkPkey : string := "environment_keys_pkey".

(** The row the INSERT builds: 'active', created now, an empty IssuedVia is
    'manual' (cmp.Or). *)
Definition insert_row (now : Z) (r : EkInsertRow) : EkRow :=
  MkEkRow (ei_KeyID r) (ei_CredentialHash r) (ei_Environment r) (ei_OwnerEmail r) (ei_Name r)
    statusActive (ei_LiteLLMUserID r) (ei_LiteLLMToken r) (ei_LiteLLMKeyMaterial r)
    now None None (ei_ExpiresAt r)
    (if bool_decide (ei_IssuedVia r = "") then "manual" else ei_IssuedVia r) (ei_Requester r).

(** key_id LIKE 'ekid_%': the underscore of LIKE matches any one character. *)
Definition like_ekid (s : string) : bool := HasPrefix s "ekid" && (5 <=? String.length s)%nat.

Definition exchange_live (r : EkRow) : bool :=
  bool_decide (er_issued_via r = "exchange") && bool_decide (er_status r <> statusRevoked).

Definition same_tuple (r r' : EkRow) : bool :=
  bool_decide (er_owner_email r = er_owner_email r' /\ er_environment r = er_environment r'
               /\ er_requester r = er_requester r').

Definition some_row (P : EkRow -> bool) (t : EkTable) : bool :=
  existsb (fun kr => P kr.2) (map_to_list t).

(** The first row satisfying a predicate (WHERE on a unique column). *)
Definition select1 (P : EkRow -> bool) (t : EkTable) : option (string * EkRow) :=
  head (List.filter (fun kr => P kr.2) (map_to_list t)).

(** The constraints an inserted row meets, in the order CHECKs then unique
    indexes; the first violation is the error. *)
Definition insert_stmt (r : EkRow) (t : EkTable) : Res PgErr unit * EkTable :=
  if negb (like_ekid (er_key_id r)) then (Err (PgError "23514" "environment_keys_key_id_prefix"), t)
  else if negb (bool_decide (er_issued_via r = "manual" \/ er_issued_via r = "exchange"))
  then (Err (PgError "23514" "environment_keys_issued_via_enum"), t)
  else if negb (Bool.eqb (bool_decide (er_issued_via r = "exchange")) (bool_decide (is_Some (er_requester r))))
  then (Err (PgError "23514" "environment_keys_requester_chk"), t)
  else if bool_decide (is_Some (t !! er_key_id r)) then (Err (PgError "23505" EkPkey), t)
  else if some_row (fun r' => bool_decide (er_credential_hash r' = er_credential_hash r)) t
  then (Err (PgError "23505" "environment_keys_credential_hash_key"), t)
  else if exchange_live r && some_row (fun r' => exchange_live r' && same_tuple r r') t
  then (Err (PgError "23505" ExchangeTupleConstraint), t)
  else (Ok tt, <[er_key_id r := r]> t).

Definition InsertEnvironmentKey (f : Fault) (now : Z) (row : EkInsertRow) (t : EkTable)
    : Res DbErr unit * EkTable :=
  with_fault "InsertEnvironmentKey" f (insert_stmt (insert_row now row) t) t.

Definition GetEnvironmentKey (f : Fault) (keyID : string) (t : EkTable)
    : Res DbErr (option EkKeyInfo) * EkTable :=
  with_fault "GetEnvironmentKey" f (Ok (get_cols <$> t !! keyID), t) t.

(** UPDATE ... WHERE key_id = $1 AND pred RETURNING [ekReturning]. *)
Definition flip_stmt (pred : EkRow -> bool) (upd : EkRow -> EkRow) (keyID : string) (t : EkTable)
    : Res PgErr (option EkKeyInfo) * EkTable :=
  match t !! keyID with
  | Some r => if pred r then (Ok (Some (flip_cols (upd r))), <[keyID := upd r]> t) else (Ok None, t)
  | None => (Ok None, t)
  end.

Definition flipEnvironmentKey (f : Fault) (op : string) (pred : EkRow -> bool)
    (upd : EkRow -> EkRow) (keyID : string) (t : EkTable)
    : Res DbErr (option EkKeyInfo) * EkTable :=
  with_fault op f (flip_stmt pred upd keyID t) t.

Definition not_expired (now : Z) (e : option Z) : bool :=
  match e with None => true | Some x => (now <? x)%Z end.

Definition RevokeEnvironmentKey (f : Fault) (now : Z) (keyID : string) (t : EkTable) :=
  flipEnvironmentKey f "RevokeEnvironmentKey"
    (fun r => bool_decide (er_status r <> statusRevoked))
    (set_status statusRevoked (Some now)) keyID t.

Definition SuspendEnvironmentKey (f : Fault) (keyID : string) (t : EkTable) :=
  flipEnvironmentKey f "SuspendEnvironmentKey"
    (fun r => bool_decide (er_status r = statusActive))
    (fun r => set_status statusSuspended (er_revoked_at r) r) keyID t.

Definition ResumeEnvironmentKey (f : Fault) (now : Z) (keyID : string) (t : EkTable) :=
  flipEnvironmentKey f "ResumeEnvironmentKey"
    (fun r => bool_decide (er_status r = statusSuspended) && not_expired now (er_expires_at r))
    (fun r => set_status statusActive (er_revoked_at r) r) keyID t.

(** Touch the debounced last_used_at of the row a resolve matched. *)
Definition touch (now : Z) (r : EkRow) : EkRow :=
  set_last_used (if debounce now (er_last_used_at r) then Some now else er_last_used_at r) r.

Definition ek_live (now : Z) (r : EkRow) : bool :=
  bool_decide (er_status r = statusActive) && not_expired now (er_expires_at r).

Definition resolve_stmt (now : Z) (P : EkRow -> bool) (cols : EkRow -> EkKeyInfo) (t : EkTable)
    : Res PgErr (option EkKeyInfo) * EkTable :=
  match select1 (fun r => P r && ek_live now r) t with
  | Some (k, r) => (Ok (Some (cols (touch now r))), <[k := touch now r]> t)
  | None => (Ok None, t)
  end.

Definition EkResolve (f : Fault) (now : Z) (credentialHashHex : string) (t : EkTable) :=
  with_fault "EkResolve" f
    (resolve_stmt now (fun r => bool_decide (er_credential_hash r = credentialHashHex)) resolve_cols t) t.

Definition ExchangeKeyResolve (f : Fault) (now : Z) (keyID : string) (t : EkTable) :=
  with_fault "ExchangeKeyResolve" f
    (resolve_stmt now (fun r => bool_decide (er_key_id r = keyID)
                                && bool_decide (er_issued_via r = "exchange")) xresolve_cols t) t.

Definition FindExchangeKey (f : Fault) (owner environment requester : string) (t : EkTable)
    : Res DbErr (option EkKeyInfo) * EkTable :=
  with_fault "FindExchangeKey" f
    (Ok ((fun kr => get_cols kr.2) <$>
         select1 (fun r => exchange_live r
                    && bool_decide (er_owner_email r = owner /\ er_environment r = environment
                                    /\ er_requester r = Some requester)) t), t) t.

(** ORDER BY key_id: map_to_list of the live exchange rows, sorted. *)
Fixpoint insert_by {A} (key : A -> string) (x : A) (l : list A) : list A :=
  match l with
  | [] => [x]
  | y :: r => if str_ltb (key y) (key x) then y :: insert_by key x r else x :: y :: r
  end.
Definition sort_by {A} (key : A -> string) (l : list A) : list A := foldr (insert_by key) [] l.

Definition rows_where (P : EkRow -> bool) (t : EkTable) : list EkRow :=
  List.filter P (map snd (map_to_list t)).

Definition ListExchangeKeys (f : Fault) (t : EkTable) : Res DbErr (list EkKeyInfo) * EkTable :=
  with_fault "ListExchangeKeys" f
    (Ok (xlist_cols <$> sort_by er_key_id (rows_where exchange_live t)), t) t.

(** Non-revoked rows of an Environment that hold a LiteLLM token. *)
Definition ListEnvironmentKeysForRevoke (f : Fault) (environment : string) (t : EkTable)
    : Res DbErr (list (string * string)) * EkTable :=
  with_fault "ListEnvironmentKeysForRevoke" f
    (Ok (omap (fun r => tok ← er_litellm_token r; Some (er_key_id r, tok))
           (rows_where (fun r => bool_decide (er_environment r = environment)
                                 && bool_decide (er_status r <> statusRevoked)) t)), t) t.

(** DrainEnvironmentKeysSQL and CountUndrainedEnvironmentKeysSQL. *)
Definition undrained (environment : string) (r : EkRow) : bool :=
  bool_decide (er_environment r = environment) && bool_decide (er_status r <> statusRevoked).

Definition DrainEnvironmentKeysSQL (now : Z) (environment : string) (t : EkTable) : EkTable :=
  (fun r => if undrained environment r then set_status statusRevoked (Some now) r else r) <$> t.

Definition CountUndrainedEnvironmentKeysSQL (environment : string) (t : EkTable) : nat :=
  length (rows_where (undrained environment) t).

(** *** The key life cycle *)

(** Every statement that can change the table. *)
Inductive EkOp : Type :=
| OpInsert (f : Fault) (now : Z) (row : EkInsertRow)
| OpRevoke (f : Fault) (now : Z) (keyID : string)
| OpSuspend (f : Fault) (keyID : string)
| OpResume (f : Fault) (now : Z) (keyID : string)
| OpEkResolve (f : Fault) (now : Z) (hash : string)
| OpExchangeResolve (f : Fault) (now : Z) (keyID : string)
| OpDrain (now : Z) (environment : string).

Definition run_op (o : EkOp) (t : EkTable) : EkTable :=
  match o with
  | OpInsert f now row => (InsertEnvironmentKey f now row t).2
  | OpRevoke f now k => (RevokeEnvironmentKey f now k t).2
  | OpSuspend f k => (SuspendEnvironmentKey f k t).2
  | OpResume f now k => (ResumeEnvironmentKey f now k t).2
  | OpEkResolve f now h => (EkResolve f now h t).2
  | OpExchangeResolve f now k => (ExchangeKeyResolve f now k t).2
  | OpDrain now env => DrainEnvironmentKeysSQL now env t
  end.

Definition run_ops (l : list EkOp) (t : EkTable) : EkTable := foldl (flip run_op) t l.

(** The transitions one row can make. *)
Inductive row_step (r : EkRow) : EkRow -> Prop :=
| rs_same : row_step r r
| rs_touch now : er_status r = statusActive -> row_step r (touch now r)
| rs_revoke now : er_status r <> statusRevoked -> row_step r (set_status statusRevoked (Some now) r)
| rs_suspend : er_status r = statusActive ->
    row_step r (set_status statusSuspended (er_revoked_at r) r)
| rs_resume : er_status r = statusSuspended ->
    row_step r (set_status statusActive (er_revoked_at r) r).

(** One statement either inserts a row that meets the constraints or moves
    each existing row along the life cycle; nothing is ever deleted. *)
Inductive table_step (t : EkTable) : EkTable -> Prop :=
| ts_insert r t' : er_status r = statusActive -> er_revoked_at r = None ->
    insert_stmt r t = (Ok tt, t') -> table_step t t'
| ts_rows t' : (forall k, option_Forall2 row_step (t !! k) (t' !! k)) -> table_step t t'.

Record ek_wf (t : EkTable) : Prop := {
  wf_key : forall k r, t !! k = Some r -> er_key_id r = k /\ like_ekid k = true;
  wf_hash : forall k1 k2 r1 r2, t !! k1 = Some r1 -> t !! k2 = Some r2 ->
    er_credential_hash r1 = er_credential_hash r2 -> k1 = k2;
  wf_status : forall k r, t !! k = Some r ->
    er_status r = statusActive \/ er_status r = statusSuspended \/ er_status r = statusRevoked;
  wf_revoked : forall k r, t !! k = Some r ->
    (er_status r = statusRevoked <-> is_Some (er_revoked_at r));
  wf_requester : forall k r, t !! k = Some r ->
    (er_issued_via r = "exchange" <-> is_Some (er_requester r));
  wf_tuple : forall k1 k2 r1 r2, t !! k1 = Some r1 -> t !! k2 = Some r2 ->
    exchange_live r1 = true -> exchange_live r2 = true -> same_tuple r1 r2 = true -> k1 = k2
}.

(** *** Lemmas on the statements *)

Lemma same_rows t : table_step t t.
Proof. apply ts_rows. intros k. destruct (t !! k); repeat constructor. Qed.

Lemma update_row_step k r r' (t : EkTable) :
  t !! k = Some r -> row_step r r' -> table_step t (<[k := r']> t).
Proof.
  intros Hk Hs. apply ts_rows. intros j. destruct (decide (k = j)) as [<-|].
  - rewrite lookup_insert_eq, Hk. by constructor.
  - rewrite lookup_insert_ne by done. destruct (t !! j); repeat constructor.
Qed.

#[local] Hint Resolve same_rows update_row_step : ach.
#[local] Hint Constructors row_step : ach.

Lemma flip_step pred upd k t :
  (forall r, pred r = true -> row_step r (upd r)) -> table_step t (flip_stmt pred upd k t).2.
Proof.
  intros H. unfold flip_stmt. destruct (t !! k) as [r|] eqn:E; [|apply same_rows].
  destruct (pred r) eqn:Hp; cbn; eauto with ach.
Qed.

Lemma select1_Some P (t : EkTable) k r : select1 P t = Some (k, r) -> t !! k = Some r /\ P r = true.
Proof.
  unfold select1. intros H. apply head_Some_elem_of, list_elem_of_In, List.filter_In in H as [H1 H2].
  split; [|done]. by apply elem_of_map_to_list, list_elem_of_In.
Qed.

Lemma select1_None P (t : EkTable) k r : select1 P t = None -> t !! k = Some r -> P r = false.
Proof.
  unfold select1. intros H Hk. destruct (P r) eqn:E; [|done]. exfalso.
  assert (Hin : In (k, r) (List.filter (fun kr => P kr.2) (map_to_list t))).
  { apply List.filter_In. split; [|done]. by apply list_elem_of_In, elem_of_map_to_list. }
  by destruct (List.filter _ _).
Qed.

(** A WHERE that at most one row meets selects that row. *)
Lemma select1_unique P (t : EkTable) k r :
  t !! k = Some r -> P r = true ->
  (forall k' r', t !! k' = Some r' -> P r' = true -> k' = k) -> select1 P t = Some (k, r).
Proof.
  intros Hk HP Hu. destruct (select1 P t) as [[k' r']|] eqn:E.
  - apply select1_Some in E as [Hk' HP']. rewrite (Hu k' r') in *; [congruence|done..].
  - by rewrite (select1_None _ _ _ _ E Hk) in HP.
Qed.

Lemma resolve_step now P cols t : table_step t (resolve_stmt now P cols t).2.
Proof.
  unfold resolve_stmt. destruct (select1 _ t) as [[k r]|] eqn:E; [|apply same_rows]. cbn.
  apply select1_Some in E as [Hk HP]. apply andb_true_iff in HP as [_ HP].
  apply andb_true_iff in HP as [HP%bool_decide_eq_true _]. eauto with ach.
Qed.

Lemma run_op_step o t : table_step t (run_op o t).
Proof.
  destruct o; cbn [run_op];
    try (apply (with_fault_table (table_step t)); [apply same_rows|]);
    try apply resolve_step;
    try (apply flip_step; intros r H; repeat (apply andb_true_iff in H as [H _]);
         apply bool_decide_eq_true in H; eauto with ach).
  - destruct (insert_stmt (insert_row now row) t) as [[[]|e] t'] eqn:E;
      [by eapply ts_insert; [..|exact E]|].
    replace t' with t by (unfold insert_stmt in E; split_matches). apply same_rows.
  - apply ts_rows. intros k. unfold DrainEnvironmentKeysSQL. rewrite lookup_fmap.
    destruct (t !! k) as [r|]; cbn; constructor. unfold undrained. repeat case_bool_decide; cbn; auto with ach.
Qed.

(** What an accepted INSERT guarantees. *)
Lemma insert_stmt_Ok r t t' :
  insert_stmt r t = (Ok tt, t') ->
  t' = <[er_key_id r := r]> t /\ like_ekid (er_key_id r) = true
  /\ (er_issued_via r = "exchange" <-> is_Some (er_requester r))
  /\ t !! er_key_id r = None
  /\ (forall k r', t !! k = Some r' -> er_credential_hash r' <> er_credential_hash r)
  /\ (exchange_live r = true -> forall k r', t !! k = Some r' ->
        exchange_live r' = true -> same_tuple r r' = false).
Proof.
  unfold insert_stmt.
  destruct (like_ekid _) eqn:E1; cbn [negb]; [|done].
  destruct (bool_decide (_ \/ _)) eqn:E2; cbn [negb]; [|done].
  destruct (Bool.eqb _ _) eqn:E3; cbn [negb]; [|done].
  destruct (bool_decide (is_Some (t !! _))) eqn:E4; [done|].
  destruct (some_row _ t) eqn:E5; [done|].
  destruct (_ && _) eqn:E6; [done|].
  intros [= <-]. split_and!; try done.
  - apply Bool.eqb_prop in E3. split; intros H.
    + rewrite bool_decide_eq_true_2 in E3 by done. symmetry in E3. by apply bool_decide_eq_true_1 in E3.
    + rewrite (bool_decide_eq_true_2 (is_Some _)) in E3 by done. by apply bool_decide_eq_true_1 in E3.
  - apply bool_decide_eq_false in E4. by apply eq_None_not_Some.
  - intros k r' Hk Heq. unfold some_row in E5. apply not_true_iff_false in E5. apply E5.
    apply existsb_exists. exists (k, r'). split; [by apply list_elem_of_In, elem_of_map_to_list|].
    by apply bool_decide_eq_true_2.
  - intros Hl k r' Hk Hl'. rewrite Hl in E6. cbn in E6. unfold some_row in E6.
    destruct (same_tuple r r') eqn:E; [|done]. exfalso. apply not_true_iff_false in E6. apply E6.
    apply existsb_exists. exists (k, r'). split; [by apply list_elem_of_In, elem_of_map_to_list|].
    cbn. by rewrite Hl', E.
Qed.

(** The columns no transition touches. *)
Definition identity_cols (r : EkRow) :=
  (er_key_id r, er_credential_hash r, er_environment r, er_owner_email r, er_name r,
   er_litellm_token r, er_litellm_key_material r, er_expires_at r, er_issued_via r, er_requester r,
   er_created_at r, er_litellm_user_id r).

Lemma row_step_identity r r' : row_step r r' -> identity_cols r' = identity_cols r.
Proof. by inversion 1. Qed.

Lemma row_step_revoked r r' : row_step r r' -> er_status r = statusRevoked -> r' = r.
Proof. inversion 1; intros; congruence. Qed.

Lemma row_step_live r r' : row_step r r' -> exchange_live r' = true -> exchange_live r = true.
Proof.
  unfold exchange_live. intros Hs H. destruct Hs; cbn in *; try done;
    apply andb_true_iff in H as [H1 H2]; rewrite H1; cbn; rewrite bool_decide_eq_true in *; congruence.
Qed.

Lemma same_tuple_identity r1 r1' r2 r2' :
  identity_cols r1' = identity_cols r1 -> identity_cols r2' = identity_cols r2 ->
  same_tuple r1' r2' = same_tuple r1 r2.
Proof.
  unfold identity_cols, same_tuple. intros H1 H2. apply bool_decide_ext.
  injection H1 as ????????????. injection H2 as ????????????. intuition congruence.
Qed.

Lemma same_tuple_sym r1 r2 : same_tuple r1 r2 = same_tuple r2 r1.
Proof. unfold same_tuple. apply bool_decide_ext. intuition congruence. Qed.

Lemma rows_back (t t' : EkTable) k r' :
  (forall k, option_Forall2 row_step (t !! k) (t' !! k)) -> t' !! k = Some r' ->
  exists r, t !! k = Some r /\ row_step r r'.
Proof. intros H Hk. specialize (H k). rewrite Hk in H. inversion H; subst; eauto. Qed.

Lemma insert_wf r t t' :
  er_status r = statusActive -> er_revoked_at r = None ->
  insert_stmt r t = (Ok tt, t') -> ek_wf t -> ek_wf t'.
Proof.
  intros Ha Hr (-> & Hlike & Hreq & Hfresh & Hhash & Htup)%insert_stmt_Ok Hwf.
  assert (Hcase : forall k r', <[er_key_id r := r]> t !! k = Some r' ->
            (k = er_key_id r /\ r' = r) \/ (k <> er_key_id r /\ t !! k = Some r')).
  { intros k r'. rewrite lookup_insert. case_decide; [intros [= <-]|]; auto. }
  split.
  - intros k r' [[-> ->]|[_ H]]%Hcase; [done|by apply (wf_key t Hwf)].
  - intros k1 k2 r1 r2 [[-> ->]|[_ H1]]%Hcase [[-> ->]|[_ H2]]%Hcase E; [done| | |by eapply (wf_hash t Hwf)].
    + by destruct (Hhash _ _ H2).
    + by destruct (Hhash _ _ H1).
  - intros k r' [[-> ->]|[_ H]]%Hcase; [by left|by eapply (wf_status t Hwf)].
  - intros k r' [[-> ->]|[_ H]]%Hcase; [|by eapply (wf_revoked t Hwf)].
    rewrite Ha, Hr. split; [done|]. by intros [? ?].
  - intros k r' [[-> ->]|[_ H]]%Hcase; [done|by eapply (wf_requester t Hwf)].
  - intros k1 k2 r1 r2 [[-> ->]|[_ H1]]%Hcase [[-> ->]|[_ H2]]%Hcase L1 L2 T; [done| | |by eapply (wf_tuple t Hwf)].
    + by rewrite (Htup L1 _ _ H2 L2) in T.
    + by rewrite same_tuple_sym, (Htup L2 _ _ H1 L1) in T.
Qed.

Lemma rows_wf (t t' : EkTable) :
  (forall k, option_Forall2 row_step (t !! k) (t' !! k)) -> ek_wf t -> ek_wf t'.
Proof.
  intros Hrows Hwf.
  assert (B : forall k r', t' !! k = Some r' -> exists r, t !! k = Some r /\ row_step r r')
    by (intros; by eapply rows_back).
  split.
  - intros k r' (r & Hk & Hs)%B. apply row_step_identity in Hs. unfold identity_cols in Hs.
    simplify_eq. destruct (wf_key t Hwf k r Hk). split; congruence.
  - intros k1 k2 r1 r2 (q1 & H1 & S1)%B (q2 & H2 & S2)%B E.
    apply row_step_identity in S1, S2. unfold identity_cols in *. simplify_eq.
    eapply (wf_hash t Hwf); eauto; congruence.
  - intros k r' (r & Hk & Hs)%B. pose proof (wf_status t Hwf k r Hk). destruct Hs; cbn; auto.
  - intros k r' (r & Hk & Hs)%B. pose proof (wf_revoked t Hwf k r Hk) as W.
    destruct Hs; cbn; try done; split; try done; try congruence; intros; exfalso;
      rewrite <-W in *; congruence.
  - intros k r' (r & Hk & Hs)%B. apply row_step_identity in Hs. unfold identity_cols in Hs.
    simplify_eq. pose proof (wf_requester t Hwf k r Hk). congruence.
  - intros k1 k2 r1 r2 (q1 & H1 & S1)%B (q2 & H2 & S2)%B L1 L2 T.
    eapply (wf_tuple t Hwf k1 k2 q1 q2); eauto using row_step_live.
    rewrite <-T. symmetry. apply same_tuple_identity; by apply row_step_identity.
Qed.

Lemma table_step_wf t t' : table_step t t' -> ek_wf t -> ek_wf t'.
Proof. destruct 1; eauto using insert_wf, rows_wf. Qed.

Lemma table_step_row (t t' : EkTable) k r :
  table_step t t' -> t !! k = Some r -> exists r', t' !! k = Some r' /\ row_step r r'.
Proof.
  intros [q t'' _ _ (-> & _ & _ & Hf & _)%insert_stmt_Ok|t'' H] Hk.
  - exists r. split; [|constructor]. rewrite lookup_insert_ne; [done|congruence].
  - specialize (H k). rewrite Hk in H. inversion H; subst; eauto.
Qed.

Lemma empty_wf : ek_wf ∅.
Proof. split; intros *; by rewrite !lookup_empty. Qed.

(** *** Properties *)

(** C9: every sequence of the package's statements, with any server faults
    between them, keeps the table's integrity: rows sit under their own ekid
    key, credential hashes are unique, a row is revoked exactly when it has a
    revoked_at, the requester column is set exactly on exchange keys, and at
    most one non-revoked exchange key exists per (owner, environment,
    requester). *)
Theorem ek_statements_preserve_wf ops t (Hwf : ek_wf t) : ek_wf (run_ops ops t).
Proof.
  revert t Hwf. induction ops as [|o ops IH]; intros t Hwf; [done|].
  apply IH. eapply table_step_wf; [apply run_op_step|done].
Qed.

Lemma ek_statements_preserve_wf_witness :
  ek_wf (run_ops [OpInsert NoFault 0 (MkEkInsertRow "ekid_1" "h1" "env" "a@b" "n" None None None None "" None);
                  OpSuspend NoFault "ekid_1"; OpResume NoFault 1 "ekid_1"] ∅).
Proof. apply ek_statements_preserve_wf. apply empty_wf. Defined.

(** C27: revocation is terminal and rows are permanent: whatever statements
    run afterwards, a revoked row is still there, unchanged in every column,
    and a row in any state keeps its identity columns. *)
Theorem revoked_row_is_final ops (t : EkTable) k r (Hk : t !! k = Some r) :
  (er_status r = statusRevoked -> run_ops ops t !! k = Some r)
  /\ exists r', run_ops ops t !! k = Some r' /\ identity_cols r' = identity_cols r.
Proof.
  revert t r Hk. induction ops as [|o ops IH]; intros t r Hk; [eauto|].
  destruct (table_step_row _ _ _ _ (run_op_step o t) Hk) as (r1 & Hk1 & Hs).
  destruct (IH _ _ Hk1) as [IH1 (r2 & IH2 & IH3)]. split.
  - intros Hr. pose proof (row_step_revoked _ _ Hs Hr) as ->. by apply IH1.
  - exists r2. split; [done|]. rewrite IH3. by apply row_step_identity.
Qed.

Definition w_row : EkRow :=
  MkEkRow "ekid_1" "h1" "env" "a@b" "n" statusRevoked None None None 0 None (Some 1%Z) None "manual" None.

Lemma revoked_row_is_final_witness :
  run_ops [OpResume NoFault 5 "ekid_1"; OpEkResolve NoFault 6 "h1"] {["ekid_1" := w_row]} !! "ekid_1" = Some w_row.
Proof. apply (revoked_row_is_final _ _ "ekid_1" w_row); reflexivity. Defined.

(** C28: EkResolve authenticates exactly the row that holds the hash, exactly
    while it is active and unexpired, touching only its debounced
    last_used_at; a suspended, revoked, expired or unknown credential all get
    the same (nil, nil) and leave the table alone. *)
Theorem EkResolve_exact now h t (Hwf : ek_wf t) :
  (forall k r, t !! k = Some r -> er_credential_hash r = h ->
     EkResolve NoFault now h t =
       if ek_live now r then (Ok (Some (resolve_cols r)), <[k := touch now r]> t) else (Ok None, t))
  /\ ((forall k r, t !! k = Some r -> er_credential_hash r <> h) ->
       EkResolve NoFault now h t = (Ok None, t)).
Proof.
  unfold EkResolve, resolve_stmt. split.
  - intros k r Hk Hh. destruct (ek_live now r) eqn:L.
    + rewrite (select1_unique _ t k r Hk); [done| |].
      { by rewrite L, bool_decide_eq_true_2. }
      intros k' r' Hk' H. apply andb_true_iff in H as [H%bool_decide_eq_true _].
      eapply (wf_hash t Hwf); eauto. congruence.
    + destruct (select1 _ t) as [[k' r']|] eqn:E; [|done].
      apply select1_Some in E as [Hk' H]. apply andb_true_iff in H as [H%bool_decide_eq_true H'].
      assert (k = k') as <- by (eapply (wf_hash t Hwf); eauto; congruence). congruence.
  - intros Hno. destruct (select1 _ t) as [[k' r']|] eqn:E; [|done].
    apply select1_Some in E as [Hk' H]. apply andb_true_iff in H as [H%bool_decide_eq_true _].
    by destruct (Hno k' r' Hk').
Qed.

Definition w_live : EkRow :=
  MkEkRow "ekid_1" "h1" "env" "a@b" "n" statusActive None None None 0 None None (Some 10%Z) "manual" None.

Lemma singleton_wf r k :
  er_key_id r = k -> like_ekid k = true -> er_status r = statusActive -> er_revoked_at r = None ->
  (er_issued_via r = "exchange" <-> is_Some (er_requester r)) -> ek_wf {[k := r]}.
Proof.
  intros Hk Hl Hs Hr Hq. split.
  - by intros ? ? [<- <-]%lookup_singleton_Some.
  - by intros ? ? ? ? [<- <-]%lookup_singleton_Some [<- <-]%lookup_singleton_Some.
  - intros ? ? [<- <-]%lookup_singleton_Some. by left.
  - intros ? ? [<- <-]%lookup_singleton_Some. rewrite Hs, Hr. split; [done|by intros [? ?]].
  - by intros ? ? [<- <-]%lookup_singleton_Some.
  - by intros ? ? ? ? [<- <-]%lookup_singleton_Some [<- <-]%lookup_singleton_Some.
Qed.

Lemma EkResolve_exact_witness :
  EkResolve NoFault 9 "h1" {["ekid_1" := w_live]}
    = (Ok (Some (resolve_cols w_live)), <["ekid_1" := touch 9 w_live]> {["ekid_1" := w_live]})
  /\ EkResolve NoFault 10 "h1" {["ekid_1" := w_live]} = (Ok None, {["ekid_1" := w_live]}).
Proof.
  assert (W : ek_wf {["ekid_1" := w_live]}).
  { apply singleton_wf; try reflexivity. split; [intros H; discriminate H|intros [? H]; discriminate H]. }
  split.
  - exact (proj1 (EkResolve_exact 9 "h1" _ W) "ekid_1" w_live eq_refl eq_refl).
  - exact (proj1 (EkResolve_exact 10 "h1" _ W) "ekid_1" w_live eq_refl eq_refl).
Defined.

Lemma rows_where_spec P (t : EkTable) r :
  In r (rows_where P t) <-> P r = true /\ exists k, t !! k = Some r.
Proof.
  unfold rows_where. rewrite List.filter_In, in_map_iff. split.
  - intros [([k r'] & <- & H) ?]. split; [done|]. exists k.
    by apply elem_of_map_to_list, list_elem_of_In.
  - intros [? [k H]]. split; [|done]. exists (k, r). split; [done|].
    by apply list_elem_of_In, elem_of_map_to_list.
Qed.

(** C35: the Environment finalizer's drain revokes every row of its
    Environment that was not already revoked (suspended and expired ones
    included), after which the undrained count is zero; rows of other
    Environments and rows already revoked keep every column. *)
Theorem drain_complete now env t :
  CountUndrainedEnvironmentKeysSQL env (DrainEnvironmentKeysSQL now env t) = 0%nat
  /\ forall k r, t !! k = Some r ->
       DrainEnvironmentKeysSQL now env t !! k =
         Some (if undrained env r then set_status statusRevoked (Some now) r else r).
Proof.
  unfold CountUndrainedEnvironmentKeysSQL, DrainEnvironmentKeysSQL. split.
  - destruct (rows_where _ _) as [|r l] eqn:E; [done|]. exfalso.
    assert (H : In r (r :: l)) by (by left). rewrite <-E in H.
    apply rows_where_spec in H as [Hu [k Hk]]. rewrite lookup_fmap in Hk.
    destruct (t !! k) as [q|]; cbn in Hk; simplify_eq.
    unfold undrained in *. repeat case_bool_decide; cbn in *; done.
  - intros k r Hk. by rewrite lookup_fmap, Hk.
Qed.

End EkDB.

(** ** personal_keys *)
Module PkDB.

Record PkRow : Type := MkPkRow {
  pr_key_id : string;
  pr_credential_hash : string;
  pr_owner_email : string;
  pr_status : KeyStatus;
  pr_litellm_user_id : option string;
  pr_litellm_token : option string;
  pr_litellm_key_material : option string;
  pr_created_at : Z;
  pr_last_used_at : option Z;
  pr_expires_at : Z;
  pr_revoked_at : option Z;
  pr_purpose : string
}.

Abbreviation PkTable := (gmap string PkRow).

Record PkKeyInfo : Type := MkPkKeyInfo {
  pk_KeyID : string;
  pk_OwnerEmail : string;
  pk_ExpiresAt : Z;
  pk_LiteLLMUserID : option string;
  pk_LiteLLMToken : option string;
  pk_LiteLLMKeyMaterial : option string;
  pk_Status : option KeyStatus;
  pk_CreatedAt : option Z;
  pk_LastUsedAt : option Z;
  pk_RevokedAt : option Z;
  pk_Extended : bool
}.

Definition PkSlidingWindow : Z := 7 * 24 * Hour.
Definition PkMaxLifetime : Z := 90 * Day.

(** Columns of GetPersonalKey and RevokePersonalKey. *)
Definition pk_get_cols (r : PkRow) : PkKeyInfo :=
  MkPkKeyInfo (pr_key_id r) (pr_owner_email r) (pr_expires_at r) (pr_litellm_user_id r)
    (pr_litellm_token r) None (Some (pr_status r)) (Some (pr_created_at r)) (pr_last_used_at r)
    (pr_revoked_at r) false.

(** Columns of oauthPK. *)
Definition pk_oauth_cols (r : PkRow) : PkKeyInfo :=
  MkPkKeyInfo (pr_key_id r) (pr_owner_email r) (pr_expires_at r) (pr_litellm_user_id r)
    (pr_litellm_token r) (pr_litellm_key_material r) (Some (pr_status r)) (Some (pr_created_at r))
    (pr_last_used_at r) None false.

(** Columns of checkAndExtend's RETURNING. *)
Definition pk_extend_cols (ext : bool) (r : PkRow) : PkKeyInfo :=
  MkPkKeyInfo (pr_key_id r) (pr_owner_email r) (pr_expires_at r) (pr_litellm_user_id r)
    (pr_litellm_token r) (pr_litellm_key_material r) None None None None ext.

Definition set_window (last : option Z) (exp : Z) (r : PkRow) : PkRow :=
  MkPkRow (pr_key_id r) (pr_credential_hash r) (pr_owner_email r) (pr_status r)
    (pr_litellm_user_id r) (pr_litellm_token r) (pr_litellm_key_material r)
    (pr_created_at r) last exp (pr_revoked_at r) (pr_purpose r).

Definition pk_revoke (now : Z) (r : PkRow) : PkRow :=
  MkPkRow (pr_key_id r) (pr_credential_hash r) (pr_owner_email r) statusRevoked
    (pr_litellm_user_id r) (pr_litellm_token r) (pr_litellm_key_material r)
    (pr_created_at r) (pr_last_used_at r) (pr_expires_at r) (Some now) (pr_purpose r).

Definition pk_select1 (P : PkRow -> bool) (t : PkTable) : option (string * PkRow) :=
  head (List.filter (fun kr => P kr.2) (map_to_list t)).

(** The candidate CTE: active, unexpired, under the 90-day cap. *)
Definition pk_candidate (now : Z) (r : PkRow) : bool :=
  bool_decide (pr_status r = statusActive) && (now <? pr_expires_at r)%Z
  && (now <? pr_created_at r + PkMaxLifetime)%Z.

(** The UPDATE's two CASE expressions. *)
Definition pk_extend (now : Z) (r : PkRow) : PkRow :=
  if debounce now (pr_last_used_at r)
  then set_window (Some now) (Z.min (now + PkSlidingWindow) (pr_created_at r + PkMaxLifetime)) r
  else r.

Definition checkAndExtend (f : Fault) (name : string) (now : Z) (match_ : PkRow -> bool) (t : PkTable)
    : Res DbErr (option PkKeyInfo) * PkTable :=
  with_fault name f
    (match pk_select1 (fun r => match_ r && pk_candidate now r) t with
     | Some (k, r) =>
         (Ok (Some (pk_extend_cols (debounce now (pr_last_used_at r)) (pk_extend now r))),
          <[k := pk_extend now r]> t)
     | None => (Ok None, t)
     end) t.

Definition PkCheckAndExtend (f : Fault) (now : Z) (credentialHashHex : string) (t : PkTable) :=
  checkAndExtend f "PkCheckAndExtend" now
    (fun r => bool_decide (pr_credential_hash r = credentialHashHex)) t.

Definition OAuthPKCheckAndExtend (f : Fault) (now : Z) (ownerEmail : string) (t : PkTable) :=
  checkAndExtend f "OAuthPKCheckAndExtend" now
    (fun r => bool_decide (pr_owner_email r = ownerEmail) && bool_decide (pr_purpose r = "oauth")) t.

Record PkInsertRow : Type := MkPkInsertRow {
  pi_KeyID : string;
  pi_CredentialHash : string;
  pi_OwnerEmail : string;
  pi_ExpiresAt : Z;
  pi_LiteLLMUserID : option string;
  pi_LiteLLMToken : option string;
  pi_LiteLLMKeyMaterial : option string;
  pi_Purpose : string
}.

Definition pk_insert_row (now : Z) (r : PkInsertRow) : PkRow :=
  MkPkRow (pi_KeyID r) (pi_CredentialHash r) (pi_OwnerEmail r) statusActive
    (pi_LiteLLMUserID r) (pi_LiteLLMToken r) (pi_LiteLLMKeyMaterial r) now None (pi_ExpiresAt r) None
    (if bool_decide (pi_Purpose r = "") then "cli" else pi_Purpose r).

Definition like_pkid (s : string) : bool := HasPrefix s "pkid" && (5 <=? String.length s)%nat.

Definition active_oauth (r : PkRow) : bool :=
  bool_decide (pr_purpose r = "oauth") && bool_decide (pr_status r = statusActive).

Definition pk_some_row (P : PkRow -> bool) (t : PkTable) : bool :=
  existsb (fun kr => P kr.2) (map_to_list t).

Definition pk_insert_stmt (r : PkRow) (t : PkTable) : Res PgErr unit * PkTable :=
  if negb (like_pkid (pr_key_id r)) then (Err (PgError "23514" "personal_keys_key_id_prefix"), t)
  else if negb (bool_decide (pr_purpose r = "cli" \/ pr_purpose r = "oauth"))
  then (Err (PgError "23514" "personal_keys_purpose_check"), t)
  else if bool_decide (is_Some (t !! pr_key_id r)) then (Err (PgError "23505" "personal_keys_pkey"), t)
  else if pk_some_row (fun r' => bool_decide (pr_credential_hash r' = pr_credential_hash r)) t
  then (Err (PgError "23505" "personal_keys_credential_hash_key"), t)
  else if active_oauth r
          && pk_some_row (fun r' => active_oauth r' && bool_decide (pr_owner_email r' = pr_owner_email r)) t
  then (Err (PgError "23505" "personal_keys_one_active_oauth_per_owner"), t)
  else (Ok tt, <[pr_key_id r := r]> t).

Definition InsertPersonalKey (f : Fault) (now : Z) (row : PkInsertRow) (t : PkTable)
    : Res DbErr unit * PkTable :=
  with_fault "InsertPersonalKey" f (pk_insert_stmt (pk_insert_row now row) t) t.

Definition GetPersonalKey (f : Fault) (keyID : string) (t : PkTable)
    : Res DbErr (option PkKeyInfo) * PkTable :=
  with_fault "GetPersonalKey" f (Ok (pk_get_cols <$> t !! keyID), t) t.

Definition RevokePersonalKey (f : Fault) (now : Z) (keyID : string) (t : PkTable)
    : Res DbErr (option PkKeyInfo) * PkTable :=
  with_fault "RevokePersonalKey" f
    (match t !! keyID with
     | Some r => if bool_decide (pr_status r = statusActive)
                 then (Ok (Some (pk_get_cols (pk_revoke now r))), <[keyID := pk_revoke now r]> t)
                 else (Ok None, t)
     | None => (Ok None, t)
     end) t.

(** The owner-scoped revoke; no matching row is ErrKeyNotFoundOrNotOwner. *)
Inductive RevokeOwnErr : Type := ErrKeyNotFoundOrNotOwner | RevokeDbErr (e : DbErr).

Definition RevokePersonalKeyByOwner (f : Fault) (now : Z) (keyID owner : string) (t : PkTable)
    : Res RevokeOwnErr (option string) * PkTable :=
  match with_fault "RevokePersonalKeyByOwner" f
    (match t !! keyID with
     | Some r => if bool_decide (pr_owner_email r = owner) && bool_decide (pr_status r = statusActive)
                 then (Ok (Some (pr_litellm_token r)), <[keyID := pk_revoke now r]> t)
                 else (Ok None, t)
     | None => (Ok None, t)
     end) t with
  | (Ok (Some tok), t') => (Ok tok, t')
  | (Ok None, t') => (Err ErrKeyNotFoundOrNotOwner, t')
  | (Err e, t') => (Err (RevokeDbErr e), t')
  end.

(** [oauthPK] returns driver errors unwrapped. *)
Definition oauthPK (f : Fault) (ownerEmail : string) (expiryFilter : PkRow -> bool) (t : PkTable)
    : Res PgErr (option PkKeyInfo) :=
  match f with
  | NoFault =>
      Ok ((fun kr => pk_oauth_cols kr.2) <$>
          pk_select1 (fun r => bool_decide (pr_owner_email r = ownerEmail) && active_oauth r
                               && expiryFilter r) t)
  | FailBefore e | FailAfter e => Err e
  end.

Definition ActiveOAuthPK (f : Fault) (now : Z) (ownerEmail : string) (t : PkTable) :=
  oauthPK f ownerEmail (fun r => (now <? pr_expires_at r)%Z) t.

Definition ActiveOAuthPKAnyExpiry (f : Fault) (ownerEmail : string) (t : PkTable) :=
  oauthPK f ownerEmail (fun _ => true) t.

(** *** The sliding window *)

(** A row's window is capped at 90 days from creation and at seven days
    after its last recorded use. *)
Definition window_ok (r : PkRow) : Prop :=
  (pr_expires_at r <= pr_created_at r + PkMaxLifetime
   /\ pr_expires_at r <= default (pr_created_at r) (pr_last_used_at r) + PkSlidingWindow)%Z.

Definition not_after (now : Z) (r : PkRow) : Prop :=
  (pr_created_at r <= now /\ default (pr_created_at r) (pr_last_used_at r) <= now)%Z.

(** A run of authentication statements: by credential hash (a pk_ bearer)
    or by owner (the trusted-IdP path), each at its own now() and fault. *)
Inductive PkUse : Type :=
| UseHash (f : Fault) (now : Z) (hash : string)
| UseOAuth (f : Fault) (now : Z) (email : string).

Definition use_now (u : PkUse) : Z := match u with UseHash _ n _ | UseOAuth _ n _ => n end.

Definition run_use (u : PkUse) (t : PkTable) : Res DbErr (option PkKeyInfo) * PkTable :=
  match u with
  | UseHash f now h => PkCheckAndExtend f now h t
  | UseOAuth f now e => OAuthPKCheckAndExtend f now e t
  end.

Definition run_uses (l : list PkUse) (t : PkTable) : PkTable := foldl (fun t u => (run_use u t).2) t l.

Lemma pk_extend_window now r : window_ok r -> not_after now r ->
  window_ok (pk_extend now r) /\ not_after now (pk_extend now r)
  /\ (pr_expires_at r <= pr_expires_at (pk_extend now r))%Z
  /\ pr_created_at (pk_extend now r) = pr_created_at r.
Proof.
  unfold window_ok, not_after, pk_extend. destruct (debounce _ _); cbn; lia.
Qed.

Lemma pk_select1_Some P (t : PkTable) k r : pk_select1 P t = Some (k, r) -> t !! k = Some r /\ P r = true.
Proof.
  unfold pk_select1. intros H. apply head_Some_elem_of, list_elem_of_In, List.filter_In in H as [H1 H2].
  split; [|done]. by apply elem_of_map_to_list, list_elem_of_In.
Qed.

(** What a checkAndExtend does to each row. *)
Lemma checkAndExtend_row f name now m (t : PkTable) k r :
  t !! k = Some r ->
  (checkAndExtend f name now m t).2 !! k = Some r
  \/ (pk_candidate now r = true /\ (checkAndExtend f name now m t).2 !! k = Some (pk_extend now r)).
Proof.
  intros Hk. apply (with_fault_table (fun t' => t' !! k = Some r
      \/ (pk_candidate now r = true /\ t' !! k = Some (pk_extend now r)))); [auto|].
  destruct (pk_select1 _ t) as [[k' r']|] eqn:E; cbn; [|auto].
  apply pk_select1_Some in E as [Hk' H]. apply andb_true_iff in H as [_ H].
  rewrite lookup_insert. case_decide; [subst k'; simplify_eq; auto|auto].
Qed.

Lemma run_use_row u (t : PkTable) k r :
  t !! k = Some r -> window_ok r -> not_after (use_now u) r ->
  exists r', (run_use u t).2 !! k = Some r' /\ window_ok r' /\ not_after (use_now u) r'
    /\ pr_created_at r' = pr_created_at r /\ (pr_expires_at r <= pr_expires_at r')%Z.
Proof.
  intros Hk Hw Hn.
  assert (H : (run_use u t).2 !! k = Some r \/ (run_use u t).2 !! k = Some (pk_extend (use_now u) r)).
  { destruct u as [f now h|f now e]; cbn.
    - destruct (checkAndExtend_row f "PkCheckAndExtend" now
        (fun r => bool_decide (pr_credential_hash r = h)) t k r Hk) as [?|[? ?]]; auto.
    - destruct (checkAndExtend_row f "OAuthPKCheckAndExtend" now
        (fun r => bool_decide (pr_owner_email r = e) && bool_decide (pr_purpose r = "oauth")) t k r Hk)
        as [?|[? ?]]; auto. }
  destruct H as [H|H].
  - exists r. repeat split; auto; lia || apply Hw || apply Hn.
  - destruct (pk_extend_window _ _ Hw Hn) as (? & ? & ? & ?). eauto 10.
Qed.

(** C17: the sliding window of a personal key only moves forward and never
    past created_at + 90 days, over any run of authentications at
    non-decreasing instants, server faults included. *)
Theorem pk_window_monotone_and_capped l (t : PkTable) k r now0
    (Hk : t !! k = Some r) (Hw : window_ok r) (Hn : not_after now0 r)
    (Hsort : Sorted Z.le (now0 :: (use_now <$> l))) :
  exists r', run_uses l t !! k = Some r'
    /\ (pr_expires_at r <= pr_expires_at r' <= pr_created_at r + PkMaxLifetime)%Z
    /\ pr_created_at r' = pr_created_at r.
Proof.
  revert t r now0 Hk Hw Hn Hsort. induction l as [|u l IH]; intros t r now0 Hk Hw Hn Hsort.
  - exists r. split; [done|]. unfold window_ok in Hw. split; [lia|done].
  - inversion Hsort as [|? ? Hs Hh]; subst. inversion Hh; subst.
    destruct (run_use_row u t k r Hk Hw) as (r1 & Hk1 & Hw1 & Hn1 & Hc1 & He1).
    { unfold not_after in *. lia. }
    destruct (IH (run_use u t).2 r1 (use_now u) Hk1 Hw1 Hn1 Hs) as (r' & Hr' & Hb & Hc).
    exists r'. split; [exact Hr'|]. rewrite Hc1 in *. split; [lia|congruence].
Qed.

Definition w_pk : PkRow :=
  MkPkRow "pkid_1" "h" "a@b" statusActive None None None 0 None (7 * Day) None "cli".

Lemma pk_window_monotone_and_capped_witness :
  exists r', run_uses [UseHash NoFault (6 * Day) "h"; UseHash NoFault (12 * Day) "h"] {["pkid_1" := w_pk]} !! "pkid_1" = Some r'
    /\ (pr_expires_at w_pk <= pr_expires_at r' <= pr_created_at w_pk + PkMaxLifetime)%Z
    /\ pr_created_at r' = pr_created_at w_pk.
Proof.
  apply (pk_window_monotone_and_capped _ _ "pkid_1" w_pk 0).
  - reflexivity.
  - split; vm_compute; discriminate.
  - split; vm_compute; discriminate.
  - repeat constructor; vm_compute; discriminate.
Defined.

(** C29: a personal key authenticates only while its row is active, before
    its expiry and before created_at + 90 days, and the expiry reported is
    the stored one; a hash no such row holds gets (nil, nil) and changes
    nothing. *)
Theorem PkCheckAndExtend_sound now h (t : PkTable) :
  match PkCheckAndExtend NoFault now h t with
  | (Ok (Some i), t') =>
      exists k r, t !! k = Some r /\ pr_credential_hash r = h /\ pk_candidate now r = true
        /\ t' = <[k := pk_extend now r]> t
        /\ i = pk_extend_cols (debounce now (pr_last_used_at r)) (pk_extend now r)
        /\ (now < pr_created_at r + PkMaxLifetime)%Z /\ (now < pr_expires_at r)%Z
  | (Ok None, t') =>
      t' = t /\ forall k r, t !! k = Some r -> pr_credential_hash r = h -> pk_candidate now r = false
  | (Err _, _) => False
  end.
Proof.
  unfold PkCheckAndExtend, checkAndExtend, with_fault.
  destruct (pk_select1 _ t) as [[k r]|] eqn:E.
  - apply pk_select1_Some in E as [Hk H]. apply andb_true_iff in H as [H%bool_decide_eq_true Hc].
    exists k, r. split_and!; try done; unfold pk_candidate in Hc; lia.
  - split; [done|]. intros k r Hk Hh. destruct (pk_candidate now r) eqn:Hc; [|done]. exfalso.
    unfold pk_select1 in E.
    assert (Hin : In (k, r) (List.filter (fun kr => bool_decide (pr_credential_hash kr.2 = h)
              && pk_candidate now kr.2) (map_to_list t))).
    { apply List.filter_In. split; [by apply list_elem_of_In, elem_of_map_to_list|].
      cbn. by rewrite Hc, bool_decide_eq_true_2. }
    by destruct (List.filter _ _).
Qed.

End PkDB.
