(* ===== verification/LiteLLM.v ===== *)
(** * The LiteLLM client boundary (internal/litellm, internal/platformapi/teams)

    LiteLLM itself is a service outside the repository: the client interface
    is the class [LiteLLM] over an abstract service state, so every theorem
    holds for any behaviour of the service.  What the repository adds on its
    side of the wire is modelled: the typed errors and their text, the
    predicates that classify them, alias resolution, tag names. *)

From S2P Require Import Prelude Keys KeyDB.
From stdpp Require Import pretty.

Open Scope string_scope.
Open Scope list_scope.

(** ** Errors *)

(** [APIError] and [Auth401Error] are the typed errors of makeRequest;
    [TransportErr] is its wrapped net/http failure (method, path, cause) and
    [WrapErr] an fmt.Errorf with %w around another error. *)
Inductive LLErr : Type :=
| ErrNotFound
| APIError (Method Path : string) (StatusCode : Z) (Code Body : string) (Transient : bool)
| Auth401Error (Path Body : string)
| TransportErr (Method Path cause : string)
| WrapErr (msg : string) (e : LLErr).

(** errors.As / errors.Is walk the chain. *)
Fixpoint root (e : LLErr) : LLErr := match e with WrapErr _ e' => root e' | _ => e end.

(** The [Error()] texts; the body never appears in them. *)
Fixpoint ErrorText (e : LLErr) : string :=
  match e with
  | ErrNotFound => "litellm: not found"
  | APIError meth path st code _ tr =>
      "litellm: " +:+ pretty st +:+ " on " +:+ meth +:+ " " +:+ path +:+ " (code=" +:+ code
        +:+ (if tr then ", transient)" else ")")
  | Auth401Error path _ => "litellm: 401 unauthorized on " +:+ path
  | TransportErr meth path c => "litellm: " +:+ meth +:+ " " +:+ path +:+ ": transport error: " +:+ c
  | WrapErr msg e' => msg +:+ ": " +:+ ErrorText e'
  end.

(** [strings.Contains]. *)
Fixpoint StrContains (s sub : string) {struct s} : bool :=
  HasPrefix s sub || match s with EmptyString => false | String _ s' => StrContains s' sub end.

Definition IsNotFound (err : LLErr) : bool :=
  match root err with ErrNotFound => true | _ => StrContains (ErrorText err) "404" end.

Definition http_status_is (n : Z) (err : LLErr) : bool :=
  match root err with APIError _ _ st _ _ _ => (st =? n)%Z | _ => false end.

Definition IsHTTPNotFound (err : LLErr) : bool := http_status_is 404 err.
Definition IsHTTPForbidden (err : LLErr) : bool := http_status_is 403 err.
Definition IsHTTPBadRequest (err : LLErr) : bool := http_status_is 400 err.

Definition IsDuplicateUserErr (err : LLErr) : bool :=
  let typed :=
    match root err with
    | APIError _ path st _ body _ =>
        ((st =? 409)%Z && StrContains path "/user/new") || StrContains body "already exists"
    | _ => false
    end in
  typed || (StrContains (ErrorText err) "/user/new"
            && (StrContains (ErrorText err) "409" || StrContains (ErrorText err) "already exists")).

(** ** Wire types

    [KeyGenerateRequest] has every field of the Go struct; of the responses
    only the fields the repository reads are kept. *)

(** A float64 amount, exactly, as an integer multiple of 2^-1074 (finite
    values only). *)
Definition Float64 : Type := Z.

Record TagBudget : Type := MkTagBudget { tb_MaxBudget : Float64; tb_BudgetDuration : string }.

Record UserInfo : Type := MkUserInfo { ui_UserID : string; ui_UserEmail : string; ui_Teams : list string }.

Record Team : Type := MkTeam { tm_TeamID : string; tm_TeamAlias : string }.

Record UserNewRequest : Type := MkUserNew {
  un_UserEmail : string; un_UserID : string; un_Teams : list string; un_AutoCreateKey : bool
}.

Record KeyGenerateRequest : Type := MkKeyGen {
  kg_UserID : string;
  kg_Key : string;
  kg_KeyAlias : string;
  kg_Models : list string;
  kg_Duration : string;
  kg_MaxBudget : option Float64;
  kg_Tags : list string;
  kg_TeamID : string;
  kg_Metadata : gmap string string
}.

Record KeyGenerateResponse : Type := MkKeyResp { kr_Token : string; kr_Key : string }.

(** The client interface, over any service state [L]. *)
Class LiteLLM (L : Type) : Type := {
  ll_UserInfoByEmail : string -> L -> Res LLErr (option UserInfo) * L;
  ll_ListAllTeams : L -> Res LLErr (list Team) * L;
  ll_ListTeamsByAlias : string -> L -> Res LLErr (list Team) * L;
  ll_UserNew : UserNewRequest -> L -> Res LLErr UserInfo * L;
  ll_TeamMemberAdd : string -> string -> string -> L -> Res LLErr unit * L;
  ll_KeyGenerate : KeyGenerateRequest -> L -> Res LLErr KeyGenerateResponse * L;
  ll_RevokeKey : string -> L -> Res LLErr unit * L;
  ll_UpsertTagBudget : string -> TagBudget -> L -> Res LLErr unit * L;
  ll_DeleteTagByName : string -> L -> Res LLErr unit * L;
  ll_DeleteBudget : string -> L -> Res LLErr unit * L
}.

(** ** Names *)

Definition ShellTeamPrefix : string := "ach-env-".
Definition UserShellPrefix : string := "ach-user-".
Definition ShellTeamAlias (env : string) : string := ShellTeamPrefix +:+ env.
Definition KeyBudgetTag (keyID : string) : string := "key:" +:+ keyID.

(** [strings.TrimSpace] on ASCII white space. *)
Definition is_space (c : ascii) : bool :=
  let n := N_of_ascii c in ((n =? 32) || ((9 <=? n) && (n <=? 13)))%N.
Fixpoint trim_left (l : list ascii) : list ascii :=
  match l with c :: r => if is_space c then trim_left r else l | [] => [] end.
Definition TrimSpace (s : string) : string := of_chars (rev (trim_left (rev (trim_left (chars s))))).

Definition NormalizeEmail (email : string) : string := ToLower (TrimSpace email).

(** ** Team lookups *)
Section Lookups.
Context {L : Type} `{LiteLLM L}.

(** [add] of LookupCallerTeams: skip the empty string and what was seen. *)
Definition add_team (out : list string) (s : string) : list string :=
  if bool_decide (s = "") then out else if Contains out s then out else out ++ [s].

(** Later teams with the same id overwrite the alias in the Go map. *)
Fixpoint alias_by_id (teams : list Team) (id : string) : string :=
  match teams with
  | [] => ""
  | t :: r =>
      let later := alias_by_id r id in
      if bool_decide (later <> "") then later
      else if bool_decide (tm_TeamID t = id) then tm_TeamAlias t else ""
  end.

Definition LookupCallerTeams (email : string) (l : L) : Res LLErr (list string) * L :=
  match ll_UserInfoByEmail email l with
  | (Err e, l1) => if IsNotFound e then (Ok [], l1) else (Err e, l1)
  | (Ok None, l1) => (Ok [], l1)
  | (Ok (Some info), l1) =>
      match ui_Teams info with
      | [] => (Ok [], l1)
      | ids =>
          match ll_ListAllTeams l1 with
          | (Err e, l2) => (Err e, l2)
          | (Ok teams, l2) =>
              (Ok (foldl (fun out id => add_team (add_team out id) (alias_by_id teams id)) [] ids), l2)
          end
      end
  end.

Definition LookupTeamIDByAlias (alias : string) (l : L) : Res LLErr string * L :=
  if bool_decide (alias = "") then (Ok "", l)
  else match ll_ListAllTeams l with
       | (Err e, l1) => (Err e, l1)
       | (Ok teams, l1) =>
           (Ok (match List.find (fun t => bool_decide (tm_TeamAlias t = alias)
                                         && bool_decide (tm_TeamID t <> "")) teams with
                | Some t => tm_TeamID t
                | None => ""
                end), l1)
       end.

Fixpoint ResolveTeamIDs (aliases : list string) (l : L) : Res LLErr (list string) * L :=
  match aliases with
  | [] => (Ok [], l)
  | a :: rest =>
      match ll_ListTeamsByAlias a l with
      | (Err e, l1) => (Err e, l1)
      | (Ok [], l1) => (Err (WrapErr ("team alias " +:+ a) ErrNotFound), l1)
      | (Ok (t :: _), l1) =>
          match ResolveTeamIDs rest l1 with
          | (Err e, l2) => (Err e, l2)
          | (Ok ids, l2) => (Ok (tm_TeamID t :: ids), l2)
          end
      end
  end.

(** [DeleteKeyBudget] joins both deletes: the tag, then the budget object. *)
Definition DeleteKeyBudget (keyID : string) (l : L) : Res LLErr unit * L :=
  let tag := KeyBudgetTag keyID in
  let '(r1, l1) := ll_DeleteTagByName tag l in
  let '(r2, l2) := ll_DeleteBudget tag l1 in
  (match r1, r2 with Ok _, Ok _ => Ok tt | Err e, _ => Err e | _, Err e => Err e end, l2).

End Lookups.

(** [teams.HasIntersect]. *)
Definition HasIntersect (a b : list string) : bool :=
  match a, b with
  | [], _ | _, [] => false
  | _, _ => existsb (Contains a) b
  end.

Lemma HasIntersect_spec a b : HasIntersect a b = true <-> exists x, x ∈ a /\ x ∈ b.
Proof.
  assert (E : HasIntersect a b = existsb (Contains a) b).
  { destruct a, b; try done. cbn. symmetry. by induction b. }
  rewrite E, existsb_exists. split.
  - intros (x & Hx & Hc%Contains_spec). exists x. split; [done|]. by apply list_elem_of_In.
  - intros (x & Ha & Hb). exists x. split; [by apply list_elem_of_In|]. by apply Contains_spec.
Qed.

Lemma HasIntersect_false a b : HasIntersect a b = false <-> forall x, x ∈ a -> x ∈ b -> False.
Proof.
  rewrite <-not_true_iff_false, HasIntersect_spec. firstorder.
Qed.

#[export] Hint Rewrite HasIntersect_spec HasIntersect_false : ach_rw.

(** ** An in-memory LiteLLM

    A concrete service to run the handlers against: users and teams are
    fixed, tokens are created and deleted, and a call class fails with the
    configured error. *)
Record FakeLL : Type := MkFake {
  fk_users : list UserInfo;
  fk_teams : list Team;
  fk_live : list string;
  fk_next : list string;
  fk_gen_err : option LLErr;
  fk_revoke_err : option LLErr;
  fk_budget_err : option LLErr
}.

Definition set_live (live next : list string) (l : FakeLL) : FakeLL :=
  MkFake (fk_users l) (fk_teams l) live next (fk_gen_err l) (fk_revoke_err l) (fk_budget_err l).

Definition fake_answer (e : option LLErr) : Res LLErr unit :=
  match e with Some e => Err e | None => Ok tt end.

#[global] Instance FakeLL_LiteLLM : LiteLLM FakeLL := {|
  ll_UserInfoByEmail email l :=
    (Ok (List.find (fun u => bool_decide (ui_UserEmail u = email)) (fk_users l)), l);
  ll_ListAllTeams l := (Ok (fk_teams l), l);
  ll_ListTeamsByAlias a l :=
    (Ok (List.filter (fun t => bool_decide (tm_TeamAlias t = a)) (fk_teams l)), l);
  ll_UserNew req l := (Ok (MkUserInfo (un_UserID req) (un_UserEmail req) (un_Teams req)), l);
  ll_TeamMemberAdd _ _ _ l := (Ok tt, l);
  ll_KeyGenerate req l :=
    match fk_gen_err l, fk_next l with
    | Some e, _ => (Err e, l)
    | None, [] => (Err (TransportErr "POST" "/key/generate" "out of tokens"), l)
    | None, t :: r => (Ok (MkKeyResp t ("sk-" +:+ t)), set_live (t :: fk_live l) r l)
    end;
  ll_RevokeKey t l :=
    match fk_revoke_err l with
    | Some e => (Err e, l)
    | None => if Contains (fk_live l) t
              then (Ok tt, set_live (List.filter (fun x => bool_decide (x <> t)) (fk_live l)) (fk_next l) l)
              else (Err (APIError "POST" "/key/delete" 404 "" "" false), l)
    end;
  ll_UpsertTagBudget _ _ l := (fake_answer (fk_budget_err l), l);
  ll_DeleteTagByName _ l := (Ok tt, l);
  ll_DeleteBudget _ l := (Ok tt, l)
|}.

(** ** What the lookups promise *)

Lemma add_team_spec out s x : x ∈ add_team out s <-> x ∈ out \/ (x = s /\ s <> "").
Proof.
  unfold add_team. case_bool_decide as He; [subst; intuition congruence|].
  destruct (Contains out s) eqn:Hc.
  - apply Contains_spec in Hc. split; [auto|]. intros [?|[-> _]]; done.
  - rewrite elem_of_app, list_elem_of_singleton. intuition congruence.
Qed.

Lemma add_team_NoDup out s : NoDup out -> NoDup (add_team out s).
Proof.
  unfold add_team. case_bool_decide; [done|]. destruct (Contains out s) eqn:Hc; [done|].
  apply Contains_false in Hc. intros Hn. apply NoDup_app. split_and!; [done| |apply NoDup_singleton].
  intros x Hx ->%list_elem_of_singleton. done.
Qed.

Lemma team_fold_spec teams ids out x :
  x ∈ foldl (fun out id => add_team (add_team out id) (alias_by_id teams id)) out ids
  <-> x ∈ out \/ (x <> "" /\ exists id, id ∈ ids /\ (x = id \/ x = alias_by_id teams id)).
Proof.
  revert out. induction ids as [|id ids IH]; intros out; cbn.
  - split; [auto|]. intros [?|(_ & ? & ?%not_elem_of_nil & _)]; done.
  - rewrite IH, !add_team_spec. setoid_rewrite elem_of_cons. split.
    + intros [[[?|[-> ?]]|[-> ?]]|(? & y & ? & ?)]; eauto 8.
    + intros [?|(Hx & y & [->|Hy] & Hxy)]; [auto| |eauto 6]. destruct Hxy; subst; auto.
Qed.

Lemma team_fold_NoDup teams ids out :
  NoDup out -> NoDup (foldl (fun out id => add_team (add_team out id) (alias_by_id teams id)) out ids).
Proof. revert out. induction ids; cbn; eauto using add_team_NoDup. Qed.

(** C31: the teams a caller is checked with are exactly the non-empty ids
    LiteLLM lists for the user plus their aliases, each once; a user LiteLLM
    does not know has none, and a failed team listing is an error. *)
Theorem LookupCallerTeams_exact {L} `{LiteLLM L} (email : string) (l l1 l2 : L) (info : UserInfo) (teams : list Team)
    (Hu : ll_UserInfoByEmail email l = (Ok (Some info), l1)) (Ht : ll_ListAllTeams l1 = (Ok teams, l2)) :
  exists out, (LookupCallerTeams email l).1 = Ok out /\ NoDup out /\
  forall x, x ∈ out <-> x <> "" /\ exists id, id ∈ ui_Teams info /\ (x = id \/ x = alias_by_id teams id).
Proof.
  unfold LookupCallerTeams. rewrite Hu. destruct (ui_Teams info) as [|i ids].
  - exists []. split; [done|]. split; [constructor|]. intros x. rewrite not_elem_of_nil || idtac.
    split; [by intros ?%not_elem_of_nil|]. by intros (_ & ? & ?%not_elem_of_nil & _).
  - rewrite Ht. eexists. split; [reflexivity|]. split; [by apply team_fold_NoDup, NoDup_nil_2|].
    intros x. rewrite team_fold_spec. split; [|auto]. intros [?%not_elem_of_nil|?]; done.
Qed.

Definition one_user : FakeLL := MkFake [MkUserInfo "u" "a@x" ["T1"]] [MkTeam "T1" "one"] [] [] None None None.

Lemma LookupCallerTeams_exact_witness :
  exists out, (LookupCallerTeams "a@x" one_user).1 = Ok out /\ "one" ∈ out.
Proof.
  edestruct (LookupCallerTeams_exact "a@x" one_user one_user one_user (MkUserInfo "u" "a@x" ["T1"]) [MkTeam "T1" "one"])
    as (out & Ho & _ & Hx); [vm_compute; reflexivity|vm_compute; reflexivity|].
  exists out. split; [exact Ho|]. apply Hx. split; [discriminate|]. exists "T1". split; [left|right; reflexivity].
Defined.

Lemma StrContains_app a b sub : StrContains b sub = true -> StrContains (a +:+ b) sub = true.
Proof.
  intros Hb. induction a as [|c a IH]; [done|].
  change (String c a +:+ b) with (String c (a +:+ b)). cbn. by rewrite IH, orb_true_r.
Qed.

Lemma StrContains_prefix b c sub : StrContains b sub = true -> StrContains (b +:+ c) sub = true.
Proof.
  assert (Hp : forall b, HasPrefix b sub = true -> HasPrefix (b +:+ c) sub = true).
  { intros b0 [r ->]%HasPrefix_spec. apply HasPrefix_spec. exists (r +:+ c). by rewrite str_app_assoc. }
  induction b as [|d b IH]; cbn [StrContains].
  - rewrite orb_false_r. intros Hb%Hp. by destruct ("" +:+ c); cbn [StrContains]; rewrite Hb.
  - change (String d b +:+ c) with (String d (b +:+ c)). cbn [StrContains]. intros [Hb|Hb]%orb_true_iff.
    + apply Hp in Hb. change (String d b +:+ c) with (String d (b +:+ c)) in Hb. by rewrite Hb.
    + by rewrite (IH Hb), orb_true_r.
Qed.


(** An outage for that user. *)
Definition Outage : Type := unit.
#[global] Instance Outage_LiteLLM : LiteLLM Outage := {|
  ll_UserInfoByEmail email l := (Err (APIError "GET" ("/user/info?user_id=" +:+ email) 503 "" "" true), l);
  ll_ListAllTeams l := (Err (TransportErr "GET" "/team/list" "refused"), l);
  ll_ListTeamsByAlias a l := (Err (TransportErr "GET" "/team/list" "refused"), l);
  ll_UserNew req l := (Err (TransportErr "POST" "/user/new" "refused"), l);
  ll_TeamMemberAdd _ _ _ l := (Err (TransportErr "POST" "/team/member_add" "refused"), l);
  ll_KeyGenerate req l := (Err (TransportErr "POST" "/key/generate" "refused"), l);
  ll_RevokeKey t l := (Err (TransportErr "POST" "/key/delete" "refused"), l);
  ll_UpsertTagBudget _ _ l := (Err (TransportErr "POST" "/tag/new" "refused"), l);
  ll_DeleteTagByName _ l := (Err (TransportErr "POST" "/tag/delete" "refused"), l);
  ll_DeleteBudget _ l := (Err (TransportErr "POST" "/budget/delete" "refused"), l)
|}.

