(* ===== verification/World.v ===== *)
(** * Handlers as programs over a shared world

    A request handler of platform-api reads a clock, runs SQL against a
    database other replicas use too, talks to LiteLLM and Redis, writes audit
    records and an HTTP response.  [M] threads all of that explicitly.  Each
    external interaction consumes one tick; at every tick the [Env] decides
    the clock reading, the server fault and what other processes did to the
    database since the previous tick, so a theorem that quantifies over [Env]
    covers every interleaving and every failure. *)

From S2P Require Import Prelude Keys KeyDB LiteLLM.
Import EkDB PkDB.

Open Scope string_scope.
Open Scope list_scope.

(** ** Environment rows (internal/db EnvironmentRow, the columns the models read) *)

(** The JSONB condition column, as encoding/json sees it. *)
Inductive CondJSON : Type :=
| CondAbsent
| CondSlice (l : list (string * string))
| CondSingle (type status : string)
| CondMalformed.

Record EnvironmentRow : Type := MkEnv {
  env_Name : string;
  env_AuthorizedTeams : list string;
  env_RuntimeMCPServers : list string;
  env_RuntimeA2AAgents : list string;
  env_AccessGroupSyncedCondition : CondJSON
}.

Definition ConditionTypeAccessGroupSynced : string := "AccessGroupSynced".

Definition decodeAccessGroupSynced (raw : CondJSON) : bool :=
  match raw with
  | CondAbsent | CondMalformed => false
  | CondSlice l =>
      match List.find (fun c => bool_decide (c.1 = ConditionTypeAccessGroupSynced)) l with
      | Some c => bool_decide (c.2 = "True")
      | None => false
      end
  | CondSingle ty st => bool_decide (ty = ConditionTypeAccessGroupSynced) && bool_decide (st = "True")
  end.

Definition AccessGroupSyncedFromRow (row : option EnvironmentRow) : bool :=
  match row with None => false | Some r => decodeAccessGroupSynced (env_AccessGroupSyncedCondition r) end.

(** ** Key grants (internal/db/key_grants.go) *)
Record KeyGrantRow : Type := MkGrant {
  g_Namespace : string;
  g_Name : string;
  g_Identity : string;
  g_Environments : list string;
  g_ServiceAccounts : list string;
  g_MaxBudget : option Float64;
  g_BudgetDuration : string
}.

(** ** The database *)
Record DB : Type := MkDB {
  db_ek : gmap string EkRow;
  db_pk : gmap string PkRow;
  db_envs : gmap string EnvironmentRow;
  db_limits : gmap string Z;
  db_grants : gmap (string * string) KeyGrantRow
}.

Definition set_ek (t : gmap string EkRow) (d : DB) : DB :=
  MkDB t (db_pk d) (db_envs d) (db_limits d) (db_grants d).
Definition set_pk (t : gmap string PkRow) (d : DB) : DB :=
  MkDB (db_ek d) t (db_envs d) (db_limits d) (db_grants d).

(** A cached resolution is a value with the instant Redis drops it. *)
Record RedisEntry (V : Type) : Type := MkEntry { re_val : V; re_until : Z }.
Arguments MkEntry {V} _ _.
Arguments re_val {V} _.
Arguments re_until {V} _.

(** ** Observable events, oldest first *)
Inductive Event : Type :=
| ERevokeKey (token : string) (r : Res LLErr unit)
| EKeyGenerate (req : KeyGenerateRequest) (r : Res LLErr KeyGenerateResponse)
| EUserNew (req : UserNewRequest) (r : Res LLErr UserInfo)
| EMemberAdd (team user : string) (r : Res LLErr unit)
| EUpsertBudget (tag : string) (b : TagBudget) (r : Res LLErr unit)
| EDeleteKeyBudget (keyID : string) (r : Res LLErr unit)
| ELLRead (op : string)
| EInsert (row : EkInsertRow) (r : Res DbErr unit)
| EFlip (op keyID : string) (r : Res DbErr (option EkKeyInfo))
| ERevokePk (keyID owner : string) (ok : bool)
| EDbRead (op : string)
| EDel (key : string) (failed : bool)
| EEndSessions (email : string)
| ECall (op : string) (ok : bool)
| ERejected (reason : string)
| EAudit (action outcome keyID : string)
| EResp (status : Z) (code : string).

(** ** The world of one request *)
Record World (L : Type) : Type := MkWorld {
  w_tick : nat;
  w_db : DB;
  w_ll : L;
  w_trace : list Event
}.
Arguments MkWorld {L} _ _ _ _.
Arguments w_tick {L} _.
Arguments w_db {L} _.
Arguments w_ll {L} _.
Arguments w_trace {L} _.

(** What the outside decides at each tick. *)
Record Env : Type := MkEnvironment {
  now_at : nat -> Z;
  fault_at : nat -> Fault;
  interf_at : nat -> DB -> DB;
  del_fails : nat -> bool;
  draws_at : nat -> list (option (list ascii));
  ulid_at : nat -> string;
  seal_at : nat -> string -> option string;
  hmac_hex : string -> string -> string
}.

Definition M (L A : Type) : Type := World L -> A * World L.

Definition ret {L A} (a : A) : M L A := fun w => (a, w).
Definition bind {L A B} (m : M L A) (k : A -> M L B) : M L B :=
  fun w => let '(a, w') := m w in k a w'.

Notation "x <- m ;; k" := (bind m (fun x => k))
  (at level 92, m at next level, right associativity) : ach_scope.
Notation "m ;;; k" := (bind m (fun _ => k)) (at level 92, right associativity) : ach_scope.
Open Scope ach_scope.

Definition emit {L} (e : Event) : M L unit :=
  fun w => (tt, MkWorld (w_tick w) (w_db w) (w_ll w) (w_trace w ++ [e])).

Section Primitives.
Context {L : Type} (E : Env).

(** time.Now() *)
Definition now : M L Z :=
  fun w => (now_at E (w_tick w), MkWorld (S (w_tick w)) (w_db w) (w_ll w) (w_trace w)).

(** One SQL statement: first what the other processes committed since the
    last tick, then ours under this tick's fault and clock. *)
Definition sql {A} (stmt : Fault -> Z -> DB -> A * DB) : M L A :=
  fun w =>
    let n := w_tick w in
    let '(r, d) := stmt (fault_at E n) (now_at E n) (interf_at E n (w_db w)) in
    (r, MkWorld (S n) d (w_ll w) (w_trace w)).

(** One LiteLLM call. *)
Definition litellm {A} (call : L -> A * L) : M L A :=
  fun w => let '(a, l) := call (w_ll w) in
           (a, MkWorld (S (w_tick w)) (w_db w) l (w_trace w)).

(** Redis DEL: whether it failed. The entry's fate is followed in the cache
    model; here only the call and its result are recorded. *)
Definition redis_del (key : string) : M L bool :=
  fun w => (del_fails E (w_tick w),
            MkWorld (S (w_tick w)) (w_db w) (w_ll w)
              (w_trace w ++ [EDel key (del_fails E (w_tick w))])).

(** Local sources of randomness (the entropy source fails after the reads the environment lists). *)
Definition draw_bearer (p : Keys.BearerPrefix) : M L (Res Keys.KeysErr string) :=
  fun w => (default (Err Keys.ErrRand) (Keys.NewBearer (draws_at E (w_tick w)) p),
            MkWorld (S (w_tick w)) (w_db w) (w_ll w) (w_trace w)).
Definition draw_keyid (p : Keys.KeyIDPrefix) : M L (Res Keys.KeysErr string) :=
  fun w => (Keys.NewKeyID (ulid_at E (w_tick w)) p,
            MkWorld (S (w_tick w)) (w_db w) (w_ll w) (w_trace w)).
Definition seal (plain : string) : M L (option string) :=
  fun w => (seal_at E (w_tick w) plain,
            MkWorld (S (w_tick w)) (w_db w) (w_ll w) (w_trace w)).

(** render.Error / WriteHeader and audit.EmitAudit. *)
Definition respond (status : Z) (code : string) : M L unit := emit (EResp status code).
Definition audit (action outcome keyID : string) : M L unit := emit (EAudit action outcome keyID).

End Primitives.

(** Lift an environment_keys or personal_keys statement to the database. *)
Definition on_ek {A} (f : gmap string EkRow -> Res DbErr A * gmap string EkRow) (d : DB)
    : Res DbErr A * DB :=
  let '(r, t) := f (db_ek d) in (r, set_ek t d).
Definition on_pk {E A} (f : gmap string PkRow -> Res E A * gmap string PkRow) (d : DB)
    : Res E A * DB :=
  let '(r, t) := f (db_pk d) in (r, set_pk t d).

(** A read whose error is returned unwrapped. *)
Definition read_raw {A T} (f : Fault) (x : A) (d : T) : Res DbErr A * T :=
  match f with NoFault => (Ok x, d) | FailBefore e | FailAfter e => (Err (DbRaw e), d) end.

(** [credhash.Hash]; the HMAC itself is the environment's. *)
Inductive CredErr : Type := ErrEmptyPepper.
Definition Hash (E : Env) (pepper plaintext : string) : Res CredErr string :=
  if bool_decide (pepper = "") then Err ErrEmptyPepper else Ok (hmac_hex E pepper plaintext).

(** ** Running programs in proofs *)

(** Result and final world of a run. *)
Definition result {L A} (m : M L A) (w : World L) : A := (m w).1.
Definition final {L A} (m : M L A) (w : World L) : World L := (m w).2.

Definition responses (tr : list Event) : list (Z * string) :=
  omap (fun e => match e with EResp s c => Some (s, c) | _ => None end) tr.

Lemma responses_app a b : responses (a ++ b) = responses a ++ responses b.
Proof. apply omap_app. Qed.

Definition revoked_tokens (tr : list Event) : list string :=
  omap (fun e => match e with ERevokeKey t _ => Some t | _ => None end) tr.

Lemma revoked_tokens_app a b : revoked_tokens (a ++ b) = revoked_tokens a ++ revoked_tokens b.
Proof. apply omap_app. Qed.

Create Rewrite HintDb world.
#[export] Hint Rewrite responses_app revoked_tokens_app : world.

(** ** Inverting a run

    [runs m w a w'] is the graph of a program; [inv_runs] takes a run of a
    whole handler apart into its primitive steps, one goal per path. *)

Definition runs {L A} (m : M L A) (w : World L) (a : A) (w' : World L) : Prop := m w = (a, w').

Lemma runs_final {L A} (m : M L A) w : runs m w (result m w) (final m w).
Proof. unfold runs, result, final. by destruct (m w). Qed.

Lemma runs_bind {L A B} (m : M L A) (k : A -> M L B) w b w'' :
  runs (bind m k) w b w'' -> exists a w', runs m w a w' /\ runs (k a) w' b w''.
Proof. unfold runs, bind. destruct (m w) as [a w'] eqn:E. eauto. Qed.

Lemma runs_ret {L A} (x : A) (w : World L) a w' : runs (ret x) w a w' -> a = x /\ w' = w.
Proof. unfold runs, ret. by intros [= -> ->]. Qed.

Lemma runs_emit {L} e (w : World L) a w' :
  runs (emit e) w a w' -> w' = MkWorld (w_tick w) (w_db w) (w_ll w) (w_trace w ++ [e]).
Proof. unfold runs, emit. by intros [= _ <-]. Qed.

Lemma runs_if {L A} (b : bool) (m1 m2 : M L A) w a w' :
  runs (if b then m1 else m2) w a w' -> (b = true /\ runs m1 w a w') \/ (b = false /\ runs m2 w a w').
Proof. destruct b; auto. Qed.

Section RunsPrimitives.
Context {L : Type} (E : Env).

Lemma runs_now (w : World L) a w' :
  runs (now E) w a w' ->
  a = now_at E (w_tick w) /\ w' = MkWorld (S (w_tick w)) (w_db w) (w_ll w) (w_trace w).
Proof. unfold runs, now. by intros [= <- <-]. Qed.

Lemma runs_sql {A} stmt (w : World L) (a : A) w' :
  runs (sql E stmt) w a w' ->
  exists d, stmt (fault_at E (w_tick w)) (now_at E (w_tick w)) (interf_at E (w_tick w) (w_db w)) = (a, d)
            /\ w' = MkWorld (S (w_tick w)) d (w_ll w) (w_trace w).
Proof. unfold runs, sql. destruct (stmt _ _ _) as [r d]. intros [= <- <-]. eauto. Qed.

Lemma runs_litellm {A} (call : L -> A * L) (w : World L) a w' :
  runs (litellm call) w a w' ->
  exists l, call (w_ll w) = (a, l) /\ w' = MkWorld (S (w_tick w)) (w_db w) l (w_trace w).
Proof. unfold runs, litellm. destruct (call _) as [r l]. intros [= <- <-]. eauto. Qed.

Lemma runs_redis_del key (w : World L) a w' :
  runs (redis_del E key) w a w' ->
  w' = MkWorld (S (w_tick w)) (w_db w) (w_ll w) (w_trace w ++ [EDel key a]).
Proof. unfold runs, redis_del. by intros [= <- <-]. Qed.

Lemma runs_draw_bearer p (w : World L) a w' :
  runs (draw_bearer E p) w a w' ->
  a = default (Err Keys.ErrRand) (Keys.NewBearer (draws_at E (w_tick w)) p)
  /\ w' = MkWorld (S (w_tick w)) (w_db w) (w_ll w) (w_trace w).
Proof. unfold runs, draw_bearer. by intros [= <- <-]. Qed.

Lemma runs_draw_keyid p (w : World L) a w' :
  runs (draw_keyid E p) w a w' ->
  a = Keys.NewKeyID (ulid_at E (w_tick w)) p
  /\ w' = MkWorld (S (w_tick w)) (w_db w) (w_ll w) (w_trace w).
Proof. unfold runs, draw_keyid. by intros [= <- <-]. Qed.

Lemma runs_seal s (w : World L) a w' :
  runs (seal E s) w a w' ->
  a = seal_at E (w_tick w) s
  /\ w' = MkWorld (S (w_tick w)) (w_db w) (w_ll w) (w_trace w).
Proof. unfold runs, seal. by intros [= <- <-]. Qed.

End RunsPrimitives.

Ltac inv_run_step :=
  match goal with
  | H : runs (bind _ _) _ _ _ |- _ =>
      let a := fresh "a" in let w := fresh "w" in
      let H1 := fresh "R" in let H2 := fresh "R" in
      apply runs_bind in H as (a & w & H1 & H2)
  | H : runs (ret _) _ _ _ |- _ => apply runs_ret in H as [? ?]; simplify_eq/=
  | H : runs (emit _) _ _ _ |- _ => apply runs_emit in H; simplify_eq/=
  | H : runs (respond _ _) _ _ _ |- _ => apply runs_emit in H; simplify_eq/=
  | H : runs (audit _ _ _) _ _ _ |- _ => apply runs_emit in H; simplify_eq/=
  | H : runs (now _) _ _ _ |- _ => apply runs_now in H as [? ?]; simplify_eq/=
  | H : runs (sql _ _) _ _ _ |- _ =>
      let d := fresh "d" in let Hd := fresh "Hsql" in apply runs_sql in H as (d & Hd & ?); simplify_eq/=
  | H : runs (litellm _) _ _ _ |- _ =>
      let l := fresh "l" in let Hd := fresh "Hll" in apply runs_litellm in H as (l & Hd & ?); simplify_eq/=
  | H : runs (redis_del _ _) _ _ _ |- _ => apply runs_redis_del in H; simplify_eq/=
  | H : runs (draw_bearer _ _) _ _ _ |- _ => apply runs_draw_bearer in H as [? ?]; simplify_eq/=
  | H : runs (draw_keyid _ _) _ _ _ |- _ => apply runs_draw_keyid in H as [? ?]; simplify_eq/=
  | H : runs (seal _ _) _ _ _ |- _ => apply runs_seal in H as [? ?]; simplify_eq/=
  | H : runs (match ?x with _ => _ end) _ _ _ |- _ =>
      let Hx := fresh "Hc" in destruct x eqn:Hx
  end.

(** Take apart every run in the context whose program is in view. *)
Ltac inv_runs := repeat inv_run_step.

(** ** Traces *)

(** Every event satisfying [Q] is preceded in [tr] by one satisfying [P]. *)
Definition precedes (P Q : Event -> Prop) (tr : list Event) : Prop :=
  forall t1 e t2, tr = t1 ++ e :: t2 -> Q e -> exists e', e' ∈ t1 /\ P e'.

Lemma precedes_nil P Q : precedes P Q [].
Proof. intros t1 e t2 H. by destruct t1. Qed.

Lemma precedes_skip P Q e tr : (Q e -> False) -> precedes P Q tr -> precedes P Q (e :: tr).
Proof.
  intros Hn Ht [|x t1] e' t2 [= -> ->] HQ; [by destruct Hn|].
  destruct (Ht t1 e' t2 eq_refl HQ) as (p & Hp & HP). exists p. by split; [right|].
Qed.

Lemma precedes_hit P Q e tr : P e -> (Q e -> False) -> precedes P Q (e :: tr).
Proof.
  intros Hp Hn [|x t1] e' t2 [= -> ->] HQ; [by destruct Hn|]. exists x. split; [left|done].
Qed.

(** The events of a trace. *)
Definition new_events {L} (w w' : World L) (tr : list Event) : Prop := w_trace w' = w_trace w ++ tr.

Lemma new_events_inj {L} (w w' : World L) t1 t2 : new_events w w' t1 -> new_events w w' t2 -> t1 = t2.
Proof. unfold new_events. intros H1 H2. rewrite H1 in H2. by apply app_inv_head in H2. Qed.

Lemma new_events_trans {L} (w w1 w' : World L) t1 t2 :
  new_events w w1 t1 -> new_events w1 w' t2 -> new_events w w' (t1 ++ t2).
Proof. unfold new_events. intros H1 H2. by rewrite H2, H1, app_assoc. Qed.

Lemma new_events_responses {L} (w w' : World L) tr :
  new_events w w' tr -> responses (w_trace w') = responses (w_trace w) ++ responses tr.
Proof. unfold new_events. intros ->. apply responses_app. Qed.

(** ** Other processes *)

(** Between our statements others run any environment_keys statements. *)
Definition lawful (E : Env) : Prop :=
  forall n d, rtc table_step (db_ek d) (db_ek (interf_at E n d)).

(** No one else writes between our statements; faults are still arbitrary. *)
Definition alone (E : Env) : Prop := forall n d, interf_at E n d = d.

(** A read under any fault leaves the database alone and, when it answers, answers from it. *)
Lemma runs_read {L A} E op (q : DB -> A) (w w' : World L) r :
  alone E -> runs (sql E (fun f _ d => with_fault op f (Ok (q d), d) d)) w r w' ->
  w' = MkWorld (S (w_tick w)) (w_db w) (w_ll w) (w_trace w) /\ (forall x, r = Ok x -> x = q (w_db w)).
Proof.
  intros HA (d & Hd & ->)%runs_sql. rewrite HA in Hd.
  destruct (fault_at E (w_tick w)); cbn in Hd; simplify_eq; split; try done; by intros x [= ->].
Qed.

Lemma runs_read_raw {L A} E (q : DB -> A) (w w' : World L) r :
  alone E -> runs (sql E (fun f _ d => read_raw f (q d) d)) w r w' ->
  w' = MkWorld (S (w_tick w)) (w_db w) (w_ll w) (w_trace w) /\ (forall x, r = Ok x -> x = q (w_db w)).
Proof.
  intros HA (d & Hd & ->)%runs_sql. rewrite HA in Hd.
  destruct (fault_at E (w_tick w)); cbn in Hd; simplify_eq; split; try done; by intros x [= ->].
Qed.

(** No one else, no fault. *)
Definition quiet (E : Env) : Prop :=
  (forall n d, interf_at E n d = d) /\ (forall n, fault_at E n = NoFault).

Lemma quiet_lawful E : quiet E -> lawful E.
Proof. intros [Hi _] n d. rewrite Hi. done. Qed.

(** ** Life-cycle progress

    [ek_progress m]: whatever the run does, the environment_keys table moves
    only by whole statements of the key life cycle. *)
Section Progress.
Context {L : Type} (E : Env).

Definition ek_progress {A} (m : M L A) : Prop :=
  forall w a w', runs m w a w' -> rtc table_step (db_ek (w_db w)) (db_ek (w_db w')).

Lemma progress_ret {A} (x : A) : ek_progress (ret x).
Proof. intros w a w' [-> ->]%runs_ret. done. Qed.

Lemma progress_bind {A B} (m : M L A) (k : A -> M L B) :
  ek_progress m -> (forall a, ek_progress (k a)) -> ek_progress (bind m k).
Proof.
  intros Hm Hk w b w'' (a & w' & R1 & R2)%runs_bind. etrans; [by eapply Hm|by eapply Hk].
Qed.

Lemma progress_emit e : ek_progress (emit e : M L unit).
Proof. intros w a w' ->%runs_emit. done. Qed.

Lemma progress_now : ek_progress (now E : M L Z).
Proof. intros w a w' [_ ->]%runs_now. done. Qed.

Lemma progress_litellm {A} (c : L -> A * L) : ek_progress (litellm c).
Proof. intros w a w' (l & _ & ->)%runs_litellm. done. Qed.

Lemma progress_redis_del k : ek_progress (redis_del E k : M L bool).
Proof. intros w a w' ->%runs_redis_del. done. Qed.

Lemma progress_draw_bearer p : ek_progress (draw_bearer E p : M L _).
Proof. intros w a w' [_ ->]%runs_draw_bearer. done. Qed.

Lemma progress_draw_keyid p : ek_progress (draw_keyid E p : M L _).
Proof. intros w a w' [_ ->]%runs_draw_keyid. done. Qed.

Lemma progress_seal s : ek_progress (seal E s : M L _).
Proof. intros w a w' [_ ->]%runs_seal. done. Qed.

Lemma progress_sql {A} (stmt : Fault -> Z -> DB -> A * DB) :
  lawful E -> (forall f n d, rtc table_step (db_ek d) (db_ek (stmt f n d).2)) ->
  ek_progress (sql E stmt : M L _).
Proof.
  intros HE Hs w a w' (d & Hd & ->)%runs_sql; cbn.
  etrans; [apply HE|]. by specialize (Hs (fault_at E (w_tick w)) (now_at E (w_tick w))
    (interf_at E (w_tick w) (w_db w))); rewrite Hd in Hs.
Qed.

Lemma progress_on_ek {A} (f : gmap string EkRow -> Res DbErr A * gmap string EkRow) d :
  (forall t, rtc table_step t (f t).2) -> rtc table_step (db_ek d) (db_ek (on_ek f d).2).
Proof. intros Hf. unfold on_ek. specialize (Hf (db_ek d)). by destruct (f (db_ek d)). Qed.

Lemma progress_op o t : rtc table_step t (run_op o t).
Proof. apply rtc_once, run_op_step. Qed.

Lemma progress_read {A} op f (r : Res PgErr A) (d : gmap string EkRow) :
  rtc table_step d (with_fault op f (r, d) d).2.
Proof. by destruct f, r. Qed.

Lemma progress_read_db {A} op f (r : Res PgErr A) (d : DB) :
  rtc table_step (db_ek d) (db_ek (with_fault op f (r, d) d).2).
Proof. by destruct f, r. Qed.

End Progress.

Create HintDb progress.
#[export] Hint Resolve progress_ret progress_emit progress_now progress_litellm progress_redis_del
  progress_draw_bearer progress_draw_keyid progress_seal : progress.

(** Prove [ek_progress] of a program by its structure; statements are left. *)
Ltac progress_tac :=
  repeat match goal with
    | |- ek_progress (bind _ _) => apply progress_bind; [|intros ?]
    | |- ek_progress (match _ with _ => _ end) => case_match
    | |- ek_progress (respond _ _) => apply progress_emit
    | |- ek_progress (audit _ _ _) => apply progress_emit
    | |- ek_progress _ => solve [auto 2 with progress]
    end.

(** What survives any run of statements. *)
Lemma progress_row (t t' : gmap string EkRow) k r :
  rtc table_step t t' -> t !! k = Some r ->
  exists r', t' !! k = Some r' /\ identity_cols r' = identity_cols r
             /\ (er_status r = statusRevoked -> r' = r).
Proof.
  intros Hs. revert r. induction Hs as [t|t t1 t' H1 _ IH]; intros r Hk; [eauto|].
  destruct (table_step_row _ _ _ _ H1 Hk) as (r1 & Hk1 & S1).
  destruct (IH _ Hk1) as (r' & Hk' & Hid & Hrev). exists r'. split_and!; [done| |].
  - rewrite Hid. by apply row_step_identity.
  - intros Hr. pose proof (row_step_revoked _ _ S1 Hr) as ->. by apply Hrev.
Qed.

Lemma progress_wf (t t' : gmap string EkRow) : rtc table_step t t' -> ek_wf t -> ek_wf t'.
Proof. induction 1; eauto using table_step_wf. Qed.

(** A calm environment for concrete runs: a fixed clock, no faults, fixed
    random draws (one bearer, distinct ULIDs per tick), an identity cipher. *)
Definition calm (t : Z) (bearer : list ascii) : Env :=
  MkEnvironment (fun _ => t) (fun _ => NoFault) (fun _ d => d) (fun _ => false)
    (fun _ => [Some bearer]) (fun n => if (n <? 4)%nat then "01J000000000000000000000AA" else "01J000000000000000000000BB")
    (fun _ s => Some s) (fun p s => p +:+ s).

Lemma calm_quiet t b : quiet (calm t b).
Proof. done. Qed.
