(* ===== verification/KeyGrant.v ===== *)
(** * KeyGrants (internal/keygrant, internal/db/key_grants.go)

    The one rule that decides whether grants allow an exchange tuple, the
    budget the covering grants impose, and the operator's sweep plan. *)

From S2P Require Import Prelude Keys KeyDB LiteLLM World.
From Stdlib Require Import Permutation.
Import EkDB.

Open Scope string_scope.
Open Scope list_scope.

Definition Covering (grants : list KeyGrantRow) (identity env requester : string) : list KeyGrantRow :=
  List.filter (fun g => bool_decide (g_Identity g = identity)
                        && Contains (g_Environments g) env
                        && Contains (g_ServiceAccounts g) requester) grants.

Definition Miss (grants : list KeyGrantRow) (env : string) : string :=
  match grants with
  | [] => "no_grant_for_identity"
  | _ => if existsb (fun g => Contains (g_Environments g) env) grants
         then "requester_not_granted" else "environment_not_granted"
  end.

(** [budgetLess] on grants that both set a budget. *)
Definition budgetLess (a b : KeyGrantRow) : bool :=
  let ma := default 0%Z (g_MaxBudget a) in
  let mb := default 0%Z (g_MaxBudget b) in
  if bool_decide (ma <> mb) then (ma <? mb)%Z
  else if bool_decide (g_Namespace a <> g_Namespace b) then str_ltb (g_Namespace a) (g_Namespace b)
  else if bool_decide (g_Name a <> g_Name b) then str_ltb (g_Name a) (g_Name b)
  else str_ltb (g_BudgetDuration a) (g_BudgetDuration b).

(** The loop of [Budget]: keep the smallest so far. *)
Definition budget_step (best : option KeyGrantRow) (g : KeyGrantRow) : option KeyGrantRow :=
  match g_MaxBudget g with
  | None => best
  | Some _ => match best with
              | None => Some g
              | Some b => if budgetLess g b then Some g else Some b
              end
  end.

Definition tag_of (g : KeyGrantRow) : TagBudget :=
  MkTagBudget (default 0%Z (g_MaxBudget g)) (g_BudgetDuration g).

Definition Budget (covering : list KeyGrantRow) : option TagBudget :=
  tag_of <$> foldl budget_step None covering.

(** [Plan]: keys to revoke in order, and the ceiling of each covered key. *)
Fixpoint Plan_loop (grants : list KeyGrantRow) (keys : list EkKeyInfo)
    (revoke : list EkKeyInfo) (budgets : gmap string TagBudget)
    : list EkKeyInfo * gmap string TagBudget :=
  match keys with
  | [] => (revoke, budgets)
  | k :: rest =>
      match Covering grants (ek_OwnerEmail k) (ek_Environment k) (ek_Requester k) with
      | [] => Plan_loop grants rest (revoke ++ [k]) budgets
      | covering =>
          match Budget covering with
          | Some b => Plan_loop grants rest revoke (<[ek_KeyID k := b]> budgets)
          | None => Plan_loop grants rest revoke budgets
          end
      end
  end.

Definition Plan (grants : list KeyGrantRow) (keys : list EkKeyInfo) : list EkKeyInfo * gmap string TagBudget :=
  Plan_loop grants keys [] ∅.

(** ** The key_grants table *)

Definition UpsertKeyGrant (f : Fault) (row : KeyGrantRow) (t : gmap (string * string) KeyGrantRow)
    : Res DbErr unit * gmap (string * string) KeyGrantRow :=
  with_fault "UpsertKeyGrant" f (Ok tt, <[(g_Namespace row, g_Name row) := row]> t) t.

Definition DeleteKeyGrant (f : Fault) (ns name : string) (t : gmap (string * string) KeyGrantRow)
    : Res DbErr unit * gmap (string * string) KeyGrantRow :=
  with_fault "DeleteKeyGrant" f (Ok tt, delete (ns, name) t) t.

(** queryKeyGrants with its WHERE, ORDER BY name. *)
Definition queryKeyGrants (f : Fault) (op : string) (P : KeyGrantRow -> bool)
    (t : gmap (string * string) KeyGrantRow)
    : Res DbErr (list KeyGrantRow) * gmap (string * string) KeyGrantRow :=
  with_fault op f (Ok (sort_by g_Name (List.filter P (map snd (map_to_list t)))), t) t.

Definition ListKeyGrants (f : Fault) (ns : string) t :=
  queryKeyGrants f "ListKeyGrants" (fun g => bool_decide (g_Namespace g = ns)) t.

Definition ListKeyGrantsForIdentity (f : Fault) (ns identity : string) t :=
  queryKeyGrants f "ListKeyGrantsForIdentity"
    (fun g => bool_decide (g_Namespace g = ns) && bool_decide (g_Identity g = identity)) t.

(** ** Order lemmas *)

(** The fields [budgetLess] compares, most significant first. *)
Definition bkey (g : KeyGrantRow) := (default 0%Z (g_MaxBudget g), g_Namespace g, g_Name g, g_BudgetDuration g).

(** One lexicographic layer: compare by [lt] on distinct values, else by [rest]. *)
Definition lex_layer {A} `{EqDecision A} (lt : A -> A -> bool) (x y : A) (rest : bool) : bool :=
  if bool_decide (x <> y) then lt x y else rest.

Lemma lex_layer_true {A} `{EqDecision A} (lt : A -> A -> bool) x y rest :
  lex_layer lt x y rest = true <-> (x <> y /\ lt x y = true) \/ (x = y /\ rest = true).
Proof. unfold lex_layer. case_bool_decide; intuition congruence. Qed.

Lemma budgetLess_layers a b :
  budgetLess a b
  = lex_layer Z.ltb (default 0%Z (g_MaxBudget a)) (default 0%Z (g_MaxBudget b))
      (lex_layer str_ltb (g_Namespace a) (g_Namespace b)
         (lex_layer str_ltb (g_Name a) (g_Name b)
            (str_ltb (g_BudgetDuration a) (g_BudgetDuration b)))).
Proof. done. Qed.

Lemma str_ltb_asym a b : str_ltb a b = true -> str_ltb b a = true -> False.
Proof. intros H1 H2. pose proof (str_ltb_trans _ _ _ H1 H2) as X. by rewrite str_ltb_irrefl in X. Qed.

Lemma lex_layer_trans {A} `{EqDecision A} (lt : A -> A -> bool) x y z r1 r2 r3 :
  (forall a b c, lt a b = true -> lt b c = true -> lt a c = true) ->
  (forall a, lt a a = false) ->
  (r1 = true -> r2 = true -> r3 = true) ->
  lex_layer lt x y r1 = true -> lex_layer lt y z r2 = true -> lex_layer lt x z r3 = true.
Proof.
  intros Ht Hi Hr. rewrite !lex_layer_true.
  intros [[Hn1 H1]|[-> H1]] [[Hn2 H2]|[-> H2]]; eauto.
  left. split; [|eauto]. intros ->. pose proof (Ht _ _ _ H1 H2) as X. by rewrite Hi in X.
Qed.

Lemma lex_layer_total {A} `{EqDecision A} (lt : A -> A -> bool) x y r1 r2 :
  (forall a b, lt a b = false -> lt b a = false -> a = b) ->
  lex_layer lt x y r1 = false -> lex_layer lt y x r2 = false -> x = y /\ r1 = false /\ r2 = false.
Proof.
  intros Ht. unfold lex_layer. repeat case_bool_decide; subst; try done; intros HA HB.
  exfalso. eauto.
Qed.

Lemma budgetLess_irrefl a : budgetLess a a = false.
Proof.
  unfold budgetLess. rewrite !bool_decide_eq_false_2 by (intros X; by apply X). apply str_ltb_irrefl.
Qed.

Lemma budgetLess_trans a b c : budgetLess a b = true -> budgetLess b c = true -> budgetLess a c = true.
Proof.
  rewrite !budgetLess_layers.
  apply lex_layer_trans; [intros ???; rewrite !Z.ltb_lt; lia|intros; apply Z.ltb_irrefl|].
  apply lex_layer_trans; [apply str_ltb_trans|apply str_ltb_irrefl|].
  apply lex_layer_trans; [apply str_ltb_trans|apply str_ltb_irrefl|].
  apply str_ltb_trans.
Qed.

Lemma budgetLess_total a b : budgetLess a b = false -> budgetLess b a = false -> bkey a = bkey b.
Proof.
  rewrite !budgetLess_layers. unfold bkey. intros H1 H2.
  destruct (lex_layer_total Z.ltb _ _ _ _ ltac:(intros ??; rewrite !Z.ltb_ge; lia) H1 H2) as (-> & H3 & H4).
  destruct (lex_layer_total str_ltb _ _ _ _ str_ltb_total H3 H4) as (-> & H5 & H6).
  destruct (lex_layer_total str_ltb _ _ _ _ str_ltb_total H5 H6) as (-> & H7 & H8).
  by rewrite (str_ltb_total _ _ H7 H8).
Qed.

(** ** The budget is the least one, whatever the order *)

(** [g] sets a budget and no grant of [l] that sets one is below it. *)
Definition least_budget (l : list KeyGrantRow) (g : KeyGrantRow) : Prop :=
  g ∈ l /\ is_Some (g_MaxBudget g) /\
  forall h, h ∈ l -> is_Some (g_MaxBudget h) -> budgetLess h g = false.

Definition best_of (l : list KeyGrantRow) (best : option KeyGrantRow) : Prop :=
  match best with
  | Some g => least_budget l g
  | None => forall h, h ∈ l -> g_MaxBudget h = None
  end.

Lemma elem_snoc {A} (l : list A) x y : x ∈ l ++ [y] <-> x ∈ l \/ x = y.
Proof. by rewrite elem_of_app, list_elem_of_singleton. Qed.

Lemma budget_step_best l best g : best_of l best -> best_of (l ++ [g]) (budget_step best g).
Proof.
  unfold budget_step. destruct (g_MaxBudget g) as [m|] eqn:Hm; destruct best as [b|]; cbn.
  - intros (Hin & Hs & Hl). destruct (budgetLess g b) eqn:Hlt; split_and!; rewrite ?elem_snoc; eauto;
      intros h [Hh| ->]%elem_snoc Hhs; eauto using budgetLess_irrefl.
    destruct (budgetLess h g) eqn:E; [|done].
    rewrite <-(Hl h Hh Hhs). symmetry. by apply (budgetLess_trans _ g).
  - intros Hb. split_and!; rewrite ?elem_snoc; eauto.
    intros h [Hh| ->]%elem_snoc Hhs; [|apply budgetLess_irrefl].
    rewrite (Hb _ Hh) in Hhs. by destruct Hhs.
  - intros (Hin & Hs & Hl). split_and!; rewrite ?elem_snoc; eauto.
    intros h [Hh| ->]%elem_snoc Hhs; eauto. rewrite Hm in Hhs. by destruct Hhs.
  - intros Hb h [Hh| ->]%elem_snoc; eauto.
Qed.

Lemma budget_fold_best l : best_of l (foldl budget_step None l).
Proof.
  induction l as [|g l IH] using rev_ind; [by intros h ?%not_elem_of_nil|].
  rewrite foldl_app. by apply budget_step_best.
Qed.

Lemma least_budget_tag l g h : least_budget l g -> least_budget l h -> tag_of g = tag_of h.
Proof.
  intros (Hg & Hsg & Hlg) (Hh & Hsh & Hlh).
  pose proof (budgetLess_total g h (Hlh _ Hg Hsg) (Hlg _ Hh Hsh)) as E.
  unfold bkey in E. unfold tag_of. congruence.
Qed.

Lemma Budget_Some l b : Budget l = Some b <-> exists g, least_budget l g /\ tag_of g = b.
Proof.
  unfold Budget. pose proof (budget_fold_best l) as Hb.
  destruct (foldl budget_step None l) as [g|]; cbn in *.
  - split; [intros [= <-]; eauto|]. intros (h & Hh & <-). f_equal. by apply (least_budget_tag l).
  - split; [done|]. intros (h & (Hin & [m Hm] & _) & _). rewrite (Hb _ Hin) in Hm. done.
Qed.

Lemma Budget_None l : Budget l = None <-> forall g, g ∈ l -> g_MaxBudget g = None.
Proof.
  unfold Budget. pose proof (budget_fold_best l) as Hb.
  destruct (foldl budget_step None l) as [g|]; cbn in *; [|by split].
  split; [done|]. intros Hn. destruct Hb as (Hin & [m Hm] & _). rewrite (Hn _ Hin) in Hm. done.
Qed.

(** C23: the ceiling the covering grants impose is the least maxBudget among
    them (with its own duration) and does not depend on the order the
    database returned the grants in. *)
Theorem Budget_least_any_order (l l' : list KeyGrantRow) (HP : l ≡ₚ l') :
  Budget l = Budget l' /\
  match Budget l with
  | Some b => exists g, g ∈ l /\ g_MaxBudget g = Some (tb_MaxBudget b)
                        /\ g_BudgetDuration g = tb_BudgetDuration b
                        /\ forall h m, h ∈ l -> g_MaxBudget h = Some m -> (tb_MaxBudget b <= m)%Z
  | None => forall g, g ∈ l -> g_MaxBudget g = None
  end.
Proof.
  split.
  - apply option_eq. intros b. rewrite !Budget_Some. unfold least_budget. by setoid_rewrite HP.
  - destruct (Budget l) as [b|] eqn:Hb; [|by apply Budget_None].
    apply Budget_Some in Hb as (g & (Hin & [m Hm] & Hl) & <-).
    exists g. unfold tag_of; rewrite Hm; cbn. split_and!; try done.
    intros h m' Hh Hm'. pose proof (Hl h Hh (ex_intro _ _ Hm')) as X.
    rewrite budgetLess_layers, Hm, Hm' in X. unfold lex_layer in X; cbn in X.
    case_bool_decide as Hne; [by apply Z.ltb_ge in X|]. destruct (decide (m' = m)); [lia|done].
Qed.

(** ** The sweep plan *)

Lemma Covering_spec gs id env req g :
  g ∈ Covering gs id env req <->
  g ∈ gs /\ g_Identity g = id /\ env ∈ g_Environments g /\ req ∈ g_ServiceAccounts g.
Proof.
  unfold Covering. rewrite !list_elem_of_In, filter_In, !andb_true_iff, bool_decide_eq_true, !Contains_spec.
  rewrite !list_elem_of_In. tauto.
Qed.

(** A key's own covering grants. *)
Definition covers (gs : list KeyGrantRow) (k : EkKeyInfo) : list KeyGrantRow :=
  Covering gs (ek_OwnerEmail k) (ek_Environment k) (ek_Requester k).

Lemma Plan_loop_revoke gs keys rv bs :
  (Plan_loop gs keys rv bs).1 = rv ++ List.filter (fun k => bool_decide (covers gs k = [])) keys.
Proof.
  revert rv bs; induction keys as [|k keys IH]; intros rv bs; cbn [Plan_loop List.filter]; [by rewrite app_nil_r|].
  fold (covers gs k). destruct (covers gs k) as [|c cs]; [by rewrite IH, <-app_assoc|].
  destruct (Budget (c :: cs)); by rewrite IH.
Qed.

Lemma Plan_loop_budgets gs keys rv bs id (HN : NoDup (ek_KeyID <$> keys)) :
  (Plan_loop gs keys rv bs).2 !! id =
  match List.find (fun k => bool_decide (ek_KeyID k = id)) keys with
  | Some k => match Budget (covers gs k) with Some b => Some b | None => bs !! id end
  | None => bs !! id
  end.
Proof.
  revert rv bs; induction keys as [|k keys IH]; intros rv bs; cbn [Plan_loop List.find]; [done|].
  rewrite fmap_cons in HN. apply NoDup_cons in HN as [Hk HN].
  assert (Hfind : ek_KeyID k = id -> List.find (fun k => bool_decide (ek_KeyID k = id)) keys = None).
  { intros <-. destruct (List.find _ keys) as [x|] eqn:F; [|done].
    apply find_some in F as [Hin E%bool_decide_eq_true]. exfalso. apply Hk. rewrite <-E.
    apply list_elem_of_fmap_2, list_elem_of_In, Hin. }
  fold (covers gs k). case_bool_decide as Hid.
  - specialize (Hfind Hid). destruct (covers gs k) as [|c cs]; [by rewrite IH, Hfind|].
    destruct (Budget (c :: cs)); rewrite IH, Hfind by done; [|done]. subst id. by rewrite lookup_insert_eq.
  - destruct (covers gs k) as [|c cs]; [by rewrite IH|].
    destruct (Budget (c :: cs)); rewrite IH by done; [|done].
    by rewrite lookup_insert_ne by done.
Qed.

Lemma find_key_id (keys : list EkKeyInfo) k :
  NoDup (ek_KeyID <$> keys) -> k ∈ keys ->
  List.find (fun k' => bool_decide (ek_KeyID k' = ek_KeyID k)) keys = Some k.
Proof.
  induction keys as [|x keys IH]; cbn; [by intros _ ?%not_elem_of_nil|].
  intros [Hx HN]%NoDup_cons [->|Hin]%elem_of_cons; [by rewrite bool_decide_eq_true_2|].
  rewrite bool_decide_eq_false_2; [by apply IH|]. intros E. apply Hx. rewrite E.
  by apply list_elem_of_fmap_2.
Qed.

(** C22: the operator's sweep revokes exactly the exchange keys that no single
    grant covers, in listing order, and plans for every other key exactly the
    least budget of the grants that cover it; it plans no budget for a key it
    revokes. *)
Theorem Plan_exact (gs : list KeyGrantRow) (keys : list EkKeyInfo) (HN : NoDup (ek_KeyID <$> keys)) :
  let '(revoke, budgets) := Plan gs keys in
  revoke = List.filter (fun k => bool_decide (covers gs k = [])) keys /\
  (forall k, k ∈ keys ->
     (k ∈ revoke <-> forall g, g ∈ gs -> g_Identity g = ek_OwnerEmail k ->
                               ek_Environment k ∈ g_Environments g ->
                               ek_Requester k ∉ g_ServiceAccounts g) /\
     budgets !! ek_KeyID k = Budget (covers gs k) /\
     (k ∈ revoke -> budgets !! ek_KeyID k = None)) /\
  (forall id, (forall k, k ∈ keys -> ek_KeyID k <> id) -> budgets !! id = None).
Proof.
  destruct (Plan gs keys) as [rv bs] eqn:HP.
  assert (Hrv : rv = List.filter (fun k => bool_decide (covers gs k = [])) keys).
  { transitivity (Plan gs keys).1; [by rewrite HP|]. apply Plan_loop_revoke. }
  assert (Hbs : forall id, bs !! id = (Plan gs keys).2 !! id) by (by rewrite HP).
  assert (Hin : forall k, k ∈ rv <-> k ∈ keys /\ covers gs k = []).
  { intros k. rewrite Hrv, !list_elem_of_In, filter_In, bool_decide_eq_true. done. }
  assert (Hb : forall k, k ∈ keys -> bs !! ek_KeyID k = Budget (covers gs k)).
  { intros k Hk. rewrite Hbs. unfold Plan. rewrite Plan_loop_budgets, find_key_id by done.
    destruct (Budget _) eqn:B; [done|]. apply lookup_empty. }
  split_and!; [done| |].
  - intros k Hk. split_and!; [|by apply Hb|].
    + rewrite Hin. split.
      * intros [_ Hc] g Hg Hi He Hs. assert (X : g ∈ covers gs k) by (by apply Covering_spec).
        rewrite Hc in X. by apply not_elem_of_nil in X.
      * intros Hn. split; [done|]. destruct (covers gs k) as [|g r] eqn:Hc; [done|].
        assert (X : g ∈ covers gs k) by (rewrite Hc; apply list_elem_of_here).
        apply Covering_spec in X as (Hg & Hi & He & Hs). by destruct (Hn g Hg Hi He).
    + intros [_ Hc]%Hin. rewrite Hb by done. by rewrite Hc.
  - intros id Hid. rewrite Hbs. unfold Plan. rewrite Plan_loop_budgets by done.
    destruct (List.find _ keys) as [k|] eqn:F; [|apply lookup_empty].
    apply find_some in F as [Hk E%bool_decide_eq_true]. apply list_elem_of_In in Hk. by destruct (Hid k Hk).
Qed.

(** ** Concrete instances *)

Definition grant_cheap : KeyGrantRow := MkGrant "ach" "b" "ai.run@x" ["prod"] ["agents/doctor"] (Some 20%Z) "30d".
Definition grant_dear : KeyGrantRow := MkGrant "ach" "a" "ai.run@x" ["prod"] ["agents/doctor"] (Some 50%Z) "7d".
Definition key_of (id requester : string) : EkKeyInfo :=
  MkEkKeyInfo id "" "prod" "ai.run@x" "" None None None None None None None None requester.

Lemma Budget_least_any_order_witness :
  Budget [grant_dear; grant_cheap] = Budget [grant_cheap; grant_dear]
  /\ Budget [grant_dear; grant_cheap] = Some (MkTagBudget 20%Z "30d").
Proof.
  split; [|reflexivity].
  apply (Budget_least_any_order [grant_dear; grant_cheap] [grant_cheap; grant_dear]). constructor.
Defined.

Lemma Plan_exact_witness :
  let keys := [key_of "ekid_1" "agents/doctor"; key_of "ekid_2" "agents/other"] in
  (Plan [grant_dear; grant_cheap] keys).1 = [key_of "ekid_2" "agents/other"]
  /\ NoDup (ek_KeyID <$> keys)
  /\ (Plan [grant_dear; grant_cheap] keys).2 !! "ekid_1" = Some (MkTagBudget 20%Z "30d").
Proof.
  intros keys. assert (HN : NoDup (ek_KeyID <$> keys)) by (vm_compute; apply (bool_decide_unpack _); exact I).
  pose proof (Plan_exact [grant_dear; grant_cheap] keys HN) as X.
  split; [|split]; [reflexivity|exact HN|].
  destruct (Plan [grant_dear; grant_cheap] keys) as [rv bs]. destruct X as (_ & X & _).
  destruct (X (key_of "ekid_1" "agents/doctor") (list_elem_of_here _ _)) as (_ & Hb & _). exact Hb.
Defined.
