(* ===== verification/EnvKeys.v ===== *)
(** * Environment-key handlers (internal/platformapi/envkeys)

    The whole handlers behind POST/DELETE/PATCH /platform/keys: create (with
    the mint and its compensation), revoke in both branches, suspend, resume,
    budget, and the ServiceAccount exchange.  They are programs of [World.M]:
    every SQL statement, LiteLLM call, Redis DEL, audit record and response
    is a step, in the order of the source, and every early return of the
    source is a branch here.  HTTP decoding is an input (what the decoder
    produced); log lines are not modelled. *)

From S2P Require Import Prelude Keys KeyDB LiteLLM World.
Import EkDB PkDB.

Open Scope string_scope.
Open Scope list_scope.
Open Scope ach_scope.

(** ** Inputs *)

Record KeyContext : Type := MkKeyContext {
  kc_KeyID : string;
  kc_KeyType : Keys.BearerPrefix;
  kc_OwnerEmail : string;
  kc_Environment : string;
  kc_IsAdmin : bool
}.

Record BudgetRequest : Type := MkBudgetRequest {
  br_MaxBudget : option Float64;
  br_BudgetDuration : string
}.

(** [valid]: present and non-negative. *)
Definition budget_valid (b : BudgetRequest) : bool :=
  match br_MaxBudget b with Some m => (0 <=? m)%Z | None => false end.

Definition TagBudgetOf (b : BudgetRequest) : TagBudget :=
  MkTagBudget (default 0%Z (br_MaxBudget b)) (br_BudgetDuration b).

(** The optional expires_at text: absent or empty, not RFC3339, an instant. *)
Inductive ExpiresField : Type := ExpNone | ExpUnparsable | ExpAt (t : Z).

Record CreateRequest : Type := MkCreateRequest {
  cq_Environment : string;
  cq_Name : string;
  cq_ExpiresAt : ExpiresField;
  cq_Budget : option BudgetRequest
}.

(** The configuration part of the handlers' dependency bag. *)
Record Deps : Type := MkDeps {
  d_DefaultTeams : list string;
  d_Pepper : string;
  d_Namespace : string;
  d_Issuer : string;
  d_DefaultMaxKeys : Z;
  d_HasEndOAuthSessions : bool
}.

Record CreateResponse : Type := MkCreateResponse {
  cp_KeyID : string;
  cp_Plaintext : string;
  cp_Environment : string;
  cp_Name : string;
  cp_OwnerEmail : string;
  cp_ExpiresAt : option Z
}.

(** ** Outcome and error codes *)

Definition codeInvalidArgument := "invalid_argument".
Definition issuedViaExchange := "exchange".
Definition codeKeyLimitReached := "key_limit_reached".
Definition codeBudgetManagedByGrant := "budget_managed_by_grant".
Definition codeCannotRevokeActiveKey := "cannot_revoke_active_key".
Definition CacheKeyPrefix := "ach:key:".

Definition isEnterpriseTagsRejection (err : LLErr) : bool :=
  match root err with
  | APIError _ _ st _ body _ => (st =? 403)%Z && StrContains body "LiteLLM Enterprise"
  | _ => false
  end.

(** (status, outcome) of a LiteLLM error: a refusal is 502, the rest 503. *)
Definition ClassifyLitellmErr (err : LLErr) : Z * string :=
  match root err with
  | APIError _ _ st _ _ _ =>
      if (400 <=? st)%Z && (st <? 500)%Z then (502%Z, "litellm_rejected") else (503%Z, "litellm_unreachable")
  | Auth401Error _ _ => (502%Z, "litellm_rejected")
  | _ => (503%Z, "litellm_unreachable")
  end.

Inductive insertErrClass : Type := insertErrOther | insertErrEkidCollision | insertErrExchangeTuple.

#[global] Instance insertErrClass_eq_dec : EqDecision insertErrClass.
Proof. solve_decision. Defined.

Definition classifyInsertError (err : DbErr) : insertErrClass :=
  match pg_of err with
  | PgError code con =>
      if bool_decide (code <> "23505") then insertErrOther
      else if bool_decide (con = EkPkey) then insertErrEkidCollision
      else if bool_decide (con = ExchangeTupleConstraint) then insertErrExchangeTuple
      else insertErrOther
  | OtherErr => insertErrOther
  end.

(** [expired]: an optional expires_at that has passed. *)
Definition expired (now : Z) (row : EkKeyInfo) : bool :=
  match ek_ExpiresAt row with Some x => negb (now <? x)%Z | None => false end.

Definition has_status (s : KeyStatus) (row : EkKeyInfo) : bool := bool_decide (ek_Status row = Some s).

Section Handlers.
Context {L : Type} `{LiteLLM L} (E : Env) (deps : Deps).

(** ** Statements the handlers run *)

Definition get_ek (keyID : string) : M L (Res DbErr (option EkKeyInfo)) :=
  r <- sql E (fun f _ d => on_ek (GetEnvironmentKey f keyID) d) ;;
  emit (EDbRead "GetEnvironmentKey") ;;;
  ret r.

Definition flip_ek (op keyID : string)
    (stmt : Fault -> Z -> gmap string EkRow -> Res DbErr (option EkKeyInfo) * gmap string EkRow)
    : M L (Res DbErr (option EkKeyInfo)) :=
  r <- sql E (fun f n d => on_ek (stmt f n) d) ;;
  emit (EFlip op keyID r) ;;;
  ret r.

Definition insert_ek (row : EkInsertRow) : M L (Res DbErr unit) :=
  r <- sql E (fun f n d => on_ek (InsertEnvironmentKey f n row) d) ;;
  emit (EInsert row r) ;;;
  ret r.

Definition get_env (name : string) : M L (Res DbErr (option EnvironmentRow)) :=
  r <- sql E (fun f _ d => with_fault "GetEnvironmentByName" f (Ok (db_envs d !! name), d) d) ;;
  emit (EDbRead "GetEnvironmentByName") ;;;
  ret r.

(** UserKeyAllowance: non-revoked manual keys held under any casing of the
    e-mail, and the ceiling. *)
Definition UserKeyAllowance (f : Fault) (email : string) (defaultMax : Z) (d : DB)
    : Res DbErr (Z * Z) * DB :=
  let e := NormalizeEmail email in
  let held := rows_where (fun r => bool_decide (ToLower (er_owner_email r) = e)
                                   && bool_decide (er_status r <> statusRevoked)
                                   && bool_decide (er_issued_via r <> "exchange")) (db_ek d) in
  read_raw f (Z.of_nat (length held), default defaultMax (db_limits d !! e)) d.

Definition key_allowance (email : string) : M L (Res DbErr (Z * Z)) :=
  r <- sql E (fun f _ d => UserKeyAllowance f email (d_DefaultMaxKeys deps) d) ;;
  emit (EDbRead "UserKeyAllowance") ;;;
  ret r.

Definition find_exchange (owner env requester : string) : M L (Res DbErr (option EkKeyInfo)) :=
  r <- sql E (fun f _ d => on_ek (FindExchangeKey f owner env requester) d) ;;
  emit (EDbRead "FindExchangeKey") ;;;
  ret r.

(** ** LiteLLM calls the handlers make *)

Definition revoke_key (token : string) : M L (Res LLErr unit) :=
  r <- litellm (ll_RevokeKey token) ;;
  emit (ERevokeKey token r) ;;;
  ret r.

Definition key_generate (req : KeyGenerateRequest) : M L (Res LLErr KeyGenerateResponse) :=
  r <- litellm (ll_KeyGenerate req) ;;
  emit (EKeyGenerate req r) ;;;
  ret r.

Definition upsert_budget (tag : string) (b : TagBudget) : M L (Res LLErr unit) :=
  r <- litellm (ll_UpsertTagBudget tag b) ;;
  emit (EUpsertBudget tag b r) ;;;
  ret r.

Definition caller_teams (email : string) : M L (Res LLErr (list string)) :=
  r <- litellm (LookupCallerTeams email) ;;
  emit (ELLRead "LookupCallerTeams") ;;;
  ret r.

(** ** suspend.go *)

Definition invalidate (credentialHash : string) : M L unit :=
  redis_del E (CacheKeyPrefix +:+ credentialHash) ;;; ret tt.

(** The shared head of revoke, suspend, resume and budget. *)
Definition loadOwnedEk (kc : KeyContext) (keyID action : string) : M L (option EkKeyInfo) :=
  if bool_decide (kc_KeyType kc <> Keys.PrefixPk)
  then respond 401 "invalid_key_type" ;;; ret None
  else if negb (HasPrefix keyID Keys.EkidKeyIDPrefix)
  then respond 400 codeInvalidArgument ;;; ret None
  else
    r <- get_ek keyID ;;
    match r with
    | Err _ => audit action "internal_error" keyID ;;; respond 500 "internal_error" ;;; ret None
    | Ok None =>
        audit action "environment_not_found" keyID ;;; respond 404 "environment_not_found" ;;; ret None
    | Ok (Some row) =>
        if bool_decide (ek_OwnerEmail row <> kc_OwnerEmail kc) && negb (kc_IsAdmin kc)
        then audit action "not_key_owner" keyID ;;; respond 403 "not_key_owner" ;;; ret None
        else ret (Some row)
    end.

(** Re-read after an UPDATE that matched no row, and answer for that state. *)
Definition conflictFor (keyID : string) : M L unit :=
  r <- get_ek keyID ;;
  match r with
  | Err _ | Ok None => respond 500 "internal_error"
  | Ok (Some row) =>
      if has_status statusRevoked row then respond 409 "key_revoked"
      else t <- now E ;;
           if expired t row then respond 409 "key_expired" else respond 204 ""
  end.

Definition SuspendHandler (kc : KeyContext) (keyID : string) : M L unit :=
  row <- loadOwnedEk kc keyID "platform.ek.suspend" ;;
  match row with
  | None => ret tt
  | Some row =>
      if has_status statusRevoked row then respond 409 "key_revoked"
      else t <- now E ;;
      if expired t row then respond 409 "key_expired"
      else if has_status statusSuspended row then respond 204 ""
      else
        flipped <- flip_ek "SuspendEnvironmentKey" (ek_KeyID row)
                     (fun f _ => SuspendEnvironmentKey f (ek_KeyID row)) ;;
        match flipped with
        | Err _ => respond 500 "internal_error"
        | Ok None => conflictFor (ek_KeyID row)
        | Ok (Some _) =>
            invalidate (ek_CredentialHash row) ;;;
            audit "platform.ek.suspend" "suspended" (ek_KeyID row) ;;;
            respond 204 ""
        end
  end.

Definition ResumeHandler (kc : KeyContext) (keyID : string) : M L unit :=
  row <- loadOwnedEk kc keyID "platform.ek.resume" ;;
  match row with
  | None => ret tt
  | Some row =>
      if has_status statusRevoked row then respond 409 "key_revoked"
      else t <- now E ;;
      if expired t row then respond 409 "key_expired"
      else if has_status statusActive row then respond 204 ""
      else
        env <- get_env (ek_Environment row) ;;
        match env with
        | Err _ => respond 500 "internal_error"
        | Ok None => respond 403 "unauthorized_team"
        | Ok (Some env) =>
            teams <- caller_teams (ek_OwnerEmail row) ;;
            match teams with
            | Err _ => respond 503 "litellm_unreachable"
            | Ok teams =>
                if negb (HasIntersect (env_AuthorizedTeams env) teams)
                then respond 403 "unauthorized_team"
                else
                  flipped <- flip_ek "ResumeEnvironmentKey" (ek_KeyID row)
                               (fun f n => ResumeEnvironmentKey f n (ek_KeyID row)) ;;
                  match flipped with
                  | Err _ => respond 500 "internal_error"
                  | Ok None => conflictFor (ek_KeyID row)
                  | Ok (Some _) =>
                      invalidate (ek_CredentialHash row) ;;;
                      audit "platform.ek.resume" "resumed" (ek_KeyID row) ;;;
                      respond 204 ""
                  end
            end
        end
  end.

(** ** budget.go: PATCH /platform/keys/{key_id}/budget. [body] is what the
    strict decoder produced. *)
Definition BudgetHandler (kc : KeyContext) (keyID : string) (body : option BudgetRequest) : M L unit :=
  row <- loadOwnedEk kc keyID "platform.ek.budget" ;;
  match row with
  | None => ret tt
  | Some row =>
      if has_status statusRevoked row then respond 409 "key_revoked"
      else if bool_decide (ek_Requester row <> "") then respond 409 codeBudgetManagedByGrant
      else match body with
           | None => respond 400 codeInvalidArgument
           | Some req =>
               if negb (budget_valid req) then respond 400 codeInvalidArgument
               else
                 r <- upsert_budget (KeyBudgetTag (ek_KeyID row)) (TagBudgetOf req) ;;
                 match r with
                 | Err e => respond (ClassifyLitellmErr e).1 (ClassifyLitellmErr e).2
                 | Ok _ => audit "platform.ek.budget" "updated" (ek_KeyID row) ;;; respond 204 ""
                 end
           end
  end.

(** ** handler.go: the ekid_ branch of DELETE /platform/keys/{key_id} *)

(** Steps 6 to 8, after LiteLLM acknowledged (or no longer has) the key. *)
Definition revoke_after_ack (row : EkKeyInfo) : M L unit :=
  flipped <- flip_ek "RevokeEnvironmentKey" (ek_KeyID row)
               (fun f n => RevokeEnvironmentKey f n (ek_KeyID row)) ;;
  match flipped with
  | Err _ => audit "platform.ek.revoke" "internal_error" (ek_KeyID row) ;;; respond 500 "internal_error"
  | Ok _ =>
      r <- litellm (DeleteKeyBudget (ek_KeyID row)) ;;
      emit (EDeleteKeyBudget (ek_KeyID row) r) ;;;
      invalidate (ek_CredentialHash row) ;;;
      audit "platform.ek.revoke" "revoked" (ek_KeyID row) ;;;
      respond 204 ""
  end.

Definition revokeEnvironmentKey (kc : KeyContext) (keyID : string) : M L unit :=
  row <- loadOwnedEk kc keyID "platform.ek.revoke" ;;
  match row with
  | None => ret tt
  | Some row =>
      if has_status statusRevoked row then respond 204 ""
      else
        let llToken := default "" (ek_LiteLLMToken row) in
        r <- revoke_key llToken ;;
        match r with
        | Ok _ => revoke_after_ack row
        | Err e =>
            if negb (IsHTTPNotFound e)
            then audit "platform.ek.revoke" (ClassifyLitellmErr e).2 (ek_KeyID row) ;;;
                 respond (ClassifyLitellmErr e).1 (ClassifyLitellmErr e).2
            else revoke_after_ack row
        end
  end.

(** ** revoke_personal.go *)

Definition revokePersonalKey (kc : KeyContext) (keyID : string) (force : bool) : M L unit :=
  if bool_decide (kc_KeyType kc <> Keys.PrefixPk)
  then audit "platform.pk.revoke" "invalid_key_type" keyID ;;; respond 401 "invalid_key_type"
  else if negb (HasPrefix keyID Keys.PkidKeyIDPrefix) then respond 400 codeInvalidArgument
  else if bool_decide (kc_KeyID kc = keyID) && negb force
  then audit "platform.pk.revoke" codeCannotRevokeActiveKey keyID ;;; respond 409 codeCannotRevokeActiveKey
  else
    (if d_HasEndOAuthSessions deps then emit (EEndSessions (kc_OwnerEmail kc)) else ret tt) ;;;
    r <- sql E (fun f n d => on_pk (RevokePersonalKeyByOwner f n keyID (kc_OwnerEmail kc)) d) ;;
    emit (ERevokePk keyID (kc_OwnerEmail kc) (is_ok r)) ;;;
    match r with
    | Err ErrKeyNotFoundOrNotOwner =>
        audit "platform.pk.revoke" "not_key_owner" keyID ;;; respond 404 "key_not_found"
    | Err (RevokeDbErr _) =>
        audit "platform.pk.revoke" "internal_error" keyID ;;; respond 500 "internal_error"
    | Ok tok =>
        ok <- match tok with
              | Some t => if bool_decide (t <> "")
                          then r <- revoke_key t ;; ret (is_ok r)
                          else ret true
              | None => ret true
              end ;;
        audit "platform.pk.revoke" (if ok : bool then "revoked" else "litellm_unreachable") keyID ;;;
        respond 200 "revoked"
    end.

Definition RevokeHandler (kc : KeyContext) (keyID : string) (force : bool) : M L unit :=
  if HasPrefix keyID Keys.EkidKeyIDPrefix then revokeEnvironmentKey kc keyID
  else if HasPrefix keyID Keys.PkidKeyIDPrefix then revokePersonalKey kc keyID force
  else respond 400 codeInvalidArgument.

End Handlers.

(** ** Runs of the shared pieces *)

(** Reads, audit records and responses: nothing a key's state depends on. *)
Definition passive (e : Event) : bool :=
  match e with EDbRead _ | ELLRead _ | ECall _ _ | ERejected _ | EAudit _ _ _ | EResp _ _ => true | _ => false end.

(** The run answered once and touched nothing. *)
Definition refused {L} (w w' : World L) : Prop :=
  exists tr s c, new_events w w' tr /\ forallb passive tr = true /\ responses tr = [(s, c)]
                 /\ (s = 204 -> False)%Z.

Section RunLemmas.
Context {L : Type} `{LiteLLM L} (E : Env) (deps : Deps).

Lemma get_ek_runs keyID (w w' : World L) r :
  runs (get_ek E keyID) w r w' ->
  let d := interf_at E (w_tick w) (w_db w) in
  w' = MkWorld (S (w_tick w)) d (w_ll w) (w_trace w ++ [EDbRead "GetEnvironmentKey"])
  /\ (forall o, r = Ok o -> o = get_cols <$> (db_ek d !! keyID)).
Proof.
  intros R d. unfold get_ek in R. inv_runs.
  unfold on_ek, GetEnvironmentKey in Hsql. fold d in Hsql.
  destruct (with_fault _ _ _ _) as [r' t] eqn:Hf. simplify_eq.
  assert (t = db_ek d) as ->.
  { pose proof (with_fault_table (fun t => t = db_ek d) "GetEnvironmentKey" (fault_at E (w_tick w))
      (Ok (get_cols <$> db_ek d !! keyID), db_ek d) (db_ek d) eq_refl eq_refl) as X. by rewrite Hf in X. }
  split; [by destruct d|].
  intros o ->. apply with_fault_Ok in Hf as [_ [= <-]]. done.
Qed.

Lemma loadOwnedEk_runs kc keyID action (w w' : World L) r :
  runs (loadOwnedEk E kc keyID action) w r w' ->
  match r with
  | None => refused w w' /\ (w_db w' = w_db w \/ w_db w' = interf_at E (w_tick w) (w_db w))
  | Some row =>
      let d := interf_at E (w_tick w) (w_db w) in
      kc_KeyType kc = Keys.PrefixPk /\ HasPrefix keyID Keys.EkidKeyIDPrefix = true
      /\ (kc_OwnerEmail kc = ek_OwnerEmail row \/ kc_IsAdmin kc = true)
      /\ (exists er, db_ek d !! keyID = Some er /\ row = get_cols er)
      /\ w' = MkWorld (S (w_tick w)) d (w_ll w) (w_trace w ++ [EDbRead "GetEnvironmentKey"])
  end.
Proof.
  intros R. unfold loadOwnedEk in R. inv_runs.
  all: try match goal with G : runs (get_ek _ _) _ _ _ |- _ =>
         apply get_ek_runs in G as [-> Hr]; simplify_eq/= end.
  all: try (split; [|by auto]; eexists _, _, _;
            split; [by unfold new_events; cbn; rewrite <-?app_assoc|]; by split_and!).
  match goal with X : bool_decide (kc_KeyType kc <> _) = false |- _ => apply bool_decide_eq_false in X end.
  match goal with X : _ && _ = false |- _ => apply andb_false_iff in X end.
  specialize (Hr _ eq_refl). destruct (db_ek _ !! keyID) as [er|] eqn:Her; [|done]. simplify_eq/=.
  split_and!; eauto.
  - by destruct (decide (kc_KeyType kc = Keys.PrefixPk)).
  - by destruct (HasPrefix _ _).
  - match goal with X : _ \/ _ |- _ => destruct X as [Ho%bool_decide_eq_false|Ho%negb_false_iff] end; [left|by right].
    destruct (decide (er_owner_email er = kc_OwnerEmail kc)); [done|]. by destruct Ho.
Qed.

End RunLemmas.

(** ** Every handler follows the key life cycle *)
Section HandlerProgress.
Context {L : Type} `{LiteLLM L} (E : Env) (deps : Deps) (HE : lawful E).

Lemma progress_get_ek k : ek_progress (L := L) (get_ek E k).
Proof.
  unfold get_ek. progress_tac. apply progress_sql; [done|]. intros f n d.
  apply progress_on_ek. intros t. apply progress_read.
Qed.

Lemma progress_flip_ek op k stmt :
  (forall f n t, rtc table_step t (stmt f n t).2) -> ek_progress (L := L) (flip_ek E op k stmt).
Proof.
  intros Hs. unfold flip_ek. progress_tac. apply progress_sql; [done|]. intros f n d.
  by apply progress_on_ek.
Qed.

Lemma progress_insert_ek row : ek_progress (L := L) (insert_ek E row).
Proof.
  unfold insert_ek. progress_tac. apply progress_sql; [done|]. intros f n d.
  apply progress_on_ek. intros t. apply (progress_op (OpInsert f n row)).
Qed.

Lemma progress_get_env n : ek_progress (L := L) (get_env E n).
Proof. unfold get_env. progress_tac. apply progress_sql; [done|]. intros f m d. apply progress_read_db. Qed.

Lemma progress_key_allowance e : ek_progress (L := L) (key_allowance E deps e).
Proof.
  unfold key_allowance. progress_tac. apply progress_sql; [done|]. intros f m d. by destruct f.
Qed.

Lemma progress_find_exchange o e r : ek_progress (L := L) (find_exchange E o e r).
Proof.
  unfold find_exchange. progress_tac. apply progress_sql; [done|]. intros f m d.
  apply progress_on_ek. intros t. apply progress_read.
Qed.

Lemma progress_revoke_key t : ek_progress (L := L) (revoke_key t).
Proof. unfold revoke_key. progress_tac. Qed.
Lemma progress_key_generate r : ek_progress (L := L) (key_generate r).
Proof. unfold key_generate. progress_tac. Qed.
Lemma progress_upsert_budget t b : ek_progress (L := L) (upsert_budget t b).
Proof. unfold upsert_budget. progress_tac. Qed.
Lemma progress_caller_teams e : ek_progress (L := L) (caller_teams e).
Proof. unfold caller_teams. progress_tac. Qed.
Lemma progress_invalidate h : ek_progress (L := L) (invalidate E h).
Proof. unfold invalidate. progress_tac. Qed.

End HandlerProgress.

#[export] Hint Resolve progress_get_ek progress_flip_ek progress_insert_ek progress_get_env
  progress_key_allowance progress_find_exchange progress_revoke_key progress_key_generate
  progress_upsert_budget progress_caller_teams progress_invalidate : progress.

Section HandlersProgress.
Context {L : Type} `{LiteLLM L} (E : Env) (deps : Deps) (HE : lawful E).

Lemma progress_loadOwnedEk kc k action : ek_progress (L := L) (loadOwnedEk E kc k action).
Proof. unfold loadOwnedEk. progress_tac. Qed.

Lemma progress_conflictFor k : ek_progress (L := L) (conflictFor E k).
Proof. unfold conflictFor. progress_tac. Qed.

Hint Resolve progress_loadOwnedEk progress_conflictFor : progress.

Lemma progress_SuspendHandler kc k : ek_progress (L := L) (SuspendHandler E kc k).
Proof.
  unfold SuspendHandler. progress_tac.
  apply progress_flip_ek; [done|]. intros f n t. apply (progress_op (OpSuspend f _)).
Qed.

Lemma progress_ResumeHandler kc k : ek_progress (L := L) (ResumeHandler E kc k).
Proof.
  unfold ResumeHandler. progress_tac.
  apply progress_flip_ek; [done|]. intros f n t. apply (progress_op (OpResume f n _)).
Qed.

Lemma progress_BudgetHandler kc k b : ek_progress (L := L) (BudgetHandler E kc k b).
Proof. unfold BudgetHandler. progress_tac. Qed.

Lemma progress_revoke_after_ack row : ek_progress (L := L) (revoke_after_ack E row).
Proof.
  unfold revoke_after_ack. progress_tac.
  apply progress_flip_ek; [done|]. intros f n t. apply (progress_op (OpRevoke f n _)).
Qed.
Hint Resolve progress_revoke_after_ack : progress.

Lemma progress_revokeEnvironmentKey kc k : ek_progress (L := L) (revokeEnvironmentKey E kc k).
Proof. unfold revokeEnvironmentKey. progress_tac. Qed.

Lemma progress_revokePersonalKey kc k force : ek_progress (L := L) (revokePersonalKey E deps kc k force).
Proof.
  unfold revokePersonalKey. progress_tac.
  apply progress_sql; [done|]. intros f n d. unfold on_pk. by destruct (RevokePersonalKeyByOwner _ _ _ _ _).
Qed.
Hint Resolve progress_revokeEnvironmentKey progress_revokePersonalKey : progress.

Lemma progress_RevokeHandler kc k force : ek_progress (L := L) (RevokeHandler E deps kc k force).
Proof. unfold RevokeHandler. progress_tac. Qed.

End HandlersProgress.

#[export] Hint Resolve progress_loadOwnedEk progress_conflictFor progress_SuspendHandler progress_ResumeHandler
  progress_BudgetHandler progress_RevokeHandler progress_revokeEnvironmentKey : progress.

(** ** Revocation is LiteLLM-first *)

Definition acked (e : Event) : Prop :=
  exists tok r, e = ERevokeKey tok r /\ match r with Ok _ => True | Err x => IsHTTPNotFound x = true end.
Definition is_flip (e : Event) : Prop := match e with EFlip _ _ _ => True | _ => False end.
Definition flipped_ok (e : Event) : Prop := match e with EFlip _ _ (Ok _) => True | _ => False end.
Definition is_del (e : Event) : Prop := match e with EDel _ _ => True | _ => False end.

Lemma refused_no_calls {L} (w w' : World L) tr :
  refused w w' -> new_events w w' tr ->
  precedes acked is_flip tr /\ precedes flipped_ok is_del tr
  /\ (forall tok r, ERevokeKey tok r ∉ tr).
Proof.
  intros (tr' & s & c & Hn & Hp & _) Hn'. rewrite (new_events_inj _ _ _ _ Hn' Hn). clear Hn Hn'.
  assert (Hall : forall e, e ∈ tr' -> passive e = true).
  { intros e He. eapply forallb_forall in Hp; [done|]. by apply list_elem_of_In. }
  assert (Hany : forall P (Q : Event -> Prop), (forall e, Q e -> passive e = false) -> precedes P Q tr').
  { intros P Q HQ t1 e t2 -> He. specialize (Hall e ltac:(set_solver)). by rewrite (HQ e He) in Hall. }
  split_and!; [apply Hany; by intros []|apply Hany; by intros []|].
  intros tok r Hin%Hall. done.
Qed.

Ltac new_tr := unfold new_events; cbn; rewrite <-?app_assoc; reflexivity.

(** The flip and what follows it, once LiteLLM acknowledged. *)
Lemma revoke_after_ack_runs {L} `{LiteLLM L} E row (w w' : World L) a :
  runs (revoke_after_ack E row) w a w' ->
  exists r, w_tick w <= w_tick w' /\
    match r with
    | Err _ => new_events w w' [EFlip "RevokeEnvironmentKey" (ek_KeyID row) r;
                                EAudit "platform.ek.revoke" "internal_error" (ek_KeyID row);
                                EResp 500 "internal_error"]
    | Ok o => exists b f, new_events w w'
                [EFlip "RevokeEnvironmentKey" (ek_KeyID row) r; EDeleteKeyBudget (ek_KeyID row) b;
                 EDel (CacheKeyPrefix +:+ ek_CredentialHash row) f;
                 EAudit "platform.ek.revoke" "revoked" (ek_KeyID row); EResp 204 ""]
             /\ RevokeEnvironmentKey NoFault (now_at E (w_tick w)) (ek_KeyID row)
                  (db_ek (interf_at E (w_tick w) (w_db w))) = (Ok o, db_ek (w_db w'))
    end.
Proof.
  intros R. unfold revoke_after_ack, flip_ek, invalidate in R. inv_runs;
    match goal with X : on_ek _ _ = (?r, _) |- _ => exists r end; (split; [cbn; lia|]); [|new_tr].
  eexists _, _. split; [new_tr|]. unfold on_ek in Hsql.
  destruct (RevokeEnvironmentKey _ _ _ _) as [r t] eqn:Hr. simplify_eq. cbn.
  assert (fault_at E (w_tick w) = NoFault) as Hf by (by apply with_fault_Ok in Hr as [? _]).
  by rewrite Hf in Hr.
Qed.

(** Membership in an explicit trace, one goal per possible event. *)
Ltac in_trace Hin :=
  cbn [app] in Hin;
  lazymatch type of Hin with
  | _ ∈ [] => exfalso; exact (not_elem_of_nil _ Hin)
  | _ ∈ _ :: _ => apply elem_of_cons in Hin as [Hin|Hin]; [try discriminate Hin; simplify_eq/=|in_trace Hin]
  end.

Ltac prec :=
  repeat first [ apply precedes_nil
               | apply precedes_hit; [solve [assumption | exact I] | by cbn]
               | apply precedes_skip; [by cbn|] ].

(** The paths of the ekid_ revoke: refused by the guards, already revoked,
    refused by LiteLLM, or acknowledged. *)
Lemma revokeEnvironmentKey_runs {L} `{LiteLLM L} E kc keyID (w w' : World L) a :
  runs (revokeEnvironmentKey E kc keyID) w a w' ->
  let d := interf_at E (w_tick w) (w_db w) in
  refused w w' \/ exists er, db_ek d !! keyID = Some er /\
    ((er_status er = statusRevoked /\ w_db w' = d
      /\ new_events w w' [EDbRead "GetEnvironmentKey"; EResp 204 ""])
     \/ (exists e, IsHTTPNotFound e = false /\ w_db w' = d
         /\ new_events w w' [EDbRead "GetEnvironmentKey"; ERevokeKey (default "" (er_litellm_token er)) (Err e);
                             EAudit "platform.ek.revoke" (ClassifyLitellmErr e).2 (er_key_id er);
                             EResp (ClassifyLitellmErr e).1 (ClassifyLitellmErr e).2])
     \/ (exists ans w1, acked (ERevokeKey (default "" (er_litellm_token er)) ans) /\ w_db w1 = d
         /\ w_tick w1 = S (S (w_tick w))
         /\ new_events w w1 [EDbRead "GetEnvironmentKey"; ERevokeKey (default "" (er_litellm_token er)) ans]
         /\ runs (revoke_after_ack E (get_cols er)) w1 a w')).
Proof.
  intros R d. unfold revokeEnvironmentKey in R. apply runs_bind in R as (o & w1 & R1 & R2).
  apply loadOwnedEk_runs in R1. destruct o as [row|].
  2:{ apply runs_ret in R2 as [_ ->]. left. by destruct R1. }
  right. destruct R1 as (_ & _ & _ & (er & Her & ->) & ->). exists er. split; [done|].
  unfold revoke_key in R2. inv_runs.
  - left. split_and!; [|done|new_tr]. unfold has_status in Hc. apply bool_decide_eq_true in Hc. cbn in Hc. congruence.
  - right; right. match goal with X : ll_RevokeKey _ _ = (?r, _) |- _ => exists r end.
    eexists. split; [|split; [|split; [|split; [|eassumption]]]]; [by eexists _, _|done|done|new_tr].
  - right; left. exists e. apply negb_true_iff in Hc1. split_and!; [done|done|new_tr].
  - right; right. match goal with X : ll_RevokeKey _ _ = (?r, _) |- _ => exists r end.
    eexists. split; [|split; [|split; [|split; [|eassumption]]]]; [|done|done|new_tr].
    eexists _, _; split; [reflexivity|]. by apply negb_false_iff.
Qed.

(** C2: revoking an environment key kills the LiteLLM key first.  On every
    path, with any LiteLLM behaviour, database fault and concurrent writer,
    the row is flipped only after LiteLLM acknowledged the deletion of that
    row's own token (or said 404), and the cache entry is dropped only after
    the flip succeeded; any other LiteLLM answer leaves the database exactly
    as it was and is reported as 502 (refused) or 503 (unreachable). *)
Theorem revoke_is_litellm_first {L} `{LiteLLM L} (E : Env) (kc : KeyContext) (keyID : string) (w : World L) :
  let w' := final (revokeEnvironmentKey E kc keyID) w in
  let d := interf_at E (w_tick w) (w_db w) in
  exists tr, new_events w w' tr
  /\ precedes acked is_flip tr
  /\ precedes flipped_ok is_del tr
  /\ (forall tok r, ERevokeKey tok r ∈ tr ->
        exists row, db_ek d !! keyID = Some row /\ tok = default "" (er_litellm_token row))
  /\ (forall tok e, ERevokeKey tok (Err e) ∈ tr -> IsHTTPNotFound e = false ->
        w_db w' = d /\ responses tr = [ClassifyLitellmErr e]).
Proof.
  intros w' d. pose proof (runs_final (revokeEnvironmentKey E kc keyID) w) as R. fold w' in R. clearbody w'.
  apply revokeEnvironmentKey_runs in R as [Href|(er & Her & R)].
  { pose proof Href as (tr & _ & _ & Hn & _). exists tr.
    destruct (refused_no_calls _ _ _ Href Hn) as (? & ? & Hno).
    split_and!; try done; intros tok r Hin; by destruct (Hno _ _ Hin). }
  destruct R as [(_ & Hdb & Hn)|[(e & He & Hdb & Hn)|(ans & w1 & Hack & Hdb & _ & Hn & R)]].
  3: apply revoke_after_ack_runs in R as ([o|e] & _ & R); [destruct R as (? & ? & R & _)|];
     pose proof (new_events_trans _ _ _ _ _ Hn R) as Hn'; clear Hn R; rename Hn' into Hn.
  all: eexists; split; [exact Hn|]; cbn [app]; split_and!; [prec|prec| |].
  all: intros tok r Hin; in_trace Hin; first [by exists er | intros Hx]; try congruence.
  - split; [done|]. by destruct (ClassifyLitellmErr _).
  - destruct Hack as (? & ? & [= <- <-] & Hack). congruence.
  - destruct Hack as (? & ? & [= <- <-] & Hack). congruence.
Qed.

(** ** What a 204 promises *)

Lemma refused_responses {L} (w w' : World L) rs :
  refused w w' -> responses (w_trace w') = responses (w_trace w) ++ rs -> rs <> [(204%Z, "")].
Proof.
  intros (tr & s & c & Hn & _ & Hr & Hs) H. unfold new_events in Hn. rewrite Hn, responses_app, Hr in H.
  apply app_inv_head in H as <-. intros [= -> ->]. by apply Hs.
Qed.

(** A run of the revoke statement that answered leaves the key revoked. *)
Lemma RevokeEnvironmentKey_revokes now k (t t' : gmap string EkRow) o r :
  RevokeEnvironmentKey NoFault now k t = (Ok o, t') -> t !! k = Some r ->
  exists r', t' !! k = Some r' /\ er_status r' = statusRevoked.
Proof.
  unfold RevokeEnvironmentKey, flipEnvironmentKey, flip_stmt. cbn. intros H Hk. rewrite Hk in H.
  case_bool_decide as Hs; simplify_eq.
  - rewrite lookup_insert_eq. eauto.
  - exists r. split; [done|]. by destruct (decide (er_status r = statusRevoked)).
Qed.

Lemma revoked_never_resolves (t : gmap string EkRow) k r f now :
  ek_wf t -> t !! k = Some r -> er_status r = statusRevoked ->
  forall i t', EkResolve f now (er_credential_hash r) t <> (Ok (Some i), t').
Proof.
  intros Hwf Hk Hs i t' He. apply with_fault_Ok in He as [_ He]. unfold resolve_stmt in He.
  destruct (select1 _ t) as [[k' r']|] eqn:S; [|done].
  apply select1_Some in S as [Hk' HP]. apply andb_true_iff in HP as [Hh%bool_decide_eq_true Hl].
  assert (k' = k) as -> by (by eapply (wf_hash t Hwf)). simplify_eq.
  unfold ek_live in Hl. apply andb_true_iff in Hl as [Hl%bool_decide_eq_true _]. congruence.
Qed.

(** C11: when the revoke endpoint answers 204, whatever other replicas did
    meanwhile, the key's row is revoked, and from then on no sequence of
    statements makes its credential resolve again. *)
Theorem revoke_204_is_final {L} `{LiteLLM L} (E : Env) (kc : KeyContext) (keyID : string) (w : World L)
    (HE : lawful E) (Hwf : ek_wf (db_ek (w_db w)))
    (H204 : responses (w_trace (final (revokeEnvironmentKey E kc keyID) w))
            = responses (w_trace w) ++ [(204%Z, "")]) :
  exists row, db_ek (w_db (final (revokeEnvironmentKey E kc keyID) w)) !! keyID = Some row
  /\ er_status row = statusRevoked
  /\ forall t' f now i t'', rtc table_step (db_ek (w_db (final (revokeEnvironmentKey E kc keyID) w))) t' ->
       EkResolve f now (er_credential_hash row) t' <> (Ok (Some i), t'').
Proof.
  pose proof (runs_final (revokeEnvironmentKey E kc keyID) w) as R.
  pose proof (progress_revokeEnvironmentKey E HE kc keyID _ _ _ R) as Hprog.
  set (w' := final (revokeEnvironmentKey E kc keyID) w) in *. clearbody w'.
  cut (exists row, db_ek (w_db w') !! keyID = Some row /\ er_status row = statusRevoked).
  { intros (row & Hk & Hs). exists row. split_and!; [done..|]. intros t' f n i t'' Hst.
    destruct (progress_row _ _ _ _ Hst Hk) as (r' & Hk' & _ & Heq). rewrite (Heq Hs) in Hk'.
    by eapply revoked_never_resolves; [by eapply progress_wf, progress_wf| |]. }
  apply revokeEnvironmentKey_runs in R as [Href|(er & Her & R)];
    [by destruct (refused_responses _ _ _ Href H204)|].
  assert (er_key_id er = keyID) as Hid.
  { apply (wf_key (db_ek (interf_at E (w_tick w) (w_db w)))) with (k := keyID); [|done].
    eapply progress_wf; [apply HE|done]. }
  destruct R as [(Hs & Hdb & _)|[(e & _ & _ & Hn)|(ans & w1 & _ & Hdb & _ & Hn & R)]].
  - exists er. by rewrite Hdb.
  - rewrite (new_events_responses _ _ _ Hn) in H204. apply app_inv_head in H204. exfalso.
    cbn in H204. unfold ClassifyLitellmErr in H204. by repeat case_match.
  - apply revoke_after_ack_runs in R as ([o|e] & _ & R).
    + destruct R as (_ & _ & _ & HR). cbn in HR. rewrite Hid, Hdb in HR.
      destruct (progress_row _ _ _ _ (HE (w_tick w1) (interf_at E (w_tick w) (w_db w))) Her) as (r1 & Hr1 & _).
      by eapply RevokeEnvironmentKey_revokes.
    + pose proof (new_events_trans _ _ _ _ _ Hn R) as Hn'.
      rewrite (new_events_responses _ _ _ Hn') in H204. by apply app_inv_head in H204.
Qed.

(** ** Resume, exactly *)

(** Caller guard of the owner-scoped routes. *)
Definition may_manage (kc : KeyContext) (keyID : string) (r : EkRow) : bool :=
  bool_decide (kc_KeyType kc = Keys.PrefixPk) && HasPrefix keyID Keys.EkidKeyIDPrefix
  && (bool_decide (kc_OwnerEmail kc = er_owner_email r) || kc_IsAdmin kc).

(** The owner's access to the key's Environment, from LiteLLM and the projection. *)
Definition owner_has_access {L} `{LiteLLM L} (d : DB) (l : L) (r : EkRow) : bool :=
  match db_envs d !! er_environment r, (LookupCallerTeams (er_owner_email r) l).1 with
  | Some env, Ok teams => HasIntersect (env_AuthorizedTeams env) teams
  | _, _ => false
  end.

Lemma not_expired_expired t r : expired t (get_cols r) = negb (not_expired t (er_expires_at r)).
Proof. unfold expired, not_expired. cbn. by destruct (er_expires_at r). Qed.

Lemma loadOwnedEk_quiet {L} `{LiteLLM L} E kc keyID action (w w' : World L) o r :
  quiet E -> db_ek (w_db w) !! keyID = Some r -> runs (loadOwnedEk E kc keyID action) w o w' ->
  w_db w' = w_db w /\ if may_manage kc keyID r
  then o = Some (get_cols r) /\ w' = MkWorld (S (w_tick w)) (w_db w) (w_ll w)
                                       (w_trace w ++ [EDbRead "GetEnvironmentKey"])
  else o = None.
Proof.
  intros [Hi Hf] Hk R. pose proof R as R0. apply loadOwnedEk_runs in R. destruct o as [row|].
  - destruct R as (Hpk & Hp & Ho & (er & Her & ->) & ->). rewrite Hi in *. cbn.
    split; [done|]. rewrite Hk in Her. simplify_eq. unfold may_manage. rewrite bool_decide_eq_true_2, Hp by done. cbn.
    destruct Ho as [-> | ->]; [by rewrite bool_decide_eq_true_2|]. by rewrite orb_true_r.
  - split; [destruct R as [_ [-> | ->]]; by rewrite ?Hi|].
    destruct (may_manage kc keyID r) eqn:Hm; [|done]. exfalso. unfold may_manage in Hm.
    apply andb_true_iff in Hm as [[Hpk%bool_decide_eq_true Hp]%andb_true_iff Ho].
    unfold loadOwnedEk in R0. rewrite bool_decide_eq_false_2, Hp in R0 by (intros X; by apply X). cbn in R0.
    unfold get_ek in R0. inv_runs; unfold on_ek, GetEnvironmentKey in Hsql; rewrite Hi, Hf, ?Hk in Hsql; cbn in Hsql; simplify_eq.
    cbn in *. match goal with X : _ && _ = true |- _ => apply andb_true_iff in X as [Hn%bool_decide_eq_true Ha] end.
    apply orb_true_iff in Ho as [Ho%bool_decide_eq_true|Ho]; [by destruct Hn|by rewrite Ho in Ha].
Qed.

Lemma get_env_quiet {L} E name (w w' : World L) r :
  quiet E -> runs (get_env E name) w r w' ->
  r = Ok (db_envs (w_db w) !! name)
  /\ w' = MkWorld (S (w_tick w)) (w_db w) (w_ll w) (w_trace w ++ [EDbRead "GetEnvironmentByName"]).
Proof. intros [Hi Hf] R. unfold get_env in R. inv_runs. rewrite Hi, Hf in Hsql. cbn in Hsql. by simplify_eq. Qed.

Lemma flip_ek_quiet {L} E op k stmt (w w' : World L) r :
  quiet E -> runs (flip_ek E op k stmt) w r w' ->
  exists t, stmt NoFault (now_at E (w_tick w)) (db_ek (w_db w)) = (r, t)
  /\ w' = MkWorld (S (w_tick w)) (set_ek t (w_db w)) (w_ll w) (w_trace w ++ [EFlip op k r]).
Proof.
  intros [Hi Hf] R. unfold flip_ek in R. inv_runs. rewrite Hi, Hf in Hsql. unfold on_ek in Hsql.
  destruct (stmt _ _ _) as [r' t]. simplify_eq. eauto.
Qed.

(** C26: with no one else writing, resume changes the table exactly when the
    caller owns the key (or is an admin), the key is suspended and unexpired
    both when read and when flipped, and the key's owner (not the caller)
    still holds access to the Environment; then only that row becomes active
    and the answer is 204, and otherwise nothing is written at all. *)
Theorem ResumeHandler_exact {L} `{LiteLLM L} (E : Env) (kc : KeyContext) (keyID : string) (w : World L) (r : EkRow)
    (HQ : quiet E) (Hk : db_ek (w_db w) !! keyID = Some r) (Hid : er_key_id r = keyID) :
  let w' := final (ResumeHandler E kc keyID) w in
  let ok := may_manage kc keyID r && bool_decide (er_status r = statusSuspended)
            && not_expired (now_at E (1 + w_tick w)) (er_expires_at r)
            && not_expired (now_at E (4 + w_tick w)) (er_expires_at r)
            && owner_has_access (w_db w) (w_ll w) r in
  db_ek (w_db w') = (if ok then <[keyID := set_status statusActive (er_revoked_at r) r]> (db_ek (w_db w))
                     else db_ek (w_db w))
  /\ (ok = true -> responses (w_trace w') = responses (w_trace w) ++ [(204%Z, "")]).
Proof.
  subst keyID. intros w' ok. pose proof (runs_final (ResumeHandler E kc (er_key_id r)) w) as R. fold w' in R. clearbody w'.
  unfold ResumeHandler in R. apply runs_bind in R as (o & w1 & R1 & R2).
  apply (loadOwnedEk_quiet _ _ _ _ _ _ _ r) in R1 as [Hdb R1]; [|done..]. subst ok.
  destruct (may_manage kc (er_key_id r) r); [destruct R1 as [-> ->]|].
  2:{ subst o. apply runs_ret in R2 as [_ ->]. by rewrite Hdb. }
  cbn. unfold has_status in R2. cbn in R2.
  apply runs_if in R2 as [[Hrev%bool_decide_eq_true R2]|[Hrev R2]].
  { simplify_eq. apply runs_emit in R2. subst w'. by rewrite (bool_decide_eq_false_2 (er_status r = _)) by congruence. }
  apply runs_bind in R2 as (t & w2 & Rn & R1). apply runs_now in Rn as [-> ->]. cbn in R1.
  rewrite not_expired_expired in R1.
  apply runs_if in R1 as [[Hexp%negb_true_iff R1]|[Hexp%negb_false_iff R1]]; rewrite Hexp;
    [apply runs_emit in R1; subst w'; cbn; by rewrite !andb_false_r|].
  apply runs_if in R1 as [[Hact%bool_decide_eq_true R1]|[Hact R1]].
  { simplify_eq. apply runs_emit in R1. subst w'. by rewrite (bool_decide_eq_false_2 (er_status r = _)) by congruence. }
  clear Hrev Hact. apply runs_bind in R1 as (x & w2 & Re & R1).
  apply get_env_quiet in Re as [-> ->]; [|done]. unfold owner_has_access. cbn in *.
  destruct (db_envs (w_db w) !! er_environment r) as [env|]; [|apply runs_emit in R1; subst w'; by rewrite !andb_false_r].
  apply runs_bind in R1 as (x & w2 & Re & R1). unfold caller_teams in Re. inv_run_step. inv_run_step.
  inv_run_step. inv_run_step. inv_run_step. cbn in *. rewrite Hll. cbn.
  destruct a as [teams|e]; [|apply runs_emit in R1; subst w'; by rewrite !andb_false_r].
  apply runs_if in R1 as [[Hteam%negb_true_iff R1]|[Hteam%negb_false_iff R1]]; rewrite Hteam;
    [apply runs_emit in R1; subst w'; by rewrite !andb_false_r|].
  apply runs_bind in R1 as (x & w2 & Re & R1). apply flip_ek_quiet in Re as (t & Ht & ->); [|done].
  unfold ResumeEnvironmentKey, flipEnvironmentKey, flip_stmt in Ht. cbn in Ht. rewrite Hk in Ht.
  rewrite !andb_true_r. destruct (_ && _); cbn in Ht; simplify_eq.
  - unfold invalidate in R1. inv_runs. split; [done|]. intros _. cbn.
    rewrite <-!app_assoc, responses_app. done.
  - unfold conflictFor in R1. apply runs_bind in R1 as (x & w3 & Re & R1).
    apply get_ek_runs in Re as [-> _]. destruct HQ as [Hi _]. cbn in R1. rewrite !Hi in R1.
    split; [|done]. by inv_runs.
Qed.

(** ** Concrete instances *)

Definition x_row (st : KeyStatus) : EkRow :=
  MkEkRow "ekid_1" "h1" "dev" "a@x" "n" st (Some "u") (Some "tok1") None 0 None None (Some 500%Z) "manual" None.
Definition x_db (st : KeyStatus) : DB :=
  MkDB {["ekid_1" := x_row st]} ∅ {["dev" := MkEnv "dev" ["T1"] [] [] CondAbsent]} ∅ ∅.
Definition x_ll : FakeLL :=
  MkFake [MkUserInfo "u" "a@x" ["T1"]] [MkTeam "T1" "team-one"] ["tok1"] ["tok2"] None None None.
Definition x_world (st : KeyStatus) : World FakeLL := MkWorld 0 (x_db st) x_ll [].
Definition x_kc : KeyContext := MkKeyContext "pkid_1" Keys.PrefixPk "a@x" "" false.

Lemma x_wf : ek_wf (db_ek (x_db statusActive)).
Proof.
  assert (H : forall k r, db_ek (x_db statusActive) !! k = Some r -> k = "ekid_1" /\ r = x_row statusActive).
  { intros k r Hk. cbn in Hk. apply lookup_singleton_Some in Hk as [<- <-]. done. }
  split; intros *; intros; repeat match goal with X : _ !! _ = Some _ |- _ => apply H in X as [-> ->] end;
    try done; cbn; auto; try (split; done); split; intros; congruence.
Qed.

Lemma revoke_204_is_final_witness :
  exists row, db_ek (w_db (final (revokeEnvironmentKey (calm 100 []) x_kc "ekid_1") (x_world statusActive))) !! "ekid_1" = Some row
  /\ er_status row = statusRevoked.
Proof.
  edestruct (revoke_204_is_final (calm 100 []) x_kc "ekid_1" (x_world statusActive)
              (quiet_lawful _ (calm_quiet 100 [])) x_wf) as (row & H1 & H2 & _).
  - vm_compute; reflexivity.
  - exists row. split; assumption.
Defined.

Lemma ResumeHandler_exact_witness :
  db_ek (w_db (final (ResumeHandler (calm 100 []) x_kc "ekid_1") (x_world statusSuspended)))
    = <["ekid_1" := set_status statusActive None (x_row statusSuspended)]> (db_ek (x_db statusSuspended)).
Proof.
  pose proof (ResumeHandler_exact (calm 100 []) x_kc "ekid_1" (x_world statusSuspended) (x_row statusSuspended)
                (calm_quiet 100 []) eq_refl eq_refl) as [X _]. exact X.
Defined.
