(* ===== verification/Mint.v ===== *)
(** * Minting environment keys (internal/platformapi/envkeys handler.go, exchange.go)

    POST /platform/keys and POST /platform/keys/exchange: the guards, the
    LiteLLM user provisioning, [mint] with its Enterprise-tags fallback, its
    single key-id retry and its compensation, and the exchange's stable key.
    The plaintext and the signed token are results of the programs, never
    events of the trace. *)

From S2P Require Import Prelude Keys KeyDB LiteLLM World KeyGrant EnvKeys.
Import EkDB PkDB.

Open Scope string_scope.
Open Scope list_scope.
Open Scope ach_scope.

(** The per-request locals the steps share. *)
Record createReq : Type := MkCreateReq {
  cr_action : string;
  cr_owner : string;
  cr_environment : string;
  cr_name : string;
  cr_budget : option BudgetRequest;
  cr_expiresAt : option Z;
  cr_requester : string;
  cr_xdb : bool
}.

(** What reviewing a ServiceAccount token answers. *)
Record TokenReviewStatus : Type := MkReview {
  tr_Authenticated : bool;
  tr_Audiences : list string;
  tr_Username : string;
  tr_PodName : list string;
  tr_PodUID : list string
}.

Definition saUserPrefix := "system:serviceaccount:".
Definition exchangeMaxField : nat := 256.
Definition ExchangeAudience := "ach-ek".

Definition firstExtra (v : list string) : string := default "" (head v).

(** (requester, why): exactly one of them is non-empty. *)
Definition reviewedRequester (st : TokenReviewStatus) (aud : string) : string * string :=
  if negb (tr_Authenticated st) then ("", "unauthenticated")
  else if negb (Contains (tr_Audiences st) aud) then ("", "audience")
  else
    match CutPrefix (tr_Username st) saUserPrefix with
    | None => ("", "not_service_account")
    | Some rest =>
        match CutByte ":" rest with
        | None => ("", "not_service_account")
        | Some (ns, name) =>
            if bool_decide (ns = "") || bool_decide (name = "") then ("", "not_service_account")
            else if bool_decide (firstExtra (tr_PodName st) = "") || bool_decide (firstExtra (tr_PodUID st) = "")
            then ("", "not_pod_bound")
            else (ns +:+ "/" +:+ name, "")
        end
    end.

Inductive SaErr : Type := ErrSATokenInvalid | ErrSAKeysUnavailable.

(** The exchange's outside: JSON and JWS libraries, limiter, JWKS, API server. *)
Record ExchangeOutside : Type := MkOutside {
  xo_unmarshal : list ascii -> option Keys.AudClaim;
  xo_AllowClient : string -> bool;
  xo_VerifySA : string -> Res SaErr unit;
  xo_AllowGlobal : bool;
  xo_TokenReview : string -> string -> option TokenReviewStatus;
  xo_Sign : string -> string -> string -> option string;
  xo_TTL : Z
}.

Record ExchangeRequest : Type := MkExchangeRequest { xr_Identity : string; xr_Environment : string }.
Record ExchangeResponse : Type := MkExchangeResponse { xp_Token : string; xp_ExpiresIn : Z; xp_KeyID : string }.

Section Mint.
Context {L : Type} `{LiteLLM L} (E : Env) (deps : Deps).

Definition emitInternalError (cr : createReq) : M L unit :=
  audit (cr_action cr) "internal_error" "" ;;; respond 500 "internal_error".

Definition emitLitellmError (cr : createReq) (e : LLErr) : M L unit :=
  audit (cr_action cr) (ClassifyLitellmErr e).2 "" ;;; respond (ClassifyLitellmErr e).1 (ClassifyLitellmErr e).2.

Definition validateAndLoadEnv (cr : createReq) : M L (option EnvironmentRow) :=
  r <- get_env E (cr_environment cr) ;;
  match r with
  | Err _ => emitInternalError cr ;;; ret None
  | Ok None =>
      audit (cr_action cr) "environment_not_found" "" ;;; respond 404 "environment_not_found" ;;; ret None
  | Ok (Some env) =>
      if negb (AccessGroupSyncedFromRow (Some env))
      then audit (cr_action cr) "not_ready" "" ;;; respond 503 "not_ready" ;;; ret None
      else ret (Some env)
  end.

(** true when the request was answered (refused). *)
Definition validateTeamMembership (cr : createReq) (env : EnvironmentRow) : M L bool :=
  r <- caller_teams (cr_owner cr) ;;
  match r with
  | Err e => emitLitellmError cr e ;;; ret true
  | Ok callerTeams =>
      if negb (HasIntersect (env_AuthorizedTeams env) callerTeams)
      then audit (cr_action cr) "unauthorized_team" "" ;;; respond 403 "unauthorized_team" ;;; ret true
      else ret false
  end.

(** Enrolment in the default teams; errors are logged only. *)
Fixpoint addToTeams (teamIDs : list string) (userID : string) : M L unit :=
  match teamIDs with
  | [] => ret tt
  | t :: rest =>
      r <- litellm (ll_TeamMemberAdd t userID "user") ;;
      emit (EMemberAdd t userID r) ;;;
      addToTeams rest userID
  end.

(** First-time user: resolve the default teams, create (a duplicate is the
    user we wanted), enrol. *)
Definition createUser (cr : createReq) : M L (option string) :=
  teamIDs <- litellm (ResolveTeamIDs (d_DefaultTeams deps)) ;;
  emit (ELLRead "ResolveTeamIDs") ;;;
  match teamIDs with
  | Err e => emitLitellmError cr e ;;; ret None
  | Ok teamIDs =>
      let req := MkUserNew (cr_owner cr) (cr_owner cr) teamIDs false in
      u <- litellm (ll_UserNew req) ;;
      emit (EUserNew req u) ;;;
      match u with
      | Ok info => addToTeams teamIDs (ui_UserID info) ;;; ret (Some (ui_UserID info))
      | Err e =>
          if negb (IsDuplicateUserErr e) then emitLitellmError cr e ;;; ret None
          else addToTeams teamIDs (cr_owner cr) ;;; ret (Some (cr_owner cr))
      end
  end.

Definition provisionUser (cr : createReq) : M L (option string) :=
  r <- litellm (ll_UserInfoByEmail (cr_owner cr)) ;;
  emit (ELLRead "UserInfoByEmail") ;;;
  match r with
  | Ok (Some info) => ret (Some (ui_UserID info))
  | Ok None => createUser cr
  | Err e => if negb (IsNotFound e) then emitLitellmError cr e ;;; ret None else createUser cr
  end.

Definition refuseSuspended (cr : createReq) (keyID : string) : M L unit :=
  audit (cr_action cr) "key_suspended" keyID ;;; respond 409 "key_suspended".

Definition keyRequest (cr : createReq) (env : EnvironmentRow) (userID shellTeamID keyID : string)
    : KeyGenerateRequest :=
  let base := <["ach_key_id" := keyID]> (<["ach_key_type" := "ek"]> (<["ach_owner_email" := cr_owner cr]>
                (<["ach_environment" := env_Name env]> (<["ach_issuer" := d_Issuer deps]> ∅)))) in
  let meta := if bool_decide (cr_requester cr <> "")
              then <["ach_requester" := cr_requester cr]> (<["ach_issued_via" := issuedViaExchange]> base)
              else base in
  MkKeyGen userID "" keyID [] "" None [env_Name env] shellTeamID meta.

(** Drop the Enterprise-only tags and retry once. *)
Definition generateKey (req : KeyGenerateRequest) : M L (Res LLErr KeyGenerateResponse) :=
  r <- key_generate req ;;
  match r with
  | Ok resp => ret (Ok resp)
  | Err e =>
      if isEnterpriseTagsRejection e
      then key_generate (MkKeyGen (kg_UserID req) (kg_Key req) (kg_KeyAlias req) (kg_Models req) (kg_Duration req)
                           (kg_MaxBudget req) [] (kg_TeamID req) (kg_Metadata req))
      else ret (Err e)
  end.

Definition insertRow (cr : createReq) (keyID credHash userID token material : string) : EkInsertRow :=
  MkEkInsertRow keyID credHash (cr_environment cr) (cr_owner cr) (cr_name cr)
    (Some userID) (Some token) (Some material) (cr_expiresAt cr)
    (if bool_decide (cr_requester cr <> "") then issuedViaExchange else "")
    (if bool_decide (cr_requester cr <> "") then Some (cr_requester cr) else None).

Definition with_key_id (keyID : string) (r : EkInsertRow) : EkInsertRow :=
  MkEkInsertRow keyID (ei_CredentialHash r) (ei_Environment r) (ei_OwnerEmail r) (ei_Name r)
    (ei_LiteLLMUserID r) (ei_LiteLLMToken r) (ei_LiteLLMKeyMaterial r) (ei_ExpiresAt r)
    (ei_IssuedVia r) (ei_Requester r).

(** INSERT, with one retry under a fresh key id when the id collided: the id
    in use afterwards, or the error to handle. *)
Definition insertWithRetry (row : EkInsertRow) : M L (Res DbErr string) :=
  r <- insert_ek E row ;;
  match r with
  | Ok _ => ret (Ok (ei_KeyID row))
  | Err e =>
      if bool_decide (classifyInsertError e = insertErrEkidCollision)
      then
        k <- draw_keyid E Keys.PrefixEkid ;;
        match k with
        | Err _ => ret (Err e)
        | Ok newKeyID =>
            r2 <- insert_ek E (with_key_id newKeyID row) ;;
            match r2 with Ok _ => ret (Ok newKeyID) | Err e2 => ret (Err e2) end
        end
      else ret (Err e)
  end.

(** The two failure tails of the INSERT. *)
Definition raceLoser (cr : createReq) (llToken : string) : M L (option (string * string)) :=
  revoke_key llToken ;;;
  winner <- find_exchange E (cr_owner cr) (cr_environment cr) (cr_requester cr) ;;
  match winner with
  | Err _ | Ok None => emitInternalError cr ;;; ret None
  | Ok (Some row) =>
      if has_status statusActive row then ret (Some (ek_KeyID row, ""))
      else refuseSuspended cr (ek_KeyID row) ;;; ret None
  end.

Definition insertFailed (cr : createReq) (llToken : string) : M L (option (string * string)) :=
  revoke_key llToken ;;;
  audit (cr_action cr) "db_insert_failed" "" ;;; respond 500 "db_insert_failed" ;;; ret None.

Definition keyCeiling (cr : createReq) (keyID plaintext : string) : M L (option (string * string)) :=
  match cr_budget cr with
  | None => ret (Some (keyID, plaintext))
  | Some b =>
      r <- upsert_budget (KeyBudgetTag keyID) (TagBudgetOf b) ;;
      match r with
      | Ok _ => ret (Some (keyID, plaintext))
      | Err _ => audit (cr_action cr) "litellm_rejected" "" ;;; respond 502 "litellm_rejected" ;;; ret None
      end
  end.

(** Everything after LiteLLM created the key: seal, INSERT, compensation, ceiling. *)
Definition persistKey (cr : createReq) (userID keyID credHash plaintext : string) (resp : KeyGenerateResponse)
    : M L (option (string * string)) :=
  sealed <- seal E (kr_Key resp) ;;
  match sealed with
  | None => revoke_key (kr_Token resp) ;;; emitInternalError cr ;;; ret None
  | Some material =>
      ins <- insertWithRetry (insertRow cr keyID credHash userID (kr_Token resp) material) ;;
      match ins with
      | Ok keyID => keyCeiling cr keyID plaintext
      | Err e =>
          if cr_xdb cr && bool_decide (classifyInsertError e = insertErrExchangeTuple)
          then raceLoser cr (kr_Token resp)
          else insertFailed cr (kr_Token resp)
      end
  end.

Definition mint (cr : createReq) (env : EnvironmentRow) (userID : string) : M L (option (string * string)) :=
  pt <- draw_bearer E Keys.PrefixEk ;;
  match pt with
  | Err _ => emitInternalError cr ;;; ret None
  | Ok plaintext =>
      kid <- draw_keyid E Keys.PrefixEkid ;;
      match kid with
      | Err _ => emitInternalError cr ;;; ret None
      | Ok keyID =>
          match Hash E (d_Pepper deps) plaintext with
          | Err _ => emitInternalError cr ;;; ret None
          | Ok credHash =>
              st <- litellm (LookupTeamIDByAlias (ShellTeamAlias (env_Name env))) ;;
              emit (ELLRead "LookupTeamIDByAlias") ;;;
              match st with
              | Err e => emitLitellmError cr e ;;; ret None
              | Ok shellTeamID =>
                  if bool_decide (shellTeamID = "")
                  then audit (cr_action cr) "not_ready" "" ;;; respond 503 "not_ready" ;;; ret None
                  else
                    kr <- generateKey (keyRequest cr env userID shellTeamID keyID) ;;
                    match kr with
                    | Err e => emitLitellmError cr e ;;; ret None
                    | Ok resp => persistKey cr userID keyID credHash plaintext resp
                    end
              end
          end
      end
  end.

(** ** POST /platform/keys *)

(** The body checks of step 2: the expiry to use, or None when refused. *)
Definition checkBody (req : CreateRequest) : M L (option (option Z)) :=
  if bool_decide (cq_Environment req = "") || bool_decide (cq_Name req = "")
  then respond 400 codeInvalidArgument ;;; ret None
  else
    e <- match cq_ExpiresAt req with
         | ExpNone => ret (Some None)
         | ExpUnparsable => respond 400 codeInvalidArgument ;;; ret None
         | ExpAt ts => t <- now E ;;
                       if negb (t <? ts)%Z then respond 400 codeInvalidArgument ;;; ret None
                       else ret (Some (Some ts))
         end ;;
    match e with
    | None => ret None
    | Some expiresAt =>
        match cq_Budget req with
        | Some b => if negb (budget_valid b) then respond 400 codeInvalidArgument ;;; ret None
                    else ret (Some expiresAt)
        | None => ret (Some expiresAt)
        end
    end.

Definition CreateHandler (kc : KeyContext) (body : option CreateRequest) : M L (option CreateResponse) :=
  if bool_decide (kc_KeyType kc <> Keys.PrefixPk)
  then audit "platform.ek.create" "invalid_key_type" "" ;;; respond 401 "invalid_key_type" ;;; ret None
  else
    match body with
    | None => respond 400 codeInvalidArgument ;;; ret None
    | Some req =>
        chk <- checkBody req ;;
        match chk with
        | None => ret None
        | Some expiresAt =>
            al <- key_allowance E deps (kc_OwnerEmail kc) ;;
            match al with
            | Err _ => audit "platform.ek.create" "internal_error" "" ;;; respond 500 "internal_error" ;;; ret None
            | Ok (used, allowed) =>
                if (allowed <=? used)%Z
                then audit "platform.ek.create" codeKeyLimitReached "" ;;; respond 403 codeKeyLimitReached ;;; ret None
                else
                  let cr := MkCreateReq "platform.ek.create" (kc_OwnerEmail kc) (cq_Environment req) (cq_Name req)
                              (cq_Budget req) expiresAt "" false in
                  env <- validateAndLoadEnv cr ;;
                  match env with
                  | None => ret None
                  | Some env =>
                      handled <- validateTeamMembership cr env ;;
                      if (handled : bool) then ret None
                      else
                        u <- provisionUser cr ;;
                        match u with
                        | None => ret None
                        | Some userID =>
                            k <- mint cr env userID ;;
                            match k with
                            | None => ret None
                            | Some (keyID, plaintext) =>
                                audit "platform.ek.create" "created" keyID ;;;
                                respond 200 "" ;;;
                                ret (Some (MkCreateResponse keyID plaintext (cq_Environment req) (cq_Name req)
                                             (kc_OwnerEmail kc) expiresAt))
                            end
                        end
                  end
            end
        end
    end.

(** ** POST /platform/keys/exchange *)

Definition applyBudget (cr : createReq) (keyID : string) : M L bool :=
  match cr_budget cr with
  | None => ret true
  | Some b =>
      r <- upsert_budget (KeyBudgetTag keyID) (TagBudgetOf b) ;;
      match r with
      | Ok _ => ret true
      | Err e => emitLitellmError cr e ;;; ret false
      end
  end.

Definition stableKey (cr : createReq) (env : EnvironmentRow) : M L (option string) :=
  row <- find_exchange E (cr_owner cr) (env_Name env) (cr_requester cr) ;;
  match row with
  | Err _ => emitInternalError cr ;;; ret None
  | Ok (Some row) =>
      if has_status statusActive row
      then ok <- applyBudget cr (ek_KeyID row) ;; ret (if ok : bool then Some (ek_KeyID row) else None)
      else refuseSuspended cr (ek_KeyID row) ;;; ret None
  | Ok None =>
      u <- provisionUser cr ;;
      match u with
      | None => ret None
      | Some userID =>
          k <- mint cr env userID ;;
          match k with
          | None => ret None
          | Some (keyID, plaintext) =>
              if bool_decide (plaintext = "")
              then ok <- applyBudget cr keyID ;; ret (if ok : bool then Some keyID else None)
              else ret (Some keyID)
          end
      end
  end.

Definition list_grants (ns identity : string) : M L (Res DbErr (list KeyGrantRow)) :=
  r <- sql E (fun f _ d => let '(r, _) := ListKeyGrantsForIdentity f ns identity (db_grants d) in (r, d)) ;;
  emit (EDbRead "ListKeyGrantsForIdentity") ;;;
  ret r.

(** [reject]: counted in the metric, not audited. *)
Definition reject (status : Z) (code reason : string) : M L (option ExchangeResponse) :=
  emit (ERejected reason) ;;; respond status code ;;; ret None.
(** [deny]: one audit record. *)
Definition deny (status : Z) (code : string) : M L (option ExchangeResponse) :=
  audit "platform.ek.exchange" code "" ;;; respond status code ;;; ret None.

(** From the grant decision on: what the exchange shares with create. *)
Definition issueFor (X : ExchangeOutside) (aud identity requester : string) (req : ExchangeRequest)
    (covering : list KeyGrantRow) : M L (option ExchangeResponse) :=
  let cr := MkCreateReq "platform.ek.exchange" identity (xr_Environment req) ("exchange:" +:+ requester)
              ((fun b => MkBudgetRequest (Some (tb_MaxBudget b)) (tb_BudgetDuration b)) <$> Budget covering)
              None requester true in
  env <- validateAndLoadEnv cr ;;
  match env with
  | None => ret None
  | Some env =>
      handled <- validateTeamMembership cr env ;;
      if (handled : bool) then ret None
      else
        k <- stableKey cr env ;;
        match k with
        | None => ret None
        | Some keyID =>
            match xo_Sign X aud keyID ExchangeAudience with
            | None => emitInternalError cr ;;; ret None
            | Some signed =>
                audit "platform.ek.exchange" "issued" keyID ;;;
                respond 200 "" ;;;
                ret (Some (MkExchangeResponse signed (Z.quot (xo_TTL X) Second) keyID))
            end
        end
  end.

(** From the reviewed token on. *)
Definition exchangeAs (X : ExchangeOutside) (aud requester : string) (req : ExchangeRequest)
    : M L (option ExchangeResponse) :=
  let identity := NormalizeEmail (xr_Identity req) in
  g <- list_grants (d_Namespace deps) identity ;;
  match g with
  | Err _ => deny 500 "internal_error"
  | Ok grants =>
      match Covering grants identity (xr_Environment req) requester with
      | [] => deny 403 "not_granted"
      | covering => issueFor X aud identity requester req covering
      end
  end.

Definition field_ok (s : string) : bool :=
  negb (bool_decide (s = "")) && (String.length s <=? exchangeMaxField)%nat.

(** [header] is the Authorization header, [client] the client address,
    [body] what the bounded strict decoder produced. *)
Definition ExchangeHandler (X : ExchangeOutside) (header client : string) (body : option ExchangeRequest)
    : M L (option ExchangeResponse) :=
  let aud := TrimRightByte "/" (d_Issuer deps) in
  match CutPrefix header "Bearer " with
  | None => reject 401 "invalid_token" "guard"
  | Some token =>
      if negb (Keys.LooksLikeJWS token) || negb (Contains (Keys.PeekAudience (xo_unmarshal X) token) aud)
      then reject 401 "invalid_token" "guard"
      else
        emit (ECall "AllowClient" (xo_AllowClient X client)) ;;;
        if negb (xo_AllowClient X client) then reject 429 "rate_limited" "rate_limited"
        else
          emit (ECall "VerifySA" (is_ok (xo_VerifySA X token))) ;;;
          match xo_VerifySA X token with
          | Err ErrSATokenInvalid => reject 401 "invalid_token" "invalid_signature"
          | Err ErrSAKeysUnavailable => reject 503 "not_ready" "keys_unavailable"
          | Ok _ =>
              emit (ECall "AllowGlobal" (xo_AllowGlobal X)) ;;;
              if negb (xo_AllowGlobal X) then reject 429 "rate_limited" "rate_limited"
              else
                match body with
                | None => deny 400 codeInvalidArgument
                | Some req =>
                    if negb (field_ok (xr_Identity req) && field_ok (xr_Environment req))
                    then deny 400 codeInvalidArgument
                    else
                      emit (ECall "TokenReview" (bool_decide (is_Some (xo_TokenReview X token aud)))) ;;;
                      match xo_TokenReview X token aud with
                      | None => deny 503 "not_ready"
                      | Some st =>
                          let '(requester, why) := reviewedRequester st aud in
                          if bool_decide (why <> "") then deny 401 "invalid_token"
                          else exchangeAs X aud requester req
                      end
                end
          end
  end.

End Mint.

(** ** One response per request *)
Section OneResponse.
Context {L : Type} `{LiteLLM L} (E : Env) (deps : Deps).

Definition nresp (w : World L) : nat := length (responses (w_trace w)).

Lemma nresp_emit t d l tr e :
  nresp (MkWorld t d l (tr ++ [e])) = length (responses tr) + match e with EResp _ _ => 1 | _ => 0 end.
Proof. unfold nresp. cbn. rewrite responses_app, length_app. by destruct e. Qed.

Lemma nresp_world t d l tr : nresp (MkWorld t d l tr) = length (responses tr).
Proof. done. Qed.

Lemma responses_snoc tr e :
  length (responses (tr ++ [e])) = length (responses tr) + match e with EResp _ _ => 1 | _ => 0 end.
Proof. rewrite responses_app, length_app. by destruct e. Qed.

(** Refusals answer; a value means the caller still has to. *)
Definition answered {A} (o : option A) : nat := match o with None => 1 | Some _ => 0 end.

Ltac count := unfold nresp in *; cbn [w_trace answered] in *; rewrite ?responses_snoc in *; try lia.

Lemma insertWithRetry_resp row w r w' : runs (insertWithRetry E row) w r w' -> nresp w' = nresp w.
Proof. intros R. unfold insertWithRetry, insert_ek in R. inv_runs; count. Qed.

Lemma generateKey_resp req w r w' : runs (generateKey req) w r w' -> nresp w' = nresp w.
Proof. intros R. unfold generateKey, key_generate in R. inv_runs; count. Qed.

Lemma addToTeams_resp ids u w r w' : runs (addToTeams ids u) w r w' -> nresp w' = nresp w.
Proof.
  revert w. induction ids as [|t ids IH]; intros w R; cbn in R; inv_runs; [done|].
  match goal with X : runs (addToTeams _ _) _ _ _ |- _ => apply IH in X end. count.
Qed.

Lemma createUser_resp cr w r w' : runs (createUser deps cr) w r w' -> nresp w' = nresp w + answered r.
Proof.
  intros R. unfold createUser, emitLitellmError in R. inv_runs;
    try match goal with X : runs (addToTeams _ _) _ _ _ |- _ => apply addToTeams_resp in X end; count.
Qed.

Lemma provisionUser_resp cr w r w' : runs (provisionUser deps cr) w r w' -> nresp w' = nresp w + answered r.
Proof.
  intros R. unfold provisionUser, emitLitellmError in R. inv_runs;
    try match goal with X : runs (createUser _ _) _ _ _ |- _ => apply createUser_resp in X end; count.
Qed.

Lemma persistKey_resp cr u k h p resp w r w' :
  runs (persistKey E cr u k h p resp) w r w' -> nresp w' = nresp w + answered r.
Proof.
  intros R. unfold persistKey, keyCeiling, raceLoser, insertFailed, revoke_key, find_exchange, upsert_budget,
    emitInternalError, refuseSuspended in R.
  inv_runs; try match goal with X : runs (insertWithRetry _ _) _ _ _ |- _ => apply insertWithRetry_resp in X end; count.
Qed.

Lemma mint_resp cr env u w r w' : runs (mint E deps cr env u) w r w' -> nresp w' = nresp w + answered r.
Proof.
  intros R. unfold mint, emitInternalError, emitLitellmError in R. inv_runs;
    repeat match goal with
      | X : runs (generateKey _) _ _ _ |- _ => apply generateKey_resp in X
      | X : runs (persistKey _ _ _ _ _ _ _) _ _ _ |- _ => apply persistKey_resp in X
      end; count.
Qed.

Lemma validateAndLoadEnv_resp cr w r w' :
  runs (validateAndLoadEnv E cr) w r w' -> nresp w' = nresp w + answered r.
Proof. intros R. unfold validateAndLoadEnv, get_env, emitInternalError in R. inv_runs; count. Qed.

Lemma validateTeamMembership_resp cr env w (r : bool) w' :
  runs (validateTeamMembership cr env) w r w' -> nresp w' = nresp w + if r then 1 else 0.
Proof. intros R. unfold validateTeamMembership, caller_teams, emitLitellmError in R. inv_runs; count. Qed.

Lemma checkBody_resp req w r w' : runs (checkBody E req) w r w' -> nresp w' = nresp w + answered r.
Proof. intros R. unfold checkBody in R. inv_runs; count. Qed.

Lemma applyBudget_resp cr k w (r : bool) w' :
  runs (applyBudget cr k) w r w' -> nresp w' = nresp w + if r then 0 else 1.
Proof. intros R. unfold applyBudget, upsert_budget, emitLitellmError in R. inv_runs; count. Qed.

Ltac use_resp :=
  repeat match goal with
    | X : runs (provisionUser _ _) _ _ _ |- _ => apply provisionUser_resp in X
    | X : runs (mint _ _ _ _ _) _ _ _ |- _ => apply mint_resp in X
    | X : runs (validateAndLoadEnv _ _) _ _ _ |- _ => apply validateAndLoadEnv_resp in X
    | X : runs (validateTeamMembership _ _) _ _ _ |- _ => apply validateTeamMembership_resp in X
    | X : runs (checkBody _ _) _ _ _ |- _ => apply checkBody_resp in X
    | X : runs (applyBudget _ _) _ _ _ |- _ => apply applyBudget_resp in X
    end.

Lemma stableKey_resp cr env w r w' : runs (stableKey E deps cr env) w r w' -> nresp w' = nresp w + answered r.
Proof.
  intros R. unfold stableKey, find_exchange, emitInternalError, refuseSuspended in R. inv_runs; use_resp; count; case_match; cbn [answered]; lia.
Qed.

Lemma CreateHandler_resp kc body w r w' : runs (CreateHandler E deps kc body) w r w' -> nresp w' = S (nresp w).
Proof. intros R. unfold CreateHandler, key_allowance in R. inv_runs; use_resp; count. Qed.

Lemma ExchangeHandler_resp X header client body w r w' :
  runs (ExchangeHandler E deps X header client body) w r w' -> nresp w' = S (nresp w).
Proof.
  intros R. unfold ExchangeHandler, exchangeAs, issueFor, list_grants, reject, deny, emitInternalError in R.
  inv_runs; use_resp; try match goal with X : runs (stableKey _ _ _ _) _ _ _ |- _ => apply stableKey_resp in X end;
    count.
Qed.

End OneResponse.

(** ** Every request follows the key life cycle *)
Section MintProgress.
Context {L : Type} `{LiteLLM L} (E : Env) (deps : Deps) (HE : lawful E).

Lemma progress_addToTeams ids u : ek_progress (L := L) (addToTeams ids u).
Proof. induction ids; cbn; progress_tac. Qed.
Hint Resolve progress_addToTeams : progress.

Lemma progress_emits cr :
  ek_progress (L := L) (emitInternalError cr) /\ (forall e, ek_progress (L := L) (emitLitellmError cr e))
  /\ (forall k, ek_progress (L := L) (refuseSuspended cr k)).
Proof. split_and!; intros; unfold emitInternalError, emitLitellmError, refuseSuspended; progress_tac. Qed.

Ltac mint_progress :=
  repeat (progress_tac; try match goal with
    | |- ek_progress (emitInternalError ?cr) => apply (progress_emits cr)
    | |- ek_progress (emitLitellmError ?cr _) => apply (progress_emits cr)
    | |- ek_progress (refuseSuspended ?cr _) => apply (progress_emits cr)
    end).

Lemma progress_provisionUser cr : ek_progress (L := L) (provisionUser deps cr).
Proof. unfold provisionUser, createUser. mint_progress. Qed.

Lemma progress_mint cr env u : ek_progress (L := L) (mint E deps cr env u).
Proof.
  unfold mint, generateKey, persistKey, insertWithRetry, raceLoser, insertFailed, keyCeiling. mint_progress.
Qed.

Lemma progress_validate cr :
  ek_progress (L := L) (validateAndLoadEnv E cr) /\ forall env, ek_progress (L := L) (validateTeamMembership cr env).
Proof. split; intros; unfold validateAndLoadEnv, validateTeamMembership; mint_progress. Qed.

Hint Resolve progress_provisionUser progress_mint : progress.

Lemma progress_CreateHandler kc body : ek_progress (L := L) (CreateHandler E deps kc body).
Proof.
  unfold CreateHandler, checkBody. mint_progress; by apply progress_validate.
Qed.

Lemma progress_stableKey cr env : ek_progress (L := L) (stableKey E deps cr env).
Proof. unfold stableKey, applyBudget. mint_progress. Qed.
Hint Resolve progress_stableKey : progress.

Lemma progress_list_grants ns id : ek_progress (L := L) (list_grants E ns id).
Proof.
  unfold list_grants. progress_tac. apply progress_sql; [done|]. intros f n d.
  by destruct (ListKeyGrantsForIdentity _ _ _ _).
Qed.
Hint Resolve progress_list_grants : progress.

Lemma progress_ExchangeHandler X h c b : ek_progress (L := L) (ExchangeHandler E deps X h c b).
Proof.
  unfold ExchangeHandler, exchangeAs, issueFor, reject, deny. mint_progress; by apply progress_validate.
Qed.

End MintProgress.

(** The key endpoints of platform-api. *)
Inductive Request : Type :=
| RCreate (kc : KeyContext) (body : option CreateRequest)
| RExchange (X : ExchangeOutside) (header client : string) (body : option ExchangeRequest)
| RSuspend (kc : KeyContext) (keyID : string)
| RResume (kc : KeyContext) (keyID : string)
| RBudget (kc : KeyContext) (keyID : string) (body : option BudgetRequest)
| RRevoke (kc : KeyContext) (keyID : string) (force : bool).

Definition handle {L} `{LiteLLM L} (deps : Deps) (E : Env) (q : Request) : M L unit :=
  match q with
  | RCreate kc body => CreateHandler E deps kc body ;;; ret tt
  | RExchange X h c b => ExchangeHandler E deps X h c b ;;; ret tt
  | RSuspend kc k => SuspendHandler E kc k
  | RResume kc k => ResumeHandler E kc k
  | RBudget kc k b => BudgetHandler E kc k b
  | RRevoke kc k force => RevokeHandler E deps kc k force
  end.

(** A history of requests, each with its own clock, faults and interference. *)
Definition serve {L} `{LiteLLM L} (deps : Deps) (qs : list (Env * Request)) (w : World L) : World L :=
  foldl (fun w q => final (handle deps q.1 q.2) w) w qs.

Lemma handle_progress {L} `{LiteLLM L} deps E q : lawful E -> ek_progress (L := L) (handle deps E q).
Proof.
  intros HE. destruct q; cbn; try (apply progress_bind; [|intros; apply progress_ret]);
    eauto using progress_CreateHandler, progress_ExchangeHandler with progress.
Qed.

Section EkResp.
Context {L : Type} `{LiteLLM L} (E : Env) (deps : Deps).

Lemma loadOwnedEk_resp kc k action (w w' : World L) r :
  runs (loadOwnedEk E kc k action) w r w' -> nresp w' = nresp w + answered r.
Proof.
  intros R. apply loadOwnedEk_runs in R. destruct r as [row|].
  - destruct R as (_ & _ & _ & _ & ->). unfold nresp. cbn. rewrite responses_snoc. cbn. lia.
  - destruct R as [(tr & s & c & Hn & _ & Hr & _) _]. unfold nresp, new_events in *.
    rewrite Hn, responses_app, Hr, length_app. done.
Qed.

Ltac count := unfold nresp in *; cbn [w_trace answered] in *; rewrite ?responses_snoc in *; try lia.
Ltac use_load :=
  try match goal with X : runs (loadOwnedEk _ _ _ _) _ _ _ |- _ => apply loadOwnedEk_resp in X end; count.

Lemma key_handlers_resp kc k (w w' : World L) a :
  (runs (SuspendHandler E kc k) w a w' -> nresp w' = S (nresp w))
  /\ (runs (ResumeHandler E kc k) w a w' -> nresp w' = S (nresp w))
  /\ (forall b, runs (BudgetHandler E kc k b) w a w' -> nresp w' = S (nresp w))
  /\ (forall force, runs (RevokeHandler E deps kc k force) w a w' -> nresp w' = S (nresp w)).
Proof.
  unfold SuspendHandler, ResumeHandler, BudgetHandler, RevokeHandler, revokeEnvironmentKey, revoke_after_ack,
    revokePersonalKey, conflictFor, flip_ek, get_ek, invalidate, get_env, caller_teams, upsert_budget, revoke_key.
  split_and!; intros; inv_runs; use_load.
Qed.

End EkResp.

Lemma handle_resp {L} `{LiteLLM L} deps E q (w : World L) :
  nresp (final (handle deps E q) w) = S (nresp w).
Proof.
  pose proof (runs_final (handle deps E q) w) as R.
  set (w' := final _ w) in *. set (x := result _ w) in *. clearbody w' x.
  destruct q; cbn [handle] in R;
    try (apply runs_bind in R as (a & w1 & R & R2); apply runs_ret in R2 as [_ ->]).
  1: eapply CreateHandler_resp, R.
  1: eapply ExchangeHandler_resp, R.
  all: match type of R with runs _ ?w ?x ?w' =>
         destruct (key_handlers_resp E deps kc keyID w w' x) as (Hs & Hr & Hb & Hv) end; eauto.
Qed.

(** C8: over any history of key requests (create, exchange, suspend, resume,
    budget, revoke), with any faults, any LiteLLM behaviour and any
    concurrent statements between their steps, the key table keeps its
    constraints, a revoked key is never changed again and no key changes its
    identity, and every request is answered exactly once. *)
Theorem requests_follow_lifecycle {L} `{LiteLLM L} (deps : Deps) (qs : list (Env * Request)) (w : World L)
    (HE : Forall (fun q => lawful q.1) qs) (Hwf : ek_wf (db_ek (w_db w))) :
  let w' := serve deps qs w in
  ek_wf (db_ek (w_db w'))
  /\ (forall k r, db_ek (w_db w) !! k = Some r ->
        exists r', db_ek (w_db w') !! k = Some r' /\ identity_cols r' = identity_cols r
                   /\ (er_status r = statusRevoked -> r' = r))
  /\ length (responses (w_trace w')) = length (responses (w_trace w)) + length qs.
Proof.
  intros w'. cut (rtc table_step (db_ek (w_db w)) (db_ek (w_db w')) /\ nresp w' = nresp w + length qs).
  { intros [Hs Hn]. split_and!; [by eapply progress_wf| |done]. intros k r Hk. by eapply progress_row. }
  clear Hwf. subst w'. revert w. induction HE as [|[E q] qs HE _ IH]; intros w; [split; [done|cbn; lia]|].
  cbn in HE |- *. destruct (IH (final (handle deps E q) w)) as [IH1 IH2]. split.
  - etrans; [|exact IH1]. eapply (handle_progress deps E q HE), runs_final.
  - unfold serve in IH2. rewrite IH2, handle_resp. lia.
Qed.

(** A concrete history: suspend, resume, revoke of one key. *)
Lemma requests_follow_lifecycle_witness :
  let qs := [(calm 100 [], RSuspend x_kc "ekid_1"); (calm 100 [], RRevoke x_kc "ekid_1" false);
             (calm 100 [], RResume x_kc "ekid_1")] in
  let w' := serve (MkDeps [] "" "" "" 0 false) qs (x_world statusActive) in
  ek_wf (db_ek (w_db w')) /\ length (responses (w_trace w')) = 3
  /\ (er_status <$> db_ek (w_db w') !! "ekid_1") = Some statusRevoked.
Proof.
  intros qs w'. destruct (requests_follow_lifecycle (MkDeps [] "" "" "" 0 false) qs (x_world statusActive)) as (H1 & _ & H2).
  - repeat constructor; apply quiet_lawful, calm_quiet.
  - apply x_wf.
  - split; [exact H1|split; [exact H2|vm_compute; reflexivity]].
Defined.
