(* ===== verification/MintSafety.v ===== *)
(** * What a mint leaves behind

    Safety of the credential minting paths of Mint.v: no LiteLLM key is left
    unrecorded and unrevoked, a returned plaintext is the credential of the
    row that was stored, and nothing is minted before every guard passed. *)

From S2P Require Import Prelude Keys KeyDB LiteLLM World KeyGrant EnvKeys Mint.
Import EkDB PkDB.

Open Scope string_scope.
Open Scope list_scope.
Open Scope ach_scope.

(** ** Paths of the mint *)
Section MintPaths.
Context {L : Type} `{LiteLLM L} (E : Env) (deps : Deps).

Lemma generateKey_runs req (w w' : World L) r :
  runs (generateKey req) w r w' ->
  w_db w' = w_db w /\
  match r with
  | Ok resp => exists req' pre, new_events w w' (pre ++ [EKeyGenerate req' (Ok resp)])
                 /\ kg_Metadata req' = kg_Metadata req /\ kg_TeamID req' = kg_TeamID req
                 /\ (forall q a, EKeyGenerate q a ∈ pre -> is_ok a = false)
  | Err _ => exists tr, new_events w w' tr /\ forall q a, EKeyGenerate q a ∈ tr -> is_ok a = false
  end.
Proof.
  intros R. unfold generateKey, key_generate in R. inv_runs; (split; [done|]);
    try match goal with |- match ?r with _ => _ end => destruct r end.
  - eexists _, []. split_and!; [new_tr|done|done|]. by intros q ans ?%not_elem_of_nil.
  - eexists _, [_]. split_and!; [new_tr|done|done|]. intros q ans Hin. by in_trace Hin.
  - eexists [_; _]. split; [new_tr|]. intros q ans Hin. by in_trace Hin.
  - eexists [_]. split; [new_tr|]. intros q ans Hin. by in_trace Hin.
Qed.

Lemma insert_ek_runs row (w w' : World L) r :
  runs (insert_ek E row) w r w' ->
  new_events w w' [EInsert row r]
  /\ (r = Ok tt -> insert_stmt (insert_row (now_at E (w_tick w)) row) (db_ek (interf_at E (w_tick w) (w_db w)))
                   = (Ok tt, db_ek (w_db w'))).
Proof.
  intros R. unfold insert_ek in R. inv_runs. split; [new_tr|]. intros ->. unfold on_ek in Hsql.
  destruct (InsertEnvironmentKey _ _ _ _) as [r t] eqn:Hi. simplify_eq. cbn.
  by apply with_fault_Ok in Hi as [_ Hi].
Qed.

(** A successful INSERT leaves exactly this row under the id it reports. *)
Lemma insertWithRetry_runs row (w w' : World L) r :
  runs (insertWithRetry E row) w r w' ->
  exists tr, new_events w w' tr
  /\ (forall x a, EInsert x a ∈ tr -> exists k, x = with_key_id k row)
  /\ (forall t a, ERevokeKey t a ∉ tr) /\ (forall q a, EKeyGenerate q a ∉ tr)
  /\ match r with
     | Ok k => EInsert (with_key_id k row) (Ok tt) ∈ tr /\ exists n t,
         insert_stmt (insert_row n (with_key_id k row)) t = (Ok tt, db_ek (w_db w'))
     | Err _ => forall x a, EInsert x a ∈ tr -> is_ok a = false
     end.
Proof.
  assert (Hid : with_key_id (ei_KeyID row) row = row) by (by destruct row).
  intros R. unfold insertWithRetry in R. inv_runs;
    repeat match goal with X : runs (insert_ek _ _) _ _ _ |- _ => apply insert_ek_runs in X as [? ?] end.
  all: try match goal with X : new_events _ ?m _, Y : new_events _ _ _ |- _ =>
         pose proof (new_events_trans _ _ _ _ _ X Y) as Hn; clear X Y end.
  all: eexists; split; [eassumption|]; cbn [app]; split_and!.
  all: try (intros x0 ans0 Hin; in_trace Hin; eauto; fail).
  all: rewrite ?Hid; repeat match goal with x : () |- _ => destruct x end;
    first [by left | by right; left | eauto].
Qed.

Lemma find_exchange_runs o e q (w w' : World L) r :
  runs (find_exchange E o e q) w r w' ->
  new_events w w' [EDbRead "FindExchangeKey"]
  /\ (forall i, r = Ok (Some i) -> exists k er, db_ek (w_db w') !! k = Some er /\ i = get_cols er
        /\ exchange_live er = true /\ er_owner_email er = o /\ er_environment er = e /\ er_requester er = Some q).
Proof.
  intros R. unfold find_exchange in R. inv_runs. split; [new_tr|]. intros i ->. cbn. unfold on_ek in Hsql.
  destruct (FindExchangeKey _ _ _ _ _) as [r t] eqn:Hf. simplify_eq. cbn.
  apply with_fault_Ok in Hf as [_ Hf]. simplify_eq.
  match goal with X : _ <$> select1 ?P ?t = Some _ |- _ => destruct (select1 P t) as [[k er]|] eqn:Hs; [|done] end.
  apply select1_Some in Hs as [Hk HP]. apply andb_true_iff in HP as [HP1 HP2%bool_decide_eq_true].
  destruct HP2 as (? & ? & ?). simplify_eq/=. by exists k, er.
Qed.

(** No [KeyGenerate] in a trace. *)
Definition no_keygen (tr : list Event) : Prop := forall q a, EKeyGenerate q a ∉ tr.

Lemma no_keygen_app t1 t2 : no_keygen t1 -> no_keygen t2 -> no_keygen (t1 ++ t2).
Proof. intros H1 H2 q a [Hin|Hin]%elem_of_app; [by eapply H1|by eapply H2]. Qed.

Ltac no_kg := intros q0 ans0 Hin0; in_trace Hin0.

Lemma keyCeiling_runs cr k p (w w' : World L) r :
  runs (keyCeiling cr k p) w r w' ->
  w_db w' = w_db w /\ exists tr, new_events w w' tr /\ no_keygen tr /\
  match r with
  | Some (k', p') => k' = k /\ p' = p /\
      forall b, cr_budget cr = Some b -> EUpsertBudget (KeyBudgetTag k) (TagBudgetOf b) (Ok tt) ∈ tr
  | None => exists b a, EUpsertBudget (KeyBudgetTag k) b a ∈ tr /\ is_ok a = false
  end.
Proof.
  intros R. unfold keyCeiling, upsert_budget in R. inv_runs; (split; [done|]).
  - eexists. split; [new_tr|]. split; [no_kg|]. split_and!; [done..|]. intros b0 [= ->]. destruct a. by left.
  - eexists. split; [new_tr|]. split; [no_kg|]. eexists _, _. split; [by left|done].
  - exists []. split; [unfold new_events; by rewrite app_nil_r|]. split; [no_kg|]. by split_and!.
Qed.

(** The winner's row the race loser answers with. *)
Definition active_tuple (cr : createReq) (t : gmap string EkRow) (keyID : string) : Prop :=
  exists k er, t !! k = Some er /\ keyID = er_key_id er /\ er_status er = statusActive
    /\ er_owner_email er = cr_owner cr /\ er_environment er = cr_environment cr
    /\ er_requester er = Some (cr_requester cr).

Lemma raceLoser_runs cr tok (w w' : World L) r :
  runs (raceLoser E cr tok) w r w' ->
  exists tr, new_events w w' tr /\ no_keygen tr /\ (exists a, ERevokeKey tok a ∈ tr) /\
  match r with Some (k', p') => p' = "" /\ active_tuple cr (db_ek (w_db w')) k' | None => True end.
Proof.
  intros R. unfold raceLoser, revoke_key, emitInternalError, refuseSuspended in R. inv_runs;
    match goal with X : runs (find_exchange _ _ _ _) _ _ _ |- _ => apply find_exchange_runs in X as [Hn Hwin] end;
    unfold new_events in Hn; cbn in Hn;
    (eexists; split; [unfold new_events; cbn; rewrite Hn, <-?app_assoc; reflexivity|]);
    (split; [no_kg|]); (split; [eexists; by left|]); try done.
  destruct (Hwin _ eq_refl) as (k & er & Hk & -> & _ & Ho & He & Hq). split; [done|]. exists k, er. cbn.
  unfold has_status in Hc1. apply bool_decide_eq_true in Hc1. cbn in Hc1. split_and!; try done. congruence.
Qed.

Lemma insertFailed_runs cr tok (w w' : World L) r :
  runs (insertFailed cr tok) w r w' ->
  r = None /\ exists tr, new_events w w' tr /\ no_keygen tr /\ (exists a, ERevokeKey tok a ∈ tr).
Proof.
  intros R. unfold insertFailed, revoke_key in R. inv_runs. split; [done|]. eexists. split; [new_tr|].
  split; [no_kg|]. eexists. by left.
Qed.

(** Outcome of [persistKey]: stored and capped, or lost the race to an
    active winner, or refused. *)
Definition persisted (cr : createReq) (u keyID h p : string) (resp : KeyGenerateResponse)
    (t : gmap string EkRow) (tr : list Event) (r : option (string * string)) : Prop :=
  match r with
  | Some (k', p') =>
      (p' = p /\ exists material n t0,
         let row := with_key_id k' (insertRow cr keyID h u (kr_Token resp) material) in
         EInsert row (Ok tt) ∈ tr /\ insert_stmt (insert_row n row) t0 = (Ok tt, t)
         /\ forall b, cr_budget cr = Some b -> EUpsertBudget (KeyBudgetTag k') (TagBudgetOf b) (Ok tt) ∈ tr)
      \/ (p' = "" /\ cr_xdb cr = true /\ (exists a, ERevokeKey (kr_Token resp) a ∈ tr) /\ active_tuple cr t k')
  | None => (exists a, ERevokeKey (kr_Token resp) a ∈ tr)
            \/ exists k b a, EUpsertBudget (KeyBudgetTag k) b a ∈ tr /\ is_ok a = false
  end.

(** The LiteLLM key is either recorded in a committed row or its deletion was requested. *)
Definition accounted (tok : string) (tr : list Event) : Prop :=
  (exists row, EInsert row (Ok tt) ∈ tr /\ ei_LiteLLMToken row = Some tok) \/ (exists a, ERevokeKey tok a ∈ tr).

Lemma in_r {A} (x : A) l1 l2 : x ∈ l2 -> x ∈ l1 ++ l2.
Proof. rewrite elem_of_app. auto. Qed.
Lemma in_l {A} (x : A) l1 l2 : x ∈ l1 -> x ∈ l1 ++ l2.
Proof. rewrite elem_of_app. auto. Qed.
Hint Resolve in_r in_l no_keygen_app : ach.

Lemma persistKey_runs cr u k h p resp (w w' : World L) r :
  runs (persistKey E cr u k h p resp) w r w' ->
  exists tr, new_events w w' tr /\ no_keygen tr /\ accounted (kr_Token resp) tr
             /\ persisted cr u k h p resp (db_ek (w_db w')) tr r.
Proof.
  intros R. unfold persistKey in R. apply runs_bind in R as (o & w1 & R1 & R). apply runs_seal in R1 as [-> ->].
  destruct (seal_at _ _ _) as [material|].
  2:{ unfold revoke_key, emitInternalError in R. inv_runs. eexists. split; [new_tr|].
      split; [no_kg|]. split; [right|left]; eexists; by left. }
  apply runs_bind in R as (o & w2 & R1 & R).
  apply insertWithRetry_runs in R1 as (t1 & Hn & Hrow & _ & Hng & R1). destruct o as [k'|e].
  - destruct R1 as (Hins & n & t0 & Hst). apply keyCeiling_runs in R as (Hdb & t2 & Hn2 & Hng2 & R).
    exists (t1 ++ t2). split; [by eapply new_events_trans|]. split; [auto with ach|].
    split; [left; eexists; split; [by apply in_l|done]|].
    destruct r as [[k'' p']|]; cbn.
    + destruct R as (-> & -> & Hb). left. split; [done|]. exists material, n, t0. rewrite Hdb. split_and!; eauto with ach.
    + destruct R as (b & a & Hin & Ha). right. eauto 6 with ach.
  - apply runs_if in R as [[Hc R]|[_ R]].
    + apply raceLoser_runs in R as (t2 & Hn2 & Hng2 & [a Ha] & R). apply andb_true_iff in Hc as [Hx _].
      exists (t1 ++ t2). split; [by eapply new_events_trans|]. split; [auto with ach|].
      split; [right; eauto with ach|]. destruct r as [[k'' p']|]; cbn; [|left; eauto with ach].
      right. destruct R. split_and!; eauto with ach.
    + apply insertFailed_runs in R as (-> & t2 & Hn2 & Hng2 & [a Ha]).
      exists (t1 ++ t2). split; [by eapply new_events_trans|]. split; [auto with ach|].
      split; [right|left]; eauto with ach.
Qed.

(** A run of [mint] either refuses before LiteLLM created a key, or has
    exactly one successful KeyGenerate and then runs [persistKey]. *)
Lemma mint_runs cr env u (w w' : World L) r :
  runs (mint E deps cr env u) w r w' ->
  exists pre, (forall q a, EKeyGenerate q a ∈ pre -> is_ok a = false) /\
  ((r = None /\ new_events w w' pre) \/
   exists draws p keyID h team req resp post,
     Keys.NewBearer draws Keys.PrefixEk = Some (Ok p) /\ Hash E (d_Pepper deps) p = Ok h /\ team <> ""
     /\ kg_Metadata req = kg_Metadata (keyRequest deps cr env u team keyID) /\ kg_TeamID req = team
     /\ new_events w w' (pre ++ EKeyGenerate req (Ok resp) :: post)
     /\ no_keygen post /\ accounted (kr_Token resp) post
     /\ persisted cr u keyID h p resp (db_ek (w_db w')) post r).
Proof.
  intros R. unfold mint, emitInternalError, emitLitellmError in R. inv_runs;
    try match goal with X : runs (generateKey _) _ _ _ |- _ => apply generateKey_runs in X as [_ X]; cbn in X end;
    try match goal with X : runs (persistKey _ _ _ _ _ _ _) _ _ _ |- _ =>
      apply persistKey_runs in X as (post & Hn & Hng & Hacc & Hp) end.
  all: try (eexists; split; [|left; split; [done|new_tr]]; intros q0 ans0 Hin0; by in_trace Hin0).
  - match goal with X : exists _ _, new_events _ _ _ /\ _ |- _ => destruct X as (req' & pre & Hn1 & Hm & Ht & Hpre) end.
    exists (ELLRead "LookupTeamIDByAlias" :: pre). split; [intros q0 ans0 [Hin|Hin]%elem_of_cons; eauto; done|].
    right. eexists _, _, _, _, _, req', _, post. split_and!; [..|exact Hacc|exact Hp]; try done.
    + instantiate (1 := draws_at E (w_tick w)).
      by destruct (Keys.NewBearer (draws_at E (w_tick w)) Keys.PrefixEk) as [[]|]; simplify_eq/=.
    + by apply bool_decide_eq_false in Hc2.
    + unfold new_events in *. rewrite Hn, Hn1. cbn. by rewrite <-!app_assoc.
  - match goal with X : exists _, new_events _ _ _ /\ _ |- _ => destruct X as (pre & Hn1 & Hpre) end.
    exists (ELLRead "LookupTeamIDByAlias" :: pre ++ [EAudit (cr_action cr) (ClassifyLitellmErr e).2 "";
              EResp (ClassifyLitellmErr e).1 (ClassifyLitellmErr e).2]).
    split; [|left; split; [done|unfold new_events in *; cbn in *; rewrite Hn1; by rewrite <-!app_assoc]].
    intros q0 ans0 [Hin|[Hin|Hin]%elem_of_app]%elem_of_cons; [done|eauto|in_trace Hin].
Qed.
End MintPaths.

(** ** Safety of the mint *)

Lemma snoc_split {A} (pre post t1 t2 : list A) x y :
  pre ++ x :: post = t1 ++ y :: t2 -> (exists m, pre = t1 ++ y :: m) \/ (t1 = pre /\ y = x /\ t2 = post) \/ y ∈ post.
Proof.
  revert t1. induction pre as [|a pre IH]; intros [|b t1]; cbn; intros Heq; injection Heq as -> Heq.
  - subst. auto.
  - subst. right; right. apply elem_of_app. right. left.
  - left. by exists pre.
  - destruct (IH _ Heq) as [[m ->]|[(-> & -> & ->)|?]]; eauto.
Qed.

(** C1: minting never strands a LiteLLM key.  On every path of [mint] (any
    fault, any LiteLLM answer, any concurrent writer) at most one
    KeyGenerate succeeds, and after it either a row holding that key's token
    was committed or the deletion of that token was requested; when the
    request is refused without the deletion, the only cause is the refused
    budget write of a key whose row was committed. *)
Theorem mint_strands_no_key {L} `{LiteLLM L} (E : Env) (deps : Deps) (cr : createReq) (env : EnvironmentRow)
    (userID : string) (w : World L) :
  exists tr, new_events w (final (mint E deps cr env userID) w) tr /\
  forall t1 req resp t2, tr = t1 ++ EKeyGenerate req (Ok resp) :: t2 ->
    no_keygen t2 /\ (forall q a, EKeyGenerate q a ∈ t1 -> is_ok a = false)
    /\ accounted (kr_Token resp) t2
    /\ (result (mint E deps cr env userID) w = None -> (forall a, ERevokeKey (kr_Token resp) a ∉ t2) ->
        exists k b a, EUpsertBudget (KeyBudgetTag k) b a ∈ t2 /\ is_ok a = false).
Proof.
  pose proof (runs_final (mint E deps cr env userID) w) as R.
  apply mint_runs in R as (pre & Hpre & [[-> Hn]|R]).
  - exists pre. split; [done|]. intros t1 req resp t2 ->. exfalso.
    specialize (Hpre req (Ok resp)). cut (true = false); [done|]. apply Hpre, elem_of_app. right. left.
  - destruct R as (draws & p & keyID & h & team & req & resp & post & _ & _ & _ & _ & _ & Hn & Hng & Hacc & Hp).
    eexists. split; [exact Hn|]. intros t1 req' resp' t2 Heq.
    apply snoc_split in Heq as [[m ->]|[(-> & [= -> ->] & ->)|Hin]]; [|split_and!; try done|].
    + exfalso. specialize (Hpre req' (Ok resp')). cut (true = false); [done|]. apply Hpre, elem_of_app. right. left.
    + intros Hr Hno. rewrite Hr in Hp. destruct Hp as [[a Ha]|Hp]; [by destruct (Hno a)|done].
    + by destruct (Hng _ _ Hin).
Qed.

Lemma NewBearer_nonempty draws p s : Keys.NewBearer draws p = Some (Ok s) -> s <> "".
Proof.
  intros Hb. unfold Keys.NewBearer in Hb. destruct (_ && _) eqn:Hp; [done|].
  apply Keys.bearer_loop_Ok in Hb as (bytes & _ & _ & ->).
  apply andb_false_iff in Hp as [X|X]; apply bool_decide_eq_false, dec_stable in X; subst p; done.
Qed.

(** The row a successful INSERT leaves. *)
Lemma insert_stmt_lookup n row (t0 t : gmap string EkRow) :
  insert_stmt (insert_row n row) t0 = (Ok tt, t) -> t !! ei_KeyID row = Some (insert_row n row).
Proof. intros (-> & _)%insert_stmt_Ok. apply lookup_insert_eq. Qed.

Lemma EkResolve_live (t : gmap string EkRow) k r now :
  ek_wf t -> t !! k = Some r -> ek_live now r = true ->
  (EkResolve NoFault now (er_credential_hash r) t).1 = Ok (Some (resolve_cols r)).
Proof.
  intros Hwf Hk Hl. unfold EkResolve, resolve_stmt. rewrite (select1_unique _ t k r Hk); [done| |].
  - by rewrite Hl, bool_decide_eq_true_2.
  - intros k' r' Hk' HP. apply andb_true_iff in HP as [Hh%bool_decide_eq_true _].
    by eapply (wf_hash t Hwf).
Qed.

(** C16: a plaintext returned by [mint] is the credential of the row that was
    stored: under the returned id, active, with the caller's owner,
    Environment and expiry, hashed under the pepper, and (until it expires)
    resolving to exactly that key; when a budget was asked for, the key's
    budget tag was written before the plaintext is handed out. *)
Theorem mint_returns_stored_credential {L} `{LiteLLM L} (E : Env) (deps : Deps) (cr : createReq)
    (env : EnvironmentRow) (userID : string) (w : World L) (keyID plaintext : string)
    (HE : lawful E) (Hwf : ek_wf (db_ek (w_db w)))
    (Hr : result (mint E deps cr env userID) w = Some (keyID, plaintext)) (Hp : plaintext <> "") :
  let w' := final (mint E deps cr env userID) w in
  exists r, db_ek (w_db w') !! keyID = Some r
  /\ er_key_id r = keyID /\ er_status r = statusActive /\ er_owner_email r = cr_owner cr
  /\ er_environment r = cr_environment cr /\ er_expires_at r = cr_expiresAt cr
  /\ Hash E (d_Pepper deps) plaintext = Ok (er_credential_hash r)
  /\ (forall now, not_expired now (er_expires_at r) = true ->
        (EkResolve NoFault now (er_credential_hash r) (db_ek (w_db w'))).1 = Ok (Some (resolve_cols r)))
  /\ (forall b, cr_budget cr = Some b ->
        EUpsertBudget (KeyBudgetTag keyID) (TagBudgetOf b) (Ok tt) ∈ w_trace w').
Proof.
  intros w'. pose proof (runs_final (mint E deps cr env userID) w) as R. fold w' in R. rewrite Hr in R.
  pose proof (progress_wf _ _ (progress_mint E deps HE cr env userID _ _ _ R) Hwf) as Hwf'.
  apply mint_runs in R as (pre & _ & [[? _]|R]); [done|].
  destruct R as (draws & p & k0 & h & team & req & resp & post & Hb & Hh & _ & _ & _ & Hn & _ & _ & Hpers).
  destruct Hpers as [(-> & material & n & t0 & _ & Hins & Hbud)|(-> & _)]; [|done].
  pose proof (insert_stmt_lookup _ _ _ _ Hins) as Hk. eexists. split; [exact Hk|].
  split_and!; try done.
  - intros now Hx. eapply EkResolve_live; [done|exact Hk|]. unfold ek_live.
    rewrite bool_decide_eq_true_2 by done. exact Hx.
  - intros b Hbb. unfold new_events in Hn. rewrite Hn. apply in_r, in_r. right. by apply Hbud.
Qed.

(** ** Guards before minting *)

(** Nothing was created or changed in LiteLLM. *)
Definition creates (e : Event) : bool :=
  match e with EKeyGenerate _ _ | EUserNew _ _ | EMemberAdd _ _ _ | EUpsertBudget _ _ _ | EInsert _ _ => true | _ => false end.

(** [tr'] extends [tr] by events that create nothing. *)
Definition inert_ext (tr tr' : list Event) : Prop :=
  exists t, tr' = tr ++ t /\ forallb (fun e => negb (creates e)) t = true.

(** The run created nothing, neither in LiteLLM nor in the key table. *)
Definition inert {L} (w w' : World L) : Prop := inert_ext (w_trace w) (w_trace w').

Lemma inert_ext_refl tr : inert_ext tr tr.
Proof. exists []. by rewrite app_nil_r. Qed.

Lemma inert_ext_snoc tr tr' e : creates e = false -> inert_ext tr tr' -> inert_ext tr (tr' ++ [e]).
Proof.
  intros He (t & -> & Ht). exists (t ++ [e]). rewrite app_assoc. split; [done|].
  rewrite forallb_app, Ht. cbn. by rewrite He.
Qed.

Lemma inert_trans {L} (w w1 w' : World L) : inert w w1 -> inert w1 w' -> inert w w'.
Proof.
  intros (t1 & Hn1 & H1) (t2 & Hn2 & H2). exists (t1 ++ t2). rewrite Hn2, Hn1, app_assoc. split; [done|].
  by rewrite forallb_app, H1, H2.
Qed.

Ltac inert_tac :=
  unfold inert in *; cbn [w_trace] in *;
  repeat first [ assumption | apply inert_ext_refl | apply inert_ext_snoc; [done|] ].

Section Guards.
Context {L : Type} `{LiteLLM L} (E : Env) (deps : Deps) (HA : alone E).

Lemma validateAndLoadEnv_alone cr (w w' : World L) o :
  runs (validateAndLoadEnv E cr) w o w' ->
  w_db w' = w_db w /\ w_ll w' = w_ll w
  /\ inert w w'
  /\ forall env, o = Some env -> db_envs (w_db w) !! cr_environment cr = Some env
                                 /\ AccessGroupSyncedFromRow (Some env) = true.
Proof.
  intros R. unfold validateAndLoadEnv, emitInternalError in R. apply runs_bind in R as (r & w1 & R1 & R).
  unfold get_env in R1. apply runs_bind in R1 as (r' & w2 & R1 & R2).
  apply runs_read in R1 as [-> Hx]; [|done]. inv_runs;
    (split; [done|]); (split; [done|]); (split; [inert_tac|]); try done.
  intros env [= <-]. split; [symmetry; by apply Hx|]. by apply negb_false_iff.
Qed.

Lemma validateTeamMembership_runs cr env (w w' : World L) (b : bool) :
  runs (validateTeamMembership cr env) w b w' ->
  w_db w' = w_db w /\ inert w w'
  /\ (b = false -> exists teams, (LookupCallerTeams (cr_owner cr) (w_ll w)).1 = Ok teams
                                 /\ HasIntersect (env_AuthorizedTeams env) teams = true).
Proof.
  intros R. unfold validateTeamMembership, caller_teams, emitLitellmError in R. inv_runs;
    (split; [done|]); (split; [inert_tac|]); try done.
  intros _. eexists. rewrite Hll. split; [done|]. by apply negb_false_iff.
Qed.

(** The state of the world both issuing paths require. *)
Definition access_ok (d : DB) (l : L) (owner environment : string) : Prop :=
  exists env teams, db_envs d !! environment = Some env /\ AccessGroupSyncedFromRow (Some env) = true
    /\ (LookupCallerTeams owner l).1 = Ok teams /\ HasIntersect (env_AuthorizedTeams env) teams = true.


Lemma checkBody_runs req (w w' : World L) o :
  runs (checkBody E req) w o w' ->
  w_db w' = w_db w /\ w_ll w' = w_ll w /\ inert w w' /\
  forall x, o = Some x -> cq_Environment req <> "" /\ cq_Name req <> ""
    /\ (forall ts, x = Some ts -> exists n, (now_at E n < ts)%Z)
    /\ (forall b, cq_Budget req = Some b -> budget_valid b = true).
Proof.
  intros R. unfold checkBody in R. apply runs_if in R as [[_ R]|[Hne R]].
  { inv_runs. split_and!; [done..|inert_tac|done]. }
  apply orb_false_iff in Hne as [H1%bool_decide_eq_false H2%bool_decide_eq_false].
  destruct (cq_ExpiresAt req) as [| |ts]; inv_runs; (split; [done|]); (split; [done|]); (split; [inert_tac|]); try done;
    intros x [= <-]; (split; [done|]); (split; [done|]); (split; [|intros b0 Hb; simplify_eq; by apply negb_false_iff || done]);
    try done; intros ts' [= <-]; eexists; apply Z.ltb_lt; by apply negb_false_iff.
Qed.

Lemma key_allowance_alone e (w w' : World L) r :
  runs (key_allowance E deps e) w r w' ->
  (forall x, r = Ok x -> (UserKeyAllowance NoFault e (d_DefaultMaxKeys deps) (w_db w)).1 = Ok x)
  /\ w_db w' = w_db w /\ w_ll w' = w_ll w /\ inert w w'.
Proof.
  intros R. unfold key_allowance in R. apply runs_bind in R as (r' & w1 & R1 & R).
  unfold UserKeyAllowance in R1. apply (runs_read_raw _ (fun d => _)) in R1 as [-> Hx]; [|done]. inv_runs.
  split_and!; [|done|done|inert_tac]. intros x Hr. by rewrite (Hx x Hr).
Qed.


(** ** The exchange *)

Lemma applyBudget_runs cr k (w w' : World L) (b : bool) :
  runs (applyBudget cr k) w b w' ->
  w_db w' = w_db w /\ (exists t, w_trace w' = w_trace w ++ t)
  /\ (b = true -> forall q, cr_budget cr = Some q -> EUpsertBudget (KeyBudgetTag k) (TagBudgetOf q) (Ok tt) ∈ w_trace w').
Proof.
  intros R. unfold applyBudget, upsert_budget, emitLitellmError in R. inv_runs;
    (split; [done|]); (split; [first [by exists []; rewrite app_nil_r|eexists; cbn; by rewrite <-?app_assoc]|]); try done.
  intros _ q [= <-]. cbn. destruct a. apply elem_of_app. right. by left.
Qed.

(** The key a successful exchange speaks for, in the final table. *)
Lemma stableKey_runs cr env (w w' : World L) keyID :
  cr_xdb cr = true -> cr_requester cr <> "" -> env_Name env = cr_environment cr ->
  runs (stableKey E deps cr env) w (Some keyID) w' ->
  active_tuple cr (db_ek (w_db w')) keyID
  /\ (forall q, cr_budget cr = Some q -> EUpsertBudget (KeyBudgetTag keyID) (TagBudgetOf q) (Ok tt) ∈ w_trace w').
Proof.
  intros Hx Hq Hen R. unfold stableKey in R. apply runs_bind in R as (o & w1 & R1 & R).
  apply find_exchange_runs in R1 as [_ Hf]. destruct o as [[row|]|e]; [| |unfold emitInternalError in R; by inv_runs].
  - apply runs_if in R as [[Hst R]|[_ R]]; [|unfold refuseSuspended in R; by inv_runs].
    apply runs_bind in R as (b & w2 & R1 & R). apply applyBudget_runs in R1 as (Hdb & _ & Hb).
    apply runs_ret in R as [Hk ->]. destruct b; simplify_eq. split; [|by apply Hb].
    destruct (Hf _ eq_refl) as (k & er & Hk & -> & _ & Ho & He & Hr). exists k, er. rewrite Hdb.
    unfold has_status in Hst. apply bool_decide_eq_true in Hst. cbn in Hst |- *. split_and!; congruence.
  - clear Hf. apply runs_bind in R as (u & w2 & R1 & R). clear R1.
    destruct u as [u|]; [|by apply runs_ret in R as [? _]].
    apply runs_bind in R as (m & w3 & R1 & R). destruct m as [[k p]|]; [|by apply runs_ret in R as [? _]].
    apply mint_runs in R1 as (pre & _ & [[? _]|R1]); [done|].
    destruct R1 as (draws & pt & k0 & h & team & req & resp & post & Hb & _ & _ & _ & _ & Hn & _ & _ & Hp).
    destruct Hp as [(-> & material & n & t0 & _ & Hins & Hbud)|(-> & _ & _ & Hact)].
    + rewrite bool_decide_eq_false_2 in R by (by eapply NewBearer_nonempty).
      apply runs_ret in R as [[= ->] ->]. split.
      * pose proof (insert_stmt_lookup _ _ _ _ Hins) as Hk. cbn in Hk. eexists _, _. split; [exact Hk|]. cbn.
        by rewrite bool_decide_eq_true_2.
      * intros q Hbq. unfold new_events in Hn. rewrite Hn. apply in_r, in_r. right. by apply Hbud.
    + apply runs_bind in R as (b & w4 & R1 & R). apply applyBudget_runs in R1 as (Hdb & _ & Hb2).
      apply runs_ret in R as [Hk ->]. destruct b; simplify_eq. rewrite Hdb. split; [done|by apply Hb2].
Qed.

#[local] Arguments CutPrefix : simpl never.
#[local] Arguments Keys.PeekAudience : simpl never.

Lemma reviewedRequester_ok st aud requester :
  reviewedRequester st aud = (requester, "") ->
  requester <> "" /\ tr_Authenticated st = true /\ aud ∈ tr_Audiences st
  /\ firstExtra (tr_PodName st) <> "" /\ firstExtra (tr_PodUID st) <> ""
  /\ exists ns name, ns <> "" /\ name <> "" /\ requester = ns +:+ "/" +:+ name
                     /\ exists rest, tr_Username st = saUserPrefix +:+ rest /\ CutByte ":" rest = Some (ns, name).
Proof.
  unfold reviewedRequester. intros Hr. destruct (tr_Authenticated st); [|done].
  destruct (Contains _ _) eqn:Ha; [|done]. apply Contains_spec in Ha. cbn [negb] in Hr.
  destruct (CutPrefix _ _) as [rest|] eqn:Hp; [|done]. apply CutPrefix_Some in Hp.
  destruct (CutByte _ _) as [[ns name]|] eqn:Hc; [|done].
  repeat case_bool_decide; cbn in Hr; try done. simplify_eq. split_and!; try done.
  - intros E0. destruct ns; [done|]. discriminate E0.
  - exists ns, name. split_and!; try done. by exists rest.
Qed.

(** From the reviewed token on. *)
Lemma exchangeAs_runs X aud requester req (w w' : World L) resp :
  (forall n e, db_envs (w_db w) !! n = Some e -> env_Name e = n) -> requester <> "" ->
  runs (exchangeAs E deps X aud requester req) w (Some resp) w' ->
  let id := NormalizeEmail (xr_Identity req) in
  exists grants,
    (ListKeyGrantsForIdentity NoFault (d_Namespace deps) id (db_grants (w_db w))).1 = Ok grants
    /\ (exists g, g ∈ grants /\ g_Identity g = id
                  /\ xr_Environment req ∈ g_Environments g /\ requester ∈ g_ServiceAccounts g)
    /\ access_ok (w_db w) (w_ll w) id (xr_Environment req)
    /\ xo_Sign X aud (xp_KeyID resp) ExchangeAudience = Some (xp_Token resp)
    /\ (exists k er, db_ek (w_db w') !! k = Some er /\ er_key_id er = xp_KeyID resp /\ er_status er = statusActive
          /\ er_owner_email er = id /\ er_environment er = xr_Environment req /\ er_requester er = Some requester)
    /\ (forall b, Budget (Covering grants id (xr_Environment req) requester) = Some b ->
          EUpsertBudget (KeyBudgetTag (xp_KeyID resp)) b (Ok tt) ∈ w_trace w').
Proof.
  intros Henvs Hreq R id. unfold exchangeAs in R. fold id in R. apply runs_bind in R as (g & w1 & R1 & R).
  unfold list_grants, ListKeyGrantsForIdentity, queryKeyGrants in R1. apply runs_bind in R1 as (g' & w0 & R1 & R2).
  apply runs_sql in R1 as (d & Hd & ->). rewrite HA in Hd.
  inv_run_step. inv_run_step. inv_run_step.
  destruct g' as [grants|]; [|unfold deny in R; by inv_runs].
  assert (Hg : (ListKeyGrantsForIdentity NoFault (d_Namespace deps) id (db_grants (w_db w))).1 = Ok grants /\ d = w_db w).
  { unfold ListKeyGrantsForIdentity, queryKeyGrants. destruct (fault_at E (w_tick w)); cbn in Hd |- *; simplify_eq; split; reflexivity. }
  destruct Hg as [Hg ->]. clear Hd. exists grants. split; [done|].
  destruct (Covering grants id (xr_Environment req) requester) as [|g0 gs] eqn:Hcov; 
    [unfold deny in R; by inv_runs|].
  assert (Hin : g0 ∈ Covering grants id (xr_Environment req) requester) by (rewrite Hcov; left).
  apply Covering_spec in Hin. split; [by eauto|]. clear Hin Hg.
  unfold issueFor in R. set (cr := MkCreateReq _ _ _ _ _ _ _ _) in R.
  apply runs_bind in R as (env & w2 & R1 & R). apply validateAndLoadEnv_alone in R1 as (Hd2 & Hl2 & _ & Henv).
  destruct env as [env|]; [|by apply runs_ret in R as [? _]]. destruct (Henv env eq_refl) as [He Hs].
  apply runs_bind in R as (b & w3 & R1 & R). apply validateTeamMembership_runs in R1 as (Hd3 & _ & Ht).
  apply runs_if in R as [[_ R]|[-> R]]; [by apply runs_ret in R as [? _]|]. destruct (Ht eq_refl) as (teams & Ht1 & Ht2).
  rewrite Hl2 in Ht1. split; [by exists env, teams|].
  apply runs_bind in R as (k & w4 & R1 & R). destruct k as [keyID|]; [|by apply runs_ret in R as [? _]].
  apply stableKey_runs in R1 as [Hact Hb]; [|done..|by apply Henvs].
  destruct (xo_Sign X aud keyID ExchangeAudience) as [signed|] eqn:Hsign; [|unfold emitInternalError in R; by inv_runs].
  inv_runs. cbn. split; [done|]. split.
  - destruct Hact as (k & er & Hk & -> & Hst & Ho & Hen & Hrq). by exists k, er.
  - intros b Hbud. apply in_l, in_l. change (Budget (g0 :: gs) = Some b) in Hbud. destruct b as [m dur].
    apply (Hb (MkBudgetRequest (Some m) dur)). change (cr_budget cr) with
      ((fun b => MkBudgetRequest (Some (tb_MaxBudget b)) (tb_BudgetDuration b)) <$> Budget (g0 :: gs)).
    by rewrite Hbud.
Qed.

End Guards.

(** ** Concrete instances *)

Definition m_env : EnvironmentRow := MkEnv "dev" ["T1"] [] [] (CondSingle "AccessGroupSynced" "True").
Definition m_row (id : string) : EkRow :=
  MkEkRow id "other-hash" "dev" "b@x" "n" statusActive (Some "v") (Some "tok0") None 0 None None None "manual" None.
Definition m_grant : KeyGrantRow := MkGrant "ach" "g" "ai@x" ["dev"] ["agents/doctor"] (Some 20%Z) "30d".
Definition m_db (rows : gmap string EkRow) : DB :=
  MkDB rows ∅ {["dev" := m_env]} {["a@x" := 5%Z]} {[("ach", "g") := m_grant]}.
Definition m_ll : FakeLL :=
  MkFake [MkUserInfo "u" "a@x" ["T1"]; MkUserInfo "ai" "ai@x" ["T1"]]
    [MkTeam "T1" "team-one"; MkTeam "S1" "ach-env-dev"] [] ["tok1"] None None None.
Definition m_world (rows : gmap string EkRow) : World FakeLL := MkWorld 0 (m_db rows) m_ll [].
Definition m_deps : Deps := MkDeps [] "pepper" "ach" "https://ach.example/" 0 false.
Definition m_calm : Env := calm 100 (replicate 48 "A"%char).
Definition m_cr : createReq := MkCreateReq "platform.ek.create" "a@x" "dev" "laptop" None None "" false.
Definition m_kc : KeyContext := MkKeyContext "pkid_1" Keys.PrefixPk "a@x" "" false.
Definition aa_id := "ekid_01j000000000000000000000aa".
Definition bb_id := "ekid_01j000000000000000000000bb".

(** The key minted in the calm world. *)
Definition m_plain : string := default "" (snd <$> result (mint m_calm m_deps m_cr m_env "u") (m_world ∅)).

Lemma mint_returns_stored_credential_witness :
  exists r, db_ek (w_db (final (mint m_calm m_deps m_cr m_env "u") (m_world ∅))) !! aa_id = Some r
  /\ er_owner_email r = "a@x" /\ Hash m_calm "pepper" m_plain = Ok (er_credential_hash r).
Proof.
  edestruct (mint_returns_stored_credential m_calm m_deps m_cr m_env "u" (m_world ∅) aa_id m_plain
               (quiet_lawful _ (calm_quiet _ _)) empty_wf) as (r & H1 & _ & _ & H2 & _ & _ & H3 & _).
  - vm_compute. reflexivity.
  - vm_compute. discriminate.
  - exists r. split; [exact H1|split; [exact H2|exact H3]].
Defined.


Definition m_claims (b : list ascii) : option Keys.AudClaim := Some (Keys.AudOne "https://ach.example").
Definition m_outside : ExchangeOutside :=
  MkOutside m_claims (fun _ => true) (fun _ => Ok tt) true
    (fun _ _ => Some (MkReview true ["https://ach.example"] "system:serviceaccount:agents:doctor" ["pod"] ["uid"]))
    (fun iss sub aud => Some (iss +:+ "|" +:+ sub +:+ "|" +:+ aud)) (15 * Minute).
Definition m_xreq := Some (MkExchangeRequest "AI@x" "dev").


