(* ===== verification/Keystore.v ===== *)
(** * Bearer resolution (internal/keystore)

    The resolver chain every service authenticates with: the Postgres
    resolver, the OAuth and exchange JWT resolvers around it, the Redis cache
    around those, and the forwarder's trusted-IdP resolver outside the cache.
    A resolver is a function of the clock, the bearer and the state it works
    on; each SQL statement takes the next fault of the state.  JWT
    verification is a parameter (the crypto is a library's). *)

From S2P Require Import Prelude Keys KeyDB LiteLLM World KeyGrant.
Import EkDB PkDB.

Open Scope string_scope.
Open Scope list_scope.

(** ** Data *)

Record KeyInfo : Type := MkKeyInfo {
  ki_KeyID : string;
  ki_KeyType : Keys.BearerPrefix;
  ki_OwnerEmail : string;
  ki_ExpiresAt : option Z;
  ki_Environment : string;
  ki_LiteLLMUserID : option string;
  ki_LiteLLMToken : option string;
  ki_LiteLLMKeyMaterial : option string
}.

#[global] Instance KeyInfo_eq_dec : EqDecision KeyInfo.
Proof. solve_decision. Defined.

Definition set_expires (e : option Z) (i : KeyInfo) : KeyInfo :=
  MkKeyInfo (ki_KeyID i) (ki_KeyType i) (ki_OwnerEmail i) e (ki_Environment i)
    (ki_LiteLLMUserID i) (ki_LiteLLMToken i) (ki_LiteLLMKeyMaterial i).

Definition KeyInfoFromPK (row : PkKeyInfo) : KeyInfo :=
  MkKeyInfo (pk_KeyID row) Keys.PrefixPk (pk_OwnerEmail row) (Some (pk_ExpiresAt row)) ""
    (pk_LiteLLMUserID row) (pk_LiteLLMToken row) (pk_LiteLLMKeyMaterial row).

Definition keyInfoFromEK (row : EkKeyInfo) : KeyInfo :=
  MkKeyInfo (ek_KeyID row) Keys.PrefixEk (ek_OwnerEmail row) (ek_ExpiresAt row) (ek_Environment row)
    (ek_LiteLLMUserID row) (ek_LiteLLMToken row) (ek_LiteLLMKeyMaterial row).

(** Infrastructure errors, by where they arose. *)
Inductive ResolveErr : Type :=
| HashErr (e : CredErr)
| PkErr (e : DbErr)
| EkErr (e : DbErr)
| OAuthErr (e : PgErr)
| LookupErr (e : DbErr)
| ErrIdPUnreachable
| ErrLoginRequired
| FlightErr.

(** The database, the faults of the coming statements, and the LiteLLM
    tokens whose expiry the extend hook was asked to re-base. *)
Record KS : Type := MkKS { ks_db : DB; ks_faults : list Fault; ks_extended : list string }.

Definition Resolver : Type := Z -> string -> KS -> Res ResolveErr (option KeyInfo) * KS.

Definition next_fault (s : KS) : Fault := default NoFault (head (ks_faults s)).
Definition after (d : DB) (s : KS) : KS := MkKS d (tail (ks_faults s)) (ks_extended s).
Definition hook (t : string) (s : KS) : KS := MkKS (ks_db s) (ks_faults s) (ks_extended s ++ [t]).

(** [PkExtendHook] on a slid row, when a hook is wired. *)
Definition run_hook (wired : bool) (row : PkKeyInfo) (s : KS) : KS :=
  match pk_LiteLLMToken row with
  | Some t => if pk_Extended row && wired then hook t s else s
  | None => s
  end.

(** ** dbresolver.go *)

Definition pkLookupFor (wired : bool) (now : Z) (hash : string) (s : KS) : Res DbErr (option KeyInfo) * KS :=
  match on_pk (PkCheckAndExtend (next_fault s) now hash) (ks_db s) with
  | (Err e, d) => (Err e, after d s)
  | (Ok None, d) => (Ok None, after d s)
  | (Ok (Some row), d) => (Ok (Some (KeyInfoFromPK row)), run_hook wired row (after d s))
  end.

Definition ekLookupFor (now : Z) (hash : string) (s : KS) : Res DbErr (option KeyInfo) * KS :=
  match on_ek (EkResolve (next_fault s) now hash) (ks_db s) with
  | (Err e, d) => (Err e, after d s)
  | (Ok r, d) => (Ok (keyInfoFromEK <$> r), after d s)
  end.

Section Resolvers.
Context (E : Env) (pepper : string) (wired : bool).

Definition dbResolver : Resolver := fun now plaintext s =>
  match Keys.ClassifyBearer plaintext with
  | Err _ => (Ok None, s)
  | Ok prefix =>
      match Hash E pepper plaintext with
      | Err e => (Err (HashErr e), s)
      | Ok hash =>
          if bool_decide (prefix = Keys.PrefixPk)
          then match pkLookupFor wired now hash s with
               | (Err e, s') => (Err (PkErr e), s')
               | (Ok i, s') => (Ok i, s')
               end
          else if bool_decide (prefix = Keys.PrefixEk)
          then match ekLookupFor now hash s with
               | (Err e, s') => (Err (EkErr e), s')
               | (Ok i, s') => (Ok i, s')
               end
          else (Ok None, s)
      end
  end.

(** ** oauthresolver.go *)

(** What verifying a JWT can answer besides a subject. *)
Inductive JwtErr : Type := ErrNotAJWT | JwtInvalid.

(** [Verify raw iss aud]. *)
Context (Verify : string -> string -> string -> Res JwtErr string) (iss oauthAud : string).

Definition trimmed_iss : string := TrimRightByte "/" iss.

Definition oauthResolver (inner : Resolver) : Resolver := fun now plaintext s =>
  if negb (Keys.LooksLikeJWS plaintext) then inner now plaintext s
  else match Verify plaintext trimmed_iss oauthAud with
       | Err ErrNotAJWT => inner now plaintext s
       | Err JwtInvalid => (Ok None, s)
       | Ok email =>
           match ActiveOAuthPK (next_fault s) now email (db_pk (ks_db s)) with
           | Err e => (Err (OAuthErr e), after (ks_db s) s)
           | Ok None => (Ok None, after (ks_db s) s)
           | Ok (Some row) => (Ok (Some (KeyInfoFromPK row)), after (ks_db s) s)
           end
       end.

(** ** exchangeresolver.go *)

Context (unmarshal : list ascii -> option Keys.AudClaim)
        (VerifyExp : string -> string -> string -> Res JwtErr (string * Z)) (namespace : string).

Definition ExchangeAudience : string := "ach-ek".

Definition grantedExchangeKey (now : Z) (keyID : string) (s : KS) : Res DbErr (option EkKeyInfo) * KS :=
  match on_ek (ExchangeKeyResolve (next_fault s) now keyID) (ks_db s) with
  | (Err e, d) => (Err e, after d s)
  | (Ok None, d) => (Ok None, after d s)
  | (Ok (Some row), d) =>
      let s1 := after d s in
      match (ListKeyGrantsForIdentity (next_fault s1) namespace (ek_OwnerEmail row) (db_grants d)).1 with
      | Err e => (Err e, after d s1)
      | Ok grants =>
          match Covering grants (ek_OwnerEmail row) (ek_Environment row) (ek_Requester row) with
          | [] => (Ok None, after d s1)
          | _ => (Ok (Some row), after d s1)
          end
      end
  end.

Definition exchangeResolver (inner : Resolver) : Resolver := fun now plaintext s =>
  if negb (Keys.LooksLikeJWS plaintext)
     || negb (Contains (Keys.PeekAudience unmarshal plaintext) ExchangeAudience)
  then inner now plaintext s
  else match VerifyExp plaintext trimmed_iss ExchangeAudience with
       | Err _ => (Ok None, s)
       | Ok (keyID, exp) =>
           match grantedExchangeKey now keyID s with
           | (Err e, s') => (Err (LookupErr e), s')
           | (Ok None, s') => (Ok None, s')
           | (Ok (Some row), s') =>
               let info := keyInfoFromEK row in
               (Ok (Some (match ki_ExpiresAt info with
                          | Some x => if (exp <? x)%Z then set_expires (Some exp) info else info
                          | None => set_expires (Some exp) info
                          end)), s')
           end
       end.

(** What the services cache: exchange around OAuth around Postgres. *)
Definition chain : Resolver := exchangeResolver (oauthResolver dbResolver).

(** ** idp.go: the forwarder's trusted issuer, outside the cache *)

Inductive IdPErr : Type := IdPUnreachable | IdPTokenInvalid.

Context (issuer_of : list ascii -> option string) (trusted : string)
        (VerifyIdP : string -> Res IdPErr (string * Z)).

Definition peekIssuer (raw : string) : string :=
  match SplitByte "."%char raw with
  | [_; payload; _] =>
      match Base64.decode (chars payload) with
      | None => ""
      | Some b => default "" (issuer_of b)
      end
  | _ => ""
  end.

Definition trustedIdPResolver (inner : Resolver) : Resolver := fun now plaintext s =>
  if negb (Keys.LooksLikeJWS plaintext) || negb (bool_decide (peekIssuer plaintext = trusted))
  then inner now plaintext s
  else match VerifyIdP plaintext with
       | Err IdPUnreachable => (Err ErrIdPUnreachable, s)
       | Err IdPTokenInvalid => (Ok None, s)
       | Ok (email, exp) =>
           match on_pk (OAuthPKCheckAndExtend (next_fault s) now email) (ks_db s) with
           | (Err e, d) => (Err (LookupErr e), after d s)
           | (Ok None, d) => (Err ErrLoginRequired, after d s)
           | (Ok (Some row), d) =>
               let info := KeyInfoFromPK row in
               (Ok (Some (if (exp <? pk_ExpiresAt row)%Z then set_expires (Some exp) info else info)),
                run_hook wired row (after d s))
           end
       end.

End Resolvers.

(** ** keylive.go *)

Definition keyLive (f : Fault) (now : Z) (keyType : Keys.BearerPrefix) (keyID : string) (d : DB) : Res DbErr bool :=
  let live (status : option KeyStatus) (expires : option Z) :=
    bool_decide (status = Some statusActive) && match expires with None => true | Some x => (now <? x)%Z end in
  if bool_decide (keyType = Keys.PrefixPk)
  then match (GetPersonalKey f keyID (db_pk d)).1 with
       | Err e => Err e
       | Ok None => Ok false
       | Ok (Some row) => Ok (live (pk_Status row) (Some (pk_ExpiresAt row)))
       end
  else match (GetEnvironmentKey f keyID (db_ek d)).1 with
       | Err e => Err e
       | Ok None => Ok false
       | Ok (Some row) => Ok (live (ek_Status row) (ek_ExpiresAt row))
       end.

(** ** Soundness of the chain *)

Lemma insert_by_elem {A} (key : A -> string) x y l : y ∈ insert_by key x l <-> y = x \/ y ∈ l.
Proof.
  induction l as [|z l IH]; cbn; [by rewrite elem_of_cons|].
  destruct (str_ltb _ _); rewrite !elem_of_cons, ?IH; tauto.
Qed.

Lemma sort_by_elem {A} (key : A -> string) l y : y ∈ sort_by key l <-> y ∈ l.
Proof.
  induction l as [|x l IH]; cbn; [done|]. fold (sort_by key l). by rewrite insert_by_elem, IH, elem_of_cons.
Qed.

Lemma ListKeyGrantsForIdentity_elem f ns id t gs g :
  (ListKeyGrantsForIdentity f ns id t).1 = Ok gs ->
  g ∈ gs <-> (exists k, t !! k = Some g) /\ g_Namespace g = ns /\ g_Identity g = id.
Proof.
  unfold ListKeyGrantsForIdentity, queryKeyGrants. intros Hl.
  destruct f; cbn in Hl; try discriminate Hl. injection Hl as <-.
  rewrite sort_by_elem, list_elem_of_In, filter_In, andb_true_iff, !bool_decide_eq_true, in_map_iff.
  split.
  - intros [([k x] & <- & Hin%list_elem_of_In%elem_of_map_to_list) ?]. eauto.
  - intros [[k Hk] ?]. split; [|done]. exists (k, g). split; [done|]. by apply list_elem_of_In, elem_of_map_to_list.
Qed.

Lemma resolve_stmt_Some now P cols (t t' : gmap string EkRow) i :
  resolve_stmt now P cols t = (Ok (Some i), t') ->
  exists k r, t !! k = Some r /\ P r = true /\ ek_live now r = true /\ i = cols (touch now r)
              /\ t' = <[k := touch now r]> t.
Proof.
  unfold resolve_stmt. destruct (select1 _ t) as [[k r]|] eqn:Hs; [|done]. intros [= <- <-].
  apply select1_Some in Hs as [Hk [HP Hl]%andb_true_iff]. by exists k, r.
Qed.

Section ChainSound.
Context (E : Env) (pepper : string) (wired : bool)
        (Verify : string -> string -> string -> Res JwtErr string) (iss oauthAud : string)
        (unmarshal : list ascii -> option Keys.AudClaim)
        (VerifyExp : string -> string -> string -> Res JwtErr (string * Z)) (ns : string).

Abbreviation Chain := (chain E pepper wired Verify iss oauthAud unmarshal VerifyExp ns).
Abbreviation Iss := (TrimRightByte "/" iss).

(** A pk_ bearer of a live personal key. *)
Definition via_pk (d : DB) (now : Z) (b : string) (i : KeyInfo) : Prop :=
  exists k r h, Keys.ClassifyBearer b = Ok Keys.PrefixPk /\ Hash E pepper b = Ok h
    /\ db_pk d !! k = Some r /\ pr_credential_hash r = h /\ pk_candidate now r = true
    /\ ki_KeyID i = pr_key_id r /\ ki_OwnerEmail i = pr_owner_email r /\ ki_KeyType i = Keys.PrefixPk.

(** An ek_ bearer of a live environment key. *)
Definition via_ek (d : DB) (now : Z) (b : string) (i : KeyInfo) : Prop :=
  exists k r h, Keys.ClassifyBearer b = Ok Keys.PrefixEk /\ Hash E pepper b = Ok h
    /\ db_ek d !! k = Some r /\ er_credential_hash r = h /\ ek_live now r = true
    /\ i = keyInfoFromEK (resolve_cols r).

(** An ACH OAuth JWT of a user with a live oauth personal key. *)
Definition via_oauth (d : DB) (now : Z) (b : string) (i : KeyInfo) : Prop :=
  Keys.LooksLikeJWS b = true /\ exists email k r, Verify b Iss oauthAud = Ok email
    /\ db_pk d !! k = Some r /\ pr_owner_email r = email /\ active_oauth r = true /\ (now < pr_expires_at r)%Z
    /\ i = KeyInfoFromPK (pk_oauth_cols r).

(** An exchange JWT naming a live exchange key that a KeyGrant of the
    namespace still covers; never valid beyond the JWT's own exp. *)
Definition via_exchange (d : DB) (now : Z) (b : string) (i : KeyInfo) : Prop :=
  Keys.LooksLikeJWS b = true /\ exists keyID exp k r g kg rq x, VerifyExp b Iss ExchangeAudience = Ok (keyID, exp)
    /\ db_ek d !! k = Some r /\ er_key_id r = keyID /\ er_issued_via r = "exchange" /\ ek_live now r = true
    /\ db_grants d !! kg = Some g /\ g_Namespace g = ns /\ g_Identity g = er_owner_email r
    /\ er_environment r ∈ g_Environments g /\ default "" (er_requester r) = rq /\ rq ∈ g_ServiceAccounts g
    /\ ki_KeyID i = keyID /\ ki_OwnerEmail i = er_owner_email r /\ ki_KeyType i = Keys.PrefixEk
    /\ ki_Environment i = er_environment r
    /\ ki_ExpiresAt i = Some x /\ (x <= exp)%Z
    /\ (forall y, er_expires_at r = Some y -> (x <= y)%Z).

Lemma dbResolver_sound now b s i s' :
  dbResolver E pepper wired now b s = (Ok (Some i), s') -> via_pk (ks_db s) now b i \/ via_ek (ks_db s) now b i.
Proof.
  unfold dbResolver. destruct (Keys.ClassifyBearer b) as [p|] eqn:Hp; [|done].
  destruct (Hash E pepper b) as [h|] eqn:Hh; [|done].
  case_bool_decide as Hpk; [|case_bool_decide as Hek; [|done]].
  - unfold pkLookupFor, on_pk. destruct (PkCheckAndExtend _ _ _ _) as [[[row|]|e] t] eqn:Hq; try done.
    intros [= <- _]. left. apply with_fault_Ok in Hq as [_ Hq].
    destruct (pk_select1 _ _) as [[k r]|] eqn:Hs; [|done]. injection Hq as <- _.
    apply pk_select1_Some in Hs as [Hk [Hm%bool_decide_eq_true Hc]%andb_true_iff].
    exists k, r, h. subst p. split_and!; try done; cbn; unfold pk_extend; by destruct (debounce _ _).
  - unfold ekLookupFor, on_ek. destruct (EkResolve _ _ _ _) as [[o|e] t] eqn:Hq; try done.
    destruct o as [row|]; [|done]. intros [= <- _]. right. apply with_fault_Ok in Hq as [_ Hq].
    apply resolve_stmt_Some in Hq as (k & r & Hk & Hm%bool_decide_eq_true & Hl & -> & _).
    exists k, r, h. subst p. split_and!; try done.
Qed.

Lemma oauthResolver_sound now b s i s' :
  oauthResolver Verify iss oauthAud (dbResolver E pepper wired) now b s = (Ok (Some i), s') ->
  via_pk (ks_db s) now b i \/ via_ek (ks_db s) now b i \/ via_oauth (ks_db s) now b i.
Proof.
  unfold oauthResolver. destruct (Keys.LooksLikeJWS b) eqn:Hj; cbn [negb];
    [|intros [?|?]%dbResolver_sound; auto].
  destruct (Verify _ _ _) as [email|[]] eqn:Hv; [|intros [?|?]%dbResolver_sound; auto|done].
  destruct (ActiveOAuthPK _ _ _ _) as [[row|]|e] eqn:Hq; try done. intros [= <- _]. right; right.
  split; [done|]. unfold ActiveOAuthPK, oauthPK in Hq. destruct (next_fault s); try done.
  destruct (pk_select1 _ _) as [[k r]|] eqn:Hs; [|done]. cbn in Hq. injection Hq as <-.
  apply pk_select1_Some in Hs as [Hk [[Ho%bool_decide_eq_true Ha]%andb_true_iff He%Z.ltb_lt]%andb_true_iff].
  by exists email, k, r.
Qed.

Lemma grantedExchangeKey_sound now keyID s row s' :
  grantedExchangeKey ns now keyID s = (Ok (Some row), s') ->
  exists k r g kg, db_ek (ks_db s) !! k = Some r /\ er_key_id r = keyID /\ er_issued_via r = "exchange"
    /\ ek_live now r = true /\ db_grants (ks_db s) !! kg = Some g /\ g_Namespace g = ns
    /\ g_Identity g = er_owner_email r /\ er_environment r ∈ g_Environments g
    /\ default "" (er_requester r) ∈ g_ServiceAccounts g /\ row = xresolve_cols r.
Proof.
  unfold grantedExchangeKey, on_ek. destruct (ExchangeKeyResolve _ _ _ _) as [[[row'|]|e] t] eqn:Hq; try done.
  apply with_fault_Ok in Hq as [_ Hq].
  apply resolve_stmt_Some in Hq as (k & r & Hk & [Hm%bool_decide_eq_true Hx%bool_decide_eq_true]%andb_true_iff & Hl & -> & _).
  destruct (ListKeyGrantsForIdentity _ _ _ _).1 as [gs|e] eqn:Hg; [|done].
  destruct (Covering _ _ _ _) as [|g rest] eqn:Hc; [done|]. intros [= <- _].
  assert (Hin : g ∈ Covering gs (ek_OwnerEmail (xresolve_cols (touch now r)))
      (ek_Environment (xresolve_cols (touch now r))) (ek_Requester (xresolve_cols (touch now r)))) by (rewrite Hc; left).
  apply Covering_spec in Hin as (Hin & Hid & He & Hs). apply (ListKeyGrantsForIdentity_elem _ _ _ _ _ g) in Hg.
  apply Hg in Hin as ([kg Hkg] & Hns & _). cbn in *. by exists k, r, g, kg.
Qed.

(** C5: the chain every service authenticates with accepts a bearer only as
    a live credential: a pk_ whose row is active, unexpired and under the
    90-day cap, an ek_ whose row is active and unexpired, an OAuth JWT that
    verifies and whose user has a live oauth row, or an exchange JWT that
    verifies, names a live exchange key and is still covered by one KeyGrant
    of the namespace; the identity it yields is that row's, and an exchange
    identity never outlives the JWT or the key. *)
Theorem chain_accepts_only_live_credentials (now : Z) (bearer : string) (s s' : KS) (i : KeyInfo)
    (Hres : Chain now bearer s = (Ok (Some i), s')) :
  via_pk (ks_db s) now bearer i \/ via_ek (ks_db s) now bearer i
  \/ via_oauth (ks_db s) now bearer i \/ via_exchange (ks_db s) now bearer i.
Proof.
  unfold chain, exchangeResolver in Hres. destruct (negb _ || negb _) eqn:Hr.
  { apply oauthResolver_sound in Hres. tauto. }
  apply orb_false_iff in Hr as [Hj%negb_false_iff _].
  destruct (VerifyExp _ _ _) as [[keyID exp]|] eqn:Hv; [|done].
  destruct (grantedExchangeKey _ _ _ _) as [[[row|]|e] s1] eqn:Hq; try done. injection Hres as <- _.
  apply grantedExchangeKey_sound in Hq as (k & r & g & kg & Hk & Hid & Hx & Hl & Hg & Hns & Hgi & He & Hs & ->).
  right; right; right. split; [done|].
  exists keyID, exp, k, r, g, kg, (default "" (er_requester r)). cbn.
  destruct (er_expires_at r) as [y|] eqn:Hy; [destruct (exp <? y)%Z eqn:Hlt; [apply Z.ltb_lt in Hlt|apply Z.ltb_ge in Hlt]|];
    [exists exp|exists y|exists exp]; split_and!; try done; try lia; intros y0 [= <-]; lia.
Qed.

End ChainSound.

(** ** The liveness endpoint agrees with authentication *)

(** C30: the per-request liveness check reads the same predicate the
    resolvers enforce: for an environment key it is true exactly when that
    key's credential would resolve to it at the same instant, and for a
    personal key (whose window never passes the 90-day cap) exactly when its
    credential would be accepted; a missing row is a definite false. *)
Theorem keyLive_agrees_with_resolvers (now : Z) (d : DB) (Hwf : ek_wf (db_ek d)) :
  (forall k r, db_ek d !! k = Some r ->
     (keyLive NoFault now Keys.PrefixEk k d = Ok true <->
      (EkResolve NoFault now (er_credential_hash r) (db_ek d)).1 = Ok (Some (resolve_cols r))))
  /\ (forall k r, db_pk d !! k = Some r -> window_ok r ->
       keyLive NoFault now Keys.PrefixPk k d = Ok (pk_candidate now r))
  /\ (forall ty k, db_ek d !! k = None -> db_pk d !! k = None -> keyLive NoFault now ty k d = Ok false).
Proof.
  split_and!.
  - intros k r Hk. destruct (EkResolve NoFault now (er_credential_hash r) (db_ek d)) as [x t'] eqn:He.
    apply (f_equal fst) in He as He1. cbn [fst] in He1 |- *.
    unfold keyLive. rewrite bool_decide_eq_false_2 by done. cbn. rewrite Hk. cbn.
    change (match er_expires_at r with None => true | Some x => (now <? x)%Z end) with (not_expired now (er_expires_at r)).
    rewrite (bool_decide_ext (Some (er_status r) = Some statusActive) (er_status r = statusActive)) by (split; congruence).
    fold (ek_live now r). split.
    + intros [= Hl]. rewrite <-He1. unfold EkResolve, resolve_stmt. rewrite (select1_unique _ _ k r Hk); [done| |].
      * by rewrite Hl, bool_decide_eq_true_2.
      * intros k' r' Hk' [Hh%bool_decide_eq_true _]%andb_true_iff. by eapply (wf_hash _ Hwf).
    + intros ->. f_equal.
      unfold EkResolve in He. apply with_fault_Ok in He as [_ He]. apply resolve_stmt_Some in He as (k' & r' & Hk' & Hm%bool_decide_eq_true & Hl & _).
      assert (k' = k) as -> by (by eapply (wf_hash _ Hwf)). congruence.
  - intros k r Hk [Hw _]. unfold keyLive. rewrite bool_decide_eq_true_2 by done. cbn. rewrite Hk. cbn. f_equal.
    unfold pk_candidate.
    rewrite (bool_decide_ext (Some (pr_status r) = Some statusActive) (pr_status r = statusActive)) by (split; congruence).
    destruct (bool_decide _); [|done]. cbn. destruct (now <? pr_expires_at r)%Z eqn:Hlt; [|done].
    symmetry. apply Z.ltb_lt. apply Z.ltb_lt in Hlt. lia.
  - intros ty k H1 H2. unfold keyLive. cbn. rewrite H1, H2. by case_bool_decide.
Qed.

(** ** Concrete instances *)

Definition k_bearer : string := "ek-" +:+ of_chars (replicate 64 "A"%char).
Definition k_row : EkRow :=
  MkEkRow "ekid_1" ("pepper" +:+ k_bearer) "dev" "a@x" "n" statusActive None None None 0 None None (Some 500%Z) "manual" None.
Definition k_db : DB := MkDB {["ekid_1" := k_row]} ∅ ∅ ∅ ∅.
Definition k_chain : Resolver :=
  chain (calm 100 []) "pepper" true (fun _ _ _ => Err JwtInvalid) "https://ach/" "ach"
    (fun _ => None) (fun _ _ _ => Err JwtInvalid) "ach".

Lemma k_wf : ek_wf (db_ek k_db).
Proof.
  assert (H : forall k r, db_ek k_db !! k = Some r -> k = "ekid_1" /\ r = k_row).
  { intros k r Hk. cbn in Hk. apply lookup_singleton_Some in Hk as [<- <-]. done. }
  split; intros *; intros; repeat match goal with X : _ !! _ = Some _ |- _ => apply H in X as [-> ->] end;
    try done; cbn; auto; try (split; done); split; intros; congruence.
Qed.

Lemma chain_accepts_only_live_credentials_witness :
  exists i s', k_chain 100%Z k_bearer (MkKS k_db [] []) = (Ok (Some i), s') /\ ki_KeyID i = "ekid_1".
Proof.
  destruct (k_chain 100%Z k_bearer (MkKS k_db [] [])) as [[[i|]|e] s'] eqn:Hr; try (vm_compute in Hr; discriminate Hr).
  exists i, s'. split; [reflexivity|].
  destruct (chain_accepts_only_live_credentials _ _ _ _ _ _ _ _ _ _ _ _ _ _ Hr) as [X|[X|[X|X]]].
  - destruct X as (k & r & h & Hc & _). vm_compute in Hc. discriminate Hc.
  - destruct X as (k & r & h & _ & _ & Hk & _ & _ & ->). cbn in Hk.
    apply lookup_singleton_Some in Hk as [<- <-]. reflexivity.
  - destruct X as [Hj _]. vm_compute in Hj. discriminate Hj.
  - destruct X as [Hj _]. vm_compute in Hj. discriminate Hj.
Defined.

Lemma keyLive_agrees_with_resolvers_witness :
  keyLive NoFault 100%Z Keys.PrefixEk "ekid_1" k_db = Ok true
  /\ (EkResolve NoFault 100%Z ("pepper" +:+ k_bearer) (db_ek k_db)).1 = Ok (Some (resolve_cols k_row)).
Proof.
  destruct (keyLive_agrees_with_resolvers 100%Z k_db k_wf) as (H1 & _ & _).
  assert (Hl : keyLive NoFault 100%Z Keys.PrefixEk "ekid_1" k_db = Ok true) by (vm_compute; reflexivity).
  split; [exact Hl|]. exact (proj1 (H1 "ekid_1" k_row eq_refl) Hl).
Defined.
