(* ===== verification/KeyCache.v ===== *)
(** * The Redis layers of the keystore (internal/keystore keystore.go, teamsresolver.go)

    [redisCachedResolver.Resolve] and the teams cache as functions of what
    Redis held, what the flight returned and the clock readings in between,
    and the cache as a system of concurrent fills: clock ticks, statements of
    other replicas, flights that anchor, read, join callers and SET with some
    network delay, and DELs.  The system is what bounds how long a revoked
    key can still be served. *)

From S2P Require Import Prelude Keys KeyDB LiteLLM World KeyGrant Keystore.
Import EkDB PkDB.

Open Scope string_scope.
Open Scope list_scope.
Open Scope Z_scope.

(** ** keystore.go *)

Definition defaultTTL : Z := 60 * Second.
Definition sfLeaderTimeout : Z := 10 * Second.
Definition cacheKeyPrefix : string := "ach:key:".

(** Bytes found under a cache key, as json.Unmarshal sees them. *)
Inductive Raw (V : Type) : Type := RawOk (v : V) | RawMalformed.
Arguments RawOk {V} _.
Arguments RawMalformed {V}.

(** The hit path: [Some r] when the cache answers (with the result [r]). *)
Definition cacheHit (now : Z) (raw : option (Raw KeyInfo)) : option (option KeyInfo) :=
  match raw with
  | Some (RawOk i) =>
      Some (match ki_ExpiresAt i with
            | Some x => if negb (now <? x) then None else Some i
            | None => Some i
            end)
  | Some RawMalformed | None => None
  end.

Record fillResult : Type := MkFill { fr_info : option KeyInfo; fr_anchor : Z }.

(** After the flight: the result and the TTL to SET with, if any.  [t1], [t2]
    and [t3] are the three clock readings, in order. *)
Definition afterFill (t1 t2 t3 : Z) (fill : fillResult) : option KeyInfo * option Z :=
  match fr_info fill with
  | None => (None, None)
  | Some info =>
      let remaining := defaultTTL - (t1 - fr_anchor fill) in
      match ki_ExpiresAt info with
      | None => (Some info, if 0 <? remaining then Some remaining else None)
      | Some x =>
          let until := x - t2 in
          let remaining := if until <? remaining then until else remaining in
          if negb (t3 <? x) then (None, None)
          else (Some info, if 0 <? remaining then Some remaining else None)
      end
  end.

(** Redis as the resolver uses it: values with the instant they vanish. *)
Definition Redis (V : Type) : Type := gmap string (RedisEntry (Raw V)).

Definition redis_get {V} (now : Z) (key : string) (r : Redis V) : option (Raw V) :=
  match r !! key with
  | Some e => if now <? re_until e then Some (re_val e) else None
  | None => None
  end.

Definition redis_set {V} (now : Z) (key : string) (v : V) (ttl : Z) (r : Redis V) : Redis V :=
  <[key := MkEntry (RawOk v) (now + ttl)]> r.

(** The clock readings of one uncontended Resolve: at the GET, the hit's
    check, the anchor, the inner read, the three after the flight, the SET. *)
Record CacheTimes : Type := MkTimes {
  ct_get : Z; ct_check : Z; ct_anchor : Z; ct_read : Z; ct_t1 : Z; ct_t2 : Z; ct_t3 : Z; ct_set : Z
}.

(** [redis_up]: whether GET and SET reach Redis. *)
Definition redisCachedResolver (E : Env) (pepper : string) (inner : Resolver) (redis_up : bool) (ct : CacheTimes)
    (plaintext : string) (r : Redis KeyInfo) (s : KS) : Res ResolveErr (option KeyInfo) * Redis KeyInfo * KS :=
  match Hash E pepper plaintext with
  | Err e => (Err (HashErr e), r, s)
  | Ok hash =>
      let cacheKey := cacheKeyPrefix +:+ hash in
      match cacheHit (ct_check ct) (if redis_up then redis_get (ct_get ct) cacheKey r else None) with
      | Some result => (Ok result, r, s)
      | None =>
          match inner (ct_read ct) plaintext s with
          | (Err e, s') => (Err e, r, s')
          | (Ok info, s') =>
              match afterFill (ct_t1 ct) (ct_t2 ct) (ct_t3 ct) (MkFill info (ct_anchor ct)) with
              | (Some i, Some ttl) => (Ok (Some i), if redis_up then redis_set (ct_set ct) cacheKey i ttl r else r, s')
              | (result, _) => (Ok result, r, s')
              end
          end
      end
  end.

(** ** teamsresolver.go *)

Definition teamsCacheKeyPrefix : string := "ach:teams:".
Definition negativeTeamsTTL : Z := 5 * Second.

Definition liteLLMTeamsResolver {L} `{LiteLLM L} (email : string) (l : L) : Res LLErr (list string) * L :=
  match ll_UserInfoByEmail email l with
  | (Err e, l1) => match root e with ErrNotFound => (Ok [], l1) | _ => (Err e, l1) end
  | (Ok None, l1) => (Ok [], l1)
  | (Ok (Some info), l1) => (Ok (ui_Teams info), l1)
  end.

(** [nil] marks the JSON null that Unmarshal accepts for a slice. *)
Definition redisCachedTeamsResolver {L} `{LiteLLM L} (redis_up : bool) (t_get t_set : Z) (email : string)
    (r : Redis (option (list string))) (l : L) : Res LLErr (list string) * Redis (option (list string)) * L :=
  let key := teamsCacheKeyPrefix +:+ email in
  match (if redis_up then redis_get t_get key r else None) with
  | Some (RawOk teams) => (Ok (default [] teams), r, l)
  | _ =>
      match liteLLMTeamsResolver email l with
      | (Err e, l1) => (Err e, r, l1)
      | (Ok teams, l1) =>
          let ttl := match teams with [] => negativeTeamsTTL | _ => defaultTTL end in
          (Ok teams, if redis_up then redis_set t_set key (Some teams) ttl r else r, l1)
      end
  end.

(** ** One resolution *)

Lemma afterFill_ttl t1 t2 t3 fill i ttl :
  afterFill t1 t2 t3 fill = (Some i, Some ttl) ->
  fr_info fill = Some i /\ 0 < ttl <= defaultTTL - (t1 - fr_anchor fill)
  /\ (forall x, ki_ExpiresAt i = Some x -> ttl <= x - t2 /\ t3 < x).
Proof.
  unfold afterFill. destruct (fr_info fill) as [i'|]; [|done].
  destruct (ki_ExpiresAt i') as [x|] eqn:Hx.
  - destruct (t3 <? x) eqn:H3; [|done]. apply Z.ltb_lt in H3. cbn.
    destruct (x - t2 <? _) eqn:Hu; [apply Z.ltb_lt in Hu|apply Z.ltb_ge in Hu];
      destruct (0 <? _) eqn:Hp; try done; apply Z.ltb_lt in Hp; intros [= <- <-];
      (split; [done|]); (split; [lia|]); rewrite Hx; intros y [= <-]; lia.
  - destruct (0 <? _) eqn:Hp; [|done]. apply Z.ltb_lt in Hp. intros [= <- <-].
    split; [done|]. split; [lia|]. by rewrite Hx.
Qed.

Lemma afterFill_result t1 t2 t3 fill i :
  (afterFill t1 t2 t3 fill).1 = Some i ->
  fr_info fill = Some i /\ forall x, ki_ExpiresAt i = Some x -> t3 < x.
Proof.
  unfold afterFill. destruct (fr_info fill) as [i'|]; [|done].
  destruct (ki_ExpiresAt i') as [x|] eqn:Hx; cbn.
  - destruct (t3 <? x) eqn:H3; [|done]. apply Z.ltb_lt in H3. cbn. intros [= <-].
    split; [done|]. rewrite Hx. by intros y [= <-].
  - intros [= <-]. split; [done|]. by rewrite Hx.
Qed.

(** C21: a cached resolution never hands out an expired identity, and only a
    positive answer of the inner resolver is ever stored: errors and
    refusals leave Redis alone, and a stored entry vanishes within 60 s of
    the instant before its database read (plus the time its SET took to
    arrive) and never after the key's own expiry (plus that same delay). *)
Theorem cached_resolution_bounds (E : Env) (pepper : string) (inner : Resolver) (up : bool) (ct : CacheTimes)
    (b : string) (r r' : Redis KeyInfo) (s s' : KS) (res : Res ResolveErr (option KeyInfo))
    (Hrun : redisCachedResolver E pepper inner up ct b r s = (res, r', s')) :
  (forall i x, res = Ok (Some i) -> ki_ExpiresAt i = Some x -> ct_check ct < x \/ ct_t3 ct < x)
  /\ (r' <> r -> exists hash i e,
        Hash E pepper b = Ok hash /\ inner (ct_read ct) b s = (Ok (Some i), s') /\ res = Ok (Some i)
        /\ r' = <[cacheKeyPrefix +:+ hash := e]> r /\ re_val e = RawOk i
        /\ re_until e <= ct_anchor ct + defaultTTL + (ct_set ct - ct_t1 ct)
        /\ (forall x, ki_ExpiresAt i = Some x -> re_until e <= x + (ct_set ct - ct_t2 ct))).
Proof.
  unfold redisCachedResolver in Hrun. destruct (Hash E pepper b) as [hash|] eqn:Hh; [|by simplify_eq].
  destruct (cacheHit _ _) as [hit|] eqn:Hhit.
  { injection Hrun as <- <- <-. split; [|done]. intros i x [= ->] Hx. left.
    unfold cacheHit in Hhit. destruct (if up then _ else _) as [[j|]|]; try done.
    injection Hhit as Hhit. destruct (ki_ExpiresAt j) as [y|] eqn:Hy.
    - destruct (ct_check ct <? y) eqn:Hlt; cbn in Hhit; [|done]. injection Hhit as <-.
      rewrite Hy in Hx. simplify_eq. by apply Z.ltb_lt.
    - injection Hhit as <-. congruence. }
  destruct (inner _ _ _) as [[info|e] s1] eqn:Hin; [|by simplify_eq].
  pose proof (afterFill_result (ct_t1 ct) (ct_t2 ct) (ct_t3 ct) (MkFill info (ct_anchor ct))) as Hfr.
  destruct (afterFill _ _ _ _) as [[i|] [ttl|]] eqn:Hf; cbn [fst] in Hfr.
  2,3,4: injection Hrun as <- <- <-; split; [|done]; intros j x [= ->] Hx; right;
    destruct (Hfr _ eq_refl) as [_ H3]; by apply H3.
  apply afterFill_ttl in Hf as (Hi & Httl & Hx). cbn in Hi, Httl. subst info.
  destruct (Hfr _ eq_refl) as [_ H3]. injection Hrun as <- <- <-. split.
  - intros j x [= ->] Hj. right. by apply H3.
  - destruct up; [|done]. intros _. exists hash, i, (MkEntry (RawOk i) (ct_set ct + ttl)).
    split_and!; try done; cbn; [lia|]. intros x Hex. destruct (Hx x Hex). lia.
Qed.

(** ** The cache as a system of concurrent fills *)
Module Fills.

(** A singleflight flight on a credential hash: its anchor, and what the
    leader read once it did ([None] before). *)
Record Flight : Type := MkFlight { fl_hash : string; fl_anchor : Z; fl_info : option (option KeyInfo) }.

(** A SET a joined caller computed at [ps_t1] and sent. *)
Record PendingSet : Type := MkSet { ps_hash : string; ps_anchor : Z; ps_t1 : Z; ps_info : KeyInfo; ps_ttl : Z }.

Record Sys : Type := MkSys {
  clock : Z;
  rows : gmap string EkRow;
  redis : gmap string (RedisEntry KeyInfo);
  flights : list Flight;
  sets : list PendingSet
}.

Section Step.
(** Longest time from a caller's clock reading to its SET taking effect. *)
Context (delay : Z).

Inductive step (s : Sys) : Sys -> Prop :=
| step_tick dt : 0 <= dt -> step s (MkSys (clock s + dt) (rows s) (redis s) (flights s) (sets s))
| step_statement t : table_step (rows s) t -> step s (MkSys (clock s) t (redis s) (flights s) (sets s))
| step_start h : step s (MkSys (clock s) (rows s) (redis s) (MkFlight h (clock s) None :: flights s) (sets s))
| step_read l1 l2 h a o t :
    flights s = l1 ++ MkFlight h a None :: l2 ->
    EkResolve NoFault (clock s) h (rows s) = (Ok o, t) ->
    step s (MkSys (clock s) t (redis s) (l1 ++ MkFlight h a (Some (keyInfoFromEK <$> o)) :: l2) (sets s))
| step_send h a info t1 t2 t3 i ttl :
    MkFlight h a (Some info) ∈ flights s ->
    a <= t1 -> t1 <= t2 -> t2 <= t3 -> t3 <= clock s ->
    afterFill t1 t2 t3 (MkFill info a) = (Some i, Some ttl) ->
    step s (MkSys (clock s) (rows s) (redis s) (flights s) (MkSet h a t1 i ttl :: sets s))
| step_set p :
    p ∈ sets s -> clock s <= ps_t1 p + delay ->
    step s (MkSys (clock s) (rows s) (<[ps_hash p := MkEntry (ps_info p) (clock s + ps_ttl p)]> (redis s))
              (flights s) (sets s))
| step_del h : step s (MkSys (clock s) (rows s) (delete h (redis s)) (flights s) (sets s)).

(** What a request presenting the credential with hash [h] gets from Redis now. *)
Definition served (s : Sys) (h : string) : option KeyInfo :=
  match redis s !! h with
  | Some e => if clock s <? re_until e
              then default None (cacheHit (clock s) (Some (RawOk (re_val e)))) else None
  | None => None
  end.

(** Nothing in flight and nothing cached. *)
Definition initial (s : Sys) : Prop := redis s = ∅ /\ flights s = [] /\ sets s = [] /\ ek_wf (rows s).

Context (Hdelay : 0 <= delay).

(** Every anchor lies in the past, every TTL fits its anchor, every entry
    ends within the ceiling. *)
Record inv (s : Sys) : Prop := {
  inv_wf : ek_wf (rows s);
  inv_flight : forall f, f ∈ flights s -> fl_anchor f <= clock s;
  inv_set : forall p, p ∈ sets s -> ps_anchor p <= ps_t1 p /\ ps_t1 p <= clock s
                                    /\ ps_ttl p <= defaultTTL - (ps_t1 p - ps_anchor p);
  inv_entry : forall h e, redis s !! h = Some e -> re_until e <= clock s + defaultTTL
}.

Lemma EkResolve_step now h (t : gmap string EkRow) o t' :
  EkResolve NoFault now h t = (Ok o, t') -> table_step t t'.
Proof.
  intros He. pose proof (run_op_step (OpEkResolve NoFault now h) t) as Hs. cbn [run_op] in Hs. by rewrite He in Hs.
Qed.

Lemma initial_inv s : initial s -> inv s.
Proof.
  intros (Hr & Hf & Hs & Hwf). split; [done| | |].
  - intros f. rewrite Hf. by intros ?%not_elem_of_nil.
  - intros p. rewrite Hs. by intros ?%not_elem_of_nil.
  - intros h e. by rewrite Hr, lookup_empty.
Qed.

Lemma step_inv s s' : step s s' -> inv s -> inv s'.
Proof.
  intros Hst [Hwf Hf Hs He]. destruct Hst; split; cbn; try done.
  - intros f Hin. specialize (Hf _ Hin). lia.
  - intros p Hin. destruct (Hs _ Hin). lia.
  - intros k e Hk. specialize (He _ _ Hk). lia.
  - eauto using table_step_wf.
  - intros f [->|Hin]%elem_of_cons; [cbn; lia|]. by apply Hf.
  - eauto using table_step_wf, EkResolve_step.
  - intros f [Hin|[->|Hin]%elem_of_cons]%elem_of_app.
    + apply Hf. rewrite H. apply elem_of_app. auto.
    + cbn. apply (Hf (MkFlight h a None)). rewrite H. apply elem_of_app. right. left.
    + apply Hf. rewrite H. apply elem_of_app. right. by right.
  - intros p [->|Hin]%elem_of_cons; [|by apply Hs]. cbn.
    apply afterFill_ttl in H4 as (_ & Httl & _). cbn in Httl. lia.
  - intros k e Hk. destruct (decide (ps_hash p = k)) as [<-|Hne].
    + rewrite lookup_insert_eq in Hk. injection Hk as <-. cbn. destruct (Hs _ H) as (? & ? & ?). lia.
    + rewrite lookup_insert_ne in Hk by done. by apply (He k).
  - intros k e [_ Hk]%lookup_delete_Some. by apply (He k).
Qed.

(** After the key died at [T]: only flights anchored before can still store it. *)
Record inv_dead (h : string) (T : Z) (s : Sys) : Prop := {
  idd_inv : inv s;
  idd_clock : T <= clock s;
  idd_flight : forall a i, MkFlight h a (Some (Some i)) ∈ flights s -> a <= T;
  idd_set : forall p, p ∈ sets s -> ps_hash p = h -> ps_anchor p <= T;
  idd_entry : forall e, redis s !! h = Some e -> re_until e <= T + defaultTTL + delay
}.

(** No live row answers for the hash. *)
Definition dead (h : string) (t : gmap string EkRow) : Prop :=
  forall k r, t !! k = Some r -> er_credential_hash r = h -> er_status r <> statusActive.

Lemma dead_read h t now o t' : dead h t -> EkResolve NoFault now h t = (Ok o, t') -> o = None.
Proof.
  intros Hd He. destruct o as [i|]; [|done]. exfalso. unfold EkResolve in He. apply with_fault_Ok in He as [_ He].
  apply resolve_stmt_Some in He as (k & r & Hk & Hm%bool_decide_eq_true & Hl & _).
  apply (Hd k r Hk Hm). unfold ek_live in Hl. by apply andb_true_iff in Hl as [Hl%bool_decide_eq_true _].
Qed.

Lemma inv_to_dead h s : inv s -> inv_dead h (clock s) s.
Proof.
  intros Hi. split; [done|lia| | |].
  - intros a i Hin. by apply (inv_flight s Hi) in Hin.
  - intros p Hin _. destruct (inv_set s Hi p Hin). lia.
  - intros e Hk. pose proof (inv_entry s Hi h e Hk). lia.
Qed.

Lemma step_dead h T s s' : step s s' -> dead h (rows s) -> inv_dead h T s -> inv_dead h T s'.
Proof.
  intros Hst Hd [Hi Hc Hf Hs He]. pose proof (step_inv _ _ Hst Hi) as Hi'.
  destruct Hst; split; cbn; try done; try lia.
  - intros x i Hin. apply elem_of_cons in Hin as [[=]|Hin]. by apply (Hf x i).
  - intros x i [Hin|[Hin|Hin]%elem_of_cons]%elem_of_app.
    + apply (Hf x i). rewrite H. apply elem_of_app. auto.
    + injection Hin as -> -> Ho. apply dead_read in H0; [|done]. subst o. discriminate Ho.
    + apply (Hf x i). rewrite H. apply elem_of_app. right. by right.
  - intros p [->|Hin]%elem_of_cons Hp; [|by apply Hs]. cbn in Hp |- *. subst h0.
    apply afterFill_ttl in H4 as (Hinfo & _). cbn in Hinfo. subst info. by apply (Hf a i).
  - intros e Hk. destruct (decide (ps_hash p = h)) as [Hp|Hne].
    + rewrite Hp, lookup_insert_eq in Hk. injection Hk as <-. cbn.
      destruct (inv_set s Hi p H) as (? & ? & ?). specialize (Hs p H Hp). lia.
    + rewrite lookup_insert_ne in Hk by done. by apply He.
  - intros e [_ Hk]%lookup_delete_Some. by apply He.
Qed.

(** A run during which the key with hash [h] stays dead. *)
Lemma dead_run h T s s' :
  rtc (fun a b => step a b /\ dead h (rows b)) s s' -> dead h (rows s) -> inv_dead h T s ->
  inv_dead h T s' /\ dead h (rows s').
Proof.
  induction 1 as [s|s s1 s2 [Hst Hd1] _ IH]; intros Hd Hi; [done|]. apply IH; [done|]. by eapply step_dead.
Qed.

Lemma dead_served h T s : inv_dead h T s -> T + defaultTTL + delay <= clock s -> served s h = None.
Proof.
  intros Hi Hc. unfold served. destruct (redis s !! h) as [e|] eqn:Hk; [|done].
  pose proof (idd_entry h T s Hi e Hk). by rewrite (proj2 (Z.ltb_ge _ _)) by lia.
Qed.

(** A revoked row stays revoked under every step. *)
Lemma step_revoked s s' k r :
  step s s' -> rows s !! k = Some r -> er_status r = statusRevoked -> rows s' !! k = Some r.
Proof.
  intros Hst Hk Hr. assert (Ht : table_step (rows s) (rows s')).
  { destruct Hst; cbn; eauto using same_rows, EkResolve_step. }
  destruct (table_step_row _ _ _ _ Ht Hk) as (r' & Hk' & Hs). by rewrite (row_step_revoked _ _ Hs Hr) in Hk'.
Qed.

Lemma revoked_dead k r t : ek_wf t -> t !! k = Some r -> er_status r = statusRevoked -> dead (er_credential_hash r) t.
Proof.
  intros Hwf Hk Hr k' r' Hk' Hh. assert (k' = k) as -> by (by eapply (wf_hash t Hwf)). simplify_eq. congruence.
Qed.

Lemma revoked_run s s' k r :
  rtc step s s' -> inv s -> rows s !! k = Some r -> er_status r = statusRevoked ->
  rtc (fun a b => step a b /\ dead (er_credential_hash r) (rows b)) s s'.
Proof.
  induction 1 as [s|s s1 s2 Hst _ IH]; intros Hi Hk Hr; [done|].
  assert (Hk1 : rows s1 !! k = Some r) by (by eapply step_revoked).
  assert (Hi1 : inv s1) by (by eapply step_inv).
  eapply rtc_l; [|by apply IH]. split; [done|]. apply (revoked_dead k); [apply Hi1|done|done].
Qed.

End Step.

(** C3: revocation reaches every request within the cache ceiling even when
    every DEL is lost.  In any interleaving of fills, joined callers, late
    SETs, DELs and statements of other replicas, 60 s plus the longest
    SET delay after the row was revoked, nothing is served from the cache for
    that credential, and no fill that starts after the revocation can store
    it again. *)
Theorem revocation_reaches_cache (delay : Z) (s0 s1 s2 : Sys) (k : string) (r : EkRow)
    (Hdelay : 0 <= delay) (Hinit : initial s0) (Hrun1 : rtc (step delay) s0 s1)
    (Hk : rows s1 !! k = Some r) (Hrev : er_status r = statusRevoked) (Hrun2 : rtc (step delay) s1 s2)
    (Hlate : clock s1 + defaultTTL + delay <= clock s2) :
  served s2 (er_credential_hash r) = None
  /\ forall a i, MkFlight (er_credential_hash r) a (Some (Some i)) ∈ flights s2 -> a <= clock s1.
Proof.
  assert (Hi1 : inv s1).
  { clear Hk Hrun2 Hlate. apply initial_inv in Hinit. induction Hrun1; eauto using step_inv. }
  pose proof (revoked_run delay _ _ _ _ Hrun2 Hi1 Hk Hrev) as Hdr.
  assert (Hd1 : dead (er_credential_hash r) (rows s1)) by (by eapply revoked_dead; [apply Hi1|..]).
  destruct (dead_run delay _ _ _ _ Hdr Hd1 (inv_to_dead delay Hdelay _ _ Hi1)) as [Hi2 _].
  split; [by eapply dead_served|]. apply (idd_flight _ _ _ _ Hi2).
Qed.

(** A fill that raced the revocation: the entry outlives the DEL by what is
    left of the minute, and not a moment more. *)
Definition f_hash : string := "pepper" +:+ k_bearer.
Definition f_info : KeyInfo := keyInfoFromEK (resolve_cols k_row).
Definition f_start : Sys := MkSys 100 {["ekid_1" := k_row]} ∅ [] [].
Definition f_rows : gmap string EkRow := (EkResolve NoFault 100 f_hash {["ekid_1" := k_row]}).2.
Definition f_revoked : gmap string EkRow := (RevokeEnvironmentKey NoFault 101 "ekid_1" f_rows).2.
Definition f_cached (t : Z) (rows : gmap string EkRow) : Sys :=
  MkSys t rows {[f_hash := MkEntry f_info 500]} [MkFlight f_hash 100 (Some (Some f_info))]
    [MkSet f_hash 100 100 f_info 400].

Lemma f_run1 : rtc (step 0) f_start (f_cached 100 f_revoked).
Proof.
  eapply rtc_l; [apply (step_start 0 f_start f_hash)|]. unfold f_start; cbn [clock rows redis flights sets].
  eapply rtc_l; [eapply (step_read 0 _ [] [] f_hash 100 (Some (resolve_cols k_row)) f_rows); [reflexivity|vm_compute; reflexivity]|].
  cbn [clock rows redis flights sets app].
  eapply rtc_l; [eapply (step_send 0 _ f_hash 100 (Some f_info) 100 100 100 f_info 400); cbn; try lia;
                 [left|vm_compute; reflexivity]|].
  cbn [clock rows redis flights sets].
  eapply rtc_l; [eapply (step_set 0 _ (MkSet f_hash 100 100 f_info 400)); cbn; [left|lia]|].
  cbn [clock rows redis flights sets ps_hash ps_info ps_ttl].
  eapply rtc_l; [eapply (step_statement 0 _ f_revoked); apply (run_op_step (OpRevoke NoFault 101 "ekid_1"))|].
  apply rtc_refl.
Qed.

Lemma revocation_reaches_cache_witness :
  served (f_cached 100 f_revoked) f_hash = Some f_info
  /\ served (f_cached (100 + defaultTTL) f_revoked) f_hash = None.
Proof.
  split; [vm_compute; reflexivity|].
  destruct (revocation_reaches_cache 0 f_start (f_cached 100 f_revoked) (f_cached (100 + defaultTTL) f_revoked) "ekid_1"
              (set_status statusRevoked (Some 101) (touch 100 k_row))) as [X _].
  - lia.
  - split; [reflexivity|]. split; [reflexivity|]. split; [reflexivity|]. apply k_wf.
  - apply f_run1.
  - vm_compute. reflexivity.
  - reflexivity.
  - apply rtc_once. apply (step_tick 0 (f_cached 100 f_revoked) defaultTTL). vm_compute. discriminate.
  - cbn. lia.
  - exact X.
Defined.

End Fills.

(** ** The teams cache *)

(** C38: the team cache stores answers only: a LiteLLM failure is returned and
    leaves Redis alone; a populated answer is kept for 60 s and an empty one
    for 5 s from the SET; and a cached answer is exactly what was stored. *)
Theorem teams_cache_bounds {L} `{LiteLLM L} (up : bool) (t_get t_set : Z) (email : string)
    (r r' : Redis (option (list string))) (l l' : L) (res : Res LLErr (list string))
    (Hrun : redisCachedTeamsResolver up t_get t_set email r l = (res, r', l')) :
  (forall e, res = Err e -> r' = r)
  /\ (r' <> r -> exists teams, res = Ok teams /\ (liteLLMTeamsResolver email l).1 = Ok teams
        /\ r' = <[teamsCacheKeyPrefix +:+ email :=
                   MkEntry (RawOk (Some teams)) (t_set + if bool_decide (teams = []) then 5 * Second else 60 * Second)]> r)
  /\ (forall teams, redis_get t_get (teamsCacheKeyPrefix +:+ email) r = Some (RawOk (Some teams)) -> up = true ->
        res = Ok teams /\ r' = r).
Proof.
  unfold redisCachedTeamsResolver in Hrun.
  destruct up; [destruct (redis_get t_get _ r) as [[v|]|] eqn:Hg|]; cbn zeta in Hrun.
  1: injection Hrun as <- <- <-; split_and!; try done; intros teams [= ->]; done.
  all: destruct (liteLLMTeamsResolver email l) as [[teams|e] l1] eqn:Hl; injection Hrun as <- <- <-;
    split_and!; try done.
  all: intros _; exists teams; split_and!; try done; unfold redis_set; by destruct teams.
Qed.

Lemma teams_cache_bounds_witness :
  exists teams, Ok (E := LLErr) ["T1"] = Ok teams /\ (liteLLMTeamsResolver "a@x" one_user).1 = Ok teams.
Proof.
  assert (Hr : redisCachedTeamsResolver true 0 0 "a@x" ∅ one_user
               = (Ok ["T1"], redis_set 0 "ach:teams:a@x" (Some ["T1"]) (60 * Second) ∅, one_user)) by (vm_compute; reflexivity).
  destruct (teams_cache_bounds _ _ _ _ _ _ _ _ _ Hr) as (_ & H2 & _).
  destruct H2 as (teams & Ht & Hl & _); [unfold redis_set; exact (@insert_non_empty string (gmap string) _ _ _ _ _ _ _ _ _ _ _ _ _)|].
  exists teams. split; [exact Ht|exact Hl].
Defined.

Definition c_run : Res ResolveErr (option KeyInfo) * Redis KeyInfo * KS :=
  redisCachedResolver (calm 100 []) "pepper" k_chain true (MkTimes 90 90 95 100 101 101 101 102) k_bearer ∅ (MkKS k_db [] []).

Lemma cached_resolution_bounds_witness :
  exists i, c_run.1.1 = Ok (Some i) /\ (forall x, ki_ExpiresAt i = Some x -> 90 < x \/ 101 < x).
Proof.
  assert (Hok : match c_run.1.1 with Ok (Some _) => True | _ => False end) by (vm_compute; exact I).
  destruct c_run as [[[[i|]|e] r'] s'] eqn:Hr; cbn in Hok; try contradiction.
  exists i. split; [reflexivity|]. unfold c_run in Hr.
  destruct (cached_resolution_bounds _ _ _ _ _ _ _ _ _ _ _ Hr) as [H1 _]. intros x. exact (H1 i x eq_refl).
Defined.
