(* ===== verification/Http.v ===== *)
(** * HTTP requests as the Go handlers see them

    [http.Header] with its canonical keys, the request fields the services
    read, and the header pipeline [httputil.ReverseProxy] runs around a
    Director.  Header names are compared the way HTTP does, without case:
    the lemma [CanonKey_fold] is what makes a theorem about canonical keys a
    theorem about every spelling of a name. *)

From S2P Require Import Prelude LiteLLM.

Open Scope string_scope.
Open Scope list_scope.

(** ** net/textproto canonical keys *)

Definition is_upper (c : ascii) : bool := let n := N_of_ascii c in ((65 <=? n) && (n <=? 90))%N.
Definition is_lower (c : ascii) : bool := let n := N_of_ascii c in ((97 <=? n) && (n <=? 122))%N.
Definition upper_byte (c : ascii) : ascii := if is_lower c then ascii_of_N (N_of_ascii c - 32) else c.

(** [validHeaderFieldByte]: RFC 7230 tchar. *)
Definition tchar (c : ascii) : bool :=
  is_upper c || is_lower c
  || (let n := N_of_ascii c in ((48 <=? n) && (n <=? 57))%N)
  || bool_decide (c ∈ chars "!#$%&'*+-.^_`|~").

Fixpoint canon_bytes (up : bool) (l : list ascii) : list ascii :=
  match l with
  | [] => []
  | c :: r => (if up then upper_byte c else lower_byte c) :: canon_bytes (bool_decide (c = "-"%char)) r
  end.

Definition valid_key (k : string) : bool := forallb tchar (chars k).

(** [http.CanonicalHeaderKey]: a key with a byte no token has is left alone. *)
Definition CanonKey (k : string) : string :=
  if valid_key k then of_chars (canon_bytes true (chars k)) else k.

(** ** http.Header *)

Abbreviation Header := (gmap string (list string)).

Definition HGet (h : Header) (k : string) : string :=
  match h !! CanonKey k with Some (v :: _) => v | _ => "" end.
Definition HValues (h : Header) (k : string) : list string := default [] (h !! CanonKey k).
Definition HSet (k v : string) (h : Header) : Header := <[CanonKey k := [v]]> h.
Definition HDel (k : string) (h : Header) : Header := delete (CanonKey k) h.

(** What net/http's server hands to a handler. *)
Definition canonical (h : Header) : Prop := forall k v, h !! k = Some v -> CanonKey k = k.

(** ** Request bodies *)

(** A JSON text, and a [json.RawMessage], as the tree it denotes.  Objects
    keep their bindings in order, duplicates included, since a Go map and
    Python's dict both take the last one. *)
#[warnings="-register-all"]
Inductive JVal : Type :=
| JNull
| JBool (b : bool)
| JNum (text : string)
| JStr (s : string)
| JArr (l : list JVal)
| JObj (l : list (string * JVal)).

(** What [multipart.Reader.NextPart] yields: a part with its
    Content-Disposition headers, the clean end, or an error. *)
Inductive NextPart : Type := Part (disposition : list string) | PartEOF | PartErr.

(** The bytes of a body as each decoder of the code sees them. *)
Record Body : Type := MkBody {
  b_readable : bool;
  b_size : Z;
  b_blank : bool;
  b_json : option JVal;
  b_query : option (list string);
  b_parts : string -> list NextPart
}.

(** ** Requests *)

Record Req : Type := MkReq {
  r_Method : string;
  r_Path : string;
  r_RawPath : string;
  r_Header : Header;
  r_Cookie : string -> option string;
  r_RemoteAddr : string;
  r_Scheme : string;
  r_Host : string;
  r_Body : option Body
}.

Definition with_header (h : Header) (r : Req) : Req :=
  MkReq (r_Method r) (r_Path r) (r_RawPath r) h (r_Cookie r) (r_RemoteAddr r) (r_Scheme r) (r_Host r) (r_Body r).
Definition with_path (p raw : string) (r : Req) : Req :=
  MkReq (r_Method r) p raw (r_Header r) (r_Cookie r) (r_RemoteAddr r) (r_Scheme r) (r_Host r) (r_Body r).
Definition with_url (scheme host : string) (r : Req) : Req :=
  MkReq (r_Method r) (r_Path r) (r_RawPath r) (r_Header r) (r_Cookie r) (r_RemoteAddr r) scheme host (r_Body r).

(** ** strings helpers of the HTTP code *)

Definition EqualFold (a b : string) : bool := bool_decide (ToLower a = ToLower b).

Definition TrimPrefix (s p : string) : string := default s (CutPrefix s p).

Fixpoint Join (l : list string) (sep : string) : string :=
  match l with
  | [] => ""
  | [x] => x
  | x :: r => x +:+ sep +:+ Join r sep
  end.

(** ** httputil.ReverseProxy *)

Definition hopHeaders : list string :=
  ["Connection"; "Proxy-Connection"; "Keep-Alive"; "Proxy-Authenticate"; "Proxy-Authorization"; "Te"; "Trailer";
   "Transfer-Encoding"; "Upgrade"].

(** The header names the Connection values list. *)
Definition connection_tokens (h : Header) : list string :=
  filter (fun t => t <> "") (TrimSpace <$> (default [] (h !! "Connection") ≫= SplitByte ","%char)).

Definition removeHopByHopHeaders (h : Header) : Header :=
  foldr HDel (foldr HDel h (connection_tokens h)) hopHeaders.

(** [httpguts.HeaderValuesContainsToken]. *)
Definition containsToken (vs : list string) (tok : string) : bool :=
  existsb (fun t => EqualFold (TrimSpace t) tok) (vs ≫= SplitByte ","%char).

Definition upgradeType (h : Header) : string :=
  if containsToken (default [] (h !! "Connection")) "Upgrade" then HGet h "Upgrade" else "".

(** What leaves the proxy for the header map [h] the Director left, for a
    client at [clientIP]; [te] is whether the incoming request listed the
    trailers token in Te. *)
Definition outbound (clientIP : option string) (te : bool) (h : Header) : Header :=
  let up := upgradeType h in
  let h1 := removeHopByHopHeaders h in
  let h2 := if te then HSet "Te" "trailers" h1 else h1 in
  let h3 := if decide (up = "") then h2 else HSet "Upgrade" up (HSet "Connection" "Upgrade" h2) in
  let h4 := match clientIP with
            | None => h3
            | Some ip =>
                match h3 !! "X-Forwarded-For" with
                | Some [] => h3
                | Some prior => HSet "X-Forwarded-For" (Join prior ", " +:+ ", " +:+ ip) h3
                | None => HSet "X-Forwarded-For" ip h3
                end
            end in
  match h4 !! "User-Agent" with None => HSet "User-Agent" "" h4 | Some _ => h4 end.

(** ** Lemmas *)

(** Enumerate the members of the literal lists in the hypotheses. *)
Ltac list_cases :=
  repeat match goal with
    | H : _ ∈ _ :: _ |- _ => apply elem_of_cons in H as [?|H]
    | H : _ ∈ [] |- _ => by apply elem_of_nil in H
    end; subst.

Ltac all_bytes := intros [[] [] [] [] [] [] [] []]; reflexivity.

Lemma upper_lower_byte : forall c, upper_byte (lower_byte c) = upper_byte c.
Proof. all_bytes. Qed.
Lemma lower_lower_byte : forall c, lower_byte (lower_byte c) = lower_byte c.
Proof. all_bytes. Qed.
Lemma lower_upper_byte : forall c, lower_byte (upper_byte c) = lower_byte c.
Proof. all_bytes. Qed.
Lemma tchar_lower_byte : forall c, tchar (lower_byte c) = tchar c.
Proof. all_bytes. Qed.
Lemma dash_lower_byte : forall c, bool_decide (lower_byte c = "-"%char) = bool_decide (c = "-"%char).
Proof. all_bytes. Qed.

Lemma canon_bytes_lower up l : canon_bytes up (lower_byte <$> l) = canon_bytes up l.
Proof.
  revert up; induction l as [|c l IH]; intros up; [done|].
  cbn [fmap list_fmap canon_bytes]. rewrite dash_lower_byte, IH.
  f_equal. destruct up; [apply upper_lower_byte|apply lower_lower_byte].
Qed.

Lemma lower_canon_bytes up l : lower_byte <$> canon_bytes up l = lower_byte <$> l.
Proof.
  revert up; induction l as [|c l IH]; intros up; [done|].
  cbn [fmap list_fmap canon_bytes]. f_equal; [|apply IH].
  destruct up; [apply lower_upper_byte|apply lower_lower_byte].
Qed.

Lemma chars_ToLower s : chars (ToLower s) = lower_byte <$> chars s.
Proof. apply chars_of_chars. Qed.

Lemma forallb_lower l : forallb tchar (lower_byte <$> l) = forallb tchar l.
Proof. induction l as [|c l IH]; [done|]. cbn. by rewrite tchar_lower_byte, IH. Qed.

Lemma ToLower_idemp s : ToLower (ToLower s) = ToLower s.
Proof.
  unfold ToLower. f_equal. rewrite chars_of_chars, <- list_fmap_compose.
  apply list_fmap_ext. intros ? ? _. apply lower_lower_byte.
Qed.

Lemma valid_key_lower k : valid_key (ToLower k) = valid_key k.
Proof. unfold valid_key. by rewrite chars_ToLower, forallb_lower. Qed.

(** Two spellings of one name share the canonical key. *)
Lemma CanonKey_fold k k' : valid_key k' = true -> ToLower k = ToLower k' -> CanonKey k = CanonKey k'.
Proof.
  intros Hv Hl. unfold CanonKey.
  rewrite <- (valid_key_lower k), Hl, (valid_key_lower k'), Hv.
  rewrite <- (canon_bytes_lower _ (chars k)), <- (canon_bytes_lower _ (chars k')), <- !chars_ToLower.
  by rewrite Hl.
Qed.

Lemma ToLower_CanonKey k : ToLower (CanonKey k) = ToLower k.
Proof.
  unfold CanonKey. destruct (valid_key k); [|done].
  unfold ToLower. by rewrite chars_of_chars, lower_canon_bytes.
Qed.

Lemma CanonKey_idemp k : CanonKey (CanonKey k) = CanonKey k.
Proof.
  destruct (valid_key k) eqn:Hv.
  - apply CanonKey_fold; [done|]. apply ToLower_CanonKey.
  - unfold CanonKey. by rewrite Hv, Hv.
Qed.

Lemma HSet_lookup k v h : HSet k v h !! CanonKey k = Some [v].
Proof. apply lookup_insert_eq. Qed.
Lemma HSet_lookup_ne k v h j : CanonKey k <> j -> HSet k v h !! j = h !! j.
Proof. apply lookup_insert_ne. Qed.
Lemma HDel_lookup k h : HDel k h !! CanonKey k = None.
Proof. apply lookup_delete_eq. Qed.
Lemma HDel_lookup_ne k h j : CanonKey k <> j -> HDel k h !! j = h !! j.
Proof. apply lookup_delete_ne. Qed.

Lemma canonical_HSet k v h : canonical h -> canonical (HSet k v h).
Proof.
  intros Hc j w. unfold HSet. rewrite lookup_insert_Some.
  intros [[<- _]|[_ ?]]; [apply CanonKey_idemp|by eapply Hc].
Qed.
Lemma canonical_HDel k h : canonical h -> canonical (HDel k h).
Proof. intros Hc j w. unfold HDel. rewrite lookup_delete_Some. intros [_ ?]. by eapply Hc. Qed.
Lemma canonical_foldr_HDel ks h : canonical h -> canonical (foldr HDel h ks).
Proof. intros ?. induction ks; cbn; [done|]. by apply canonical_HDel. Qed.
#[export] Hint Resolve canonical_HSet canonical_HDel canonical_foldr_HDel : ach.

(** A canonical map holds at most one spelling of a name. *)
Lemma canonical_fold h k v name :
  canonical h -> valid_key name = true -> h !! k = Some v -> ToLower k = ToLower name -> k = CanonKey name.
Proof. intros Hc Hv Hk Hl. rewrite <- (Hc _ _ Hk). by apply CanonKey_fold. Qed.

Lemma foldr_HDel_None ks h j : h !! j = None -> foldr HDel h ks !! j = None.
Proof. intros. induction ks; cbn; [done|]. unfold HDel. rewrite lookup_delete_None. auto. Qed.

Lemma foldr_HDel_keep ks h j : Forall (fun k => CanonKey k <> j) ks -> foldr HDel h ks !! j = h !! j.
Proof. induction 1; cbn; [done|]. by rewrite HDel_lookup_ne. Qed.
