(* ===== verification/Authn.v ===== *)
(** * Request authentication (internal/platformapi/middleware)

    The middleware platform-api, the forwarder and the content-service run in
    front of every authenticated route: pick the credential slot, resolve it,
    attach the identity and discard the presented secret; or adapt the
    console's session cookie.  The resolver, the session store, the oauth key
    lookup and [url.Parse] are parameters over a state [S]. *)

From S2P Require Import Prelude Keys KeyDB LiteLLM World Keystore EnvKeys Http.
Import EkDB PkDB.

Open Scope string_scope.
Open Scope list_scope.

(** ** Identity (keyctx.go) *)

(** [middleware.KeyContext]: the resolved [KeyInfo] plus the admin flag. *)
Record AuthKey : Type := MkAuthKey { ak_info : KeyInfo; ak_IsAdmin : bool }.

(** The part of it the environment-key handlers read. *)
Definition handler_context (a : AuthKey) : EnvKeys.KeyContext :=
  EnvKeys.MkKeyContext (ki_KeyID (ak_info a)) (ki_KeyType (ak_info a)) (ki_OwnerEmail (ak_info a))
    (ki_Environment (ak_info a)) (ak_IsAdmin a).

(** The context values Authn attaches. *)
Record Ctx : Type := MkCtx { cx_key : option AuthKey; cx_raw : option string }.

Definition KeyContextFromCtx (c : Ctx) : option AuthKey := cx_key c.
Definition RawLiteLLMKeyFromCtx (c : Ctx) : option string :=
  match cx_raw c with Some "" => None | x => x end.

(** [ActorFromCtx] with POD_NAMESPACE as an argument. *)
Definition ActorFromCtx (pod_namespace : string) (c : Ctx) : string :=
  let ns := if decide (pod_namespace = "") then "unknown" else pod_namespace in
  let email := match KeyContextFromCtx c with
               | Some a => if decide (ki_OwnerEmail (ak_info a) = "") then "-" else ki_OwnerEmail (ak_info a)
               | None => "-"
               end in
  ns +:+ "/" +:+ email.

(** ** Credential slots (middleware.go) *)

Definition ModeResolve : string := "resolve".
Definition ModePassthrough : string := "passthrough".
Definition authzHeader : string := "Authorization".

Record CredentialHeader : Type := MkSlot { ch_Name : string; ch_Mode : string }.

Inductive SlotErr : Type := NotJSON | EmptyName | AuthorizationSlot | BadMode (name : string) | Twice (name : string).

Fixpoint parse_slots (seen : list string) (l : list CredentialHeader) : Res SlotErr (list CredentialHeader) :=
  match l with
  | [] => Ok []
  | h :: rest =>
      let name := ToLower (TrimSpace (ch_Name h)) in
      if decide (name = "") then Err EmptyName
      else if decide (name = "authorization") then Err AuthorizationSlot
      else if negb (bool_decide (ch_Mode h = ModeResolve)) && negb (bool_decide (ch_Mode h = ModePassthrough))
      then Err (BadMode name)
      else if Contains seen name then Err (Twice name)
      else match parse_slots (name :: seen) rest with
           | Err e => Err e
           | Ok out => Ok (MkSlot name (ch_Mode h) :: out)
           end
  end.

(** [unmarshal] is [json.Unmarshal] into the slot list. *)
Definition ParseCredentialHeaders (unmarshal : string -> option (list CredentialHeader)) (raw : string)
  : Res SlotErr (list CredentialHeader) :=
  if decide (TrimSpace raw = "") then Ok []
  else match unmarshal raw with
       | None => Err NotJSON
       | Some l => parse_slots [] l
       end.

Definition isACHKey (v : string) : bool :=
  HasPrefix v Keys.PkBearerPrefix || HasPrefix v Keys.EkBearerPrefix.

(** What a header value carries once a "Bearer " scheme is cut. *)
Definition bearer_value (v : string) : string := TrimSpace (TrimPrefix v "Bearer ").

Record Credential : Type := MkCred { cd_value : string; cd_from : string; cd_mode : string; cd_foreign : bool }.

Fixpoint credential (r : Req) (headers : list CredentialHeader) : Credential :=
  match headers with
  | h :: rest =>
      let v := TrimSpace (HGet (r_Header r) (ch_Name h)) in
      if decide (v = "") then credential r rest
      else if isACHKey (bearer_value v) then MkCred (bearer_value v) (ch_Name h) ModeResolve false
      else MkCred v (ch_Name h) (ch_Mode h) false
  | [] =>
      let raw := TrimSpace (HGet (r_Header r) authzHeader) in
      if decide (raw = "") then MkCred "" "" "" false
      else if HasPrefix raw "Bearer " && (Keys.LooksLikeJWS (bearer_value raw) || isACHKey (bearer_value raw))
      then MkCred (bearer_value raw) authzHeader ModeResolve false
      else MkCred "" "" "" true
  end.

(** [ClientIP]. *)
Definition ClientIP (r : Req) : string :=
  let xff := HGet (r_Header r) "X-Forwarded-For" in
  if decide (xff = "") then r_RemoteAddr r
  else match CutByte ","%char xff with
       | Some (first, _) => TrimSpace first
       | None => TrimSpace xff
       end.

(** ** csrf.go *)

Record URL : Type := MkURL { u_Scheme : string; u_Host : string; u_Path : string }.

Definition safeMethod (m : string) : bool := Contains ["GET"; "HEAD"; "OPTIONS"] m.

Definition SameSite (url_Parse : string -> option URL) (r : Req) (issuer : string) : bool :=
  let site := HGet (r_Header r) "Sec-Fetch-Site" in
  if decide (site = "same-origin") then true
  else if decide (site = "") then
    match url_Parse (HGet (r_Header r) "Origin") with
    | None => false
    | Some o =>
        if bool_decide (u_Scheme o = "") || bool_decide (u_Host o = "") || negb (bool_decide (u_Path o = ""))
        then false
        else match url_Parse issuer with
             | None => false
             | Some i => bool_decide (u_Scheme o = u_Scheme i) && bool_decide (u_Host o = u_Host i)
             end
    end
  else false.

(** ** Authn *)

Inductive SessionErr : Type := ErrTemporarilyUnavailable | SessionInfra.

(** [CookieAuth]: the cookie's name and issuer, the session store and the
    oauth key lookup. *)
Record CookieAuth (S : Type) : Type := MkCookieAuth {
  ca_Name : string;
  ca_Issuer : string;
  ca_Session : string -> S -> Res SessionErr (option string) * S;
  ca_PK : string -> S -> Res DbErr (option PkKeyInfo) * S
}.
Arguments MkCookieAuth {S} _ _ _ _.
Arguments ca_Name {S} _.
Arguments ca_Issuer {S} _.
Arguments ca_Session {S} _ _ _.
Arguments ca_PK {S} _ _ _.

Inductive Outcome : Type :=
| Refuse (status : Z) (code : string) (challenged : bool)
| Next (r : Req) (c : Ctx).

Section Authn.
Context {S : Type} (resolve : string -> S -> Res ResolveErr (option KeyInfo) * S)
        (allowlist : option (gset string)) (hasChallenge : bool) (headers : list CredentialHeader)
        (cookie : option (CookieAuth S)) (url_Parse : string -> option URL).

(** [finish]: the admin flag is the allowlist, for personal keys only. *)
Definition finish (info : KeyInfo) : AuthKey :=
  MkAuthKey info
    (bool_decide (ki_KeyType info = Keys.PrefixPk)
     && match allowlist with Some l => bool_decide (ki_OwnerEmail info ∈ l) | None => false end).

Definition unauthorized (code : string) : Outcome := Refuse 401 code hasChallenge.

(** The cookie value when the adapter is wired and the cookie is set. *)
Definition session_id (r : Req) : string :=
  match cookie with Some ca => default "" (r_Cookie r (ca_Name ca)) | None => "" end.

Definition authn_cookie (ca : CookieAuth S) (cred : Credential) (sid : string) (r : Req) (s : S) : Outcome * S :=
  if negb (bool_decide (cd_value cred = "")) || cd_foreign cred then (Refuse 400 "ambiguous_credentials" false, s)
  else if negb (safeMethod (r_Method r)) && negb (SameSite url_Parse r (ca_Issuer ca))
  then (Refuse 403 "csrf_rejected" false, s)
  else match ca_Session ca sid s with
       | (Err ErrTemporarilyUnavailable, s1) => (Refuse 503 "temporarily_unavailable" false, s1)
       | (Err SessionInfra, s1) => (Refuse 500 "internal_error" false, s1)
       | (Ok None, s1) => (unauthorized "session_expired", s1)
       | (Ok (Some email), s1) =>
           match ca_PK ca email s1 with
           | (Err _, s2) => (Refuse 500 "internal_error" false, s2)
           | (Ok None, s2) => (unauthorized "expired_or_revoked", s2)
           | (Ok (Some row), s2) => (Next r (MkCtx (Some (finish (KeyInfoFromPK row))) None), s2)
           end
       end.

(** A slot or an Authorization of ours was presented. *)
Definition authn_bearer (cred : Credential) (r : Req) (s : S) : Outcome * S :=
  if decide (cd_mode cred = ModePassthrough) then (Next r (MkCtx None (Some (cd_value cred))), s)
  else match resolve (cd_value cred) s with
       | (Err ErrLoginRequired, s1) => (Refuse 403 "ach_login_required" false, s1)
       | (Err ErrIdPUnreachable, s1) => (Refuse 503 "idp_unreachable" false, s1)
       | (Err _, s1) => (Refuse 500 "internal_error" false, s1)
       | (Ok None, s1) => (unauthorized "expired_or_revoked", s1)
       | (Ok (Some info), s1) =>
           (Next (with_header (HDel (cd_from cred) (r_Header r)) r) (MkCtx (Some (finish info)) None), s1)
       end.

Definition authn_header (cred : Credential) (r : Req) (s : S) : Outcome * S :=
  if decide (cd_value cred = "") then
    if cd_foreign cred then (Next r (MkCtx None None), s) else (unauthorized "missing_key", s)
  else authn_bearer cred r s.

Definition Authn (r : Req) (s : S) : Outcome * S :=
  let cred := credential r headers in
  let sid := session_id r in
  match cookie with
  | Some ca => if decide (sid = "") then authn_header cred r s else authn_cookie ca cred sid r s
  | None => authn_header cred r s
  end.
End Authn.

(** ** What a credential choice means *)

(** The headers a credential can be presented in, in precedence order. *)
Definition slots (headers : list CredentialHeader) : list string := (ch_Name <$> headers) ++ [authzHeader].

Definition presented (r : Req) (h : string) : string := TrimSpace (HGet (r_Header r) h).

(** An ACH key in header [h]: with or without a scheme in a declared slot,
    under the Bearer scheme in Authorization. *)
Definition carries_key (r : Req) (h : string) : Prop :=
  isACHKey (bearer_value (presented r h)) = true
  /\ (h = authzHeader -> HasPrefix (presented r h) "Bearer " = true).

Inductive chosen (r : Req) (headers : list CredentialHeader) : Credential -> Prop :=
| chosen_none :
    Forall (fun h => presented r h = "") (slots headers) -> chosen r headers (MkCred "" "" "" false)
| chosen_foreign :
    Forall (fun h => presented r (ch_Name h) = "") headers -> presented r authzHeader <> "" ->
    ~ carries_key r authzHeader -> chosen r headers (MkCred "" "" "" true)
| chosen_slot v from mode :
    v <> "" -> from ∈ slots headers -> presented r from <> "" ->
    (v = bearer_value (presented r from) \/ v = presented r from) ->
    (mode = ModePassthrough ->
       from ∈ ch_Name <$> headers /\ v = presented r from /\ isACHKey (bearer_value (presented r from)) = false) ->
    chosen r headers (MkCred v from mode false).

Lemma isACHKey_nonempty k : isACHKey k = true -> k <> "".
Proof. by intros ? ->. Qed.

Lemma LooksLikeJWS_nonempty k : Keys.LooksLikeJWS k = true -> k <> "".
Proof. by intros ? ->. Qed.

Lemma credential_chosen r headers : chosen r headers (credential r headers).
Proof.
  induction headers as [|h rest IH]; cbn [credential].
  - fold (presented r authzHeader). case_decide as He.
    { apply chosen_none. by repeat constructor. }
    destruct (HasPrefix _ _) eqn:Hp; cbn [andb]; [destruct (_ || _) eqn:Hj|].
    + apply chosen_slot; [|by left|done|by left|done].
      apply orb_true_iff in Hj as [?%LooksLikeJWS_nonempty|?%isACHKey_nonempty]; done.
    + apply orb_false_iff in Hj as [_ Hk]. apply chosen_foreign; [done|done|]. intros [? _]. congruence.
    + apply chosen_foreign; [done|done|]. intros [_ Hb]. rewrite Hb in Hp; done.
  - fold (presented r (ch_Name h)). case_decide as He.
    { inversion IH as [| |v from mode Hv Hf Hp Hw Hpt]; subst.
      - apply chosen_none. by constructor.
      - apply chosen_foreign; [by constructor|done|done].
      - apply chosen_slot; try done; [by right|]. intros Hm. destruct (Hpt Hm). split; [by right|done]. }
    destruct (isACHKey _) eqn:Hk.
    + apply chosen_slot; [by apply isACHKey_nonempty|by left|done|by left|done].
    + apply chosen_slot; [done|by left|done|by right|]. intros _. split_and!; [by left|done|done].
Qed.

(** ** Theorems *)

Section AuthnSpec.
Context {S : Type} (resolve : string -> S -> Res ResolveErr (option KeyInfo) * S)
        (allowlist : option (gset string)) (hasChallenge : bool) (headers : list CredentialHeader)
        (cookie : option (CookieAuth S)) (url_Parse : string -> option URL).

Abbreviation authn := (Authn resolve allowlist hasChallenge headers cookie url_Parse).

(** The four ways a request passes. *)
Inductive admitted (r : Req) (s : S) : Req -> Ctx -> S -> Prop :=
| by_key v from info s' :
    from ∈ slots headers -> v = bearer_value (presented r from) \/ v = presented r from -> v <> "" ->
    session_id cookie r = "" -> resolve v s = (Ok (Some info), s') ->
    admitted r s (with_header (HDel from (r_Header r)) r) (MkCtx (Some (finish allowlist info)) None) s'
| by_session ca sid email row s1 s' :
    cookie = Some ca -> r_Cookie r (ca_Name ca) = Some sid -> sid <> "" ->
    Forall (fun h => presented r h = "") (slots headers) ->
    (safeMethod (r_Method r) = true \/ SameSite url_Parse r (ca_Issuer ca) = true) ->
    ca_Session ca sid s = (Ok (Some email), s1) -> ca_PK ca email s1 = (Ok (Some row), s') ->
    admitted r s r (MkCtx (Some (finish allowlist (KeyInfoFromPK row))) None) s'
| by_backend_key from :
    from ∈ ch_Name <$> headers -> presented r from <> "" -> isACHKey (bearer_value (presented r from)) = false ->
    session_id cookie r = "" ->
    admitted r s r (MkCtx None (Some (presented r from))) s
| by_foreign :
    Forall (fun h => presented r (ch_Name h) = "") headers -> presented r authzHeader <> "" ->
    ~ carries_key r authzHeader -> session_id cookie r = "" ->
    admitted r s r (MkCtx None None) s.

Lemma authn_header_admits r s r' c s' :
  session_id cookie r = "" ->
  authn_header resolve allowlist hasChallenge (credential r headers) r s = (Next r' c, s') -> admitted r s r' c s'.
Proof.
  intros Hs. unfold authn_header, authn_bearer. destruct (credential_chosen r headers) as [| |v from mode Hv Hf Hp Hw Hc]; cbn [cd_value cd_from cd_mode cd_foreign].
  - rewrite decide_True by done. done.
  - rewrite decide_True by done. intros [= <- <- <-]. by apply by_foreign.
  - rewrite decide_False by done. case_decide as Hm.
    + intros [= <- <- <-]. destruct (Hc Hm) as (Hin & -> & Hnk). by apply by_backend_key.
    + destruct (resolve v s) as [[[info|]|[]] s1] eqn:Hr; try done. intros [= <- <- <-]. by eapply by_key.
Qed.

Lemma session_id_Some ca r : cookie = Some ca -> session_id cookie r <> "" ->
  r_Cookie r (ca_Name ca) = Some (session_id cookie r).
Proof. intros ->. cbn. by destruct (r_Cookie r (ca_Name ca)). Qed.

Lemma Authn_admits r s r' c s' : authn r s = (Next r' c, s') -> admitted r s r' c s'.
Proof.
  unfold Authn. pose (k := cookie). pose proof (eq_refl : cookie = k) as Hca.
  change (match cookie with Some ca => _ | None => _ end) with
    (match k with
     | Some ca => if decide (session_id cookie r = "")
                  then authn_header resolve allowlist hasChallenge (credential r headers) r s
                  else authn_cookie allowlist hasChallenge url_Parse ca (credential r headers) (session_id cookie r) r s
     | None => authn_header resolve allowlist hasChallenge (credential r headers) r s
     end).
  clearbody k. destruct k as [ca|].
  2: { apply authn_header_admits. by rewrite Hca. }
  case_decide as Hsid; [by apply authn_header_admits|].
  unfold authn_cookie. destruct (credential_chosen r headers) as [Hn| |v from mode Hv]; cbn [cd_value cd_foreign].
  2: { done. }
  2: { by rewrite (bool_decide_eq_false_2 _ Hv). }
  cbn. destruct (negb _ && negb _) eqn:Hm; [done|].
  destruct (ca_Session _ _ _) as [[[email|]|[]] s1] eqn:Hse; try done.
  destruct (ca_PK _ _ _) as [[[row|]|e] s2] eqn:Hpk; try done. intros [= <- <- <-].
  eapply by_session; try done; [by apply session_id_Some|].
  apply andb_false_iff in Hm as [?%negb_false_iff|?%negb_false_iff]; auto.
Qed.

Lemma finish_admin info : ak_IsAdmin (finish allowlist info) = true ->
  ki_KeyType info = Keys.PrefixPk /\ exists l, allowlist = Some l /\ ki_OwnerEmail info ∈ l.
Proof.
  cbn. intros [Ht%bool_decide_eq_true Hl]%andb_true_iff. split; [done|].
  destruct allowlist as [l|]; [|done]. exists l. split; [done|]. by apply bool_decide_eq_true in Hl.
Qed.


Lemma admitted_slots_elem h : h ∈ slots headers -> h = authzHeader \/ exists c, c ∈ headers /\ h = ch_Name c.
Proof.
  unfold slots. rewrite elem_of_app, list_elem_of_fmap, list_elem_of_singleton. firstorder.
Qed.

Lemma presented_HDel r from h :
  presented (with_header (HDel from (r_Header r)) r) h = if decide (CanonKey h = CanonKey from) then "" else presented r h.
Proof.
  unfold presented. cbn. unfold HGet, HDel. case_decide as He.
  - rewrite He, lookup_delete_eq. done.
  - by rewrite lookup_delete_ne.
Qed.

End AuthnSpec.

(** ** Slot configuration *)

Definition slot_ok (h : CredentialHeader) : Prop :=
  ch_Name h <> "" /\ ch_Name h <> "authorization" /\ ToLower (ch_Name h) = ch_Name h
  /\ (ch_Mode h = ModeResolve \/ ch_Mode h = ModePassthrough).

Lemma parse_slots_ok seen l out :
  parse_slots seen l = Ok out ->
  out = (fun h => MkSlot (ToLower (TrimSpace (ch_Name h))) (ch_Mode h)) <$> l
  /\ Forall slot_ok out /\ NoDup (ch_Name <$> out) /\ (forall x, x ∈ ch_Name <$> out -> x ∉ seen).
Proof.
  revert seen out; induction l as [|h l IH]; intros seen out; cbn [parse_slots].
  - intros [= <-]. split_and!; [done|constructor|constructor|]. intros x Hx. by apply elem_of_nil in Hx.
  - do 2 (case_decide; [done|]). destruct (negb _ && negb _) eqn:Hm; [done|].
    destruct (Contains _ _) eqn:Hc; [done|]. apply Contains_false in Hc.
    destruct (parse_slots _ _) as [o|] eqn:Hp; [|done]. intros [= <-].
    destruct (IH _ _ Hp) as (-> & Hok & Hnd & Hs). split_and!; [done| | |].
    + constructor; [|done]. split_and!; cbn; try done; [apply ToLower_idemp|].
      apply andb_false_iff in Hm as [?%negb_false_iff%bool_decide_eq_true|?%negb_false_iff%bool_decide_eq_true]; auto.
    + cbn [fmap list_fmap]. constructor; [|done]. intros Hin. apply (Hs _ Hin). by left.
    + cbn [fmap list_fmap]. intros x [->|Hx]%elem_of_cons; [done|]. intros Hin. apply (Hs _ Hx). by right.
Qed.

(** C39: a slot list the process accepts at start is the decoded list with
    its names trimmed and lower-cased, in the declared order, each name
    non-empty, distinct and never "authorization", each mode resolve or
    passthrough; and under such a list, whatever key a request carries in a
    passthrough slot, Authn never hands an ACH key on as a backend key. *)
Theorem accepted_slots_keep_ach_keys {S} (unmarshal : string -> option (list CredentialHeader)) (raw : string)
    (headers : list CredentialHeader) (Hparse : ParseCredentialHeaders unmarshal raw = Ok headers) :
  (TrimSpace raw = "" -> headers = [])
  /\ (TrimSpace raw <> "" -> exists l, unmarshal raw = Some l
        /\ headers = (fun h => MkSlot (ToLower (TrimSpace (ch_Name h))) (ch_Mode h)) <$> l)
  /\ Forall slot_ok headers /\ NoDup (ch_Name <$> headers)
  /\ forall (resolve : string -> S -> Res ResolveErr (option KeyInfo) * S) allowlist chal cookie up r s r' c s' v,
       Authn resolve allowlist chal headers cookie up r s = (Next r' c, s') ->
       RawLiteLLMKeyFromCtx c = Some v -> isACHKey (bearer_value v) = false /\ r' = r /\ cx_key c = None.
Proof.
  assert (Hall : Forall slot_ok headers /\ NoDup (ch_Name <$> headers)
    /\ (TrimSpace raw = "" -> headers = [])
    /\ (TrimSpace raw <> "" -> exists l, unmarshal raw = Some l
         /\ headers = (fun h => MkSlot (ToLower (TrimSpace (ch_Name h))) (ch_Mode h)) <$> l)).
  { unfold ParseCredentialHeaders in Hparse. case_decide as Hr.
    - injection Hparse as <-. split_and!; try done; constructor.
    - destruct (unmarshal raw) as [l|]; [|done]. apply parse_slots_ok in Hparse as (-> & ? & ? & _).
      split_and!; try done. intros _. by exists l. }
  destruct Hall as (? & ? & ? & ?). split_and!; try done.
  intros resolve allowlist chal cookie up r s r' c s' v Ha Hv.
  apply Authn_admits in Ha. inversion Ha as [| |from _ _ Hk|]; subst; cbn in Hv; try done.
  unfold RawLiteLLMKeyFromCtx in Hv. cbn in Hv. destruct (presented r' from) eqn:Hp; [done|]. by injection Hv as <-.
Qed.

(** ** Concrete instances *)

Definition a_slots : list CredentialHeader := [MkSlot "x-ach-key" ModeResolve; MkSlot "x-genai-api-key" ModePassthrough].

Definition a_req (h v : string) : Req :=
  MkReq "GET" "/v1/models" "" (HSet h v ∅) (fun _ => None) "10.0.0.1:1" "https" "ach" None.

Definition a_info : KeyInfo := MkKeyInfo "ekid_1" Keys.PrefixEk "a@x" None "dev" None None (Some "sealed").

(** A resolver that knows one key. *)
Definition a_resolve (v : string) (s : unit) : Res ResolveErr (option KeyInfo) * unit :=
  (Ok (if decide (v = "ek-x") then Some a_info else None), s).

Definition a_authn : Req -> unit -> Outcome * unit := Authn a_resolve None true a_slots None (fun _ => None).


Lemma accepted_slots_keep_ach_keys_witness :
  exists r' c, Authn a_resolve None true a_slots None (fun _ => None) (a_req "x-genai-api-key" "sk-raw") tt = (Next r' c, tt)
    /\ RawLiteLLMKeyFromCtx c = Some "sk-raw" /\ r' = a_req "x-genai-api-key" "sk-raw".
Proof.
  eexists _, _. split; [vm_compute; reflexivity|]. split; [reflexivity|].
  destruct (accepted_slots_keep_ach_keys (S := unit)
    (fun _ => Some [MkSlot " X-Ach-Key" ModeResolve; MkSlot "x-genai-api-key" ModePassthrough]) "[...]" a_slots
    ltac:(vm_compute; reflexivity)) as (_ & _ & _ & _ & H).
  refine (proj1 (proj2 (H a_resolve None true None (fun _ => None) _ tt _ _ tt "sk-raw" _ _))); vm_compute; reflexivity.
Defined.
