(* ===== verification/Precheck.v ===== *)
(** * Resource authorization on the forwarder

    The in-memory projections the traffic path reads (forwarder/envstore,
    forwarder/bipcache), the per-target pre-check (forwarder/precheck) and the
    team set it hands to the identity token (proxy/groups.go).  The teams
    resolver is a parameter over a state, as in [KeyCache]. *)

From stdpp Require Import sorting.
From S2P Require Import Prelude Keys KeyDB LiteLLM World KeyGrant Keystore Authn.
Import EkDB PkDB.

Open Scope string_scope.
Open Scope list_scope.

(** ** envstore/store.go *)

(** The snapshot behind the atomic pointer. *)
Abbreviation EnvStore := (gmap string EnvironmentRow).

(** [db.ListEnvironments]: the namespace's rows by name. *)
Definition ListEnvironments (f : Fault) (t : gmap string EnvironmentRow) : Res DbErr (list EnvironmentRow) :=
  (with_fault "ListEnvironments" f (Ok (sort_by env_Name (map snd (map_to_list t))), t) t).1.

Definition Env_Get (name : string) (m : EnvStore) : option EnvironmentRow := m !! name.

(** Go's map iteration order is unspecified: any permutation of the values
    is a possible [List]; this one is the executable representative. *)
Definition Env_List (m : EnvStore) : list EnvironmentRow := map snd (map_to_list m).
Definition is_listing (m : EnvStore) (l : list EnvironmentRow) : Prop := l ≡ₚ Env_List m.

Definition Env_Refresh (rows : Res DbErr (list EnvironmentRow)) (m : EnvStore) : Res DbErr unit * EnvStore :=
  match rows with
  | Err e => (Err e, m)
  | Ok l => (Ok tt, foldl (fun next r => <[env_Name r := r]> next) ∅ l)
  end.

(** ** bipcache/cache.go *)

Record BIPRow : Type := MkBIP {
  bip_Name : string;
  bip_TargetKind : string;
  bip_TargetName : string;
  bip_ForwardIdentityJWT : bool;
  bip_ConsentBroker : string;
  bip_ConsentAudience : string
}.

#[global] Instance BIPRow_eq_dec : EqDecision BIPRow.
Proof. solve_decision. Defined.

(** Keyed by the (kind, name) of the policy's target. *)
Abbreviation BIPCache := (gmap (string * string) (list BIPRow)).

(** [db.ListAllBIPs]: the namespace's policies by name. *)
Definition ListAllBIPs (f : Fault) (t : gmap string BIPRow) : Res DbErr (list BIPRow) :=
  (with_fault "ListAllBIPs" f (Ok (sort_by bip_Name (map snd (map_to_list t))), t) t).1.

Definition BIP_Resolve (targetKind targetName : string) (m : BIPCache) : option BIPRow :=
  match m !! (targetKind, targetName) with
  | None | Some [] => None
  | Some (first :: _) => if bip_ForwardIdentityJWT first then Some first else None
  end.

Definition bip_append (next : BIPCache) (r : BIPRow) : BIPCache :=
  let k := (bip_TargetKind r, bip_TargetName r) in <[k := default [] (next !! k) ++ [r]]> next.

Definition BIP_Refresh (rows : Res DbErr (list BIPRow)) (m : BIPCache) : Res DbErr unit * BIPCache :=
  match rows with
  | Err e => (Err e, m)
  | Ok l => (Ok tt, foldl bip_append ∅ l)
  end.

(** [db.ConsentBIP]: the console's view of the same choice. *)
Definition ConsentBIP (f : Fault) (targetName : string) (t : gmap string BIPRow) : Res DbErr (option BIPRow) :=
  match ListAllBIPs f t with
  | Err e => Err e
  | Ok l =>
      match List.filter (fun r => bool_decide (bip_TargetKind r = "MCPServer") && bool_decide (bip_TargetName r = targetName)) l with
      | [] => Ok None
      | r :: _ => if negb (bip_ForwardIdentityJWT r) || bool_decide (bip_ConsentBroker r = "") then Ok None else Ok (Some r)
      end
  end.

(** ** precheck/check.go *)

Inductive PrecheckErr : Type :=
| ErrInvalidKeyType
| ErrUnauthorizedResource
| ErrUnauthorizedTeam
| ErrLiteLLMUnreachable.

Inductive resourceKind : Type := mcpResourceKind | a2aResourceKind.

Definition runtimeList (row : EnvironmentRow) (kind : resourceKind) : list string :=
  match kind with
  | mcpResourceKind => env_RuntimeMCPServers row
  | a2aResourceKind => env_RuntimeA2AAgents row
  end.

Section Precheck.
Context {T X : Type} (teams : string -> T -> Res X (list string) * T) (m : EnvStore) (listing : list EnvironmentRow).

Definition CheckEkOwner (kc : KeyInfo) (st : T) : Res PrecheckErr unit * T :=
  if negb (bool_decide (ki_KeyType kc = Keys.PrefixEk)) then (Ok tt, st)
  else match Env_Get (ki_Environment kc) m with
       | None => (Err ErrUnauthorizedResource, st)
       | Some row =>
           match teams (ki_OwnerEmail kc) st with
           | (Err _, st1) => (Err ErrLiteLLMUnreachable, st1)
           | (Ok ts, st1) =>
               if negb (HasIntersect (env_AuthorizedTeams row) ts) then (Err ErrUnauthorizedTeam, st1) else (Ok tt, st1)
           end
       end.

(** The teams one Environment grants for the name: none unless it hosts it. *)
Definition row_grants (name : string) (kind : resourceKind) (teamSet : gset string) (row : EnvironmentRow) : list string :=
  if existsb (String.eqb name) (runtimeList row kind)
  then List.filter (fun t => bool_decide (t ∈ teamSet)) (env_AuthorizedTeams row)
  else [].

Definition checkPk (kc : KeyInfo) (name : string) (kind : resourceKind) (st : T) : Res PrecheckErr (list string) * T :=
  match teams (ki_OwnerEmail kc) st with
  | (Err _, st1) => (Err ErrLiteLLMUnreachable, st1)
  | (Ok callerTeams, st1) =>
      match callerTeams with
      | [] => (Err ErrUnauthorizedTeam, st1)
      | _ =>
          match listing ≫= row_grants name kind (list_to_set callerTeams) with
          | [] => (Err ErrUnauthorizedTeam, st1)
          | granted => (Ok granted, st1)
          end
      end
  end.

Definition checkEk (kc : KeyInfo) (name : string) (kind : resourceKind) (st : T) : Res PrecheckErr (list string) * T :=
  match Env_Get (ki_Environment kc) m with
  | None => (Err ErrUnauthorizedResource, st)
  | Some row =>
      if existsb (String.eqb name) (runtimeList row kind) then checkPk kc name kind st
      else (Err ErrUnauthorizedResource, st)
  end.

Definition check (kc : KeyInfo) (name : string) (kind : resourceKind) (st : T) : Res PrecheckErr (list string) * T :=
  if bool_decide (ki_KeyType kc = Keys.PrefixEk) then checkEk kc name kind st
  else if bool_decide (ki_KeyType kc = Keys.PrefixPk) then checkPk kc name kind st
  else (Err ErrInvalidKeyType, st).

Definition CheckMCP (kc : KeyInfo) (name : string) : T -> Res PrecheckErr (list string) * T := check kc name mcpResourceKind.
Definition CheckA2A (kc : KeyInfo) (name : string) : T -> Res PrecheckErr (list string) * T := check kc name a2aResourceKind.
End Precheck.

(** ** proxy/groups.go *)

Definition is_shell (t : string) : bool := HasPrefix t ShellTeamPrefix || HasPrefix t UserShellPrefix.

(** The loop: drop shell teams, keep the first occurrence of the others. *)
Fixpoint keep_teams (out : list string) (l : list string) : list string :=
  match l with
  | [] => out
  | t :: r =>
      if is_shell t then keep_teams out r
      else if Contains out t then keep_teams out r
      else keep_teams (out ++ [t]) r
  end.

Definition filterShellTeams (l : list string) : list string := sort_by (fun t => t) (keep_teams [] l).

(** ** Sorting *)

Definition str_le (a b : string) : Prop := str_ltb b a = false.

#[global] Instance str_le_trans : Transitive str_le.
Proof.
  intros a b c Hab Hbc. unfold str_le in *. destruct (str_ltb c a) eqn:Hca; [|done].
  destruct (decide (b = c)) as [->|Hn]; [congruence|].
  destruct (str_ltb b c) eqn:Hb; [|by apply str_ltb_total in Hb].
  by rewrite (str_ltb_trans _ _ _ Hb Hca) in Hab.
Qed.
#[global] Instance str_le_antisymm : AntiSymm (=) str_le.
Proof. intros a b ? ?. by apply str_ltb_total. Qed.

Definition key_le {A} (key : A -> string) (a b : A) : Prop := str_le (key a) (key b).

#[global] Instance key_le_trans {A} (key : A -> string) : Transitive (key_le key).
Proof. intros a b c. apply str_le_trans. Qed.

Lemma insert_by_perm {A} (key : A -> string) x l : insert_by key x l ≡ₚ x :: l.
Proof.
  induction l as [|y l IH]; cbn; [done|]. destruct (str_ltb _ _); [|done]. rewrite IH. apply Permutation_swap.
Qed.

Lemma sort_by_perm {A} (key : A -> string) l : sort_by key l ≡ₚ l.
Proof. induction l as [|x l IH]; cbn; [done|]. fold (sort_by key l). by rewrite insert_by_perm, IH. Qed.

Lemma insert_by_sorted {A} (key : A -> string) x l :
  StronglySorted (key_le key) l -> StronglySorted (key_le key) (insert_by key x l).
Proof.
  induction 1 as [|y l Hs IH Hy]; cbn; [by repeat constructor|].
  destruct (str_ltb (key y) (key x)) eqn:Hlt.
  - constructor; [done|]. rewrite insert_by_perm. constructor; [|done]. unfold key_le, str_le.
    destruct (str_ltb (key x) (key y)) eqn:Hc; [|done]. by rewrite <- (str_ltb_irrefl (key y)), (str_ltb_trans _ _ _ Hlt Hc).
  - constructor; [by constructor|]. constructor; [done|].
    eapply Forall_impl; [exact Hy|]. intros z Hz. by etrans; [|exact Hz].
Qed.

Lemma sort_by_sorted {A} (key : A -> string) l : StronglySorted (key_le key) (sort_by key l).
Proof. induction l; cbn; [constructor|]. by apply insert_by_sorted. Qed.

(** ** The groups claim *)

Lemma keep_teams_spec out l :
  NoDup out -> NoDup (keep_teams out l)
  /\ forall t, t ∈ keep_teams out l <-> t ∈ out \/ (t ∈ l /\ is_shell t = false).
Proof.
  revert out; induction l as [|x l IH]; intros out Hnd; cbn [keep_teams].
  { split; [done|]. intros t. rewrite elem_of_nil. tauto. }
  destruct (is_shell x) eqn:Hx; [|destruct (Contains out x) eqn:Hc; rewrite ?Contains_spec, ?Contains_false in Hc].
  - destruct (IH out Hnd) as [? Hm]. split; [done|]. intros t. rewrite Hm, elem_of_cons.
    split; [tauto|]. intros [?|[[?|?] ?]]; [tauto|subst; congruence|tauto].
  - destruct (IH out Hnd) as [? Hm]. split; [done|]. intros t. rewrite Hm, elem_of_cons.
    split; [tauto|]. intros [?|[[?|?] ?]]; subst; tauto.
  - destruct (IH (out ++ [x])) as [? Hm].
    { apply NoDup_app. split_and!; [done| |apply NoDup_singleton]. intros y Hy Hs%list_elem_of_singleton. by subst. }
    split; [done|]. intros t. rewrite Hm, elem_of_app, list_elem_of_singleton, elem_of_cons.
    split; [intros [[?|?]|?]; subst; tauto|tauto].
Qed.

Lemma filterShellTeams_elem l t : t ∈ filterShellTeams l <-> t ∈ l /\ is_shell t = false.
Proof.
  unfold filterShellTeams. rewrite sort_by_elem. destruct (keep_teams_spec [] l) as [_ Hm]; [constructor|].
  rewrite Hm, elem_of_nil. tauto.
Qed.

Lemma filterShellTeams_NoDup l : NoDup (filterShellTeams l).
Proof. unfold filterShellTeams. rewrite sort_by_perm. apply keep_teams_spec. constructor. Qed.

Lemma filterShellTeams_ext l l' : (forall t, t ∈ l <-> t ∈ l') -> filterShellTeams l = filterShellTeams l'.
Proof.
  intros He. apply (StronglySorted_unique str_le); try apply (sort_by_sorted (fun t => t)).
  apply NoDup_Permutation; try apply filterShellTeams_NoDup. intros t. by rewrite !filterShellTeams_elem, He.
Qed.

(** ** The pre-check *)

(** Team [t] of the caller's [ts] grants [name]: one Environment both hosts
    the name and authorizes the team. *)
Definition grants (m : EnvStore) (name : string) (kind : resourceKind) (ts : list string) (t : string) : Prop :=
  exists k row, m !! k = Some row /\ name ∈ runtimeList row kind /\ t ∈ env_AuthorizedTeams row /\ t ∈ ts.

(** The Environment an ek_ is bound to hosts the name. *)
Definition bound_hosts (m : EnvStore) (kc : KeyInfo) (name : string) (kind : resourceKind) : Prop :=
  exists row, m !! ki_Environment kc = Some row /\ name ∈ runtimeList row kind.

Lemma existsb_eqb name l : existsb (String.eqb name) l = true <-> name ∈ l.
Proof.
  rewrite existsb_exists. split.
  - intros (x & Hx & He%String.eqb_eq). subst. by apply list_elem_of_In.
  - intros ?%list_elem_of_In. exists name. by rewrite String.eqb_refl.
Qed.

Lemma listing_elem m l row : is_listing m l -> row ∈ l <-> exists k, m !! k = Some row.
Proof.
  intros ->. unfold Env_List. rewrite list_elem_of_In, in_map_iff. split.
  - intros ([k r] & <- & Hin%list_elem_of_In%elem_of_map_to_list). by exists k.
  - intros [k Hk]. exists (k, row). split; [done|]. by apply list_elem_of_In, elem_of_map_to_list.
Qed.

Lemma granted_spec m l name kind ts t :
  is_listing m l -> t ∈ (l ≫= row_grants name kind (list_to_set ts)) <-> grants m name kind ts t.
Proof.
  intros Hl. rewrite list_elem_of_bind. unfold grants, row_grants. split.
  - intros (row & Ht & [k Hk]%(listing_elem _ _ _ Hl)). destruct (existsb _ _) eqn:Hn; [|by apply elem_of_nil in Ht].
    apply existsb_eqb in Hn. apply list_elem_of_In, filter_In in Ht as [Ht Hs%bool_decide_eq_true].
    exists k, row. split_and!; try done; [by apply list_elem_of_In|]. by apply elem_of_list_to_set in Hs.
  - intros (k & row & Hk & Hn%existsb_eqb & Ha & Ht). exists row. rewrite Hn. split.
    + apply list_elem_of_In, filter_In. split; [by apply list_elem_of_In|].
      apply bool_decide_eq_true. by apply elem_of_list_to_set.
    + apply (listing_elem _ _ _ Hl). by exists k.
Qed.

Section PrecheckSpec.
Context {T X : Type} (teams : string -> T -> Res X (list string) * T) (m : EnvStore).

(** The verdict on the owner's teams [ts]: every granting team, or a refusal
    when there is none. *)
Definition team_verdict (name : string) (kind : resourceKind) (ts : list string) (st1 : T)
    (res : Res PrecheckErr (list string) * T) : Prop :=
  (exists g, res = (Ok g, st1) /\ (forall t, t ∈ g <-> grants m name kind ts t) /\ exists t, grants m name kind ts t)
  \/ (res = (Err ErrUnauthorizedTeam, st1) /\ forall t, ~ grants m name kind ts t).

Lemma checkPk_verdict listing kc name kind st ts st1 :
  is_listing m listing -> teams (ki_OwnerEmail kc) st = (Ok ts, st1) ->
  team_verdict name kind ts st1 (checkPk teams listing kc name kind st).
Proof.
  intros Hl Ht. unfold checkPk. rewrite Ht. destruct ts as [|t0 ts'].
  { right. split; [done|]. intros t (k & row & _ & _ & _ & Hin). by apply elem_of_nil in Hin. }
  pose proof (granted_spec m listing name kind (t0 :: ts')) as Hg.
  destruct (listing ≫= _) as [|g0 gs] eqn:Hb.
  - right. split; [done|]. intros t Ht0%(Hg t Hl). by apply elem_of_nil in Ht0.
  - left. exists (g0 :: gs). split; [done|]. split; [by intros t; apply Hg|].
    exists g0. apply Hg; [done|]. by left.
Qed.

Lemma checkEk_bound listing kc name kind st :
  (bound_hosts m kc name kind -> checkEk teams m listing kc name kind st = checkPk teams listing kc name kind st)
  /\ (~ bound_hosts m kc name kind -> checkEk teams m listing kc name kind st = (Err ErrUnauthorizedResource, st)).
Proof.
  unfold checkEk, Env_Get. split.
  - intros (row & -> & Hn). by rewrite (proj2 (existsb_eqb _ _) Hn).
  - intros Hb. destruct (m !! _) as [row|] eqn:Hr; [|done]. destruct (existsb _ _) eqn:Hn; [|done].
    exfalso. apply Hb. exists row. split; [done|]. by apply existsb_eqb.
Qed.


(** C19: an ek_ that passed the owner gate and whose Environment hosts the
    name is never refused by the pre-check behind it, as long as the team
    cache answers the same: the granted set then contains every team through
    which the gate admitted it, and is exactly what the owner's own pk_ would
    be granted for that target. *)
Theorem ek_gate_implies_precheck (listing : list EnvironmentRow) (Hl : is_listing m listing)
    (kc pk : KeyInfo) (name : string) (kind : resourceKind) (st st1 : T)
    (Hek : ki_KeyType kc = Keys.PrefixEk)
    (Hpk : ki_KeyType pk = Keys.PrefixPk) (Howner : ki_OwnerEmail pk = ki_OwnerEmail kc)
    (Hgate : CheckEkOwner teams m kc st = (Ok tt, st1))
    (Hsame : teams (ki_OwnerEmail kc) st1 = teams (ki_OwnerEmail kc) st)
    (Hhost : bound_hosts m kc name kind) :
  exists g row ts, check teams m listing kc name kind st1 = (Ok g, st1)
    /\ check teams m listing pk name kind st1 = (Ok g, st1)
    /\ m !! ki_Environment kc = Some row /\ (teams (ki_OwnerEmail kc) st).1 = Ok ts
    /\ (exists t, t ∈ env_AuthorizedTeams row /\ t ∈ ts)
    /\ forall t, t ∈ env_AuthorizedTeams row -> t ∈ ts -> t ∈ g.
Proof.
  destruct Hhost as (row & Hrow & Hname). unfold CheckEkOwner, Env_Get in Hgate.
  rewrite bool_decide_eq_true_2, Hrow in Hgate by done. cbn [negb] in Hgate.
  destruct (teams (ki_OwnerEmail kc) st) as [[ts|e] st2] eqn:Ht; [|done].
  destruct (HasIntersect _ _) eqn:Hi; [|done]. cbn in Hgate. injection Hgate as ->.
  apply HasIntersect_spec in Hi as (x & Hxa & Hxt).
  assert (Hg : forall t, t ∈ env_AuthorizedTeams row -> t ∈ ts -> grants m name kind ts t)
    by (intros t Ha Hts; by exists (ki_Environment kc), row).
  assert (Hc : check teams m listing kc name kind st1 = checkPk teams listing kc name kind st1).
  { unfold check. rewrite bool_decide_eq_true_2 by done. apply checkEk_bound. by exists row. }
  assert (Hp : check teams m listing pk name kind st1 = checkPk teams listing kc name kind st1).
  { unfold check, checkPk. rewrite Hpk, Howner. reflexivity. }
  rewrite Hc, Hp. destruct (checkPk_verdict listing kc name kind st1 ts st1 Hl Hsame)
    as [(g & -> & Hgr & _)|[_ Hno]]; [|exfalso; by apply (Hno x), Hg].
  exists g, row, ts. split_and!; try done; [by exists x|]. intros t Ha Hts. by apply Hgr, Hg.
Qed.

(** C18: the groups claim of an identity token is the granted set without
    ACH's own shell teams, sorted and without duplicates; it does not depend
    on the unspecified order in which the store lists Environments; and it
    never names a team outside the owner's own. *)
Theorem groups_claim_exact (l1 l2 : list EnvironmentRow) (H1 : is_listing m l1) (H2 : is_listing m l2)
    (kc : KeyInfo) (name : string) (kind : resourceKind) (st st1 : T) (g : list string)
    (Hok : check teams m l1 kc name kind st = (Ok g, st1)) :
  StronglySorted str_le (filterShellTeams g) /\ NoDup (filterShellTeams g)
  /\ exists ts, (teams (ki_OwnerEmail kc) st).1 = Ok ts
       /\ (forall t, t ∈ filterShellTeams g <-> grants m name kind ts t /\ is_shell t = false)
       /\ (forall t, t ∈ filterShellTeams g -> t ∈ ts)
       /\ exists g2, check teams m l2 kc name kind st = (Ok g2, st1) /\ filterShellTeams g2 = filterShellTeams g.
Proof.
  split; [apply (sort_by_sorted (fun t => t))|]. split; [apply filterShellTeams_NoDup|].
  assert (Hred : forall l, check teams m l kc name kind st = checkPk teams l kc name kind st
                 \/ exists e, forall l', check teams m l' kc name kind st = (Err e, st)).
  { intros l. unfold check. case_bool_decide; [|case_bool_decide; [by left|right; by eexists]].
    unfold checkEk. destruct (Env_Get _ _); [|right; by eexists]. destruct (existsb _ _); [by left|right; by eexists]. }
  destruct (Hred l1) as [E1|[e He]]; [|by rewrite He in Hok].
  destruct (Hred l2) as [E2|[e He]]; [|by rewrite He in Hok].
  rewrite E1 in Hok. rewrite E2. destruct (teams (ki_OwnerEmail kc) st) as [[ts|x] st2] eqn:Ht;
    [|unfold checkPk in Hok; by rewrite Ht in Hok].
  exists ts. destruct (checkPk_verdict l1 kc name kind st ts st2 H1 Ht) as [(g1 & Hg1 & Hm1 & Hex)|[Hr _]]; [|congruence].
  rewrite Hg1 in Hok. injection Hok as -> ->.
  destruct (checkPk_verdict l2 kc name kind st ts st1 H2 Ht) as [(g2 & -> & Hm2 & _)|[_ Hno]];
    [|destruct Hex as [t Hext]; by apply Hno in Hext].
  split_and!; try done.
  - intros t. by rewrite filterShellTeams_elem, Hm1.
  - intros t [(k & row & _ & _ & _ & Hin)%Hm1 _]%filterShellTeams_elem. done.
  - exists g2. split; [done|]. apply filterShellTeams_ext. intros t. by rewrite Hm1, Hm2.
Qed.
End PrecheckSpec.

(** ** The projections mirror their tables *)

Definition targets (kind name : string) (r : BIPRow) : bool :=
  bool_decide (bip_TargetKind r = kind) && bool_decide (bip_TargetName r = name).

(** The alphabetically first policy of the table for a target. *)
Definition winner (t : gmap string BIPRow) (kind name : string) (r : BIPRow) : Prop :=
  (exists k, t !! k = Some r) /\ targets kind name r = true
  /\ forall k r', t !! k = Some r' -> targets kind name r' = true -> str_le (bip_Name r) (bip_Name r').

Lemma bip_fold l m kind name :
  default [] (foldl bip_append m l !! (kind, name)) = default [] (m !! (kind, name)) ++ List.filter (targets kind name) l.
Proof.
  revert m; induction l as [|r l IH]; intros m; cbn [foldl List.filter]; [by rewrite app_nil_r|].
  rewrite IH. unfold bip_append. destruct (targets kind name r) eqn:Ht.
  - apply andb_true_iff in Ht as [<-%bool_decide_eq_true <-%bool_decide_eq_true].
    rewrite lookup_insert_eq. cbn. by rewrite <- app_assoc.
  - rewrite lookup_insert_ne; [done|]. intros [= <- <-].
    unfold targets in Ht. by rewrite !bool_decide_eq_true_2 in Ht.
Qed.

Lemma values_elem {K V} `{Countable K} (t : gmap K V) r : r ∈ map snd (map_to_list t) <-> exists k, t !! k = Some r.
Proof.
  rewrite list_elem_of_In, in_map_iff. split.
  - intros ([k x] & <- & Hin%list_elem_of_In%elem_of_map_to_list). by exists k.
  - intros [k Hk]. exists (k, r). split; [done|]. by apply list_elem_of_In, elem_of_map_to_list.
Qed.

Lemma filter_head {A} (key : A -> string) (P : A -> bool) l r rest :
  StronglySorted (key_le key) l -> List.filter P l = r :: rest ->
  r ∈ l /\ P r = true /\ forall x, x ∈ l -> P x = true -> str_le (key r) (key x).
Proof.
  induction 1 as [|y l Hs IH Hy]; cbn; [done|]. destruct (P y) eqn:Hp.
  - intros [= <- _]. split_and!; [by left|done|]. intros x [->|Hx]%elem_of_cons _.
    + apply str_ltb_irrefl.
    + rewrite Forall_forall in Hy. by apply Hy.
  - intros (? & ? & Hmin)%IH. split_and!; [by right|done|]. intros x [->|Hx]%elem_of_cons Hpx; [congruence|auto].
Qed.

Lemma BIP_winner (t : gmap string BIPRow) kind name r :
  (forall k r', t !! k = Some r' -> bip_Name r' = k) ->
  head (List.filter (targets kind name) (sort_by bip_Name (map snd (map_to_list t)))) = Some r <-> winner t kind name r.
Proof.
  intros Hkey. set (l := sort_by _ _).
  assert (Hin : forall x, x ∈ l <-> exists k, t !! k = Some x) by (intros; unfold l; by rewrite sort_by_elem, values_elem).
  destruct (List.filter (targets kind name) l) as [|x rest] eqn:Hf; cbn [head].
  - split; [done|]. intros (Hex & Ht & _). exfalso.
    assert (Hr : r ∈ List.filter (targets kind name) l)
      by (apply list_elem_of_In, filter_In; split; [by apply list_elem_of_In, Hin|done]).
    rewrite Hf in Hr. by apply elem_of_nil in Hr.
  - destruct (filter_head bip_Name _ _ _ _ (sort_by_sorted bip_Name _) Hf) as (Hx & Hpx & Hmin).
    split.
    + intros [= <-]. split_and!; [by apply Hin|done|]. intros k r' Hk Hr'. apply Hmin; [|done]. apply Hin. by exists k.
    + intros ((k & Hk) & Ht & Hle). destruct (proj1 (Hin x) Hx) as [kx Hkx].
      assert (He : bip_Name x = bip_Name r).
      { apply str_le_antisymm; [apply Hmin; [apply Hin; by exists k|done]|by eapply Hle]. }
      rewrite (Hkey _ _ Hkx), (Hkey _ _ Hk) in He. subst. congruence.
Qed.

Lemma BIP_Resolve_head (kind name : string) (m : BIPCache) :
  BIP_Resolve kind name m = (head (default [] (m !! (kind, name))) ≫= fun r => if bip_ForwardIdentityJWT r then Some r else None).
Proof. unfold BIP_Resolve. by destruct (m !! _) as [[|r l]|]. Qed.

Lemma env_fold l (m : EnvStore) n :
  NoDup (env_Name <$> l) ->
  foldl (fun next r => <[env_Name r := r]> next) m l !! n
  = match List.find (fun r => bool_decide (env_Name r = n)) l with Some r => Some r | None => m !! n end.
Proof.
  revert m; induction l as [|r l IH]; intros m Hnd; cbn [foldl List.find]; [done|].
  apply NoDup_cons in Hnd as [Hr Hnd]. rewrite IH by done. case_bool_decide as He.
  - destruct (List.find _ l) as [x|] eqn:Hf; [|by rewrite He, lookup_insert_eq].
    apply find_some in Hf as [Hin Hx%bool_decide_eq_true]. exfalso. apply Hr. rewrite He, <- Hx.
    by apply list_elem_of_fmap_2, list_elem_of_In.
  - by rewrite lookup_insert_ne.
Qed.

Lemma values_NoDup_names (t : EnvStore) :
  (forall k r, t !! k = Some r -> env_Name r = k) -> NoDup (env_Name <$> sort_by env_Name (map snd (map_to_list t))).
Proof.
  intros Hkey. rewrite sort_by_perm.
  replace (env_Name <$> map snd (map_to_list t)) with (fst <$> map_to_list t); [apply NoDup_fst_map_to_list|].
  rewrite <- list_fmap_compose. apply list_fmap_ext. intros i [k r] Hi. cbn. symmetry. apply Hkey.
  apply elem_of_map_to_list. by eapply list_elem_of_lookup_2.
Qed.

Lemma find_name (t : EnvStore) n :
  (forall k r, t !! k = Some r -> env_Name r = k) ->
  List.find (fun r => bool_decide (env_Name r = n)) (sort_by env_Name (map snd (map_to_list t))) = t !! n.
Proof.
  intros Hkey. set (l := sort_by _ _).
  assert (Hin : forall x, In x l <-> exists k, t !! k = Some x)
    by (intros; rewrite <- list_elem_of_In; unfold l; by rewrite sort_by_elem, values_elem).
  destruct (List.find _ l) as [r|] eqn:Hf.
  - apply find_some in Hf as [[k Hk]%Hin Hn%bool_decide_eq_true]. by rewrite <- Hn, (Hkey _ _ Hk).
  - destruct (t !! n) as [r|] eqn:Hr; [|done].
    assert (Hx : bool_decide (env_Name r = n) = false) by (apply (find_none _ _ Hf), Hin; by exists n).
    apply bool_decide_eq_false in Hx. exfalso. apply Hx. by eapply Hkey.
Qed.

(** C25: after a successful refresh the forwarder's caches answer exactly from
    the tables: an Environment lookup is the row of that name, and a policy
    lookup is the alphabetically first policy naming the target when that one
    opts in, nothing otherwise (an opt-out by the first policy is not
    overridden by a later one).  A failed refresh changes nothing.  The
    console's consent lookup picks the same policy. *)
Theorem projections_mirror_tables (te : gmap string EnvironmentRow) (tb : gmap string BIPRow)
    (Hte : forall k r, te !! k = Some r -> env_Name r = k) (Htb : forall k r, tb !! k = Some r -> bip_Name r = k)
    (f : Fault) (ms : EnvStore) (mb : BIPCache) :
  match ListEnvironments f te with
  | Err e => Env_Refresh (ListEnvironments f te) ms = (Err e, ms)
  | Ok _ => exists ms', Env_Refresh (ListEnvironments f te) ms = (Ok tt, ms') /\ forall n, Env_Get n ms' = te !! n
  end
  /\ match ListAllBIPs f tb with
     | Err e => BIP_Refresh (ListAllBIPs f tb) mb = (Err e, mb)
     | Ok _ => exists mb', BIP_Refresh (ListAllBIPs f tb) mb = (Ok tt, mb')
         /\ (forall kind name r, BIP_Resolve kind name mb' = Some r <->
               winner tb kind name r /\ bip_ForwardIdentityJWT r = true)
         /\ (forall name r, ConsentBIP f name tb = Ok (Some r) <->
               BIP_Resolve "MCPServer" name mb' = Some r /\ bip_ConsentBroker r <> "")
     end.
Proof.
  split; [unfold ListEnvironments|unfold ListAllBIPs]; destruct f; cbn; try done; eexists; split; try done.
  { intros n. unfold Env_Get. rewrite env_fold by (by apply values_NoDup_names). rewrite find_name by done.
    by destruct (te !! n). }
  set (l := sort_by bip_Name (map snd (map_to_list tb))).
  assert (Hres : forall kind name r, BIP_Resolve kind name (foldl bip_append ∅ l) = Some r <->
            head (List.filter (targets kind name) l) = Some r /\ bip_ForwardIdentityJWT r = true).
  { intros kind name r. rewrite BIP_Resolve_head, bip_fold, lookup_empty. cbn.
    destruct (List.filter _ _) as [|x y]; cbn; [by split; [|intros [? ?]]|].
    destruct (bip_ForwardIdentityJWT x) eqn:Hx; split; [by intros [= <-]|by intros [[= <-] _]|done|intros [[= <-] ?]; congruence]. }
  split.
  - intros kind name r. rewrite Hres. unfold l. by rewrite BIP_winner.
  - intros name r. rewrite Hres. unfold ConsentBIP, ListAllBIPs. cbn. fold l.
    change (fun r0 => bool_decide (bip_TargetKind r0 = "MCPServer") && bool_decide (bip_TargetName r0 = name))
      with (targets "MCPServer" name).
    destruct (List.filter (targets "MCPServer" name) l) as [|x y]; cbn; [split; [done|by intros [[? _] _]]|].
    destruct (bip_ForwardIdentityJWT x) eqn:Hx; cbn; [case_bool_decide as Hb|]; split; try done.
    + intros [[[= <-] _] Hn]. by apply Hn in Hb.
    + by intros [= <-].
    + by intros [[[= <-] _] _].
    + intros [[[= <-] ?] _]. congruence.
Qed.

(** ** Concrete instances *)

Definition p_dev : EnvironmentRow := MkEnv "dev" ["T1"; "ach-env-dev"] ["jira"] [] CondAbsent.
Definition p_ops : EnvironmentRow := MkEnv "ops" ["T2"; "T1"] ["jira"; "pager"] ["bot"] CondAbsent.
Definition p_envs : EnvStore := <["ops" := p_ops]> {["dev" := p_dev]}.
Definition p_teams (email : string) (st : unit) : Res unit (list string) * unit :=
  (if decide (email = "a@x") then Ok ["T2"; "T1"; "ach-env-dev"] else Err tt, st).
Definition p_ek : KeyInfo := MkKeyInfo "ekid_1" Keys.PrefixEk "a@x" None "dev" None None (Some "sealed").
Definition p_pk : KeyInfo := MkKeyInfo "pkid_1" Keys.PrefixPk "a@x" None "" None None (Some "sealed").

Lemma p_hosts : bound_hosts p_envs p_ek "jira" mcpResourceKind.
Proof. exists p_dev. split; [reflexivity|left]. Qed.


Lemma ek_gate_implies_precheck_witness :
  exists g, check p_teams p_envs (Env_List p_envs) p_ek "jira" mcpResourceKind tt = (Ok g, tt) /\ "T1" ∈ g.
Proof.
  destruct (ek_gate_implies_precheck p_teams p_envs (Env_List p_envs) (Permutation_refl _) p_ek p_pk "jira" mcpResourceKind tt tt
              eq_refl eq_refl eq_refl ltac:(vm_compute; reflexivity) eq_refl p_hosts)
    as (g & row & ts & Hc & _ & Hr & Ht & _ & Hin).
  exists g. split; [exact Hc|]. vm_compute in Hr, Ht. injection Hr as <-. injection Ht as <-.
  apply Hin; [left|right; left].
Defined.

Lemma groups_claim_exact_witness :
  exists g, check p_teams p_envs (Env_List p_envs) p_ek "jira" mcpResourceKind tt = (Ok g, tt)
    /\ NoDup (filterShellTeams g) /\ filterShellTeams g = ["T1"; "T2"].
Proof.
  eexists. split; [vm_compute; reflexivity|]. split; [|vm_compute; reflexivity].
  eapply (groups_claim_exact p_teams p_envs (Env_List p_envs) (Env_List p_envs) (Permutation_refl _) (Permutation_refl _)
           p_ek "jira" mcpResourceKind tt tt). vm_compute. reflexivity.
Defined.

Definition p_bips : gmap string BIPRow :=
  <["b" := MkBIP "b" "MCPServer" "jira" true "" ""]> {["a" := MkBIP "a" "MCPServer" "jira" false "" ""]}.

Lemma p_bips_keyed k r : p_bips !! k = Some r -> bip_Name r = k.
Proof.
  unfold p_bips. rewrite lookup_insert_Some, lookup_singleton_Some. by intros [[<- <-]|[_ [<- <-]]].
Qed.

Lemma projections_mirror_tables_witness :
  exists mb, BIP_Refresh (ListAllBIPs NoFault p_bips) ∅ = (Ok tt, mb) /\ BIP_Resolve "MCPServer" "jira" mb <> Some (MkBIP "b" "MCPServer" "jira" true "" "").
Proof.
  destruct (projections_mirror_tables ∅ p_bips ltac:(intros k r Hk; rewrite lookup_empty in Hk; discriminate Hk)
              p_bips_keyed
              NoFault ∅ ∅) as (_ & mb & Hr & Hw & _).
  exists mb. split; [exact Hr|]. intros Hx. apply Hw in Hx as [(_ & _ & Hmin) _].
  specialize (Hmin "a" (MkBIP "a" "MCPServer" "jira" false "" "") eq_refl eq_refl). discriminate Hmin.
Defined.
