(* ===== verification/BodyTags.v ===== *)
(** * Client budget tags in request bodies (forwarder/proxy/bodytags.go)

    LiteLLM merges tags found in a request body with the header ACH stamps
    and charges every tag's budget, so the forwarder strips them (JSON) or
    refuses the request (forms).  [parse] is [json.Unmarshal] of a JSON text
    held in a string, [mime_name] and [mime_boundary] are what
    [mime.ParseMediaType] finds in a header value. *)

From S2P Require Import Prelude LiteLLM Http.

Open Scope string_scope.
Open Scope list_scope.

Definition maxTagScanBody : Z := Z.shiftl 32 20.

Inductive BodyErr : Type := errBodyRead | errBodyTooLarge | errInvalidBody | errClientTags | errClientParam.

Definition refusedParams : list string := ["api_key"; "deployment_id"; "guardrails"; "guardrail_config"].
Definition refusedMetaParams : list string := ["guardrails"; "guardrail_config"].
Definition tagBearing : list string := ["tags"; "metadata"; "litellm_metadata"].

(** ** encoding/json *)

Abbreviation JMap := (gmap string JVal).

(** [json.Unmarshal] into a map, a string and a slice; null leaves the zero
    value without an error. *)
Definition as_map (v : JVal) : option JMap :=
  match v with
  | JObj l => Some (foldl (fun m kv => <[kv.1 := kv.2]> m) ∅ l)
  | JNull => Some ∅
  | _ => None
  end.
Definition as_string (v : JVal) : option string :=
  match v with JStr s => Some s | JNull => Some "" | _ => None end.
Definition as_array (v : JVal) : option (list JVal) :=
  match v with JArr l => Some l | JNull => Some [] | _ => None end.

(** [json.Marshal] of a map. *)
Definition of_map (m : JMap) : JVal := JObj (map_to_list m).

(** ** Refused parameters *)

Definition has (m : JMap) (k : string) : bool := bool_decide (is_Some (m !! k)).

(** One entry of tools: an object whose type is the string mcp. *)
Definition mcp_tool (raw : JVal) : bool :=
  match as_map raw with
  | None => false
  | Some t =>
      match t !! "type" ≫= as_string with
      | Some typ => bool_decide (typ = "mcp")
      | None => false
      end
  end.

Definition refuseParams (m : JMap) : Res BodyErr unit :=
  if existsb (has m) refusedParams then Err errClientParam
  else match m !! "tools" ≫= as_array with
       | None => Ok tt
       | Some tools => if existsb mcp_tool tools then Err errClientParam else Ok tt
       end.

Section Strip.
Context (parse : string -> option JVal).

(** One round of the loop of [stripObjTags], for key [k]. *)
Definition stripMeta (k : string) (m : JMap) : Res BodyErr (JMap * bool) :=
  match m !! k with
  | None => Ok (m, false)
  | Some v =>
      let str := as_string v in
      let doc := match str with Some s => parse s | None => Some v end in
      match doc ≫= as_map with
      | None =>
          match str with
          | Some s => if decide (TrimSpace s = "") then Ok (m, false) else Err errInvalidBody
          | None => Ok (m, false)
          end
      | Some sub =>
          if existsb (has sub) refusedMetaParams then Err errClientParam
          else if has sub "tags" then Ok (<[k := of_map (delete "tags" sub)]> m, true)
          else Ok (m, false)
      end
  end.

Definition stripObjTags (m : JMap) : Res BodyErr (JMap * bool) :=
  match refuseParams m with
  | Err e => Err e
  | Ok _ =>
      let m1 := delete "tags" m in
      match stripMeta "metadata" m1 with
      | Err e => Err e
      | Ok (m2, c2) =>
          match stripMeta "litellm_metadata" m2 with
          | Err e => Err e
          | Ok (m3, c3) => Ok (m3, has m "tags" || c2 || c3)
          end
      end
  end.

(** The params step of [stripJSONTags]. *)
Definition stripParams (top : JMap) : Res BodyErr (JMap * bool) :=
  match top !! "params" with
  | None => Ok (top, false)
  | Some pv =>
      match as_map pv with
      | None => Ok (top, false)
      | Some params =>
          match stripObjTags params with
          | Err e => Err e
          | Ok (params', true) => Ok (<["params" := of_map params']> top, true)
          | Ok (_, false) => Ok (top, false)
          end
      end
  end.

(** The document to forward and whether it differs from the one received. *)
Definition stripJSONTags (raw : option JVal) : Res BodyErr (JVal * bool) :=
  match raw with
  | Some (JObj l) =>
      match as_map (JObj l) with
      | None => Err errInvalidBody
      | Some top =>
          match stripObjTags top with
          | Err e => Err e
          | Ok (top1, c1) =>
              match stripParams top1 with
              | Err e => Err e
              | Ok (top2, c2) => if c1 || c2 then Ok (of_map top2, true) else Ok (JObj l, false)
              end
          end
      end
  | _ => Err errInvalidBody
  end.

(** ** Forms *)

Definition mediaType (ct : string) : string :=
  ToLower (TrimSpace (match CutByte ";"%char ct with Some (a, _) => a | None => ct end)).

(** [strings.TrimSuffix(name, "[]")]. *)
Definition formFieldName (name : string) : string :=
  match rev (chars name) with
  | b :: a :: r => if bool_decide (b = "]"%char) && bool_decide (a = "["%char) then of_chars (rev r) else name
  | _ => name
  end.

Definition isRefusedParam (name : string) : bool := existsb (EqualFold (formFieldName name)) refusedParams.

Definition hasTagField (name : string) : bool :=
  HasPrefix (ToLower name) "litellm_metadata[" || existsb (EqualFold (formFieldName name)) tagBearing.

(** The scan of field names in the order the map or the parts give them. *)
Fixpoint check_fields (names : list string) : Res BodyErr unit :=
  match names with
  | [] => Ok tt
  | k :: r => if hasTagField k then Err errClientTags else if isRefusedParam k then Err errClientParam else check_fields r
  end.

Definition checkURLEncoded (query : option (list string)) : Res BodyErr unit :=
  match query with None => Err errInvalidBody | Some names => check_fields names end.

Definition ambiguousHeader (v : string) : bool :=
  existsb (fun c => let n := N_of_ascii c in ((128 <=? n) || ((n <? 32) && negb (n =? 9)) || (n =? 127))%N) (chars v).

(** The key of each parameter segment after the first ";", lower-cased. *)
Definition segment_keys (v : string) : list string :=
  (fun seg => ToLower (TrimSpace (match CutByte "="%char seg with Some (k, _) => k | None => seg end)))
    <$> tail (SplitByte ";"%char v).

Definition hasNameAndNameStar (cd : string) : bool :=
  Contains (segment_keys cd) "name" && existsb (fun k => HasPrefix k "name*") (segment_keys cd).

(** [strings.Trim(v, quote)]. *)
Fixpoint trim_quotes (l : list ascii) : list ascii :=
  match l with c :: r => if bool_decide (c = ascii_of_N 34) then trim_quotes r else l | [] => [] end.
Definition TrimQuotes (v : string) : string := of_chars (rev (trim_quotes (rev (trim_quotes (chars v))))).

Context (mime_boundary : string -> option string) (mime_name : string -> option string).

Definition boundaryOf (ct : string) : string :=
  if existsb (fun k => HasPrefix k "boundary*") (segment_keys ct) then ""
  else match mime_boundary ct with
       | Some b => b
       | None =>
           let found := omap (fun seg => match CutByte "="%char seg with
                                         | Some (k, v) => if EqualFold (TrimSpace k) "boundary"
                                                          then Some (TrimQuotes (TrimSpace v)) else None
                                         | None => None
                                         end) (tail (SplitByte ";"%char ct)) in
           match found with
           | [b] => b
           | _ => ""
           end
       end.

Fixpoint check_parts (seen : bool) (l : list NextPart) : Res BodyErr unit :=
  match l with
  | [] => Err errInvalidBody
  | PartErr :: _ => Err errInvalidBody
  | PartEOF :: _ => if seen then Ok tt else Err errInvalidBody
  | Part [cd] :: r =>
      match mime_name cd with
      | None => Err errInvalidBody
      | Some n =>
          if hasNameAndNameStar cd then Err errInvalidBody
          else if hasTagField (TrimSpace n) then Err errClientTags
          else if isRefusedParam (TrimSpace n) then Err errClientParam
          else check_parts true r
      end
  | Part _ :: _ => Err errInvalidBody
  end.

Definition checkMultipart (parts : string -> list NextPart) (boundary : string) : Res BodyErr unit :=
  if decide (boundary = "") then Err errInvalidBody else check_parts false (parts boundary).

(** ** The whole step *)

(** What reaches the upstream: the bytes as received, or a new JSON text. *)
Inductive Sent : Type := SentNone | SentRaw (b : Body) | SentJSON (v : JVal).

(** The JSON document a server reads in what was sent. *)
Definition sent_json (s : Sent) : option JVal :=
  match s with SentNone => None | SentRaw b => b_json b | SentJSON v => Some v end.

(** [contentLength] is what [strconv.Itoa(len(out))] prints for the new text. *)
Definition stripBodyTags (contentLength : JVal -> string) (r : Req) : Res BodyErr (Req * Sent) :=
  match r_Body r with
  | None => Ok (r, SentNone)
  | Some b =>
      if negb (b_readable b) then Err errBodyRead
      else if (maxTagScanBody <? b_size b)%Z then Err errBodyTooLarge
      else if b_blank b then Ok (r, SentRaw b)
      else
        let cts := HValues (r_Header r) "Content-Type" in
        if (1 <? Z.of_nat (length cts))%Z || existsb ambiguousHeader cts then Err errInvalidBody
        else
          let ct := HGet (r_Header r) "Content-Type" in
          if decide (mediaType ct = "multipart/form-data") then
            match checkMultipart (b_parts b) (boundaryOf ct) with Err e => Err e | Ok _ => Ok (r, SentRaw b) end
          else if decide (mediaType ct = "application/x-www-form-urlencoded") then
            match checkURLEncoded (b_query b) with Err e => Err e | Ok _ => Ok (r, SentRaw b) end
          else match stripJSONTags (b_json b) with
               | Err e => Err e
               | Ok (_, false) => Ok (r, SentRaw b)
               | Ok (out, true) =>
                   Ok (with_header (HDel "Transfer-Encoding" (HSet "Content-Length" (contentLength out) (r_Header r))) r,
                       SentJSON out)
               end
  end.
End Strip.

(** ** What LiteLLM would read *)

Section Reader.
(** Python's [json.loads] on a string. *)
Context (pyparse : string -> option JVal).

(** A metadata value as an object: as it is, or parsed out of a string. *)
Definition meta_object (v : JVal) : option JMap :=
  match v with
  | JObj _ => as_map v
  | JStr s => match pyparse s with Some (JObj l) => as_map (JObj l) | _ => None end
  | _ => None
  end.

Definition meta_keys : list string := ["metadata"; "litellm_metadata"].

(** An object names [key] inside one of its metadata objects. *)
Definition in_metadata (key : string) (m : JMap) : Prop :=
  exists k v sub, k ∈ meta_keys /\ m !! k = Some v /\ meta_object v = Some sub /\ is_Some (sub !! key).

Definition tagged (m : JMap) : Prop := is_Some (m !! "tags") \/ in_metadata "tags" m.

Definition controlled (m : JMap) : Prop :=
  (exists k, k ∈ refusedParams /\ is_Some (m !! k))
  \/ (exists k, k ∈ refusedMetaParams /\ in_metadata k m)
  \/ (exists tools t, m !! "tools" = Some (JArr tools) /\ t ∈ tools /\ mcp_tool t = true).

(** A predicate on the document's object or on the one under params. *)
Definition somewhere (P : JMap -> Prop) (doc : JVal) : Prop :=
  exists m, as_map doc = Some m /\ (P m \/ exists p pm, m !! "params" = Some p /\ as_map p = Some pm /\ P pm).
End Reader.

(** ** Lemmas *)

Lemma foldl_insert_lookup (l : list (string * JVal)) (m : JMap) :
  foldl (fun m kv => <[kv.1 := kv.2]> m) m l = list_to_map (rev l) ∪ m.
Proof.
  revert m; induction l as [|[k v] l IH]; intros m; cbn [foldl]; [cbn; by rewrite (left_id_L ∅ (∪))|].
  rewrite IH. cbn [rev fst snd]. rewrite list_to_map_app. cbn.
  rewrite <- (assoc_L (∪)). f_equal. by rewrite insert_empty, insert_union_singleton_l.
Qed.

Lemma as_map_of_map m : as_map (of_map m) = Some m.
Proof.
  unfold of_map, as_map. f_equal. rewrite foldl_insert_lookup, (right_id_L ∅ (∪)).
  rewrite (list_to_map_proper _ (map_to_list m)); [apply list_to_map_to_list| |].
  - rewrite <- Permutation_rev. apply NoDup_fst_map_to_list.
  - symmetry. apply Permutation_rev.
Qed.

Lemma has_spec m k : has m k = true <-> is_Some (m !! k).
Proof. apply bool_decide_eq_true. Qed.
Lemma has_false m k : has m k = false <-> m !! k = None.
Proof. unfold has. by rewrite bool_decide_eq_false, eq_None_not_Some. Qed.

Lemma existsb_has_false m l : existsb (has m) l = false -> forall k, k ∈ l -> m !! k = None.
Proof.
  intros He k Hk%list_elem_of_In. apply has_false. destruct (has m k) eqn:Hh; [|done].
  rewrite <- He. symmetry. apply existsb_exists. by exists k.
Qed.

Section StripLemmas.
Context (parse pyparse : string -> option JVal)
        (Hpy : forall s v, parse s = Some v -> pyparse s = Some v)
        (Hblank : forall s, TrimSpace s = "" -> pyparse s = None).

(** The object the code finds in a metadata value. *)
Definition meta_doc (v : JVal) : option JMap :=
  match as_string v with Some s => parse s | None => Some v end ≫= as_map.

Lemma meta_doc_Some v sub : meta_doc v = Some sub ->
  meta_object pyparse v = Some sub \/ (meta_object pyparse v = None /\ sub = ∅).
Proof.
  unfold meta_doc. destruct v as [| | |s| |l]; cbn; try done; auto.
  - destruct (parse "") as [d|] eqn:Hp; [|done]. apply Hpy in Hp. by rewrite Hblank in Hp.
  - destruct (parse s) as [d|] eqn:Hp; [|done]. cbn. rewrite (Hpy _ _ Hp).
    destruct d; cbn; try done; [intros [= <-]; auto|auto].
Qed.

Lemma meta_doc_None v : meta_doc v = None -> (forall s, as_string v = Some s -> TrimSpace s = "") ->
  meta_object pyparse v = None.
Proof.
  unfold meta_doc. destruct v as [| | |s| |l]; cbn; try done. intros _ Hs. by rewrite (Hblank s (Hs s eq_refl)).
Qed.

(** What one round guarantees of its key. *)
Lemma stripMeta_spec k m m' c :
  stripMeta parse k m = Ok (m', c) ->
  (forall j, j <> k -> m' !! j = m !! j) /\ (c = false -> m' = m)
  /\ (forall v sub, m' !! k = Some v -> meta_object pyparse v = Some sub ->
        sub !! "tags" = None /\ forall p, p ∈ refusedMetaParams -> sub !! p = None)
  /\ (c = true -> exists v sub, m !! k = Some v /\ meta_object pyparse v = Some sub
        /\ m' !! k = Some (of_map (delete "tags" sub))).
Proof.
  unfold stripMeta. destruct (m !! k) as [v|] eqn:Hk.
  2: { intros [= <- <-]. split_and!; try done. congruence. }
  cbn zeta. fold (meta_doc v). destruct (meta_doc v) as [sub|] eqn:Hd.
  - destruct (existsb _ _) eqn:Hr; [done|]. pose proof (existsb_has_false _ _ Hr) as Href.
    destruct (has sub "tags") eqn:Ht; intros [= <- <-]; split_and!; try done.
    + intros j Hj. by rewrite lookup_insert_ne.
    + intros w s0. rewrite lookup_insert_eq. intros [= <-].
      change (meta_object pyparse (of_map (delete "tags" sub))) with (as_map (of_map (delete "tags" sub))).
      rewrite as_map_of_map. intros [= <-]. split; [apply lookup_delete_eq|].
      intros p Hp. rewrite lookup_delete_None. auto.
    + intros _. exists v, sub. split; [done|]. apply has_spec in Ht.
      destruct (meta_doc_Some _ _ Hd) as [?|[_ ->]]; [|by destruct Ht; rewrite lookup_empty in *].
      split; [done|apply lookup_insert_eq].
    + intros w s0. rewrite Hk. intros [= <-] Hm. apply has_false in Ht.
      destruct (meta_doc_Some _ _ Hd) as [?|[? _]]; [|congruence]. replace s0 with sub by congruence. auto.
  - destruct (as_string v) as [s|] eqn:Hs; [case_decide as Hb; [|done]|]; intros [= <- <-]; split_and!; try done;
      intros w s0 Hw Hm; rewrite Hk in Hw; injection Hw as <-;
      rewrite meta_doc_None in Hm; try done; intros s' Hs'; congruence.
Qed.

Lemma refuseParams_spec m : refuseParams m = Ok tt ->
  (forall k, k ∈ refusedParams -> m !! k = None)
  /\ (forall tools t, m !! "tools" = Some (JArr tools) -> t ∈ tools -> mcp_tool t = false).
Proof.
  unfold refuseParams. destruct (existsb _ _) eqn:Hr; [done|]. intros Ht. split; [by apply existsb_has_false|].
  intros tools t Hm Hin%list_elem_of_In. rewrite Hm in Ht. cbn in Ht. destruct (existsb mcp_tool tools) eqn:He; [done|].
  destruct (mcp_tool t) eqn:Hmt; [|done]. rewrite <- He. symmetry. apply existsb_exists. by exists t.
Qed.

(** What one object loses: its tags, and the tags of its metadata objects. *)
Definition only_tags_lost (m m' : JMap) : Prop :=
  (forall j, j ∉ "tags" :: meta_keys -> m' !! j = m !! j)
  /\ forall k, k ∈ meta_keys -> m' !! k = m !! k
       \/ exists v sub, m !! k = Some v /\ meta_object pyparse v = Some sub /\ m' !! k = Some (of_map (delete "tags" sub)).

Lemma stripObjTags_spec m m' c :
  stripObjTags parse m = Ok (m', c) ->
  ~ tagged pyparse m' /\ ~ controlled pyparse m' /\ (c = false -> m' = m) /\ only_tags_lost m m'.
Proof.
  unfold stripObjTags. destruct (refuseParams m) as [[]|] eqn:Hr; [|done].
  apply refuseParams_spec in Hr as [Href Htools].
  destruct (stripMeta parse "metadata" _) as [[m2 c2]|] eqn:H2; [|done].
  destruct (stripMeta parse "litellm_metadata" m2) as [[m3 c3]|] eqn:H3; [|done]. intros [= <- <-].
  apply stripMeta_spec in H2 as (Ho2 & Hf2 & Hc2 & Ht2). apply stripMeta_spec in H3 as (Ho3 & Hf3 & Hc3 & Ht3).
  assert (Hkeep : forall j, j ∉ "tags" :: meta_keys -> m3 !! j = m !! j).
  { intros j Hj. unfold meta_keys in Hj. rewrite !not_elem_of_cons in Hj. destruct Hj as (? & ? & ? & _).
    rewrite Ho3, Ho2 by done. by rewrite lookup_delete_ne. }
  assert (Htags : m3 !! "tags" = None) by (rewrite Ho3, Ho2 by done; apply lookup_delete_eq).
  assert (Hsub : forall k v sub, k ∈ meta_keys -> m3 !! k = Some v -> meta_object pyparse v = Some sub ->
            sub !! "tags" = None /\ forall p, p ∈ refusedMetaParams -> sub !! p = None).
  { intros k v sub Hk. unfold meta_keys in Hk. rewrite elem_of_cons, list_elem_of_singleton in Hk.
    destruct Hk as [-> | ->]; [rewrite Ho3 by done; apply Hc2|apply Hc3]. }
  split_and!.
  - intros [Hs|(k & v & sub & Hk & Hv & Hm & [x Hx])]; [rewrite Htags in Hs; by destruct Hs|].
    destruct (Hsub _ _ _ Hk Hv Hm) as [? _]. congruence.
  - intros [(k & Hk & [x Hx])|[(p & Hp & k & v & sub & Hk & Hv & Hm & [x Hx])|(tools & t & Hm & Ht & Hmt)]].
    + rewrite Hkeep in Hx; [by rewrite Href in Hx|]. clear -Hk. intros Hn. unfold refusedParams, meta_keys in *.
      list_cases; done.
    + destruct (Hsub _ _ _ Hk Hv Hm) as [_ Hn]. specialize (Hn p Hp). congruence.
    + rewrite Hkeep in Hm; [by rewrite (Htools _ _ Hm Ht) in Hmt|]. intros Hn. unfold meta_keys in Hn.
      list_cases; done.
  - intros [[Hh ->]%orb_false_iff ->]%orb_false_iff. rewrite Hf3, Hf2 by done. apply delete_id. by apply has_false.
  - split; [done|]. intros k Hk. unfold meta_keys in Hk. list_cases.
    + rewrite Ho3 by done. destruct c2; [|left; rewrite Hf2 by done; by rewrite lookup_delete_ne].
      destruct (Ht2 eq_refl) as (v & sub & Hv & ? & ?). rewrite lookup_delete_ne in Hv by done. right. by exists v, sub.
    + rewrite <- (lookup_delete_ne m "tags" "litellm_metadata"), <- (Ho2 "litellm_metadata") by done.
      destruct c3; [right; by apply Ht3|left; by rewrite Hf3].
Qed.
End StripLemmas.

(** ** Theorems *)

Section StripTheorems.
Context (parse pyparse : string -> option JVal) (mime_boundary mime_name : string -> option string)
        (contentLength : JVal -> string)
        (Hpy : forall s v, parse s = Some v -> pyparse s = Some v)
        (Hblank : forall s, TrimSpace s = "" -> pyparse s = None).

Lemma stripParams_spec top top' c :
  stripParams parse top = Ok (top', c) ->
  (c = false -> top' = top) /\ (forall j, j <> "params" -> top' !! j = top !! j)
  /\ (forall p pm', top' !! "params" = Some p -> as_map p = Some pm' ->
        ~ tagged pyparse pm' /\ ~ controlled pyparse pm'
        /\ exists q pm, top !! "params" = Some q /\ as_map q = Some pm /\ only_tags_lost pyparse pm pm').
Proof.
  unfold stripParams. destruct (top !! "params") as [q|] eqn:Hq.
  2: { intros [= <- <-]. split_and!; try done. intros p pm'. by rewrite Hq. }
  destruct (as_map q) as [pm|] eqn:Hm.
  2: { intros [= <- <-]. split_and!; try done. intros p pm'. rewrite Hq. intros [= <-]. congruence. }
  destruct (stripObjTags parse pm) as [[pm1 []]|] eqn:Hs; [| |done]; intros [= <- <-].
  - destruct (stripObjTags_spec _ _ Hpy Hblank _ _ _ Hs) as (Ht & Hc & _ & Hl). split_and!; [done| |].
    + intros j Hj. by rewrite lookup_insert_ne.
    + intros p pm'. rewrite lookup_insert_eq. intros [= <-]. rewrite as_map_of_map. intros [= <-].
      split_and!; try done. by exists q, pm.
  - destruct (stripObjTags_spec _ _ Hpy Hblank _ _ _ Hs) as (Ht & Hc & Hf & Hl). rewrite (Hf eq_refl) in *.
    split_and!; try done. intros p pm'. rewrite Hq. intros [= <-]. rewrite Hm. intros [= <-].
    split_and!; try done. by exists q, pm.
Qed.

Lemma tagged_ext m m' : (forall j, j ∈ "tags" :: meta_keys -> m' !! j = m !! j) -> tagged pyparse m' -> tagged pyparse m.
Proof.
  intros He [Ht|(k & v & sub & Hk & Hv & Hm)].
  - left. by rewrite <- He by left.
  - right. exists k, v, sub. rewrite <- (He k) by (by right). done.
Qed.

Lemma controlled_ext m m' : (forall j, j <> "params" -> m' !! j = m !! j) -> controlled pyparse m' -> controlled pyparse m.
Proof.
  intros He [(k & Hk & Hx)|[(p & Hp & k & v & sub & Hk & Hv & Hm)|(tools & t & Hm & Ht)]].
  - left. exists k. rewrite <- (He k); [done|]. intros ->. unfold refusedParams in Hk. list_cases; done.
  - right; left. exists p. split; [done|]. exists k, v, sub. rewrite <- (He k); [done|].
    intros ->. unfold meta_keys in Hk. list_cases; done.
  - right; right. exists tools, t. by rewrite <- He.
Qed.

(** A document that keeps every field of [v] but the budget tags of its
    object and of the one under params. *)
Definition only_budget_tags_lost (v v' : JVal) : Prop :=
  exists m m1 m', as_map v = Some m /\ only_tags_lost pyparse m m1 /\ as_map v' = Some m'
    /\ (forall j, j <> "params" -> m' !! j = m1 !! j)
    /\ forall p pm', m' !! "params" = Some p -> as_map p = Some pm' ->
         exists q pm, m !! "params" = Some q /\ as_map q = Some pm /\ only_tags_lost pyparse pm pm'.

Lemma stripJSONTags_clean v v' c :
  stripJSONTags parse (Some v) = Ok (v', c) ->
  ~ somewhere (tagged pyparse) v' /\ ~ somewhere (controlled pyparse) v' /\ (c = false -> v' = v)
  /\ only_budget_tags_lost v v'.
Proof.
  unfold stripJSONTags. destruct v as [| | | | |l]; try done. set (v := JObj l).
  destruct (as_map v) as [m|] eqn:Hm; [|done].
  destruct (stripObjTags parse m) as [[m1 c1]|] eqn:H1; [|done].
  destruct (stripParams parse m1) as [[m2 c2]|] eqn:H2; [|done].
  destruct (stripObjTags_spec _ _ Hpy Hblank _ _ _ H1) as (Ht1 & Hc1 & Hf1 & Hl1).
  destruct (stripParams_spec _ _ _ H2) as (Hf2 & Ho2 & Hp2).
  intros Hres.
  assert (Hv' : as_map v' = Some m2 /\ (c = false -> v' = v)).
  { destruct (c1 || c2) eqn:Hc; injection Hres as <- <-; split; try done; [apply as_map_of_map|].
    apply orb_false_iff in Hc as [-> ->]. by rewrite Hf2, Hf1. }
  destruct Hv' as [Hv' Hsame]. split_and!; try done.
  - intros (mm & Hmm & [Ht|(p & pm & Hp & Hpm & Ht)]); rewrite Hv' in Hmm; injection Hmm as <-.
    + apply Ht1. eapply tagged_ext; [|exact Ht]. intros j Hj. apply Ho2. intros ->. unfold meta_keys in Hj. list_cases; done.
    + by destruct (Hp2 _ _ Hp Hpm) as (Hn & _).
  - intros (mm & Hmm & [Ht|(p & pm & Hp & Hpm & Ht)]); rewrite Hv' in Hmm; injection Hmm as <-.
    + apply Hc1. by eapply controlled_ext.
    + by destruct (Hp2 _ _ Hp Hpm) as (_ & Hn & _).
  - exists m, m1, m2. split_and!; try done. intros p pm' Hp Hpm.
    destruct (Hp2 _ _ Hp Hpm) as (_ & _ & q & pm & Hq & Hqm & Hl). exists q, pm. split_and!; try done.
    rewrite <- Hq. symmetry. apply Hl1. unfold meta_keys. intros Hn. list_cases; done.
Qed.

(** A form field ACH lets through. *)
Definition form_field_ok (name : string) : Prop := hasTagField name = false /\ isRefusedParam name = false.

Lemma check_fields_ok names : check_fields names = Ok tt -> Forall form_field_ok names.
Proof.
  induction names as [|n r IH]; cbn [check_fields]; [constructor|].
  destruct (hasTagField n) eqn:H1; [done|]. destruct (isRefusedParam n) eqn:H2; [done|].
  intros Hr. constructor; [done|auto].
Qed.

(** A multipart stream read to its clean end, every part naming one field
    unambiguously and none of them tag-bearing. *)
Definition parts_ok (l : list NextPart) : Prop :=
  exists pre post, l = pre ++ PartEOF :: post /\ pre <> []
    /\ Forall (fun p => exists cd n, p = Part [cd] /\ mime_name cd = Some n /\ hasNameAndNameStar cd = false
                        /\ form_field_ok (TrimSpace n)) pre.

Lemma check_parts_ok seen l : check_parts mime_name seen l = Ok tt ->
  exists pre post, l = pre ++ PartEOF :: post /\ (seen = false -> pre <> [])
    /\ Forall (fun p => exists cd n, p = Part [cd] /\ mime_name cd = Some n /\ hasNameAndNameStar cd = false
                        /\ form_field_ok (TrimSpace n)) pre.
Proof.
  revert seen; induction l as [|[[|cd [|? ?]]| |] l IH]; intros seen; cbn [check_parts]; try done.
  - destruct (mime_name cd) as [n|] eqn:Hn; [|done]. destruct (hasNameAndNameStar cd) eqn:Hs; [done|].
    destruct (hasTagField _) eqn:H1; [done|]. destruct (isRefusedParam _) eqn:H2; [done|].
    intros (pre & post & -> & _ & Hall)%IH. exists (Part [cd] :: pre), post. split_and!; [done|done|].
    constructor; [|done]. by exists cd, n.
  - destruct seen; [|done]. intros _. exists [], l. split_and!; [done|done|constructor].
Qed.

Lemma checkMultipart_ok parts boundary : checkMultipart mime_name parts boundary = Ok tt ->
  boundary <> "" /\ parts_ok (parts boundary).
Proof.
  unfold checkMultipart. case_decide; [done|]. intros (pre & post & He & Hp & Hall)%check_parts_ok.
  split; [done|]. exists pre, post. auto.
Qed.

End StripTheorems.

(** ** A concrete instance *)

Definition b_parse (s : string) : option JVal :=
  if decide (s = "{tags}") then Some (JObj [("tags", JArr [JStr "user:victim@x"]); ("trace", JStr "t")]) else None.

Definition b_doc : JVal :=
  JObj [("model", JStr "m"); ("tags", JArr [JStr "user:victim@x"]); ("metadata", JStr "{tags}");
        ("params", JObj [("litellm_metadata", JObj [("tags", JArr [])]); ("x", JNum "1")])].

Definition b_req : Req :=
  MkReq "POST" "/v1/chat/completions" "" (HSet "content-type" "application/json; charset=utf-8" ∅) (fun _ => None)
    "10.0.0.1:1" "https" "ach" (Some (MkBody true 100 false (Some b_doc) None (fun _ => []))).

Definition b_strip : Res BodyErr (Req * Sent) :=
  stripBodyTags b_parse (fun _ => None) (fun _ => None) (fun _ => "42") b_req.

Lemma b_parse_blank s : TrimSpace s = "" -> b_parse s = None.
Proof. unfold b_parse. case_decide; [|done]. subst. by vm_compute. Qed.

