(* ===== verification/Proxy.v ===== *)
(** * The forwarder's upstream request (forwarder/proxy, forwarder/jwt)

    Budget tags, the outbound header transform, path rewrites, the identity
    token and the Director that composes them, as functions of the request
    and of what Authn attached to it.  [Open] is the key-material decryption
    and [sealJWT] the JWS encoding of a header kid and a claim set. *)

From S2P Require Import Prelude Keys LiteLLM Keystore Http Authn Precheck BodyTags.

Open Scope string_scope.
Open Scope list_scope.

(** ** Budget tags (litellm/tags.go, proxy/tags.go) *)

Definition UserBudgetTag (email : string) : string := "user:" +:+ NormalizeEmail email.
Definition EnvironmentBudgetTag (env : string) : string := "environment:" +:+ env.

Definition tagsHeader : string := "X-Litellm-Tags".
Definition headerTags : string := "X-Achtest-Tags".

Definition tagsForContext (c : Ctx) : list string :=
  match KeyContextFromCtx c with
  | None => []
  | Some a =>
      let kc := ak_info a in
      (if decide (ki_OwnerEmail kc = "") then [] else [UserBudgetTag (ki_OwnerEmail kc)])
      ++ (if decide (ki_KeyType kc = Keys.PrefixEk)
          then (if decide (ki_Environment kc = "") then [] else [EnvironmentBudgetTag (ki_Environment kc)])
               ++ (if decide (ki_KeyID kc = "") then [] else [KeyBudgetTag (ki_KeyID kc)])
          else [])
  end.

Definition stampTags (c : Ctx) (h : Header) : Header :=
  let h1 := HDel "Tags" (HDel headerTags (HDel tagsHeader h)) in
  match tagsForContext c with
  | [] => h1
  | tags => HSet headerTags (Join tags ",") (HSet tagsHeader (Join tags ",") h1)
  end.

(** ** proxy/headers.go *)

Definition prefixXAch : string := "x-ach-".

Definition stripAndRewrite (litellmAPIKey : string) (h : Header) : Header :=
  HSet "x-litellm-api-key" litellmAPIKey
    (filter (fun kv : string * list string => HasPrefix (ToLower kv.1) prefixXAch = false) h).

(** ** Paths (proxy/proxy.go, proxy/gemini.go) *)

Definition routeFor (path : string) : string :=
  if HasPrefix path "/v1" then "/v1"
  else if HasPrefix path "/gemini" then "/gemini"
  else if HasPrefix path "/mcp" then "/mcp"
  else if HasPrefix path "/a2a" then "/a2a"
  else "unknown".

Definition mcpServerPath (path : string) : string :=
  let rest := TrimPrefix path "/mcp/" in
  let rest := match CutByte "/"%char rest with Some (a, _) => a | None => rest end in
  if decide (rest = "") then path else "/mcp/" +:+ rest.

(** [strings.Cut(s, sep)], the first occurrence of [sep]. *)
Fixpoint CutStr (s sep : string) : option (string * string) :=
  match CutPrefix s sep with
  | Some r => Some ("", r)
  | None =>
      match s with
      | EmptyString => None
      | String c s' => match CutStr s' sep with Some (a, b) => Some (String c a, b) | None => None end
      end
  end.

Definition modelsSegment : string := "/models/".

(** The loop over the prefixes, on the part after the models segment. *)
Fixpoint strip_first (path head tail : string) (prefixes : list string) : string :=
  match prefixes with
  | [] => path
  | p :: rest =>
      if decide (p = "") then strip_first path head tail rest
      else match CutPrefix tail p with
           | None => strip_first path head tail rest
           | Some stripped => if bool_decide (stripped = "") || HasPrefix stripped ":" then path else head +:+ stripped
           end
  end.

Definition stripGeminiModelPrefix (path : string) (prefixes : list string) : string :=
  match prefixes with
  | [] => path
  | _ =>
      match CutStr path modelsSegment with
      | None => path
      | Some (a, tail) => strip_first path (a +:+ modelsSegment) tail prefixes
      end
  end.

Definition geminiMethods : list string :=
  ["generateContent"; "streamGenerateContent"; "countTokens"; "embedContent"; "batchEmbedContents"].

(** The model with a configured vendor prefix removed. *)
Definition gemini_segment (model : string) (prefixes : list string) : string :=
  TrimPrefix (stripGeminiModelPrefix (modelsSegment +:+ model) prefixes) modelsSegment.

Definition bad_segment (seg : string) : bool :=
  Contains [""; "."; ".."] seg || existsb (fun c => bool_decide (c ∈ chars "/:%?#")) (chars seg).

Definition geminiPathModel (r : Req) (prefixes : list string) : option string :=
  match CutPrefix (r_Path r) "/gemini/v1beta/models" with
  | None => None
  | Some rest =>
      if bool_decide (is_Some (CutStr (ToLower (r_RawPath r)) "%2f")) then None
      else if decide (rest = "") then (if decide (r_Method r = "GET") then Some "" else None)
      else match CutPrefix rest "/" with
           | None => None
           | Some tail =>
               let model :=
                 if decide (r_Method r = "POST")
                 then match CutByte ":"%char tail with
                      | Some (model, method) => if Contains geminiMethods method then Some model else None
                      | None => None
                      end
                 else if decide (r_Method r = "GET") then Some tail else None in
               match model with
               | None => None
               | Some model => if bad_segment (gemini_segment model prefixes) then None else Some model
               end
           end
  end.

Definition normGeminiModel (name : string) (prefixes : list string) : string :=
  gemini_segment (TrimPrefix name "models/") prefixes.

(** ParseGeminiStripModelPrefixes after the JSON decode. *)
Fixpoint parse_prefixes (seen : list string) (l : list string) : option (list string) :=
  match l with
  | [] => Some []
  | x :: r =>
      let p := TrimSpace x in
      if decide (p = "") then None
      else if Contains seen p then None
      else match parse_prefixes (p :: seen) r with Some out => Some (p :: out) | None => None end
  end.

Definition ParseGeminiStripModelPrefixes (unmarshal : string -> option (list string)) (raw : string) : option (list string) :=
  if decide (TrimSpace raw = "") then Some []
  else match unmarshal raw with None => None | Some l => parse_prefixes [] l end.

(** A field, when present, names the path's model. *)
Definition names_path (pathModel : string) (prefixes : list string) (v : option JVal) : bool :=
  match v with
  | None => true
  | Some raw =>
      match as_string raw with
      | Some name => bool_decide (normGeminiModel name prefixes = normGeminiModel pathModel prefixes)
      | None => false
      end
  end.

Definition entry_ok (pathModel : string) (prefixes : list string) (e : JVal) : bool :=
  match e with
  | JObj _ => match as_map e with Some m => names_path pathModel prefixes (m !! "model") | None => false end
  | _ => false
  end.

(** [strings.HasSuffix]. *)
Definition HasSuffix (s suf : string) : bool := HasPrefix (of_chars (rev (chars s))) (of_chars (rev (chars suf))).

Definition bodyModelMatches (r : Req) (blank : bool) (body : option JVal) (pathModel : string) (prefixes : list string) : bool :=
  if blank then true
  else if negb (Contains [""; "application/json"] (mediaType (HGet (r_Header r) "Content-Type"))) then false
  else match body ≫= as_map with
       | None => false
       | Some b =>
           if has b "target_model_names" then false
           else if negb (names_path pathModel prefixes (b !! "model")) then false
           else if negb (HasSuffix (r_Path r) ":batchEmbedContents") then true
           else match b !! "requests" with
                | None => true
                | Some raw =>
                    match as_array raw with
                    | None => false
                    | Some entries => forallb (entry_ok pathModel prefixes) entries
                    end
                end
       end.

Definition hasUpgradeToken (values : list string) : bool :=
  existsb (fun v => existsb (fun tok => EqualFold (TrimSpace tok) "upgrade") (SplitByte ","%char v)) values.

(** ** Identity tokens (forwarder/jwt/signer.go) *)

Record Claims : Type := MkClaims {
  c_Iss : string;
  c_Sub : string;
  c_Aud : string;
  c_Email : string;
  c_Groups : list string;
  c_Azp : string;
  c_TTL : Z;
  c_JTI : string
}.

Inductive ClaimVal : Type := CStr (s : string) | CNum (n : Z) | CList (l : list string).

Record signerSlot : Type := MkSignerSlot { sl_kid : string; sl_seed : list ascii }.

Inductive SignerErr : Type := ErrEmptyKid | ErrEmptySeed.

Definition newSignerSlot (kid : string) (seed : list ascii) : Res SignerErr signerSlot :=
  if decide (kid = "") then Err ErrEmptyKid
  else if negb (length seed =? 32)%nat then Err ErrEmptySeed
  else Ok (MkSignerSlot kid seed).

Record Ed25519Signer : Type := MkSigner { sg_current : option signerSlot; sg_next : option signerSlot }.

Definition NewEd25519Signer : Ed25519Signer := MkSigner None None.
Definition loadCurrent (slot : option signerSlot) (s : Ed25519Signer) : Ed25519Signer := MkSigner slot (sg_next s).
Definition loadNext (slot : option signerSlot) (s : Ed25519Signer) : Ed25519Signer := MkSigner (sg_current s) slot.
Definition Loaded (s : Ed25519Signer) : bool := bool_decide (is_Some (sg_current s)).

(** [now] in seconds; [c_TTL] in nanoseconds, as a time.Duration. *)
Definition jwt_claims (now : Z) (c : Claims) : list (string * ClaimVal) :=
  let ttl := if decide (c_TTL c = 0%Z) then 120%Z else Z.quot (c_TTL c) Second in
  [("iss", CStr (c_Iss c)); ("sub", CStr (c_Sub c)); ("aud", CStr (c_Aud c)); ("iat", CNum now); ("exp", CNum (now + ttl)%Z)]
  ++ (if decide (c_Email c = "") then [] else [("email", CStr (c_Email c))])
  ++ (match c_Groups c with [] => [] | g => [("groups", CList g)] end)
  ++ (if decide (c_Azp c = "") then [] else [("azp", CStr (c_Azp c))])
  ++ (if decide (c_JTI c = "") then [] else [("jti", CStr (c_JTI c))]).

(** The published form of a slot; [pubX] is the base64url public key of a seed. *)
Record JWK : Type := MkJWK {
  jwk_Kty : string; jwk_Crv : string; jwk_Use : string; jwk_Alg : string; jwk_Kid : string; jwk_X : string
}.

Definition slotToJWK (pubX : list ascii -> string) (s : signerSlot) : JWK :=
  MkJWK "OKP" "Ed25519" "sig" "EdDSA" (sl_kid s) (pubX (sl_seed s)).

Definition JWKS (pubX : list ascii -> string) (s : Ed25519Signer) : list JWK :=
  match sg_current s with Some x => [slotToJWK pubX x] | None => [] end
  ++ match sg_next s with Some x => [slotToJWK pubX x] | None => [] end.

Section Director.
Context (Open : string -> option string).

Record ProxyDeps : Type := MkProxyDeps { pd_Scheme : string; pd_Host : string; pd_StripPrefixes : list string }.

(** The LiteLLM key the request is forwarded with; empty when there is none. *)
Definition upstream_key (c : Ctx) : string :=
  match RawLiteLLMKeyFromCtx c with
  | Some raw => raw
  | None =>
      match KeyContextFromCtx c with
      | Some a => match ki_LiteLLMKeyMaterial (ak_info a) with Some m => default "" (Open m) | None => "" end
      | None => ""
      end
  end.

Definition dir_connection (upgrade : bool) (h : Header) : Header :=
  if upgrade then HSet "Connection" "Upgrade" h else HDel "Connection" h.

Definition dir_realtime (upgrade : bool) (path material : string) (h : Header) : Header :=
  if upgrade && bool_decide (path = "/v1/realtime") && negb (bool_decide (material = ""))
  then HSet "Authorization" ("Bearer " +:+ material) h else h.

Definition dir_mcp (material : string) (r : Req) : Req :=
  if decide (routeFor (r_Path r) = "/mcp")
  then with_header (HSet "X-Litellm-Api-Key" ("Bearer " +:+ material) (r_Header r))
         (with_path (mcpServerPath (r_Path r)) "" r)
  else r.

Definition dir_gemini (prefixes : list string) (material : string) (r : Req) : Req :=
  if decide (routeFor (r_Path r) = "/gemini")
  then let r1 := with_header (HSet "X-Goog-Api-Key" material (HDel "X-Litellm-Api-Key" (r_Header r))) r in
       let p := stripGeminiModelPrefix (r_Path r) prefixes in
       if decide (p = r_Path r) then r1 else with_path p "" r1
  else r.

Definition dir_jwt (jwt : option string) (h : Header) : Header :=
  match jwt with
  | Some token => if decide (token = "") then h else HSet "Authorization" ("Bearer " +:+ token) h
  | None => h
  end.

Definition Director (deps : ProxyDeps) (c : Ctx) (jwt : option string) (r : Req) : Req :=
  let upgrade := hasUpgradeToken (default [] (r_Header r !! "Connection")) in
  let material := upstream_key c in
  let r1 := with_url (pd_Scheme deps) (pd_Host deps) (with_header (dir_connection upgrade (r_Header r)) r) in
  let r2 := with_header (dir_realtime upgrade (r_Path r1) material (stripAndRewrite material (r_Header r1))) r1 in
  let r3 := dir_gemini (pd_StripPrefixes deps) material (dir_mcp material r2) in
  with_header (dir_jwt jwt (stampTags c (r_Header r3))) r3.

(** The headers LiteLLM receives. *)
Definition upstream_headers (deps : ProxyDeps) (c : Ctx) (jwt : option string) (clientIP : option string) (r : Req) : Header :=
  outbound clientIP (containsToken (default [] (r_Header r !! "Te")) "trailers") (r_Header (Director deps c jwt r)).
End Director.

(** ** Header lemmas *)

Lemma HSet_at k v h j : CanonKey k = j -> HSet k v h !! j = Some [v].
Proof. intros <-. apply HSet_lookup. Qed.
Lemma HDel_at k h j : CanonKey k = j -> HDel k h !! j = None.
Proof. intros <-. apply HDel_lookup. Qed.

(** Evaluate a lookup of a literal key through writes of literal keys. *)
Ltac hdr :=
  repeat first
    [ rewrite HSet_at by reflexivity
    | rewrite HDel_at by reflexivity
    | rewrite HSet_lookup_ne by (vm_compute; discriminate)
    | rewrite HDel_lookup_ne by (vm_compute; discriminate) ].

Lemma canonical_filter (P : string * list string -> Prop) `{!forall x, Decision (P x)} (h : Header) :
  canonical h -> canonical (filter P h).
Proof. intros Hc k v [? _]%map_lookup_filter_Some. by eapply Hc. Qed.

Lemma canonical_stripAndRewrite m h : canonical h -> canonical (stripAndRewrite m h).
Proof. intros. by apply canonical_HSet, canonical_filter. Qed.
Lemma canonical_dir_connection u h : canonical h -> canonical (dir_connection u h).
Proof. destruct u; cbn; auto with ach. Qed.
Lemma canonical_dir_realtime u p m h : canonical h -> canonical (dir_realtime u p m h).
Proof. unfold dir_realtime. destruct (_ && _); auto with ach. Qed.
Lemma canonical_dir_jwt j h : canonical h -> canonical (dir_jwt j h).
Proof. destruct j; cbn; [case_decide|]; auto with ach. Qed.
Lemma canonical_stampTags c h : canonical h -> canonical (stampTags c h).
Proof. unfold stampTags. destruct (tagsForContext c); auto 8 with ach. Qed.
Lemma canonical_dir_mcp m r : canonical (r_Header r) -> canonical (r_Header (dir_mcp m r)).
Proof. unfold dir_mcp. case_decide; cbn; auto with ach. Qed.
Lemma canonical_dir_gemini ps m r : canonical (r_Header r) -> canonical (r_Header (dir_gemini ps m r)).
Proof. unfold dir_gemini. case_decide; cbn; [case_decide; cbn|]; auto with ach. Qed.
#[export] Hint Resolve canonical_stripAndRewrite canonical_dir_connection canonical_dir_realtime canonical_dir_jwt
  canonical_stampTags canonical_dir_mcp canonical_dir_gemini : ach.

Lemma canonical_outbound ip te h : canonical h -> canonical (outbound ip te h).
Proof.
  intros Hc. unfold outbound, removeHopByHopHeaders.
  set (h1 := foldr HDel _ hopHeaders). assert (canonical h1) by (unfold h1; auto with ach). clearbody h1.
  set (h2 := if te then _ else _). assert (canonical h2) by (unfold h2; destruct te; auto with ach). clearbody h2.
  set (h3 := if decide _ then _ else _). assert (canonical h3) by (unfold h3; case_decide; auto with ach). clearbody h3.
  destruct ip as [ip|]; [destruct (h3 !! "X-Forwarded-For") as [[|x y]|]|]; destruct (_ !! "User-Agent"); auto with ach.
Qed.

(** The keys the proxy pipeline may touch once the Director has fixed
    Connection. *)
Definition pipeline_keys : list string := hopHeaders ++ ["X-Forwarded-For"; "User-Agent"].

Lemma not_pipeline j : bool_decide (j ∉ pipeline_keys) = true -> j ∉ pipeline_keys.
Proof. apply bool_decide_eq_true. Qed.

Lemma outbound_keep ip te h j :
  (forall t, t ∈ connection_tokens h -> t = "Upgrade") -> j ∉ pipeline_keys -> outbound ip te h !! j = h !! j.
Proof.
  intros Htok Hj.
  assert (Hne : forall k, CanonKey k ∈ pipeline_keys -> CanonKey k <> j) by (intros k Hk He; subst j; done).
  assert (Hset : forall k v (g : Header), CanonKey k ∈ pipeline_keys -> HSet k v g !! j = g !! j)
    by (intros; apply HSet_lookup_ne; auto).
  assert (H1 : removeHopByHopHeaders h !! j = h !! j).
  { unfold removeHopByHopHeaders. rewrite !foldr_HDel_keep; [done| |].
    - apply Forall_forall. intros t ->%Htok. apply Hne. vm_compute. do 8 right. left.
    - apply Forall_forall. intros t Ht. apply Hne. unfold hopHeaders in Ht. list_cases; vm_compute; repeat (first [left; done|right]). }
  unfold outbound. destruct ip as [ip|]; [destruct (_ !! "X-Forwarded-For") as [[|x y]|]|];
    destruct (_ !! "User-Agent"); repeat case_decide; destruct te;
    rewrite ?Hset by (vm_compute; repeat (first [left; done|right])); exact H1.
Qed.

Section DirectorLemmas.
Context (Open : string -> option string) (deps : ProxyDeps) (c : Ctx) (jwt : option string) (ip : option string) (r : Req).

Abbreviation directed := (r_Header (Director Open deps c jwt r)).
Abbreviation sent := (upstream_headers Open deps c jwt ip r).

(** The header map before the tags and the token are written. *)
Definition keyed : Header :=
  let material := upstream_key Open c in
  let upgrade := hasUpgradeToken (default [] (r_Header r !! "Connection")) in
  let h := dir_realtime upgrade (r_Path r) material
             (stripAndRewrite material (dir_connection upgrade (r_Header r))) in
  if decide (routeFor (r_Path r) = "/mcp") then HSet "X-Litellm-Api-Key" ("Bearer " +:+ material) h
  else if decide (routeFor (r_Path r) = "/gemini") then HSet "X-Goog-Api-Key" material (HDel "X-Litellm-Api-Key" h)
  else h.

Lemma mcpServerPath_route path : routeFor path = "/mcp" -> routeFor (mcpServerPath path) = "/mcp".
Proof. unfold mcpServerPath. intros Hp. case_decide; done. Qed.

Lemma directed_eq : directed = dir_jwt jwt (stampTags c keyed).
Proof.
  unfold Director, keyed, dir_gemini, dir_mcp. cbn [r_Path r_Header with_header with_path with_url].
  destruct (decide (routeFor (r_Path r) = "/mcp")) as [Hm|Hm]; cbn [r_Path r_Header with_header with_path].
  - rewrite decide_False; [reflexivity|]. rewrite mcpServerPath_route by done. discriminate.
  - cbn -[HSet HDel dir_jwt stampTags dir_realtime stripAndRewrite dir_connection routeFor upstream_key stripGeminiModelPrefix].
    case_decide; [case_decide|]; reflexivity.
Qed.

Lemma keyed_connection : keyed !! "Connection" = None \/ keyed !! "Connection" = Some ["Upgrade"].
Proof.
  assert (Hb : forall u p m (g : Header), dir_realtime u p m (stripAndRewrite m (dir_connection u g)) !! "Connection"
                 = if u then Some ["Upgrade"] else None).
  { intros u p m g. unfold dir_realtime, stripAndRewrite.
    destruct (_ && _); hdr; unfold dir_connection; destruct u.
    1,3: apply map_lookup_filter_Some; split; [by hdr|done].
    all: apply map_lookup_filter_None; left; by hdr. }
  unfold keyed. cbn zeta. destruct (decide _); [|destruct (decide _)]; hdr; rewrite Hb; destruct (hasUpgradeToken _); auto.
Qed.

Lemma directed_connection t : t ∈ connection_tokens directed -> t = "Upgrade".
Proof.
  assert (Hd : directed !! "Connection" = keyed !! "Connection").
  { rewrite directed_eq. unfold dir_jwt, stampTags.
    destruct jwt as [j|]; [case_decide|]; destruct (tagsForContext c); hdr; done. }
  unfold connection_tokens. rewrite Hd. destruct keyed_connection as [-> | ->]; cbn.
  - intros H. by apply elem_of_nil in H.
  - intros H. by apply list_elem_of_singleton in H.
Qed.

Lemma sent_lookup j : j ∉ pipeline_keys -> sent !! j = directed !! j.
Proof. intros. unfold upstream_headers. apply outbound_keep; [apply directed_connection|done]. Qed.

Lemma keyed_canonical : canonical (r_Header r) -> canonical keyed.
Proof. intros. unfold keyed. cbn zeta. destruct (decide _); [|destruct (decide _)]; auto 10 with ach. Qed.

Lemma directed_canonical : canonical (r_Header r) -> canonical directed.
Proof. intros. rewrite directed_eq. auto using keyed_canonical with ach. Qed.

Lemma sent_canonical : canonical (r_Header r) -> canonical sent.
Proof. intros. unfold upstream_headers. apply canonical_outbound. by apply directed_canonical. Qed.

(** The value under any spelling of a name the pipeline leaves alone. *)
Lemma sent_any_spelling name k vs :
  canonical (r_Header r) -> valid_key name = true -> CanonKey name ∉ pipeline_keys ->
  sent !! k = Some vs -> ToLower k = ToLower name -> directed !! CanonKey name = Some vs.
Proof.
  intros Hc Hv Hp Hk Hl. rewrite <- sent_lookup by done.
  by rewrite <- (canonical_fold _ _ _ _ (sent_canonical Hc) Hv Hk Hl).
Qed.

Lemma directed_tags :
  let tags := tagsForContext c in
  directed !! "X-Litellm-Tags" = (if decide (tags = []) then None else Some [Join tags ","])
  /\ directed !! "X-Achtest-Tags" = (if decide (tags = []) then None else Some [Join tags ","])
  /\ directed !! "Tags" = None.
Proof.
  cbn zeta. rewrite directed_eq. unfold stampTags, dir_jwt.
  destruct (tagsForContext c); destruct jwt as [j|]; [case_decide| |case_decide|]; hdr; rewrite ?decide_True by done;
    rewrite ?decide_False by done; done.
Qed.

Lemma no_x_ach_HSet k v h :
  HasPrefix (ToLower k) prefixXAch = false ->
  (forall j w, h !! j = Some w -> HasPrefix (ToLower j) prefixXAch = false) ->
  forall j w, HSet k v h !! j = Some w -> HasPrefix (ToLower j) prefixXAch = false.
Proof.
  intros Hk Hh j w. unfold HSet. intros [[<- _]|[_ Hj]]%lookup_insert_Some; [by rewrite ToLower_CanonKey|by eapply Hh].
Qed.
Lemma no_x_ach_HDel k h :
  (forall j w, h !! j = Some w -> HasPrefix (ToLower j) prefixXAch = false) ->
  forall j w, HDel k h !! j = Some w -> HasPrefix (ToLower j) prefixXAch = false.
Proof. intros Hh j w. unfold HDel. intros [_ Hj]%lookup_delete_Some. by eapply Hh. Qed.

Lemma keyed_no_x_ach j w : keyed !! j = Some w -> HasPrefix (ToLower j) prefixXAch = false.
Proof.
  revert j w. unfold keyed, dir_realtime, stripAndRewrite. cbn zeta.
  destruct (decide _); [|destruct (decide _)]; destruct (_ && _);
    repeat first [apply no_x_ach_HSet; [done|]|apply no_x_ach_HDel]; by intros j w [_ ?]%map_lookup_filter_Some.
Qed.

Lemma directed_no_x_ach j w : directed !! j = Some w -> HasPrefix (ToLower j) prefixXAch = false.
Proof.
  rewrite directed_eq. revert j w. unfold dir_jwt, stampTags.
  destruct jwt as [t|]; [case_decide|]; destruct (tagsForContext c);
    repeat first [apply no_x_ach_HSet; [done|]|apply no_x_ach_HDel]; apply keyed_no_x_ach.
Qed.

Lemma directed_key :
  directed !! "X-Litellm-Api-Key"
    = (if decide (routeFor (r_Path r) = "/mcp") then Some ["Bearer " +:+ upstream_key Open c]
       else if decide (routeFor (r_Path r) = "/gemini") then None else Some [upstream_key Open c])
  /\ (routeFor (r_Path r) = "/gemini" -> directed !! "X-Goog-Api-Key" = Some [upstream_key Open c]).
Proof.
  rewrite directed_eq.
  assert (Hd : forall j, j ∈ ["X-Litellm-Api-Key"; "X-Goog-Api-Key"] -> dir_jwt jwt (stampTags c keyed) !! j = keyed !! j).
  { intros j Hj. unfold dir_jwt, stampTags. destruct jwt as [t|]; [case_decide|]; destruct (tagsForContext c); list_cases; by hdr. }
  rewrite !Hd by (repeat first [left; done|right]). unfold keyed, dir_realtime, stripAndRewrite. cbn zeta. split.
  - destruct (decide _); [by hdr|]. destruct (decide _); [by hdr|]. destruct (_ && _); by hdr.
  - intros Hg. rewrite decide_False by (by rewrite Hg). rewrite decide_True by done. by hdr.
Qed.

Lemma directed_authorization t : jwt = Some t -> t <> "" -> directed !! "Authorization" = Some ["Bearer " +:+ t].
Proof. intros Hj Ht. rewrite directed_eq, Hj. cbn [dir_jwt]. rewrite decide_False by done. by hdr. Qed.

Lemma directed_no_token :
  jwt = None -> hasUpgradeToken (default [] (r_Header r !! "Connection")) = false ->
  directed !! "Authorization" = r_Header r !! "Authorization".
Proof.
  intros Hj Hu. rewrite directed_eq, Hj. cbn [dir_jwt].
  assert (Hf : stripAndRewrite (upstream_key Open c) (dir_connection false (r_Header r)) !! "Authorization"
               = r_Header r !! "Authorization").
  { unfold stripAndRewrite. hdr. rewrite map_lookup_filter. unfold dir_connection. hdr.
    destruct (r_Header r !! "Authorization"); [|done]. cbn. by rewrite option_guard_True. }
  unfold stampTags, keyed, dir_realtime. rewrite Hu. cbn [andb]. cbn zeta.
  destruct (tagsForContext c); (destruct (decide _); [|destruct (decide _)]); hdr; exact Hf.
Qed.

(** C6: what LiteLLM charges is ACH's choice, never the client's.  Whatever
    headers the client sent, in any spelling and with any Connection header,
    the request that leaves the reverse proxy carries exactly ACH's tags: the
    two tag headers hold the caller's tag list when there is an identity and
    are absent otherwise, no plain tags header survives, and no x-ach- header
    leaves ACH.  The list holds the owner's tag and, for an environment key,
    the Environment's and the key's own. *)
Theorem upstream_attribution (Hcan : canonical (r_Header r)) :
  let tags := tagsForContext c in
  (forall k vs, sent !! k = Some vs ->
     HasPrefix (ToLower k) "x-ach-" = false /\ ToLower k <> "tags"
     /\ (ToLower k = "x-litellm-tags" \/ ToLower k = "x-achtest-tags" -> tags <> [] /\ vs = [Join tags ","]))
  /\ (tags <> [] -> sent !! "X-Litellm-Tags" = Some [Join tags ","])
  /\ (cx_key c = None -> tags = [])
  /\ (forall a, cx_key c = Some a -> ki_OwnerEmail (ak_info a) <> "" ->
        UserBudgetTag (ki_OwnerEmail (ak_info a)) ∈ tags
        /\ (ki_KeyType (ak_info a) = Keys.PrefixEk ->
              (ki_Environment (ak_info a) <> "" -> EnvironmentBudgetTag (ki_Environment (ak_info a)) ∈ tags)
              /\ (ki_KeyID (ak_info a) <> "" -> KeyBudgetTag (ki_KeyID (ak_info a)) ∈ tags))).
Proof.
  cbn zeta. destruct directed_tags as (Ht1 & Ht2 & Ht3). split_and!.
  - intros k vs Hk. split_and!.
    + destruct (decide (k ∈ pipeline_keys)) as [Hin|Hn].
      * unfold pipeline_keys, hopHeaders in Hin. cbn [app] in Hin. list_cases; reflexivity.
      * rewrite sent_lookup in Hk by done. by eapply directed_no_x_ach.
    + intros Hl. apply (sent_any_spelling "Tags" k vs Hcan) in Hk; try done; [|by apply not_pipeline].
      change (CanonKey "Tags") with "Tags" in Hk. congruence.
    + intros [Hl|Hl].
      * apply (sent_any_spelling "X-Litellm-Tags" k vs Hcan) in Hk; try done; [|by apply not_pipeline].
        change (CanonKey "X-Litellm-Tags") with "X-Litellm-Tags" in Hk. rewrite Ht1 in Hk. case_decide; [done|]. by injection Hk as <-.
      * apply (sent_any_spelling "X-Achtest-Tags" k vs Hcan) in Hk; try done; [|by apply not_pipeline].
        change (CanonKey "X-Achtest-Tags") with "X-Achtest-Tags" in Hk. rewrite Ht2 in Hk. case_decide; [done|]. by injection Hk as <-.
  - intros Hne. rewrite sent_lookup by (by apply not_pipeline). rewrite Ht1. by rewrite decide_False.
  - intros Hn. unfold tagsForContext, KeyContextFromCtx. by rewrite Hn.
  - intros a Ha Ho. unfold tagsForContext, KeyContextFromCtx. rewrite Ha, decide_False by done. split; [by left|].
    intros Hek. rewrite decide_True by done. split; intros Hx; right; apply elem_of_app; [left|right];
      rewrite decide_False by done; by left.
Qed.

End DirectorLemmas.
