(* ===== verification/Forwarder.v ===== *)
(** * The forwarder's traffic handler (forwarder/server.go, proxy/handlers.go, proxy/gate.go)

    Authn, the owner gate and the per-family handlers composed as the router
    composes them, from an incoming request to the request LiteLLM receives.
    chi's routing is an input ([Route]); the resolver, the teams resolver and
    the two Postgres projections are the models of the other files. *)

From S2P Require Import Prelude Keys KeyDB LiteLLM World Keystore Http Authn Precheck BodyTags Proxy.

Open Scope string_scope.
Open Scope list_scope.

(** What chi matched, with the {name} parameter. *)
Inductive Route : Type := RV1 | RGemini | RModelInfo | RMCP (name : string) | RA2A (name : string).

Inductive Served : Type :=
| Answered (status : Z) (code : string)
| Forwarded (up : Req) (h : Header) (body : Sent).

(** ** handlers.go *)

Definition outcome_of (e : PrecheckErr) : string :=
  match e with
  | ErrUnauthorizedResource => "unauthorized_resource"
  | ErrUnauthorizedTeam => "unauthorized_team"
  | ErrLiteLLMUnreachable => "litellm_unreachable"
  | ErrInvalidKeyType => "invalid_key_type"
  end.

(** [precheckOutcomes]: status by outcome code. *)
Definition precheckOutcomes : gmap string Z :=
  {[ "unauthorized_resource" := 403%Z; "unauthorized_team" := 403%Z; "litellm_unreachable" := 503%Z;
     "invalid_key_type" := 401%Z; "internal_error" := 500%Z ]}.

Definition classifyPrecheckErr (e : PrecheckErr) : Served :=
  Answered (default 0%Z (precheckOutcomes !! outcome_of e)) (outcome_of e).

(** The answer [stripTagsOrReject] renders. *)
Definition reject_body (e : BodyErr) : Served :=
  match e with
  | errBodyTooLarge => Answered 413 "request_too_large"
  | errClientTags => Answered 400 "client_tags_not_allowed"
  | errClientParam => Answered 400 "client_param_not_allowed"
  | errBodyRead | errInvalidBody => Answered 400 "invalid_request"
  end.

(** The body a handler that does not scan it forwards. *)
Definition unscanned (r : Req) : Sent := match r_Body r with Some b => SentRaw b | None => SentNone end.

Section Forwarder.
Context (Open : string -> option string) (deps : ProxyDeps) (splitHostPort : string -> option string)
        (strip : Req -> Res BodyErr (Req * Sent)) (query_types : Req -> string).

(** [rp.ServeHTTP]: the Director and the proxy's own header pipeline. *)
Definition proxied (c : Ctx) (jwt : option string) (r : Req) (body : Sent) : Served :=
  Forwarded (Director Open deps c jwt r) (upstream_headers Open deps c jwt (splitHostPort (r_RemoteAddr r)) r) body.

(** models.go: a filtered model list needs the answer uncompressed. *)
Definition wantsAllModels (types : string) : bool :=
  existsb (fun t => bool_decide (ToLower (TrimSpace t) = "all")) (SplitByte ","%char types).

Definition prepareModelList (r : Req) : Req :=
  if negb (bool_decide (r_Method r = "GET"))
     || negb (bool_decide (r_Path r = "/v1/models") || bool_decide (r_Path r = "/v1/models/")) then r
  else if wantsAllModels (query_types r) then r
  else with_header (HDel "Accept-Encoding" (r_Header r)) r.

Definition taggedPassthroughChecked (accept : Req -> Sent -> option Served) (c : Ctx) (r : Req) : Served :=
  match strip r with
  | Err e => reject_body e
  | Ok (r1, body) =>
      match accept r1 body with
      | Some answer => answer
      | None => proxied c None (prepareModelList r1) body
      end
  end.

Definition taggedPassthrough : Ctx -> Req -> Served := taggedPassthroughChecked (fun _ _ => None).

Definition HandlerV1 : Ctx -> Req -> Served := taggedPassthrough.

(** [prepared] is whether prepareModelInfo marked the request. *)
Definition HandlerModelInfo (prepared : bool) (c : Ctx) (r : Req) : Served :=
  taggedPassthrough c (if prepared then with_header (HDel "Accept-Encoding" (r_Header r)) r else r).

(** The accept step: a POST body must name no model but the path's. *)
Definition gemini_admit (r : Req) (body : Sent) : option Served :=
  let model := default "" (geminiPathModel r (pd_StripPrefixes deps)) in
  if negb (bool_decide (r_Method r = "POST")) then None
  else match body with
       | SentNone => None
       | SentRaw b => if bodyModelMatches r (b_blank b) (b_json b) model (pd_StripPrefixes deps) then None
                      else Some (Answered 400 "model_mismatch")
       | SentJSON v => if bodyModelMatches r false (Some v) model (pd_StripPrefixes deps) then None
                       else Some (Answered 400 "model_mismatch")
       end.

Definition HandlerGemini (c : Ctx) (r : Req) : Served :=
  match geminiPathModel r (pd_StripPrefixes deps) with
  | None => Answered 404 "route_not_allowed"
  | Some _ => taggedPassthroughChecked gemini_admit c r
  end.

Context {T X : Type} (teams : string -> T -> Res X (list string) * T) (envs : EnvStore) (listing : list EnvironmentRow)
        (policies : BIPCache) (signer : Ed25519Signer) (now : Z)
        (sealJWT : string -> list (string * ClaimVal) -> option string) (BaseURL : string).

(** [Sign]: with the current slot, or an error. *)
Definition Sign (cl : Claims) : option string :=
  match sg_current signer with
  | None => None
  | Some slot => sealJWT (sl_kid slot) (jwt_claims now cl)
  end.

(** The claims of a per-target token. *)
Definition target_claims (kc : KeyInfo) (aud : string) (granted : list string) : Claims :=
  MkClaims BaseURL (ki_OwnerEmail kc) aud (ki_OwnerEmail kc) (filterShellTeams granted)
    (if decide (ki_KeyType kc = Keys.PrefixEk) then "ek:" +:+ ki_Environment kc else "") 0 "".

Definition named_inner (kind : string) (rk : resourceKind) (audPrefix name : string) (c : Ctx) (r : Req) (body : Sent) (st : T)
  : Served * T :=
  match KeyContextFromCtx c with
  | None => (proxied c None r body, st)
  | Some a =>
      let kc := ak_info a in
      match check teams envs listing kc name rk st with
      | (Err e, st1) => (classifyPrecheckErr e, st1)
      | (Ok granted, st1) =>
          match BIP_Resolve kind name policies with
          | None =>
              let r1 := if decide (ki_KeyType kc = Keys.PrefixEk)
                        then with_header (HDel "Authorization" (r_Header r)) r else r in
              (proxied c None r1 body, st1)
          | Some _ =>
              match Sign (target_claims kc (audPrefix +:+ name) granted) with
              | None => (Answered 500 "internal_error", st1)
              | Some token => (proxied c (Some token) r body, st1)
              end
          end
      end
  end.

Definition handlerNamed (kind : string) (rk : resourceKind) (audPrefix : string) (stripTags : bool) (name : string)
    (c : Ctx) (r : Req) (st : T) : Served * T :=
  if stripTags
  then match strip r with
       | Err e => (reject_body e, st)
       | Ok (r1, body) => named_inner kind rk audPrefix name c r1 body st
       end
  else named_inner kind rk audPrefix name c r (unscanned r) st.

Definition HandlerMCP : string -> Ctx -> Req -> T -> Served * T := handlerNamed "MCPServer" mcpResourceKind "mcp:" false.
Definition HandlerA2A : string -> Ctx -> Req -> T -> Served * T := handlerNamed "A2AAgent" a2aResourceKind "a2a:" true.

(** ** gate.go *)

Definition EkOwnerGate (next : Ctx -> Req -> T -> Served * T) (c : Ctx) (r : Req) (st : T) : Served * T :=
  match KeyContextFromCtx c with
  | Some a =>
      if decide (ki_KeyType (ak_info a) = Keys.PrefixEk)
      then match CheckEkOwner teams envs (ak_info a) st with
           | (Err e, st1) => (classifyPrecheckErr e, st1)
           | (Ok _, st1) => next c r st1
           end
      else next c r st
  | None => next c r st
  end.

(** ** server.go: the authenticated subtree *)

Definition family (route : Route) (prepared : bool) (c : Ctx) (r : Req) (st : T) : Served * T :=
  match route with
  | RV1 => (HandlerV1 c r, st)
  | RGemini => (HandlerGemini c r, st)
  | RModelInfo => (HandlerModelInfo prepared c r, st)
  | RMCP name => HandlerMCP name c r st
  | RA2A name => HandlerA2A name c r st
  end.

Context {S : Type} (resolve : string -> S -> Res ResolveErr (option KeyInfo) * S) (headers : list CredentialHeader).

(** The chain of the authenticated group up to the upstream request; what
    KeyWatch may do to a request already running is after it. *)
Definition traffic (route : Route) (prepared : bool) (r : Req) (s : S) (st : T) : Served * S * T :=
  match Authn resolve None true headers None (fun _ => None) r s with
  | (Refuse status code _, s1) => (Answered status code, s1, st)
  | (Next r1 c, s1) => let '(out, st1) := EkOwnerGate (family route prepared) c r1 st in (out, s1, st1)
  end.
End Forwarder.

(** ** Frames *)

Lemma stripBodyTags_frame parse mb mn cl r r' body :
  stripBodyTags parse mb mn cl r = Ok (r', body) ->
  r_Path r' = r_Path r /\ r_Method r' = r_Method r /\ r_RawPath r' = r_RawPath r
  /\ (canonical (r_Header r) -> canonical (r_Header r'))
  /\ (forall j, j <> "Content-Length" -> j <> "Transfer-Encoding" -> r_Header r' !! j = r_Header r !! j).
Proof.
  unfold stripBodyTags. destruct (r_Body r) as [b|]; [|by intros [= <- <-]].
  destruct (negb _); [done|]. destruct (_ <? _)%Z; [done|]. destruct (b_blank b); [by intros [= <- <-]|].
  destruct (_ || existsb _ _); [done|]. case_decide; [|case_decide].
  - destruct (checkMultipart _ _ _); [by intros [= <- <-]|done].
  - destruct (checkURLEncoded _); [by intros [= <- <-]|done].
  - destruct (stripJSONTags _ _) as [[v []]|]; [| |done]; intros [= <- <-]; [|done]. cbn. split_and!; try done; [auto with ach|].
    intros j H1 H2. rewrite HDel_lookup_ne, HSet_lookup_ne; [done| |]; intros <-; done.
Qed.

Lemma Director_path Open deps c jwt r :
  r_Path (Director Open deps c jwt r)
  = if decide (routeFor (r_Path r) = "/mcp") then mcpServerPath (r_Path r)
    else if decide (routeFor (r_Path r) = "/gemini") then stripGeminiModelPrefix (r_Path r) (pd_StripPrefixes deps)
    else r_Path r.
Proof.
  unfold Director, dir_gemini, dir_mcp.
  cbn -[HSet HDel dir_jwt stampTags dir_realtime stripAndRewrite dir_connection routeFor upstream_key stripGeminiModelPrefix mcpServerPath].
  destruct (decide (routeFor (r_Path r) = "/mcp")) as [Hm|Hm];
    cbn -[HSet HDel dir_jwt stampTags dir_realtime stripAndRewrite dir_connection routeFor upstream_key stripGeminiModelPrefix mcpServerPath].
  - rewrite decide_False; [reflexivity|]. rewrite mcpServerPath_route by done. discriminate.
  - case_decide; [case_decide|]; cbn -[stripGeminiModelPrefix]; done.
Qed.

(** Without a token and off the realtime path, an absent Authorization stays absent. *)
Lemma sent_no_authorization Open deps c ip r k vs :
  canonical (r_Header r) -> r_Path r <> "/v1/realtime" -> r_Header r !! "Authorization" = None ->
  upstream_headers Open deps c None ip r !! k = Some vs -> ToLower k <> "authorization".
Proof.
  intros Hc Hp Hn Hk Hl.
  apply (sent_any_spelling Open deps c None ip r "Authorization" k vs Hc) in Hk; try done; [|by apply not_pipeline].
  change (CanonKey "Authorization") with "Authorization" in Hk. rewrite directed_eq in Hk. cbn [dir_jwt] in Hk.
  assert (Hf : forall u m, stripAndRewrite m (dir_connection u (r_Header r)) !! "Authorization" = None).
  { intros u m. unfold stripAndRewrite. hdr. apply map_lookup_filter_None. left. unfold dir_connection. destruct u; by hdr. }
  unfold stampTags, keyed, dir_realtime in Hk. rewrite (bool_decide_eq_false_2 _ Hp), andb_false_r in Hk. cbn [andb] in Hk. cbn zeta in Hk.
  destruct (tagsForContext c); (destruct (decide _); [|destruct (decide _)]); revert Hk; hdr; by rewrite Hf.
Qed.

(** ** mcpServerPath *)

Lemma CutByte_None c s : CountByte c s = 0%nat -> CutByte c s = None.
Proof.
  induction s as [|d s IH]; cbn; [done|]. case_decide; [done|]. intros Hc. by rewrite IH.
Qed.

Lemma CutByte_app c a b : CountByte c a = 0%nat -> CutByte c (a +:+ String c b) = Some (a, b).
Proof.
  induction a as [|d a IH]; intros Hc.
  - change ("" +:+ String c b) with (String c b). cbn [CutByte]. by rewrite decide_True.
  - change (String d a +:+ String c b) with (String d (a +:+ String c b)). cbn [CutByte CountByte] in *.
    case_decide; [done|]. by rewrite IH.
Qed.

(** The path of a request chi routed to /mcp/{name}, bare or with a subpath. *)
Definition path_names (prefix name path : string) : Prop :=
  name <> "" /\ CountByte "/"%char name = 0%nat
  /\ (path = prefix +:+ name \/ exists rest, path = prefix +:+ name +:+ "/" +:+ rest).

Lemma mcpServerPath_names name path : path_names "/mcp/" name path -> mcpServerPath path = "/mcp/" +:+ name.
Proof.
  intros (Hne & Hc & Hp). unfold mcpServerPath.
  assert (Hr : forall x, TrimPrefix ("/mcp/" +:+ x) "/mcp/" = x) by (intros; reflexivity).
  destruct Hp as [->|[rest ->]]; rewrite Hr.
  - rewrite CutByte_None by done. by rewrite decide_False.
  - change ("/" +:+ rest) with (String "/" rest). rewrite CutByte_app by done. by rewrite decide_False.
Qed.

Section TrafficSpec.
Context (Open : string -> option string) (deps : ProxyDeps) (splitHostPort : string -> option string)
        (parse : string -> option JVal) (mime_boundary mime_name : string -> option string) (contentLength : JVal -> string)
        (query_types : Req -> string)
        {T X : Type} (teams : string -> T -> Res X (list string) * T) (envs : EnvStore) (listing : list EnvironmentRow)
        (policies : BIPCache) (signer : Ed25519Signer) (now : Z)
        (sealJWT : string -> list (string * ClaimVal) -> option string) (BaseURL : string)
        {S : Type} (resolve : string -> S -> Res ResolveErr (option KeyInfo) * S) (headers : list CredentialHeader).

Abbreviation strip := (stripBodyTags parse mime_boundary mime_name contentLength).
Abbreviation served := (traffic Open deps splitHostPort strip query_types teams envs listing policies signer now sealJWT BaseURL resolve headers).
Abbreviation authn := (Authn resolve None true headers None (fun _ => None)).

(** The two named families: policy kind, runtime list, audience prefix and
    path prefix. *)
Inductive named : Route -> string -> string -> resourceKind -> string -> string -> Prop :=
| named_mcp name : named (RMCP name) name "MCPServer" mcpResourceKind "mcp:" "/mcp/"
| named_a2a name : named (RA2A name) name "A2AAgent" a2aResourceKind "a2a:" "/a2a/".

(** What the backend sees of the caller: with a policy, the ACH token and
    nothing else; without one, no Authorization beside an environment key. *)
Definition backend_identity (kind name aud : string) (info : KeyInfo) (granted : list string) (h : Header) : Prop :=
  match BIP_Resolve kind name policies with
  | Some _ => exists slot token, sg_current signer = Some slot
      /\ sealJWT (sl_kid slot) (jwt_claims now (target_claims BaseURL info (aud +:+ name) granted)) = Some token
      /\ (token <> "" -> forall k vs, h !! k = Some vs -> ToLower k = "authorization" -> vs = ["Bearer " +:+ token])
  | None => ki_KeyType info = Keys.PrefixEk -> forall k vs, h !! k = Some vs -> ToLower k <> "authorization"
  end.

Lemma named_inner_forwarded kind rk aud name c r body st up h b st1 a :
  canonical (r_Header r) -> r_Path r <> "/v1/realtime" -> cx_key c = Some a ->
  named_inner Open deps splitHostPort teams envs listing policies signer now sealJWT BaseURL kind rk aud name c r body st
    = (Forwarded up h b, st1) ->
  exists granted, check teams envs listing (ak_info a) name rk st = (Ok granted, st1)
    /\ backend_identity kind name aud (ak_info a) granted h.
Proof.
  intros Hc Hp Ha. unfold named_inner, KeyContextFromCtx. rewrite Ha. cbn zeta.
  destruct (check _ _ _ _ _ _ _) as [[granted|e] st2] eqn:Hck; [|by destruct e].
  unfold backend_identity. destruct (BIP_Resolve kind name policies) as [p|].
  - unfold Sign. destruct (sg_current signer) as [slot|]; [|done]. destruct (sealJWT _ _) as [token|] eqn:Hs; [|done].
    intros [= <- <- <- <-]. exists granted. split; [done|]. exists slot, token. split_and!; try done.
    intros Ht k vs Hk Hl.
    apply (sent_any_spelling _ _ _ _ _ _ "Authorization" k vs Hc) in Hk; try done; [|by apply not_pipeline].
    change (CanonKey "Authorization") with "Authorization" in Hk. rewrite (directed_authorization _ _ _ _ _ token) in Hk by done.
    by injection Hk as <-.
  - intros [= <- <- <- <-]. exists granted. split; [done|]. intros Hek k vs. rewrite decide_True by done.
    apply sent_no_authorization; [cbn; auto with ach|done|]. cbn. by hdr.
Qed.

Lemma named_inner_path kind rk aud name c r body st up h b st1 :
  named_inner Open deps splitHostPort teams envs listing policies signer now sealJWT BaseURL kind rk aud name c r body st
    = (Forwarded up h b, st1) ->
  exists jwt r', r_Path r' = r_Path r /\ up = Director Open deps c jwt r'.
Proof.
  unfold named_inner. destruct (KeyContextFromCtx c) as [a|]; cbn zeta; [|intros [= <- <- <- <-]; by exists None, r].
  destruct (check _ _ _ _ _ _ _) as [[granted|e] st2]; [|by destruct e].
  destruct (BIP_Resolve _ _ _); [destruct (Sign _ _ _ _) as [token|]; [|done]|]; intros [= <- <- <- <-].
  - by exists (Some token), r.
  - exists None. destruct (decide (ki_KeyType (ak_info a) = Keys.PrefixEk)); [|by exists r].
    by exists (with_header (HDel "Authorization" (r_Header r)) r).
Qed.

Lemma handlerNamed_inner kind rk aud st_ name c r st res :
  handlerNamed Open deps splitHostPort strip teams envs listing policies signer now sealJWT BaseURL kind rk aud st_ name c r st = res ->
  (exists up h b st1, res = (Forwarded up h b, st1)) ->
  exists r' body, r_Path r' = r_Path r /\ (canonical (r_Header r) -> canonical (r_Header r'))
    /\ named_inner Open deps splitHostPort teams envs listing policies signer now sealJWT BaseURL kind rk aud name c r' body st = res.
Proof.
  intros <- (up & h & b & st1 & Hf). unfold handlerNamed in *. destruct st_.
  - destruct (stripBodyTags _ _ _ _ r) as [[r' body]|e] eqn:Hs; [|by destruct e].
    apply stripBodyTags_frame in Hs as (? & _ & _ & ? & _). by exists r', body.
  - by exists r, (unscanned r).
Qed.

End TrafficSpec.

(** ** The gemini family *)

(** What [strip_first] does to the part after the models segment. *)
Fixpoint strip_tail (tail : string) (prefixes : list string) : string :=
  match prefixes with
  | [] => tail
  | p :: rest =>
      if decide (p = "") then strip_tail tail rest
      else match CutPrefix tail p with
           | None => strip_tail tail rest
           | Some x => if bool_decide (x = "") || HasPrefix x ":" then tail else x
           end
  end.

Lemma strip_first_tail head tail ps : strip_first (head +:+ tail) head tail ps = head +:+ strip_tail tail ps.
Proof.
  induction ps as [|p ps IH]; cbn [strip_first strip_tail]; [done|]. case_decide; [done|].
  destruct (CutPrefix tail p); [|done]. by destruct (_ || _).
Qed.

Lemma gemini_segment_tail model ps : gemini_segment model ps = strip_tail model ps.
Proof.
  unfold gemini_segment, stripGeminiModelPrefix. destruct ps as [|p ps]; [reflexivity|].
  change (CutStr (modelsSegment +:+ model) modelsSegment) with (Some ("", model)). cbv iota beta.
  change ("" +:+ modelsSegment) with modelsSegment. by rewrite strip_first_tail.
Qed.

Lemma stripGemini_tail t ps :
  stripGeminiModelPrefix ("/gemini/v1beta/models/" +:+ t) ps = "/gemini/v1beta/models/" +:+ strip_tail t ps.
Proof.
  unfold stripGeminiModelPrefix. destruct ps as [|p ps]; [reflexivity|].
  change (CutStr ("/gemini/v1beta/models/" +:+ t) modelsSegment) with (Some ("/gemini/v1beta", t)). cbv iota beta.
  change ("/gemini/v1beta" +:+ modelsSegment) with "/gemini/v1beta/models/". by rewrite strip_first_tail.
Qed.

Definition colon_free (p : string) : Prop := CountByte ":"%char p = 0%nat.

Lemma CutPrefix_colon p x m :
  colon_free p -> CutPrefix (x +:+ ":" +:+ m) p = (fun y => y +:+ ":" +:+ m) <$> CutPrefix x p.
Proof.
  unfold colon_free. revert x; induction p as [|c p IH]; intros x Hc; [done|]. cbn [CountByte] in Hc.
  destruct (decide (":"%char = c)) as [|Hn]; [done|].
  destruct x as [|d x].
  - change ("" +:+ ":" +:+ m) with (String ":" m). cbn [CutPrefix]. by rewrite decide_False by congruence.
  - change (String d x +:+ ":" +:+ m) with (String d (x +:+ ":" +:+ m)). cbn [CutPrefix].
    case_decide; [|done]. by apply IH.
Qed.

Lemma HasPrefix_colon d y : HasPrefix (String d y) ":" = bool_decide (d = ":"%char).
Proof.
  apply eq_true_iff_eq. rewrite HasPrefix_spec, bool_decide_eq_true. split.
  - intros [r Hr]. change (":" +:+ r) with (String ":" r) in Hr. congruence.
  - intros ->. by exists y.
Qed.

Lemma strip_tail_colon model m ps :
  Forall colon_free ps -> strip_tail (model +:+ ":" +:+ m) ps = strip_tail model ps +:+ ":" +:+ m.
Proof.
  induction 1 as [|p ps Hp Hps IH]; cbn [strip_tail]; [done|]. case_decide; [done|].
  rewrite CutPrefix_colon by done. destruct (CutPrefix model p) as [x|]; cbn [fmap option_fmap option_map]; [|done].
  replace (bool_decide (x +:+ ":" +:+ m = "") || HasPrefix (x +:+ ":" +:+ m) ":") with (bool_decide (x = "") || HasPrefix x ":");
    [by destruct (_ || _)|].
  destruct x as [|d x].
  - transitivity true; [by rewrite bool_decide_eq_true_2|]. symmetry. apply orb_true_iff.
    right. apply HasPrefix_spec. by exists m.
  - change (String d x +:+ ":" +:+ m) with (String d (x +:+ ":" +:+ m)). rewrite !bool_decide_eq_false_2 by done.
    by rewrite !HasPrefix_colon.
Qed.

Lemma CutByte_Some c s a b : CutByte c s = Some (a, b) -> s = a +:+ String c b /\ CountByte c a = 0%nat.
Proof.
  revert a b; induction s as [|d s IH]; intros a b; cbn [CutByte]; [done|]. case_decide as Hd.
  - intros [= <- <-]. by subst.
  - destruct (CutByte c s) as [[x y]|] eqn:He; [|done]. intros [= <- <-]. destruct (IH _ _ eq_refl) as [-> Hc].
    split; [done|]. cbn. by rewrite decide_False.
Qed.

Lemma geminiPathModel_post r ps model :
  r_Method r = "POST" -> geminiPathModel r ps = Some model ->
  exists method, r_Path r = "/gemini/v1beta/models/" +:+ model +:+ ":" +:+ method /\ method ∈ geminiMethods
    /\ colon_free model /\ bad_segment (gemini_segment model ps) = false.
Proof.
  intros Hm. unfold geminiPathModel. destruct (CutPrefix (r_Path r) _) as [rest|] eqn:Hc; [|done].
  apply CutPrefix_Some in Hc. destruct (bool_decide _); [done|]. case_decide as Hr.
  { by rewrite Hm. }
  destruct (CutPrefix rest "/") as [tail|] eqn:Ht; [|done]. apply CutPrefix_Some in Ht. rewrite decide_True by done.
  destruct (CutByte ":"%char tail) as [[mo me]|] eqn:Hb; [|done]. apply CutByte_Some in Hb as [Hb Hcf].
  destruct (Contains geminiMethods me) eqn:Hin; [|done]. apply Contains_spec in Hin.
  destruct (bad_segment _) eqn:Hbad; [done|]. intros [= <-]. exists me. split_and!; try done.
  rewrite Hc, Ht, Hb. reflexivity.
Qed.

(** A field that names the model [model], when it is there. *)
Definition names_model (ps : list string) (model : string) (v : option JVal) : Prop :=
  forall raw, v = Some raw -> exists n, as_string raw = Some n /\ normGeminiModel n ps = normGeminiModel model ps.

Definition doc_names_model (ps : list string) (path model : string) (doc : option JVal) : Prop :=
  exists d m, doc = Some d /\ as_map d = Some m /\ m !! "target_model_names" = None /\ names_model ps model (m !! "model")
    /\ (HasSuffix path ":batchEmbedContents" = true -> forall raw, m !! "requests" = Some raw ->
         exists es, as_array raw = Some es
           /\ forall e, e ∈ es -> exists l em, e = JObj l /\ as_map e = Some em /\ names_model ps model (em !! "model")).

Lemma names_path_spec model ps v : names_path model ps v = true <-> names_model ps model v.
Proof.
  unfold names_path, names_model. destruct v as [raw|]; [|by split].
  destruct (as_string raw) as [n|] eqn:Hs; split.
  - intros Hn%bool_decide_eq_true raw' [= <-]. by exists n.
  - intros H. destruct (H raw eq_refl) as (n' & Hn' & He). apply bool_decide_eq_true. congruence.
  - done.
  - intros H. destruct (H raw eq_refl) as (n' & Hn' & _). congruence.
Qed.

Lemma bodyModelMatches_spec r doc model ps :
  bodyModelMatches r false doc model ps = true -> doc_names_model ps (r_Path r) model doc.
Proof.
  unfold bodyModelMatches. destruct (negb (Contains _ _)); [done|].
  destruct doc as [d|]; [|done]. cbn [option_bind mbind]. destruct (as_map d) as [m|] eqn:Hm; [|done].
  destruct (has m _) eqn:Hh; [done|]. apply has_false in Hh.
  destruct (names_path model ps (m !! "model")) eqn:Hn; [|done]. apply names_path_spec in Hn. cbn [negb].
  intros Hrest. exists d, m. split_and!; try done. intros Hsuf raw Hraw. rewrite Hsuf, Hraw in Hrest. cbn [negb] in Hrest.
  destruct (as_array raw) as [es|]; [|done]. exists es. split; [done|]. rewrite forallb_forall in Hrest.
  intros e He%list_elem_of_In. specialize (Hrest e He). unfold entry_ok in Hrest. destruct e as [| | | | |l]; try done.
  destruct (as_map (JObj l)) as [em|] eqn:Hem; [|done]. apply names_path_spec in Hrest. by exists l, em.
Qed.


(** ** Concrete instances *)

Definition f_deps : ProxyDeps := MkProxyDeps "http" "litellm:4000" ["gemini/"; "vertex."].
Definition f_open (m : string) : option string := if decide (m = "sealed") then Some "sk-1" else None.
Definition f_split (_ : string) : option string := Some "10.0.0.1".
Definition f_strip : Req -> Res BodyErr (Req * Sent) := stripBodyTags b_parse (fun _ => None) (fun _ => None) (fun _ => "42").
Definition f_policies : BIPCache := {[ ("MCPServer", "jira") := [MkBIP "a" "MCPServer" "jira" true "" ""] ]}.
Definition f_signer : Ed25519Signer := MkSigner (Some (MkSignerSlot "kid1" [])) None.
Definition f_seal (kid : string) (cl : list (string * ClaimVal)) : option string := Some ("jwt-" +:+ kid).

Definition f_traffic (route : Route) (r : Req) : Served * unit * unit :=
  traffic f_open f_deps f_split f_strip (fun _ => "") p_teams p_envs (Env_List p_envs) f_policies f_signer 1000 f_seal
    "https://ach" a_resolve a_slots route false r tt tt.

Definition f_get (path : string) (h : Header) : Req :=
  MkReq "GET" path "" h (fun _ => None) "10.0.0.1:9" "" "" None.

(** The Authorization that leaves for LiteLLM, when the request does. *)
Definition leaving (out : Served * unit * unit) : option (list string) :=
  match out with (Forwarded _ h _, _, _) => h !! "Authorization" | _ => None end.


Definition f_req : Req := f_get "/mcp/jira/messages" (HSet "Authorization" "Bearer other" (HSet "x-ach-key" "ek-x" ∅)).

Lemma canonical_empty : canonical ∅.
Proof. intros k v Hk. rewrite lookup_empty in Hk. discriminate Hk. Qed.

Lemma f_canonical : canonical (r_Header f_req).
Proof. cbn. auto using canonical_empty with ach. Qed.

Lemma f_path : path_names "/mcp/" "jira" (r_Path f_req).
Proof. split_and!; [done|reflexivity|]. right. by exists "messages". Qed.


Lemma upstream_attribution_witness :
  let c := MkCtx (Some (MkAuthKey a_info false)) None in
  upstream_headers f_open f_deps c None None (f_get "/v1/models" (HSet "connection" "x-litellm-tags" (HSet "x-litellm-tags" "user:victim@x" ∅)))
    !! "X-Litellm-Tags" = Some ["user:a@x,environment:dev,key:ekid_1"].
Proof.
  intros c. destruct (upstream_attribution f_open f_deps c None None
    (f_get "/v1/models" (HSet "connection" "x-litellm-tags" (HSet "x-litellm-tags" "user:victim@x" ∅)))) as (_ & H & _).
  - cbn. apply canonical_HSet, canonical_HSet, canonical_empty.
  - rewrite H; [vm_compute; reflexivity|]. vm_compute. discriminate.
Defined.


Definition g_req : Req :=
  MkReq "POST" "/gemini/v1beta/models/gemini/flash:generateContent" "" (HSet "content-type" "application/json" ∅)
    (fun _ => None) "10.0.0.1:9" "" "" (Some (MkBody true 20 false (Some (JObj [("model", JStr "models/flash")])) None (fun _ => []))).

